(* ===== verification/_CoqProject ===== *)
-Q . S2P
Prelude.v
Params.v
StateTrie.v
Keys.v
Contract.v
Types.v
Instances.v
Tx.v
Block.v
BlockStore.v
State.v
StateCommit.v
StateUndo.v
Journal.v
VM.v
VMSteps.v
VMRuns.v
VMFuel.v
VMToy.v
VMProps.v
Ledger.v
BlockSteps.v
Supply.v
Spending.v
LedgerProps.v
UndoProps.v
Snapshot.v
SheetProps.v
Queries.v
Archive.v
Chain.v
Graft.v
GraftVM.v
ChainFrames.v
ForkChoice.v
ForkProps.v
Pool.v
PoolProps.v
Wired.v
LightClient.v
Dandelion.v
Consensus.v
ConsensusProps.v
Sync.v
SyncProps.v
SyncRuns.v
Rpc.v
RpcProps.v
Amount.v
RpcReads.v
JsonForms.v
RpcReadsProps.v
Wallet.v
ForkTool.v
ForkToolProps.v
CoreMiner.v
Node.v
Template.v
Adoption.v
