(* ===== verification/Prelude.v ===== *)
(** * ngcore: a verification development of the Go node of ngchain

    ** The program

    ngcore is a proof-of-work node: accounts are hash addresses, contracts
    are WebAssembly modules, and every effect transaction is committed to
    blindly in one block and revealed in a later one.  Its packages, from the
    bottom up, and the files that model them:

    - ngtypes (keys, transactions, commitments, blocks, contract slots,
      sheets, protocol parameters and their JSON forms): Params.v, Keys.v,
      Types.v, Contract.v, Tx.v, Block.v, JsonForms.v;
    - statetrie (the sparse Merkle tree over the state): StateTrie.v;
    - storage and ngblocks (the bbolt buckets of blocks, heights, side blocks
      and cumulative work): BlockStore.v;
    - ngstate (balances, slots, commitments, beacon, change sets, receipts,
      the contract machine, block application, sheets, snapshots and reads of
      the past): State.v, Journal.v, VM.v, Ledger.v, Snapshot.v, Queries.v;
    - blockchain (block import, fork choice, reorganisations, uncles,
      finality, converging): Chain.v;
    - ngpool (the pool, its relay queues and its packs): Pool.v;
    - ngp2p/wired and ngp2p/broadcast (signed messages, handlers, gossip
      gates) and ngp2p/dandelion.go (the stem router): Wired.v, Dandelion.v;
    - lightclient (checking served state proofs): LightClient.v;
    - consensus (templates, imports, the orphan buffer, synchronisation and
      bootstrap): Consensus.v, Sync.v;
    - jsonrpc (the mining calls and their work pool, submission of
      transactions and the subscription hub; the reading calls; amounts of
      money as text): Rpc.v, RpcReads.v, Amount.v;
    - cmd/ngcore and keytools (starting a node; the wallet and its key files;
      the fork tool and the scenario runner, with the read-through hook of
      ngstate/remote_fallback.go): Node.v, Wallet.v, ForkTool.v;
    - cmd/coreminer (the solo miner): CoreMiner.v.

    Prelude.v (this file) holds what they share: byte strings, machine
    integers, the error type and its monad, and automation.  Instances.v and
    VMToy.v hold executable stand-ins for the third-party libraries, used by
    the witnesses only.

    ** How the code is represented

    - A uint64 is a [Z] with [u64] written where Go wraps; a big.Int is a [Z];
      a []byte, a Go string and a nil slice are [bytes]; a fixed array is a
      [vec]; a map is a [gmap], and where the order of [range] could show,
      the order is an argument.
    - A fallible function returns [res]: one constructor of [error] per error
      value of the code, [GoPanic] for a panic, [ErrOutOfFuel] for the model's
      own bounds.
    - A bbolt transaction is a map of buckets ([Txn], State.v).  The write
      transactions of blockchain run in a small state monad ([TX], Chain.v)
      that keeps the memory a failed transaction leaves behind.
    - The contract machine is a state monad over the tree of calls the engine
      makes (VM.v).  The engine itself is the class [Wasman].
    - A command of the wallet is a function of its key and of the node that
      answers its calls, a request to the fork tool runs in a state monad over
      the forked chain ([D], ForkTool.v), and a file system is a map, with the
      outcome of each of its operations as an argument ([fileIO]).
    - Locks make exported methods run one after the other, so concurrent
      activity is a sequence of calls; the hooks that start goroutines (the
      relay of the pool, the fail-safe timers of the router) are separate
      steps that may come at any later point.  The miner has no such lock: its
      goroutines and threads are a step relation ([mstep], CoreMiner.v) with
      one step per access to a shared flag, variable or channel.

    ** Parameters

    Code outside the repository is a class argument: the hash ([Hasher]), the
    signature schemes ([SigLibs]), RLP ([Codec], [SlotCodec], [ReceiptCodec],
    [DepsCodec], [SheetCodec], [WireCodec], [ContractCodec]), compression
    ([Inflate], [Deflate]), the cipher of key files ([AEAD]), the
    Merkle library ([MerkleLib]), the proof-of-work hash ([PowLib]), the wasm
    engine and its metering ([Wasman], [TollStation], [ErrorText]), libp2p
    keys ([PeerKeys]) and the routers of a submission ([Router]).  What the
    theorems need of them is stated in law classes ([CodecLaws], [SigLaws],
    [WireCodecLaws], [AEADLaws], [SlotCodeLaw], [Base58Law], ...), each with an instance
    in Instances.v or beside a witness.  What the state layer asks of the
    contract machine is a class too ([ContractVM], and [VMStateOnly] for its
    blindness to the block store), which VM.v and GraftVM.v discharge.  No theorem assumes the hash injective: statements that need it
    name a finite set of inputs without collision, or exhibit one.

    ** What the theorems show

    - StateTrie.v, StateCommit.v, LightClient.v: the incremental tree equals a
      recursive reference tree; proofs are complete, and sound up to an
      exhibited collision; the commitment of the node tracks its buckets
      through every write; the light client accepts what an honest node
      serves and nothing else for the path of a key - but never checks which
      key it was given.
    - Tx.v, Block.v, Params.v, Contract.v: signatures authenticate the derived
      sender and cover the content; the context-free block check is equivalent
      to a declarative validity; the preimage binds the header; difficulty,
      reward and base fee follow their reference curves within bounds.
    - BlockStore.v, ForkChoice.v, ForkProps.v: the store stays healthy, the
      tip is the best accepted block and two nodes with the same blocks agree;
      gossip never rewrites the chain below the finality line.
    - VMSteps.v, VMRuns.v, VMFuel.v, VMProps.v: every run is a sequence of
      machine steps, by whose induction deposits stay covered, reserved keys
      stay untouched, reentry is refused and nesting is bounded.
    - Supply.v, Spending.v, LedgerProps.v: a block changes the supply by the
      schedule; an effect uses up one earlier commitment of its sender to its
      content - except at height zero.
    - StateUndo.v, UndoProps.v, SheetProps.v, BlockSteps.v, Archive.v:
      unwinding one checked block restores the state when its reveals state
      its own height, which no check demands, and loses a commitment when one
      does not; a sheet restores all but the pending commitments,
      which is also what two unwound blocks lose; an archive answers reads of
      balances and contracts at any past height with what the state held
      then, by a decomposition of a block into recorded writes.
    - PoolProps.v, Dandelion.v: pool entries are admissible in the next block,
      packs are the best paying ones, an item handed to the router reaches
      the flood unless a broadcast of it fails, which loses it.
    - ConsensusProps.v, SyncProps.v, SyncRuns.v: the arrival order of a burst
      does not matter; linear sync reaches an honest peer's tip and converging
      finds the fork; and the ways a peer defeats them.
    - RpcProps.v, Template.v, CoreMiner.v: a nonce submitted under a work id
      seals the block handed out, whatever the threads of the miner do they
      submit solutions only; but a full pack or one commitment with a compact
      signature stops mining, and the miner can deadlock.
    - Graft.v, GraftVM.v, Adoption.v: the state layer and the contract
      machine never look at the block store, so a block runs beside an
      extended store as it did in the dry run of its template; hence a solved
      template with valid contents is imported and becomes the tip.
    - RpcProps.v, RpcReadsProps.v, Amount.v, JsonForms.v: log subscribers
      receive exactly their matching logs in order while their queue has room;
      the suggested fee is the admission floor of the pool; decimal amounts
      are exact; what the JSON form of a block keeps, its addresses being
      written and read as base58 text.
    - Wallet.v: the pair of commitment and reveal a wallet seals is accepted
      and usable over the whole window; saved keys are read back.
    - ForkToolProps.v: snapshots of the fork tool, files written from the open
      database, come back whatever happened since when the files can be
      copied and opened; but a failed revert leaves the database closed, and
      the tool can no longer seal an effect, and lazy forks forget
      payments.

    ** Bounds and fuel

    Recursion follows the data wherever the code's does.  Otherwise:
    [vmFuel] = 2^24 / 2000 + 2 levels of contract calls, enough because each
    level pays 2000 of a toll of 2^24 (VMFuel.v); cumulative work, branch
    collection and [convergeLoop] are bounded by the block height, ancestors
    by the uncle depth, the orphan cascade by the blocks buffered, the height
    range of a request by the size of the store; all are shown or stated as
    sufficient where used.  [syncLoop] and [fetchLoop] take any fuel, since a
    remote can keep them going: what is proved is how many rounds an honest
    peer needs, and that a dishonest one needs no end.

    ** Not modelled

    Opening the node's database and its sockets; the libp2p host, discovery, peer
    management and the calls that forward to it; HTTP and websocket transport,
    the text of JSON and the table of method names; flag tables, printing and
    signals of the programs; the reporter, which only logs; the key file of
    the p2p host and the genesis tool, which only drive libraries; and whole
    sessions of a lazy fork, whose reads are modelled one by one.  Allocation
    failure and data races outside the locks are not represented, those of the
    miner excepted. *)

From Stdlib Require Export ZArith Lia.
From Stdlib Require Strings.Byte.
From stdpp Require Export base numbers decidable countable list vector gmap sorting strings option.
From stdpp Require Export list.

Global Open Scope Z_scope.
Global Set Default Goal Selector "!".

(** ** Byte strings *)

Abbreviation byte := Byte.byte.
Abbreviation bytes := (list byte).

#[export] Instance byte_eq_dec : EqDecision byte := Byte.byte_eq_dec.

#[export] Program Instance byte_countable : Countable byte :=
  inj_countable Byte.to_N Byte.of_N _.
Next Obligation. intros b. apply Byte.of_to_N. Qed.

#[export] Instance byte_inhabited : Inhabited byte := populate Byte.x00.

(** A Go [byte] as an integer, and [byte(z)]: truncation to eight bits. *)
Definition byteZ (b : byte) : Z := Z.of_N (Byte.to_N b).

Definition Zbyte (z : Z) : byte :=
  default Byte.x00 (Byte.of_N (Z.to_N (z mod 256))).

Lemma byteZ_range b : 0 <= byteZ b < 256.
Proof. unfold byteZ. pose proof (Byte.to_N_bounded b). lia. Qed.

Lemma byteZ_Zbyte z : byteZ (Zbyte z) = z mod 256.
Proof.
  unfold byteZ, Zbyte. pose proof (Z.mod_pos_bound z 256 ltac:(lia)) as Hb.
  destruct (Byte.of_N (Z.to_N (z mod 256))) as [b|] eqn:E; simpl.
  - apply Byte.to_of_N in E. rewrite E. lia.
  - apply Byte.of_N_None_iff in E. lia.
Qed.

Lemma Zbyte_byteZ b : Zbyte (byteZ b) = b.
Proof.
  unfold Zbyte. rewrite Z.mod_small by apply byteZ_range.
  unfold byteZ. rewrite N2Z.id, Byte.of_to_N. done.
Qed.

#[export] Instance byteZ_inj : Inj (=) (=) byteZ.
Proof. intros a b H. by rewrite <-(Zbyte_byteZ a), H, Zbyte_byteZ. Qed.

Lemma byteZ_small z : 0 <= z < 256 -> byteZ (Zbyte z) = z.
Proof. intros. by rewrite byteZ_Zbyte, Z.mod_small. Qed.

(** The bytes of a Go string constant. *)
Definition str (s : String.string) : bytes := String.list_byte_of_string s.

(** ** Fixed-size arrays

    A Go array type [[n]byte] is [vec byte n]; [a[:]] is [vec_to_list] and
    [copy(a[:], b)] into a zeroed array is [to_array]: it truncates a long
    source and leaves the tail of a short one zero. *)

Fixpoint to_array (n : nat) (b : bytes) : vec byte n :=
  match n with
  | O => vnil
  | S n' => match b with
            | [] => Byte.x00 ::: to_array n' []
            | x :: b' => x ::: to_array n' b'
            end
  end.

Lemma to_array_list n (b : bytes) : length b = n -> vec_to_list (to_array n b) = b.
Proof.
  revert n. induction b as [|x b IH]; intros [|n]; simpl; try done.
  intros [= H]. by rewrite IH.
Qed.

Lemma to_array_vec n (v : vec byte n) : to_array n (vec_to_list v) = v.
Proof. apply vec_to_list_inj2, to_array_list, length_vec_to_list. Qed.

(** [copy(dst[lo:hi], src)]: at most [hi - lo] bytes are written from [lo]
    on.  The slice bounds are constants of the code and inside [dst]. *)
Definition copy_range (dst : bytes) (lo hi : nat) (src : bytes) : bytes :=
  let s := take (hi - lo) src in take lo dst ++ s ++ drop (lo + length s) dst.

Lemma length_copy_range dst lo hi src :
  (lo <= hi <= length dst)%nat -> length (copy_range dst lo hi src) = length dst.
Proof.
  intros H. unfold copy_range. rewrite !length_app, length_drop, !length_take. lia.
Qed.

Definition zeros (n : nat) : bytes := replicate n Byte.x00.

Lemma length_zeros n : length (zeros n) = n.
Proof. apply length_replicate. Qed.

(** Writing [b] over the zeroed field that follows [a]. *)
Lemma copy_range_fill (a b rest : bytes) (n : nat) :
  (length b <= n)%nat ->
  copy_range (a ++ zeros n ++ rest) (length a) (length a + n) b
  = a ++ b ++ zeros (n - length b) ++ rest.
Proof.
  intros H. unfold copy_range. rewrite take_app_length. f_equal.
  rewrite (take_ge b) by lia. f_equal.
  rewrite drop_app_ge by lia. replace (length a + length b - length a)%nat with (length b) by lia.
  unfold zeros. rewrite drop_app_le by (rewrite length_replicate; lia). by rewrite drop_replicate.
Qed.

(** Writing any [b] over the next [n] bytes of a zeroed buffer truncates or
    pads it. *)
Lemma copy_field (a b : bytes) (n m : nat) :
  copy_range (a ++ zeros (n + m)) (length a) (length a + n) b = (a ++ vec_to_list (to_array n b)) ++ zeros m.
Proof.
  unfold copy_range. rewrite take_app_length, <-app_assoc. f_equal.
  replace (length a + n - length a)%nat with n by lia.
  rewrite length_take. rewrite drop_app_ge by lia.
  replace (length a + n `min` length b - length a)%nat with (n `min` length b)%nat by lia.
  revert b. induction n as [|n IH]; intros b; [by rewrite Nat.min_0_l|].
  change (zeros (S n + m)) with (Byte.x00 :: zeros (n + m)).
  destruct b as [|x b]; cbn [to_array vec_to_list take length Nat.min app drop]; f_equal; [|apply IH].
  specialize (IH []). by rewrite take_nil, Nat.min_0_r in IH.
Qed.

Lemma take_alter_lt {A} (f : A -> A) (l : list A) n i :
  (i < n)%nat -> take n (alter f i l) = alter f i (take n l).
Proof.
  revert n i. induction l as [|x l IH]; intros [|n] [|i]; simpl; try (done || lia).
  intros Hi. f_equal. apply IH. lia.
Qed.

(** ** Integers as byte strings *)

(** [binary.LittleEndian.PutUint64] and friends: [n] bytes, least
    significant first. *)
Fixpoint le_bytes (n : nat) (z : Z) : bytes :=
  match n with
  | O => []
  | S n' => Zbyte z :: le_bytes n' (z / 256)
  end.

Fixpoint le_Z (b : bytes) : Z :=
  match b with
  | [] => 0
  | x :: b' => byteZ x + 256 * le_Z b'
  end.

(** [new(big.Int).SetBytes(b)]: big-endian, unsigned. *)
Definition be_Z (b : bytes) : Z := foldl (fun acc x => acc * 256 + byteZ x) 0 b.

(** [x.Bytes()]: the minimal big-endian bytes of the absolute value. *)
Definition big_Bytes (z : Z) : bytes :=
  if z =? 0 then []
  else reverse (le_bytes (Z.to_nat (Z.log2 (Z.abs z) / 8 + 1)) (Z.abs z)).

(** [binary.BigEndian.PutUint64] and its 16-bit variant. *)
Definition be_bytes (n : nat) (z : Z) : bytes := reverse (le_bytes n z).

Lemma length_le_bytes n z : length (le_bytes n z) = n.
Proof. revert z. induction n as [|n IH]; intros z; simpl; [done|by rewrite IH]. Qed.

Lemma length_be_bytes n z : length (be_bytes n z) = n.
Proof. unfold be_bytes. by rewrite length_reverse, length_le_bytes. Qed.

Lemma pow256_S (n : nat) : 256 ^ Z.of_nat (S n) = 256 * 256 ^ Z.of_nat n.
Proof. rewrite Nat2Z.inj_succ, Z.pow_succ_r; lia. Qed.

Lemma pow256_pos (n : nat) : 0 < 256 ^ Z.of_nat n.
Proof. apply Z.pow_pos_nonneg; lia. Qed.

Lemma le_Z_bound b : 0 <= le_Z b < 256 ^ Z.of_nat (length b).
Proof.
  induction b as [|x b IH]; [simpl; lia|].
  cbn [le_Z length]. rewrite pow256_S. pose proof (byteZ_range x). lia.
Qed.

Lemma le_Z_le_bytes n z : le_Z (le_bytes n z) = z mod 256 ^ Z.of_nat n.
Proof.
  revert z. induction n as [|n IH]; intros z; cbn [le_bytes le_Z].
  - by rewrite Z.mod_1_r.
  - rewrite byteZ_Zbyte, IH, pow256_S, Z.rem_mul_r; [done|lia|apply pow256_pos].
Qed.

Lemma le_bytes_le_Z n b : length b = n -> le_bytes n (le_Z b) = b.
Proof.
  revert n. induction b as [|x b IH]; intros [|n]; cbn; try done.
  intros [= H]. pose proof (byteZ_range x).
  rewrite <-(IH n H) at 3. f_equal.
  - apply byteZ_inj. rewrite byteZ_Zbyte, (Z.mul_comm 256), Z.mod_add by lia.
    by rewrite Z.mod_small.
  - f_equal. rewrite (Z.mul_comm 256), Z.div_add, Z.div_small by lia. lia.
Qed.

Lemma le_Z_inj a b : length a = length b -> le_Z a = le_Z b -> a = b.
Proof. intros Hl H. by rewrite <-(le_bytes_le_Z _ a eq_refl), H, Hl, le_bytes_le_Z. Qed.

Lemma le_bytes_inj n x y :
  0 <= x < 256 ^ Z.of_nat n -> 0 <= y < 256 ^ Z.of_nat n ->
  le_bytes n x = le_bytes n y -> x = y.
Proof.
  intros Hx Hy H. apply (f_equal le_Z) in H.
  rewrite !le_Z_le_bytes, !Z.mod_small in H by done. done.
Qed.

Lemma le_Z_snoc b x : le_Z (b ++ [x]) = le_Z b + 256 ^ Z.of_nat (length b) * byteZ x.
Proof.
  induction b as [|y b IH]; [cbn; lia|].
  cbn [app le_Z length]. rewrite IH, pow256_S. lia.
Qed.

Lemma be_Z_snoc b x : be_Z (b ++ [x]) = be_Z b * 256 + byteZ x.
Proof. unfold be_Z. by rewrite foldl_app. Qed.

Lemma be_Z_reverse b : be_Z (reverse b) = le_Z b.
Proof.
  induction b as [|x b IH]; [done|].
  rewrite reverse_cons, be_Z_snoc, IH. cbn. lia.
Qed.

Lemma be_Z_nonneg b : 0 <= be_Z b.
Proof. rewrite <-(reverse_involutive b), be_Z_reverse. apply le_Z_bound. Qed.

(** Leading zero bytes do not change the number a byte string denotes. *)
Lemma be_Z_leading_zero b : be_Z (Byte.x00 :: b) = be_Z b.
Proof. done. Qed.

Lemma be_Z_be_bytes n z : be_Z (be_bytes n z) = z mod 256 ^ Z.of_nat n.
Proof. unfold be_bytes. by rewrite be_Z_reverse, le_Z_le_bytes. Qed.

Lemma be_Z_big_Bytes z : 0 <= z -> be_Z (big_Bytes z) = z.
Proof.
  intros Hz. unfold big_Bytes. destruct (Z.eqb_spec z 0) as [->|Hn]; [done|].
  rewrite be_Z_reverse, le_Z_le_bytes, Z.abs_eq by lia.
  pose proof (Z.log2_nonneg z). pose proof (Z.log2_spec z ltac:(lia)) as [_ Hu].
  apply Z.mod_small. split; [lia|]. eapply Z.lt_le_trans; [exact Hu|].
  rewrite Z2Nat.id by (pose proof (Z.div_pos (Z.log2 z) 8); lia).
  change 256 with (2 ^ 8). rewrite <-Z.pow_mul_r by (pose proof (Z.div_pos (Z.log2 z) 8); lia).
  apply Z.pow_le_mono_r; [lia|].
  pose proof (Z.div_mod (Z.log2 z) 8 ltac:(lia)).
  pose proof (Z.mod_pos_bound (Z.log2 z) 8 ltac:(lia)). lia.
Qed.

Lemma big_Bytes_nil z : big_Bytes z = [] <-> z = 0.
Proof.
  unfold big_Bytes. destruct (Z.eqb_spec z 0) as [->|Hn]; [done|].
  split; [|done]. intros H. apply (f_equal length) in H.
  rewrite length_reverse, length_le_bytes in H. simpl in H.
  pose proof (Z.div_pos (Z.log2 (Z.abs z)) 8 ltac:(apply Z.log2_nonneg) ltac:(lia)). lia.
Qed.

(** ** Machine integers

    Heights, timestamps and counters are Go [uint64]s: a [Z] with the
    wrap-around written out where the code computes with them. *)

Definition two64 : Z := 18446744073709551616.
Definition MaxUint64 : Z := 18446744073709551615.

Definition u64 (z : Z) : Z := z mod two64.

(** [int64(x)] of a [uint64]: two's complement reinterpretation. *)
Definition i64 (z : Z) : Z :=
  let m := z mod two64 in if m <? 9223372036854775808 then m else m - two64.

Definition is_u64 (z : Z) : Prop := 0 <= z < two64.

Lemma u64_range z : is_u64 (u64 z).
Proof. apply Z.mod_pos_bound. unfold two64. lia. Qed.

Lemma u64_id z : is_u64 z -> u64 z = z.
Proof. apply Z.mod_small. Qed.

Lemma i64_id z : 0 <= z < 9223372036854775808 -> i64 z = z.
Proof.
  intros H. unfold i64, two64. rewrite Z.mod_small by lia.
  destruct (Z.ltb_spec z 9223372036854775808); lia.
Qed.

Definition PackUint64LE (n : Z) : bytes := le_bytes 8 n.

Definition UnpackUint64LE (b : bytes) : Z := le_Z (take 8 b).

Lemma length_PackUint64LE n : length (PackUint64LE n) = 8%nat.
Proof. apply length_le_bytes. Qed.

Lemma Unpack_Pack_app n b : is_u64 n -> UnpackUint64LE (PackUint64LE n ++ b) = n.
Proof.
  intros H. unfold UnpackUint64LE, PackUint64LE.
  rewrite take_app_length' by (by rewrite length_le_bytes).
  rewrite le_Z_le_bytes. apply Z.mod_small. unfold is_u64, two64 in H. lia.
Qed.

Lemma Unpack_Pack n : is_u64 n -> UnpackUint64LE (PackUint64LE n) = n.
Proof. intros. rewrite <-(app_nil_r (PackUint64LE n)). by apply Unpack_Pack_app. Qed.

Lemma PackUint64LE_inj a b : is_u64 a -> is_u64 b -> PackUint64LE a = PackUint64LE b -> a = b.
Proof. intros Ha Hb H. by rewrite <-(Unpack_Pack a), H, Unpack_Pack. Qed.

(** ** [bytes.Compare]: the lexicographic order *)

Fixpoint bytes_cmp (a b : bytes) : comparison :=
  match a, b with
  | [], [] => Eq
  | [], _ => Lt
  | _, [] => Gt
  | x :: a', y :: b' =>
      match byteZ x ?= byteZ y with
      | Eq => bytes_cmp a' b'
      | c => c
      end
  end.

Definition bytes_lt (a b : bytes) : Prop := bytes_cmp a b = Lt.
Definition bytes_le (a b : bytes) : Prop := bytes_cmp a b <> Gt.

#[export] Instance bytes_lt_dec : RelDecision bytes_lt.
Proof. intros a b. unfold bytes_lt. destruct (bytes_cmp a b); [right|left|right]; done. Defined.

#[export] Instance bytes_le_dec : RelDecision bytes_le.
Proof.
  intros a b. unfold bytes_le. destruct (bytes_cmp a b); [left|left|right]; congruence.
Defined.

Lemma bytes_cmp_eq a b : bytes_cmp a b = Eq <-> a = b.
Proof.
  revert b. induction a as [|x a IH]; intros [|y b]; simpl; try done.
  destruct (Z.compare_spec (byteZ x) (byteZ y)) as [E|E|E].
  - apply byteZ_inj in E as ->. rewrite IH. naive_solver.
  - split; [done|]. intros [= -> ->]. lia.
  - split; [done|]. intros [= -> ->]. lia.
Qed.

Lemma bytes_cmp_antisym a b : bytes_cmp b a = CompOpp (bytes_cmp a b).
Proof.
  revert b. induction a as [|x a IH]; intros [|y b]; simpl; try done.
  rewrite (Z.compare_antisym (byteZ x)). destruct (byteZ x ?= byteZ y); simpl; auto.
Qed.

Lemma bytes_lt_trans a b c : bytes_lt a b -> bytes_lt b c -> bytes_lt a c.
Proof.
  unfold bytes_lt. revert b c. induction a as [|x a IH]; intros [|y b] [|z c]; simpl; try done.
  destruct (Z.compare_spec (byteZ x) (byteZ y)) as [E1|E1|E1],
           (Z.compare_spec (byteZ y) (byteZ z)) as [E2|E2|E2]; try done;
    destruct (Z.compare_spec (byteZ x) (byteZ z)); try lia; eauto.
Qed.

Lemma bytes_lt_irrefl a : ~ bytes_lt a a.
Proof. unfold bytes_lt. by rewrite (proj2 (bytes_cmp_eq a a) eq_refl). Qed.

Lemma bytes_le_lt_eq a b : bytes_le a b <-> bytes_lt a b \/ a = b.
Proof.
  unfold bytes_le, bytes_lt. rewrite <-bytes_cmp_eq.
  destruct (bytes_cmp a b); naive_solver.
Qed.

#[export] Instance bytes_le_refl : Reflexive bytes_le.
Proof. intros a. rewrite bytes_le_lt_eq. by right. Qed.

#[export] Instance bytes_le_trans : Transitive bytes_le.
Proof.
  intros a b c. rewrite !bytes_le_lt_eq.
  intros [H1| ->] [H2| ->]; eauto using bytes_lt_trans.
Qed.

#[export] Instance bytes_le_total : Total bytes_le.
Proof. intros a b. unfold bytes_le. rewrite (bytes_cmp_antisym a b). destruct (bytes_cmp a b); naive_solver. Qed.

#[export] Instance bytes_le_antisym : AntiSymm (=) bytes_le.
Proof.
  intros a b. unfold bytes_le. rewrite (bytes_cmp_antisym a b), <-bytes_cmp_eq.
  destruct (bytes_cmp a b); naive_solver.
Qed.

Lemma not_bytes_lt a b : ~ bytes_lt a b <-> bytes_le b a.
Proof.
  unfold bytes_lt, bytes_le. rewrite (bytes_cmp_antisym a b).
  destruct (bytes_cmp a b); naive_solver.
Qed.

(** Big-endian numbers of one width compare like their bytes. *)
Lemma be_Z_cons x b : be_Z (x :: b) = byteZ x * 256 ^ Z.of_nat (length b) + be_Z b.
Proof.
  induction b as [|y b IH] using rev_ind; [cbn; lia|].
  rewrite app_comm_cons, !be_Z_snoc, IH, length_app. cbn [length].
  rewrite Nat.add_1_r, pow256_S. lia.
Qed.

Lemma be_Z_bound b : 0 <= be_Z b < 256 ^ Z.of_nat (length b).
Proof. rewrite <-(reverse_involutive b), be_Z_reverse, !length_reverse, <-(length_reverse b). apply le_Z_bound. Qed.

Lemma bytes_cmp_be_Z a b : length a = length b -> bytes_cmp a b = (be_Z a ?= be_Z b).
Proof.
  revert b. induction a as [|x a IH]; intros [|y b]; try done. intros [= Hl]. cbn [bytes_cmp].
  rewrite !be_Z_cons, IH, Hl by done. pose proof (be_Z_bound a) as Ha. pose proof (be_Z_bound b) as Hb. rewrite Hl in Ha.
  set (n := 256 ^ Z.of_nat (length b)) in *. clearbody n.
  destruct (Z.compare_spec (byteZ x) (byteZ y)) as [->|H|H].
  - destruct (Z.compare_spec (be_Z a) (be_Z b)); symmetry; [apply Z.compare_eq_iff|apply Z.compare_lt_iff|apply Z.compare_gt_iff]; lia.
  - symmetry. apply Z.compare_lt_iff. nia.
  - symmetry. apply Z.compare_gt_iff. nia.
Qed.

Lemma bytes_cmp_app p a b : bytes_cmp (p ++ a) (p ++ b) = bytes_cmp a b.
Proof. induction p as [|x p IH]; [done|]. cbn. by rewrite Z.compare_refl. Qed.

Lemma bytes_cmp_app_lt a b c d : length a = length b -> bytes_lt a b -> bytes_lt (a ++ c) (b ++ d).
Proof.
  unfold bytes_lt. revert b. induction a as [|x a IH]; intros [|y b]; try done. intros [= Hl]. cbn.
  destruct (_ ?= _); auto.
Qed.

(** ** Errors and results

    One constructor per error value of the Go code; [errors.Wrap] only adds
    text, so a wrapped error is the error it wraps.  [ErrLibrary] is an error
    a third-party call returned.  [GoPanic] is a Go
    [panic]. *)

Inductive error :=
  (* ngtypes/tx_error.go *)
  | ErrTxSignInvalid | ErrTxUnsigned | ErrTxNoHeader | ErrTxTypeInvalid | ErrTxToInvalid
  | ErrTxValueInvalid | ErrTxFeeInvalid | ErrTxFeeBelowBaseFee | ErrTxExtraInvalid | ErrTxExtraExcess
  | ErrRewardInvalid | ErrCommitExtraInvalid | ErrSchemeUnknown | ErrKeyInvalid
  | ErrAddressLenInvalid | ErrLibrary
  (* ngtypes/commitment.go *)
  | ErrCommitHashInvalid | ErrCommitFeeInvalid | ErrCommitHeightInvalid | ErrCommitUnsigned
  | ErrCommitSignInvalid
  (* ngtypes/block.go, block_header.go *)
  | ErrBlockNoGen | ErrBlockOnlyOneGen | ErrBlockNoHeader | ErrBlockDiffInvalid
  | ErrBlockPrevHashInvalid | ErrBlockTxTrieHashInvalid | ErrBlockWitnessRootInvalid | ErrBlockTxsExcess
  | ErrBlockBytesExcess | ErrBlockTimestampInvalid | ErrBlockNotSealed | ErrBlockDuplicateTx
  | ErrBlockDuplicateCommit | ErrBlockCommitsExcess | ErrBlockUnclesInvalid | ErrBlockStateRootInvalid
  | ErrBlockBaseFeeInvalid | ErrBlockSealBare | ErrInvalidNonce
  | ErrUncleFixedSize | ErrUncleDifficulty | ErrUncleBaseFee | ErrUncleNonceSize | ErrUncleGenesis
  | ErrUncleTimestamp | ErrUncleNonce | ErrNetworkInvalid
  (* storage, ngblocks *)
  | ErrKeyNotFound | ErrBlockHeightConflict | ErrPrevBlockNotExist | ErrPutEmptyBlock
  | ErrBranchEmpty | ErrBranchDisconnected | ErrBranchDetached | ErrDecode
  (* blockchain *)
  | ErrBlockTimeNotMonotonic | ErrReorgBelowOrigin | ErrReorgBeyondFinality | ErrUncleInvalid
  | ErrBranchNotHeavier | ErrSheetMismatch
  (* ngstate *)
  | ErrSourceTooLarge | ErrImmutable | ErrTxNotCommitted | ErrCommitUnaffordable | ErrCommitDuplicate
  | ErrSaltTooShort | ErrNothingToDestroy | ErrTxUnauthorized | ErrTxrBalanceInsufficient
  | ErrDepNotActive | ErrDepSelf | ErrDepLimit | ErrContractRefdBy | ErrDepInvalidImport | ErrStorageDeposit
  | ErrWasmInvalid | ErrUnknownStateDomain
  (* the model: a nesting the fuel of VM.v does not cover *)
  | ErrOutOfFuel
  (* ngpool *)
  | ErrTxInvalidHeight | ErrPoolFull | ErrTxFeeTooLow | ErrTxFeeBelowFloor | ErrNotEffectTx | ErrRevealSaltShort
  (* ngstate: reads of the past; blockchain, consensus *)
  | ErrHashSize | ErrHeightAboveTip | ErrNoHistory | ErrArchiveDisabled | ErrLogRange | ErrLogsPruned
  | ErrSnapshotNofFound | ErrChainOnSyncing | ErrConvergeOriginOnly | ErrConvergeUnrelated | ErrRemote
  (* ngp2p/wired *)
  | ErrMsgPayloadInvalid | ErrMsgTypeInvalid | ErrMsgIDInvalid | ErrMsgSignInvalid | ErrMsgMalformed
  | ErrGetChainTo | ErrGetChainRange | ErrProofOversized | ErrProofKeyOversized | ErrProofAboveTip | ErrProofRoot
  (* consensus *)
  | ErrMsgRejected | ErrSendFailed | ErrEmptyRange | ErrEmptyBranch | ErrForkAboveCheckpoint
  (* jsonrpc *)
  | ErrBlockNotExists | ErrSubscribeParams | ErrSubscribeType | ErrSubID
  | ErrTxIndexRange | ErrTracePruned | ErrAmountInvalid | ErrAmountDecimals | ErrAmountNegative | ErrKeyCount
  (* cmd/ngcore *)
  | ErrUnknownName | ErrBadPart | ErrNoDevKey | ErrNameRequired | ErrNoCode | ErrBadValue | ErrTimeBackwards
  | ErrUnknownSnapshot | ErrUnknownContract | ErrExpectFailed | ErrRunFailed
  | GoPanic.

#[export] Instance error_eq_dec : EqDecision error.
Proof. solve_decision. Defined.

Inductive res (A : Type) := Ok (a : A) | Err (e : error).
Arguments Ok {A} _.
Arguments Err {A} _.

#[export] Instance res_eq_dec {A} `{EqDecision A} : EqDecision (res A).
Proof. solve_decision. Defined.

Definition res_bind {A B} (m : res A) (f : A -> res B) : res B :=
  match m with Ok a => f a | Err e => Err e end.

(** [guard c e k] is [if c { return e }; k]. *)
Definition guard {A} (c : bool) (e : error) (k : res A) : res A := if c then Err e else k.

Declare Scope go_scope.
Delimit Scope go_scope with go.
Global Open Scope go_scope.

Notation "'let!' x := m 'in' k" := (res_bind m (fun x => k))
  (at level 10, x pattern, m at level 100, k at level 200) : go_scope.
Notation "'do!' m ';' k" := (res_bind m (fun _ => k))
  (at level 10, m at level 100, k at level 200) : go_scope.
Notation "'reject' c 'with' e ';' k" := (guard c e k)
  (at level 10, c at level 100, e at level 100, k at level 200) : go_scope.

Definition is_ok {A} (m : res A) : bool := match m with Ok _ => true | Err _ => false end.

Lemma is_ok_Ok {A} (m : res A) : is_ok m = true -> exists a, m = Ok a.
Proof. destruct m; [eauto|done]. Qed.

Lemma is_ok_iff {A} (m : res A) : is_ok m = true <-> exists a, m = Ok a.
Proof. destruct m; naive_solver. Qed.

Lemma res_bind_Ok {A B} (m : res A) (f : A -> res B) b :
  res_bind m f = Ok b <-> exists a, m = Ok a /\ f a = Ok b.
Proof. destruct m; simpl; naive_solver. Qed.

Lemma guard_Ok {A} c e (k : res A) a : guard c e k = Ok a <-> c = false /\ k = Ok a.
Proof. unfold guard. destruct c; naive_solver. Qed.

Lemma seq_Ok {B} (m : res unit) (k : res B) b : res_bind m (fun _ => k) = Ok b <-> m = Ok tt /\ k = Ok b.
Proof. destruct m as [[]|]; simpl; naive_solver. Qed.

(** A loop over a list that stops at the first error. *)
Fixpoint res_fold {A S} (f : S -> A -> res S) (s : S) (l : list A) : res S :=
  match l with
  | [] => Ok s
  | x :: l' => let! s' := f s x in res_fold f s' l'
  end.

(** [mguard_Ok]: opens a successful run into the facts its guards leave. *)
Ltac open_ok H :=
  repeat match type of H with
  | guard _ _ _ = Ok _ => let Hc := fresh "Hg" in apply guard_Ok in H as [Hc H]
  | res_bind _ _ = Ok _ =>
      let x := fresh "r" in let Hx := fresh "Hr" in
      apply res_bind_Ok in H as (x & Hx & H)
  end.

(** Turns boolean tests of the hypotheses and the goal into propositions. *)
Ltac bools :=
  repeat match goal with
  | H : (_ && _) = true |- _ => apply andb_true_iff in H as [? ?]
  | H : (_ || _) = false |- _ => apply orb_false_iff in H as [? ?]
  | H : negb _ = true |- _ => apply negb_true_iff in H
  | H : negb _ = false |- _ => apply negb_false_iff in H
  | H : bool_decide _ = true |- _ => apply bool_decide_eq_true in H
  | H : bool_decide _ = false |- _ => apply bool_decide_eq_false in H
  | H : (_ <? _) = true |- _ => apply Z.ltb_lt in H
  | H : (_ <? _) = false |- _ => apply Z.ltb_ge in H
  | H : (_ <=? _) = true |- _ => apply Z.leb_le in H
  | H : (_ <=? _) = false |- _ => apply Z.leb_gt in H
  | H : (_ =? _) = true |- _ => apply Z.eqb_eq in H
  | H : (_ =? _) = false |- _ => apply Z.eqb_neq in H
  end.

(** ** Sums over a list *)

Definition sumZ {A} (f : A -> Z) (l : list A) : Z := foldr (fun x acc => f x + acc) 0 l.

Lemma sumZ_cons {A} (f : A -> Z) x l : sumZ f (x :: l) = f x + sumZ f l.
Proof. done. Qed.

Lemma sumZ_perm {A} (f : A -> Z) l l' : l ≡ₚ l' -> sumZ f l = sumZ f l'.
Proof. induction 1; rewrite ?sumZ_cons; lia. Qed.

Lemma sumZ_app {A} (f : A -> Z) l l' : sumZ f (l ++ l') = sumZ f l + sumZ f l'.
Proof. induction l as [|x l IH]; [done|]. rewrite <-app_comm_cons, !sumZ_cons, IH. lia. Qed.

Lemma sumZ_fmap {A B} (f : B -> Z) (g : A -> B) l : sumZ f (g <$> l) = sumZ (fun x => f (g x)) l.
Proof. induction l as [|x l IH]; [done|]. by rewrite fmap_cons, !sumZ_cons, IH. Qed.

Lemma sumZ_map_insert `{FinMap K M} {A} (f : K * A -> Z) (m : M A) k v :
  sumZ f (map_to_list (<[k := v]> m)) = sumZ f (map_to_list m) + f (k, v) - from_option (fun w => f (k, w)) 0 (m !! k).
Proof.
  assert (Hd : forall m' : M A, sumZ f (map_to_list m') = sumZ f (map_to_list (delete k m')) + from_option (fun w => f (k, w)) 0 (m' !! k)).
  { intros m'. destruct (m' !! k) as [w|] eqn:E; cbn.
    - rewrite <-(sumZ_perm f _ _ (map_to_list_delete m' k w E)), sumZ_cons. lia.
    - rewrite delete_id by done. lia. }
  rewrite (Hd (<[k := v]> m)), (Hd m), lookup_insert_eq, delete_insert_eq. cbn. lia.
Qed.

Definition zlen {A} (l : list A) : Z := Z.of_nat (length l).

(** ** The hash primitive

    [lukechampine.com/blake3] is a library: [Sum256] is a parameter whose
    result type [[32]byte] fixes its length. *)

Class Hasher := blake3_Sum256 : bytes -> vec byte 32.

Definition HashSize : Z := 32.

Definition Hash256 `{Hasher} (b : bytes) : bytes := vec_to_list (blake3_Sum256 b).

Lemma length_Hash256 `{Hasher} b : length (Hash256 b) = 32%nat.
Proof. apply length_vec_to_list. Qed.

(** Security statements exhibit the collision they rest on: a pair of
    strings computed from the inputs that breaks the hash. *)
Definition is_collision `{Hasher} (xy : bytes * bytes) : Prop := xy.1 <> xy.2 /\ Hash256 xy.1 = Hash256 xy.2.

Lemma Hash256_eq_or_collision `{Hasher} x y : Hash256 x = Hash256 y -> x = y \/ is_collision (x, y).
Proof. intros E. destruct (decide (x = y)); [by left|]. by right. Qed.
