(* ===== verification/Params.v ===== *)
(** * Protocol parameters

    The constants and pure parameter functions of [ngtypes]: network tags
    (network.go), protocol constants (defaults.go, staterent.go), the fork
    schedule (forks.go), the reward curve (reward_curve.go) and the base-fee
    update (feemarket.go). *)

From S2P Require Import Prelude.

(** ** network.go *)

(** [type Network uint8]: any byte value can arrive from the wire. *)
Definition Network := Z.
Definition ZERONET : Network := 0.
Definition TESTNET : Network := 1.
Definition MAINNET : Network := 2.

Definition ParseNetwork (netName : string) : res Network :=
  if bool_decide (netName = "ZERONET"%string) then Ok ZERONET
  else if bool_decide (netName = "TESTNET"%string) then Ok TESTNET
  else if bool_decide (netName = "MAINNET"%string) then Ok MAINNET
  else Err ErrNetworkInvalid.

Definition GetNetwork (netName : string) : res Network :=
  match ParseNetwork netName with Ok n => Ok n | Err _ => Err GoPanic end.

Definition Network_String (net : Network) : res string :=
  if net =? ZERONET then Ok "ZERONET"%string
  else if net =? TESTNET then Ok "TESTNET"%string
  else if net =? MAINNET then Ok "MAINNET"%string
  else Err GoPanic.

(** ** defaults.go *)

Definition minimumDifficulty : Z := Z.shiftl 200 4.
(** [TargetTime] in nanoseconds, as a [time.Duration]. *)
Definition Millisecond : Z := 1000000.
Definition Second : Z := 1000000000.
Definition TargetTime : Z := 4 * Second.
Definition BlockCheckRound : Z := 10.
Definition MaxUncles : Z := 2.
Definition UncleMaxDepth : Z := 30.
Definition TimestampDriftTolerance : Z := 15 * Second / Millisecond.
Definition MatureRound : Z := 10.
Definition MatureHeight : Z := MatureRound * BlockCheckRound.
Definition MaxBlockTxCount : Z := 512.
Definition MaxBlockBytes : Z := Z.shiftl 1 23.
Definition MaxBlockGas : Z := Z.shiftl 1 27.
Definition MaxContractSourceSize : Z := Z.shiftl 256 10.
Definition CommitWindow : Z := 3.
Definition MaxBlockCommitCount : Z := MaxBlockTxCount.
Definition MinSaltSize : Z := 16.
Definition MaxTarget : Z := be_Z (replicate 32 (Zbyte 255)).
Definition TxMaxExtraSize : Z := Z.shiftl 1 20.
Definition DiffSize : Z := 32.
Definition NonceSize : Z := 8.
Definition AddressSize : Z := 32.
Definition NG : Z := 1000000000000000000.

Definition GetEmptyHash : bytes := replicate 32 Byte.x00.

(** The genesis instants: 2020-10-24 00:00:00 UTC and
    2020-11-11 11:11:11 UTC, in unix milliseconds. *)
Definition GetGenesisTimestamp (network : Network) : res Z :=
  if network =? ZERONET then Ok 1603497600000
  else if network =? TESTNET then Ok 1605093071000
  else Err GoPanic.

Definition GetMatureHeight (currentHeight : Z) : Z :=
  if currentHeight <? MatureHeight then 0
  else currentHeight / MatureHeight * MatureHeight.

(** staterent.go *)
Definition DepositPerByte : Z := 1000000000000.

(** ** forks.go *)

Definition Fork := Z.
Definition ForkGenesis : Fork := 0.
Definition ForkFeeMarket : Fork := 1.
Definition ForkStateRent : Fork := 2.
Definition ForkRandomBeacon : Fork := 3.

Definition FeeMarketForkHeight : Z := 0.
Definition StateRentForkHeight : Z := 0.
Definition RandomBeaconForkHeight : Z := 0.
Definition NoFork : Z := MaxUint64.

(** The map literal [forkSchedule]; a Go map has no iteration order. *)
Definition forkSchedule : gmap Network (gmap Fork Z) :=
  {[ ZERONET := {[ ForkFeeMarket := FeeMarketForkHeight; ForkStateRent := StateRentForkHeight;
                   ForkRandomBeacon := RandomBeaconForkHeight ]};
     TESTNET := {[ ForkFeeMarket := FeeMarketForkHeight; ForkStateRent := StateRentForkHeight;
                   ForkRandomBeacon := RandomBeaconForkHeight ]};
     MAINNET := {[ ForkFeeMarket := NoFork; ForkStateRent := NoFork; ForkRandomBeacon := NoFork ]} ]}.

Definition ForkHeight (net : Network) (f : Fork) : Z :=
  if f =? ForkGenesis then 0
  else match forkSchedule !! net with
       | Some netSchedule => match netSchedule !! f with Some h => h | None => NoFork end
       | None => NoFork
       end.

Definition IsForkActive (net : Network) (f : Fork) (height : Z) : bool :=
  let h := ForkHeight net f in
  if h =? NoFork then false else h <=? height.

(** The body of [ActiveFork]'s loop, and the loop over the keys in the order
    given. *)
Definition best (net : Network) (height : Z) (active f : Fork) : Fork :=
  if (active <? f) && IsForkActive net f height then f else active.

Definition ActiveFork_loop (net : Network) (height : Z) (keys : list Fork) : Fork :=
  foldl (best net height) ForkGenesis keys.

Definition ActiveFork (net : Network) (height : Z) : Fork :=
  ActiveFork_loop net height
    (match forkSchedule !! net with Some m => (map_to_list m).*1 | None => [] end).

(** ** reward_curve.go *)

Definition rewardEra : Z := 1000000.
Definition maxBlockRewardNG : Z := 10.
Definition minBlockRewardNG : Z := 2.
Definition floatingBlockRewardNG : Z := maxBlockRewardNG - minBlockRewardNG.
Definition minReward : Z := NG * minBlockRewardNG.
Definition floatingReward : Z := NG * floatingBlockRewardNG.

(** One era: [d.Div(reward, 10); reward.Sub(reward, d)].  [big.Int.Div] is
    Euclidean division. *)
Definition decay (reward : Z) : Z := reward - reward / 10.

Definition GetBlockReward (height : Z) : Z :=
  Nat.iter (Z.to_nat (height / rewardEra)) decay floatingReward + minReward.

Definition UncleReward (uncleHeight nephewHeight : Z) : Z :=
  if nephewHeight <=? uncleHeight then 0
  else
    let depth := u64 (nephewHeight - uncleHeight) in
    if UncleMaxDepth <? depth then 0
    else Z.quot (GetBlockReward uncleHeight * (UncleMaxDepth + 1 - depth)) (UncleMaxDepth + 1).

(** ** feemarket.go *)

Definition MinBaseFee : Z := 10000000000.
Definition BaseFeeTargetBytes : Z := MaxBlockBytes / 2.
Definition BaseFeeMaxChangeDenom : Z := 8.

Definition clampMinBaseFee (x : Z) : Z := if x <? MinBaseFee then MinBaseFee else x.

(** [parentBaseFee] is [None] for a nil pointer. *)
Definition NextBaseFee (net : Network) (parentHeight : Z) (parentBaseFee : option Z)
    (parentUsedBytes : Z) : Z :=
  let childHeight := u64 (parentHeight + 1) in
  if negb (IsForkActive net ForkFeeMarket childHeight) then MinBaseFee
  else
    let parent := match parentBaseFee with
                  | Some p => if p <=? 0 then MinBaseFee else p
                  | None => MinBaseFee
                  end in
    let target := BaseFeeTargetBytes in
    if parentUsedBytes =? target then clampMinBaseFee parent
    else if target <? parentUsedBytes then
      let delta := u64 (parentUsedBytes - target) * parent / target / BaseFeeMaxChangeDenom in
      let delta := if delta =? 0 then 1 else delta in
      clampMinBaseFee (parent + delta)
    else
      let delta := u64 (target - parentUsedBytes) * parent / target / BaseFeeMaxChangeDenom in
      clampMinBaseFee (parent - delta).

(** ** The fork schedule *)

Lemma best_cases net h a f :
  best net h a f = (if IsForkActive net f h then Z.max a f else a).
Proof.
  unfold best. destruct (IsForkActive net f h); [|by rewrite andb_false_r].
  rewrite andb_true_r. destruct (Z.ltb_spec a f); lia.
Qed.

Lemma foldl_best_ge net h keys a : a <= foldl (best net h) a keys.
Proof.
  revert a. induction keys as [|f keys IH]; intros a; simpl; [lia|].
  specialize (IH (best net h a f)). rewrite best_cases in IH |- *.
  destruct (IsForkActive net f h); lia.
Qed.

Lemma foldl_best_upper net h keys a f :
  f ∈ keys -> IsForkActive net f h = true -> f <= foldl (best net h) a keys.
Proof.
  intros Hin Hact. revert a. induction keys as [|g keys IH]; intros a; [by apply not_elem_of_nil in Hin|].
  apply elem_of_cons in Hin as [->|Hin]; simpl; [|by apply IH].
  assert (g <= best net h a g) by (rewrite best_cases, Hact; lia).
  pose proof (foldl_best_ge net h keys (best net h a g)). lia.
Qed.

Lemma foldl_best_in net h keys a :
  foldl (best net h) a keys = a \/
  (foldl (best net h) a keys ∈ keys /\ IsForkActive net (foldl (best net h) a keys) h = true).
Proof.
  revert a. induction keys as [|f keys IH]; intros a; simpl; [by left|].
  destruct (IH (best net h a f)) as [E|[Hin Hact]].
  - rewrite E. unfold best. destruct (_ && _) eqn:Hb; [|by left].
    apply andb_true_iff in Hb as [_ Hact]. right. split; [by left|done].
  - right. split; [by right|done].
Qed.

(** [ActiveFork] returns the highest active fork of the network's
    schedule (or [ForkGenesis]) whatever order the Go map is ranged over in:
    the loop run over any permutation of the schedule's keys gives the value
    of [ActiveFork], no active scheduled fork is above it, and it is itself
    [ForkGenesis] or an active scheduled fork. *)
Theorem ActiveFork_is_highest_any_order net height (m : gmap Fork Z) (keys : list Fork) :
  forkSchedule !! net = Some m -> keys ≡ₚ (map_to_list m).*1 ->
  ActiveFork_loop net height keys = ActiveFork net height
  /\ (forall f, f ∈ keys -> IsForkActive net f height = true -> f <= ActiveFork net height)
  /\ (ActiveFork net height = ForkGenesis \/
      (ActiveFork net height ∈ keys /\ IsForkActive net (ActiveFork net height) height = true)).
Proof.
  intros Hm Hp.
  assert (forall k1 k2, k1 ≡ₚ k2 ->
            ActiveFork_loop net height k1 <= ActiveFork_loop net height k2) as Hle.
  { intros k1 k2 Hk. unfold ActiveFork_loop.
    destruct (foldl_best_in net height k1 ForkGenesis) as [->|[Hin Hact]].
    - apply foldl_best_ge.
    - apply foldl_best_upper; [by rewrite <-Hk|done]. }
  assert (ActiveFork_loop net height keys = ActiveFork net height) as Heq.
  { unfold ActiveFork. rewrite Hm. apply Z.le_antisymm; by apply Hle. }
  rewrite <-Heq. split; [done|]. split.
  - intros f Hf Ha. by apply foldl_best_upper.
  - apply foldl_best_in.
Qed.

Lemma ActiveFork_is_highest_any_order_witness :
  ActiveFork_loop TESTNET 7 [ForkRandomBeacon; ForkFeeMarket; ForkStateRent] = ActiveFork TESTNET 7.
Proof.
  refine (proj1 (ActiveFork_is_highest_any_order TESTNET 7
    {[ ForkFeeMarket := FeeMarketForkHeight; ForkStateRent := StateRentForkHeight;
       ForkRandomBeacon := RandomBeaconForkHeight ]}
    [ForkRandomBeacon; ForkFeeMarket; ForkStateRent] _ _)).
  - reflexivity.
  - vm_compute. apply perm_skip, perm_swap.
Defined.

(** On the two scheduled networks the highest fork is active from genesis,
    on the main network none is. *)
Lemma ActiveFork_values height :
  0 <= height ->
  ActiveFork ZERONET height = ForkRandomBeacon /\ ActiveFork TESTNET height = ForkRandomBeacon
  /\ ActiveFork MAINNET height = ForkGenesis.
Proof.
  intros H. assert (IsForkActive ZERONET ForkRandomBeacon height = true) as H0
    by (unfold IsForkActive; simpl; by apply Z.leb_le).
  assert (IsForkActive TESTNET ForkRandomBeacon height = true) as H1
    by (unfold IsForkActive; simpl; by apply Z.leb_le).
  split; [|split].
  - change (foldl (best ZERONET height) 0 [ForkRandomBeacon; ForkStateRent; ForkFeeMarket] = ForkRandomBeacon).
    simpl. rewrite !best_cases, H0.
    unfold ForkRandomBeacon, ForkStateRent, ForkFeeMarket in *. repeat case_match; lia.
  - change (foldl (best TESTNET height) 0 [ForkRandomBeacon; ForkStateRent; ForkFeeMarket] = ForkRandomBeacon).
    simpl. rewrite !best_cases, H1.
    unfold ForkRandomBeacon, ForkStateRent, ForkFeeMarket in *. repeat case_match; lia.
  - reflexivity.
Qed.

(** ** The reward curve *)

Lemma decay_mono x y : x <= y -> decay x <= decay y.
Proof. unfold decay. intros. Z.to_euclidean_division_equations; lia. Qed.

Lemma decay_le x : 0 <= x -> decay x <= x.
Proof. unfold decay. intros. Z.to_euclidean_division_equations; lia. Qed.

Lemma decay_ge x : 9 <= x -> 9 <= decay x.
Proof. unfold decay. intros. Z.to_euclidean_division_equations; lia. Qed.

Lemma iter_decay_ge n x : 9 <= x -> 9 <= Nat.iter n decay x.
Proof. intros. induction n as [|n IH]; simpl; [done|]. by apply decay_ge. Qed.

Lemma iter_decay_anti n m x : (n <= m)%nat -> 9 <= x -> Nat.iter m decay x <= Nat.iter n decay x.
Proof.
  intros Hnm Hx. induction Hnm as [|m Hnm IH]; [lia|]. simpl.
  etransitivity; [apply decay_le|exact IH]. pose proof (iter_decay_ge m x Hx). lia.
Qed.

Lemma iter_decay_curve (n : nat) x :
  0 <= 10 ^ Z.of_nat n * Nat.iter n decay x - 9 ^ Z.of_nat n * x
  /\ 10 ^ Z.of_nat n * Nat.iter n decay x - 9 ^ Z.of_nat n * x
     <= 9 * (10 ^ Z.of_nat n - 9 ^ Z.of_nat n).
Proof.
  induction n as [|n IH]; [simpl; lia|].
  rewrite Nat2Z.inj_succ, !Z.pow_succ_r by lia.
  change (Nat.iter (S n) decay x) with (decay (Nat.iter n decay x)).
  set (y := Nat.iter n decay x) in *.
  assert (9 * y <= 10 * decay y <= 9 * y + 9) by
    (unfold decay; Z.to_euclidean_division_equations; lia).
  assert (0 < 10 ^ Z.of_nat n) by (apply Z.pow_pos_nonneg; lia).
  set (p := 10 ^ Z.of_nat n) in *. set (q := 9 ^ Z.of_nat n) in *.
  assert (p * (9 * y) <= p * (10 * decay y)) by (apply Z.mul_le_mono_nonneg_l; lia).
  assert (p * (10 * decay y) <= p * (9 * y + 9)) by (apply Z.mul_le_mono_nonneg_l; lia).
  lia.
Qed.

Lemma floatingReward_9 : 9 <= floatingReward.
Proof. unfold floatingReward, NG, floatingBlockRewardNG, maxBlockRewardNG, minBlockRewardNG. lia. Qed.

Lemma GetBlockReward_anti h1 h2 : 0 <= h1 <= h2 -> GetBlockReward h2 <= GetBlockReward h1.
Proof.
  intros H. unfold GetBlockReward. apply Z.add_le_mono_r, iter_decay_anti; [|apply floatingReward_9].
  apply Z2Nat.inj_le; [apply Z.div_pos|apply Z.div_pos|apply Z.div_le_mono]; unfold rewardEra; lia.
Qed.

Lemma GetBlockReward_pos h : minReward + 9 <= GetBlockReward h.
Proof. unfold GetBlockReward. pose proof (iter_decay_ge (Z.to_nat (h / rewardEra)) _ floatingReward_9). lia. Qed.

(** The integer reward loop follows the documented curve
    [2 + 8 * 0.9^era]: after [era] eras the floating part differs from the
    exact value [8 NG * 9^era / 10^era] by at least zero and less than nine
    raw units (10^-18 NG each), it never rises with the height, and the
    reward always stays in ([2 NG], [10 NG]]. *)
Theorem GetBlockReward_tracks_curve height era h2 :
  0 <= height -> era = height / rewardEra -> height <= h2 ->
  0 <= 10 ^ era * (GetBlockReward height - minReward) - 9 ^ era * floatingReward < 9 * 10 ^ era
  /\ GetBlockReward h2 <= GetBlockReward height
  /\ minReward < GetBlockReward height <= minReward + floatingReward.
Proof.
  intros Hh -> H2.
  assert (0 <= height / rewardEra) as He by (apply Z.div_pos; unfold rewardEra; lia).
  split; [|split].
  - pose proof (iter_decay_curve (Z.to_nat (height / rewardEra)) floatingReward) as [Hl Hu].
    rewrite Z2Nat.id in Hl, Hu by done. unfold GetBlockReward. rewrite Z.add_simpl_r.
    assert (0 < 9 ^ (height / rewardEra)) by (apply Z.pow_pos_nonneg; lia). lia.
  - by apply GetBlockReward_anti.
  - pose proof (GetBlockReward_pos height). split; [lia|].
    pose proof (iter_decay_anti 0 (Z.to_nat (height / rewardEra)) floatingReward ltac:(lia) floatingReward_9).
    unfold GetBlockReward. simpl in *. lia.
Qed.

Lemma GetBlockReward_tracks_curve_witness :
  0 <= 10 ^ 3 * (GetBlockReward 3500000 - minReward) - 9 ^ 3 * floatingReward < 9 * 10 ^ 3.
Proof.
  refine (proj1 (GetBlockReward_tracks_curve 3500000 3 4000000 _ _ _)); [lia|reflexivity|lia].
Defined.

Lemma UncleReward_unfold u d :
  is_u64 u -> 1 <= d <= UncleMaxDepth -> is_u64 (u + d) ->
  UncleReward u (u + d) = GetBlockReward u * (31 - d) / 31.
Proof.
  unfold is_u64, UncleMaxDepth. intros Hu Hd Hs. unfold UncleReward, UncleMaxDepth.
  destruct (Z.leb_spec (u + d) u); [lia|].
  replace (u + d - u) with d by lia. rewrite u64_id by (unfold is_u64, two64 in *; lia).
  destruct (Z.ltb_spec 30 d); [lia|]. change (30 + 1) with 31.
  pose proof (GetBlockReward_pos u).
  assert (0 <= minReward) by (unfold minReward, NG, minBlockRewardNG; lia).
  apply Z.quot_div_nonneg; nia.
Qed.

(** [UncleReward] pays an uncle a positive share strictly below its own
    block reward, one generation back pays strictly more than the next, and
    outside the window [1..UncleMaxDepth] (including an uncle at or above its
    nephew) nothing is paid. *)
Theorem UncleReward_decays u d :
  is_u64 u -> is_u64 (u + d) -> 1 <= d ->
  (d <= UncleMaxDepth -> 0 < UncleReward u (u + d) < GetBlockReward u)
  /\ (d < UncleMaxDepth -> is_u64 (u + d + 1) -> UncleReward u (u + d + 1) < UncleReward u (u + d))
  /\ (UncleMaxDepth < d -> UncleReward u (u + d) = 0)
  /\ UncleReward (u + d) u = 0.
Proof.
  intros Hu Hs Hd. pose proof (GetBlockReward_pos u) as Hp.
  assert (1000000 <= minReward) as Hm by (unfold minReward, NG, minBlockRewardNG; lia).
  repeat split.
  - rewrite UncleReward_unfold by (done || lia). apply Z.div_str_pos. unfold UncleMaxDepth in *. nia.
  - rewrite UncleReward_unfold by (done || lia). apply Z.div_lt_upper_bound; nia.
  - intros Hd2 Hs2. rewrite <-Z.add_assoc in Hs2 |- *.
    rewrite !UncleReward_unfold by (done || unfold UncleMaxDepth in *; lia).
    apply Z.div_lt_upper_bound; [lia|].
    assert (GetBlockReward u * (31 - d) < 31 * (GetBlockReward u * (31 - d) / 31 + 1)) by
      (pose proof (Z.mul_succ_div_gt (GetBlockReward u * (31 - d)) 31); lia).
    nia.
  - intros Hd2. unfold UncleReward. destruct (Z.leb_spec (u + d) u); [done|].
    replace (u + d - u) with d by lia. rewrite u64_id by (unfold is_u64, two64 in *; lia).
    by destruct (Z.ltb_spec UncleMaxDepth d); [|lia].
  - unfold UncleReward. by destruct (Z.leb_spec u (u + d)); [|lia].
Qed.

Lemma UncleReward_decays_witness : UncleReward 100 (100 + 1 + 1) < UncleReward 100 (100 + 1).
Proof.
  refine (proj1 (proj2 (UncleReward_decays 100 1 _ _ _)) _ _); unfold is_u64, two64, UncleMaxDepth; lia.
Defined.

(** ** The base fee *)

Lemma clamp_ge x : MinBaseFee <= clampMinBaseFee x.
Proof. unfold clampMinBaseFee. destruct (Z.ltb_spec x MinBaseFee); lia. Qed.

Lemma clamp_id x : MinBaseFee <= x -> clampMinBaseFee x = x.
Proof. unfold clampMinBaseFee. destruct (Z.ltb_spec x MinBaseFee); lia. Qed.

Lemma clamp_mono x y : x <= y -> clampMinBaseFee x <= clampMinBaseFee y.
Proof. unfold clampMinBaseFee. repeat case_match; bools; lia. Qed.

Lemma NextBaseFee_floor net h p used : MinBaseFee <= NextBaseFee net h p used.
Proof. unfold NextBaseFee. repeat case_match; try apply clamp_ge; lia. Qed.

(** The proportional step, for a gap of at most the target. *)
Definition fee_step (parent gap : Z) : Z := gap * parent / BaseFeeTargetBytes / BaseFeeMaxChangeDenom.

Lemma fee_step_bound parent gap :
  0 <= parent -> 0 <= gap <= BaseFeeTargetBytes -> 0 <= fee_step parent gap <= parent / 8.
Proof.
  intros Hp Hg. unfold fee_step. change BaseFeeMaxChangeDenom with 8.
  assert (0 < BaseFeeTargetBytes) as Ht by (by vm_compute).
  assert (0 <= gap * parent / BaseFeeTargetBytes <= parent) as Hq.
  { split; [apply Z.div_pos; nia|]. apply Z.div_le_upper_bound; nia. }
  split; [apply Z.div_pos; lia|apply Z.div_le_mono; lia].
Qed.

Lemma fee_step_mono parent g1 g2 : 0 <= parent -> g1 <= g2 -> fee_step parent g1 <= fee_step parent g2.
Proof.
  intros. unfold fee_step. apply Z.div_le_mono; [done|]. apply Z.div_le_mono; [by vm_compute|nia].
Qed.

Lemma NextBaseFee_active net h parent used :
  IsForkActive net ForkFeeMarket (u64 (h + 1)) = true -> MinBaseFee <= parent -> is_u64 used ->
  NextBaseFee net h (Some parent) used =
    clampMinBaseFee
      (if used <=? BaseFeeTargetBytes then parent - fee_step parent (BaseFeeTargetBytes - used)
       else parent + Z.max 1 (fee_step parent (used - BaseFeeTargetBytes))).
Proof.
  intros Hf Hp [H0 H64]. assert (0 < MinBaseFee) by (by vm_compute).
  assert (0 < BaseFeeTargetBytes < two64) as Ht by (by vm_compute).
  assert (0 <= parent) by lia.
  unfold NextBaseFee. rewrite Hf. cbn [negb]. destruct (Z.leb_spec parent 0); [lia|].
  destruct (Z.eqb_spec used BaseFeeTargetBytes) as [->|Hne].
  - rewrite Z.leb_refl, Z.sub_diag. f_equal. change (fee_step parent 0) with 0. lia.
  - destruct (Z.ltb_spec BaseFeeTargetBytes used), (Z.leb_spec used BaseFeeTargetBytes); try lia.
    + rewrite u64_id by (unfold is_u64; lia). fold (fee_step parent (used - BaseFeeTargetBytes)).
      assert (0 <= fee_step parent (used - BaseFeeTargetBytes)) as Hs.
      { unfold fee_step. apply Z.div_pos; [|by vm_compute]. apply Z.div_pos; nia. }
      f_equal. f_equal. destruct (Z.eqb_spec (fee_step parent (used - BaseFeeTargetBytes)) 0); lia.
    + rewrite u64_id by (unfold is_u64; lia). done.
Qed.

(** The EIP-1559 update moves the base fee in the direction of the
    congestion and by a bounded amount.  For a parent at or above the floor
    and at most [MaxBlockBytes] of used bytes (what a valid block can carry)
    the next base fee never drops below [MinBaseFee], changes by at most
    one eighth of the parent's (at least one raw unit upwards), equals the
    parent's exactly at the target, strictly rises above it, never rises
    below it, and is monotone in the bytes used. *)
Theorem NextBaseFee_bounded_step net h parent used used2 :
  IsForkActive net ForkFeeMarket (u64 (h + 1)) = true ->
  MinBaseFee <= parent -> 0 <= used <= used2 -> used2 <= MaxBlockBytes ->
  let next := NextBaseFee net h (Some parent) used in
  MinBaseFee <= next
  /\ Z.abs (next - parent) <= Z.max 1 (parent / 8)
  /\ (used = BaseFeeTargetBytes -> next = parent)
  /\ (BaseFeeTargetBytes < used -> parent < next)
  /\ (used < BaseFeeTargetBytes -> next <= parent)
  /\ next <= NextBaseFee net h (Some parent) used2.
Proof.
  intros Hf Hp Hu H2 next. assert (0 < MinBaseFee) by (by vm_compute).
  assert (MaxBlockBytes = 2 * BaseFeeTargetBytes) as Hmax by (by vm_compute).
  assert (0 < BaseFeeTargetBytes <= 4194304) as Ht by (by vm_compute).
  assert (is_u64 used /\ is_u64 used2) as [Hw1 Hw2] by (unfold is_u64, two64; lia).
  unfold next. rewrite !NextBaseFee_active by done.
  set (T := BaseFeeTargetBytes) in *.
  assert (parent - parent / 8 <= parent /\ 0 <= parent / 8) by
    (Z.to_euclidean_division_equations; lia).
  assert (forall g, 0 <= g <= T -> 0 <= fee_step parent g <= parent / 8) as Hb
    by (intros g Hg; apply fee_step_bound; [lia|exact Hg]).
  split; [apply clamp_ge|]. split; [|split; [|split; [|split]]].
  - destruct (Z.leb_spec used T).
    + specialize (Hb (T - used) ltac:(lia)). unfold clampMinBaseFee. case_match; bools; lia.
    + specialize (Hb (used - T) ltac:(lia)). rewrite clamp_id; lia.
  - intros ->. rewrite Z.leb_refl, Z.sub_diag.
    specialize (Hb 0 ltac:(lia)). change (fee_step parent 0) with 0. rewrite Z.sub_0_r. by apply clamp_id.
  - intros. destruct (Z.leb_spec used T); [lia|].
    specialize (Hb (used - T) ltac:(lia)). rewrite clamp_id; lia.
  - intros. destruct (Z.leb_spec used T); [|lia].
    specialize (Hb (T - used) ltac:(lia)). unfold clampMinBaseFee. case_match; bools; lia.
  - apply clamp_mono. destruct (Z.leb_spec used T), (Z.leb_spec used2 T); try lia.
    + pose proof (fee_step_mono parent (T - used2) (T - used) ltac:(lia) ltac:(lia)). lia.
    + pose proof (Hb (T - used) ltac:(lia)). lia.
    + pose proof (fee_step_mono parent (used - T) (used2 - T) ltac:(lia) ltac:(lia)). lia.
Qed.

Lemma NextBaseFee_bounded_step_witness :
  NextBaseFee TESTNET 5 (Some 20000000000) 8000000 - 20000000000 <= Z.max 1 (20000000000 / 8)
  /\ 20000000000 < NextBaseFee TESTNET 5 (Some 20000000000) 8000000.
Proof.
  pose proof (NextBaseFee_bounded_step TESTNET 5 20000000000 8000000 8000000
    ltac:(reflexivity) ltac:(vm_compute; congruence) ltac:(lia) ltac:(vm_compute; congruence))
    as (_ & Habs & _ & Hup & _).
  split; [lia|]. apply Hup. by vm_compute.
Defined.
