(* ===== verification/StateTrie.v ===== *)
(** * statetrie: the sparse Merkle tree committing to the state

    The package statetrie/statetrie.go: node hashing, storage keys, [Update],
    [Root], [Prove] and [Verify], over the [NodeStore] interface and its
    in-memory implementation.  The theorems relate the incremental store to
    a recursive reference tree and show proofs complete, and sound up to an
    exhibited hash collision. *)

From S2P Require Import Prelude.

Definition Depth : nat := 256.

Definition DomainBalance : byte := Zbyte 1.
Definition DomainKey : byte := Zbyte 2.
Definition DomainContract : byte := Zbyte 3.
Definition DomainCommit : byte := Zbyte 4.
Definition DomainBeacon : byte := Zbyte 5.

Definition leafTag : byte := Zbyte 0.
Definition internalTag : byte := Zbyte 1.

(** The interface [NodeStore]; [Get] returns [None] for a nil slice. *)
Class NodeStore (St : Type) := {
  ns_Get : St -> bytes -> option bytes;
  ns_Put : St -> bytes -> bytes -> res St;
  ns_Delete : St -> bytes -> res St
}.

(** What the tree relies on: a successful write is a map update. *)
Class NodeStoreLaws (St : Type) `{NodeStore St} : Prop := {
  get_put : forall s s' k v k',
    ns_Put s k v = Ok s' -> ns_Get s' k' = if decide (k = k') then Some v else ns_Get s k';
  get_delete : forall s s' k k',
    ns_Delete s k = Ok s' -> ns_Get s' k' = if decide (k = k') then None else ns_Get s k'
}.

(** [MemStore]: a Go map, whose operations never fail. *)
Record MemStore := { m : gmap bytes bytes }.

Definition NewMemStore : MemStore := {| m := ∅ |}.
Definition MemStore_Get (s : MemStore) (key : bytes) : option bytes := m s !! key.
Definition MemStore_Put (s : MemStore) (key val : bytes) : res MemStore := Ok {| m := <[key := val]> (m s) |}.
Definition MemStore_Delete (s : MemStore) (key : bytes) : res MemStore := Ok {| m := delete key (m s) |}.

#[export] Instance MemStore_NodeStore : NodeStore MemStore :=
  {| ns_Get := MemStore_Get; ns_Put := MemStore_Put; ns_Delete := MemStore_Delete |}.

#[export] Instance MemStore_laws : NodeStoreLaws MemStore.
Proof.
  split; simpl; unfold MemStore_Get, MemStore_Put, MemStore_Delete; intros s s' k.
  - intros v k' [= <-]. simpl. apply lookup_insert.
  - intros k' [= <-]. simpl. apply lookup_delete.
Qed.

Definition MemStore_Len (s : MemStore) : nat := size (m s).

Section Tree.
Context `{Hasher}.

(** [make([]byte, 1+2*HashSize)] with a tag byte and two 32-byte fields. *)
Definition node_buf (tag : byte) (a b : bytes) : bytes :=
  let buf := tag :: zeros 64 in
  let buf := copy_range buf 1 65 a in
  copy_range buf 33 65 b.

Fixpoint defaults (h : nat) : bytes :=
  match h with
  | O => zeros 32
  | S h' => let d := defaults h' in Hash256 (node_buf internalTag d d)
  end.

Definition EmptyRoot : bytes := defaults Depth.

Definition LeafPath (domain : byte) (rawKey : bytes) : bytes := Hash256 (domain :: rawKey).

Definition ValueHash (encodedValue : bytes) : bytes := Hash256 encodedValue.

Definition ZeroHash : bytes := zeros 32.

Definition isZero (b : bytes) : bool := forallb (fun c => byteZ c =? 0) b.

Definition leafHash (path valueHash : bytes) : bytes :=
  if isZero valueHash then zeros 32 else Hash256 (node_buf leafTag path valueHash).

Definition internalHash (left right : bytes) : bytes := Hash256 (node_buf internalTag left right).

Definition pathBit (path : bytes) (i : nat) : Z :=
  Z.land (Z.shiftr (byteZ (path !!! (i / 8)%nat)) (7 - Z.of_nat (i mod 8))) 1.

Definition nodeKey (depth : nat) (path : bytes) : bytes :=
  let key := zeros 34 in
  let key := copy_range key 0 2 (be_bytes 2 (Z.of_nat depth)) in
  let full := (depth / 8)%nat in
  let key := copy_range key 2 (2 + full) (take full path) in
  let rem := (depth mod 8)%nat in
  if (rem =? 0)%nat then key
  else <[(2 + full)%nat := Zbyte (Z.land (byteZ (path !!! full)) (Z.shiftl 255 (8 - Z.of_nat rem) mod 256))]> key.

Definition siblingKey (depth : nat) (path : bytes) : bytes :=
  let key := nodeKey depth path in
  let i := (depth - 1)%nat in
  let j := (2 + i / 8)%nat in
  <[j := Zbyte (Z.lxor (byteZ (key !!! j)) (Z.shiftl 1 (7 - Z.of_nat (i mod 8))))]> key.

Context {St : Type} `{NodeStore St}.

Definition getNode (store : St) (key : bytes) (height : nat) : bytes :=
  match ns_Get store key with Some v => v | None => defaults height end.

Definition setNode (store : St) (key : bytes) (height : nat) (val : bytes) : res St :=
  if bool_decide (val = defaults height) then ns_Delete store key else ns_Put store key val.

(** One turn of the rehash loops of [Update] and [Verify]. *)
Definition fold_step (path : bytes) (depth : nat) (cur sib : bytes) : bytes :=
  if pathBit path (depth - 1) =? 0 then internalHash cur sib else internalHash sib cur.

(** The loop [for depth := Depth; depth >= 1; depth--]. *)
Fixpoint Update_loop (depth : nat) (store : St) (path cur : bytes) : res St :=
  match depth with
  | O => Ok store
  | S depth' =>
      let height := (Depth - depth)%nat in
      let sib := getNode store (siblingKey depth path) height in
      let cur := fold_step path depth cur sib in
      let! store := setNode store (nodeKey depth' path) (height + 1) cur in
      Update_loop depth' store path cur
  end.

Definition Update (store : St) (path valueHash : bytes) : res St :=
  let cur := leafHash path valueHash in
  let! store := setNode store (nodeKey Depth path) 0 cur in
  Update_loop Depth store path cur.

Definition Root (store : St) : bytes :=
  to_array 32 (getNode store (nodeKey 0 (zeros 32)) Depth).

(** [proof[height]] for height 0 .. Depth-1, i.e. depth Depth .. 1. *)
Definition Prove (store : St) (path : bytes) : list bytes :=
  (fun height => vec_to_list (to_array 32 (getNode store (siblingKey (Depth - height) path) height)))
    <$> seq 0 Depth.

Fixpoint Verify_loop (height : nat) (path cur : bytes) (proof : list bytes) : option bytes :=
  match proof with
  | [] => Some cur
  | sib :: proof' =>
      if negb (zlen sib =? HashSize) then None
      else Verify_loop (S height) path (fold_step path (Depth - height) cur sib) proof'
  end.

Definition Verify (root path valueHash : bytes) (proof : list bytes) : bool :=
  if negb (zlen root =? HashSize) || negb (zlen path =? HashSize)
     || negb (zlen valueHash =? HashSize) || negb (length proof =? Depth)%nat then false
  else match Verify_loop 0 path (leafHash path valueHash) proof with
       | None => false
       | Some cur => bool_decide (cur = root)
       end.

End Tree.

(** ** Paths as bit strings *)

Definition bits8 (b : byte) : list bool :=
  (fun i => Z.testbit (byteZ b) (7 - Z.of_nat i)) <$> seq 0 8.

Definition bits (l : bytes) : list bool := l ≫= bits8.

Definition all_bytes : list byte := Zbyte ∘ Z.of_nat <$> seq 0 256.

Lemma elem_of_all_bytes b : b ∈ all_bytes.
Proof.
  apply list_elem_of_fmap. exists (Z.to_nat (byteZ b)). pose proof (byteZ_range b) as Hb.
  unfold compose. rewrite Z2Nat.id by lia. split; [|apply elem_of_seq; lia].
  apply byteZ_inj. rewrite byteZ_Zbyte, Z.mod_small; lia.
Qed.

(** An equation about a byte (and a small index) is settled by checking all
    256 bytes. *)
Lemma byte_exhaust {A} `{EqDecision A} (f g : byte -> A) :
  forallb (fun b => bool_decide (f b = g b)) all_bytes = true -> forall b, f b = g b.
Proof.
  rewrite forallb_forall. intros HP b.
  by apply (bool_decide_eq_true_1 _), HP, list_elem_of_In, elem_of_all_bytes.
Qed.

Lemma byte_exhaust2 {A} `{EqDecision A} (f g : byte -> nat -> A) n :
  forallb (fun b => forallb (fun i => bool_decide (f b i = g b i)) (seq 0 n)) all_bytes = true ->
  forall b i, (i < n)%nat -> f b i = g b i.
Proof.
  rewrite forallb_forall. intros HP b i Hi.
  specialize (HP b). rewrite forallb_forall in HP.
  apply (bool_decide_eq_true_1 _), HP; [apply list_elem_of_In, elem_of_all_bytes|apply in_seq; lia].
Qed.

Lemma length_bits8 b : length (bits8 b) = 8%nat.
Proof. done. Qed.

Lemma bits8_of_byte b : Zbyte (foldl (fun a (x : bool) => 2 * a + (if x then 1 else 0)) 0 (bits8 b)) = b.
Proof. revert b. apply (byte_exhaust _ (fun b => b)). vm_compute. reflexivity. Qed.

Lemma bits8_mask b r : (r < 8)%nat ->
  bits8 (Zbyte (Z.land (byteZ b) (Z.shiftl 255 (8 - Z.of_nat r) mod 256)))
  = take r (bits8 b) ++ replicate (8 - r) false.
Proof.
  revert b r. apply (byte_exhaust2 (fun b r => bits8 (Zbyte (Z.land (byteZ b) _)))
    (fun b r => take r (bits8 b) ++ replicate (8 - r) false)).
  vm_compute. reflexivity.
Qed.

Lemma bits8_flip b k : (k < 8)%nat ->
  bits8 (Zbyte (Z.lxor (byteZ b) (Z.shiftl 1 (7 - Z.of_nat k)))) = alter negb k (bits8 b).
Proof.
  revert b k. apply (byte_exhaust2 (fun b k => bits8 (Zbyte (Z.lxor (byteZ b) _)))
    (fun b k => alter negb k (bits8 b))).
  vm_compute. reflexivity.
Qed.

Lemma length_bits l : length (bits l) = (8 * length l)%nat.
Proof. induction l as [|b l IH]; [done|]. unfold bits in *. cbn [mbind list_bind]. rewrite length_app, IH, length_bits8. simpl. lia. Qed.

Lemma bits_cons b l : bits (b :: l) = bits8 b ++ bits l.
Proof. done. Qed.

Lemma bits_app a b : bits (a ++ b) = bits a ++ bits b.
Proof. apply bind_app. Qed.

Lemma bits_inj a b : bits a = bits b -> a = b.
Proof.
  revert b. induction a as [|x a IH]; intros [|y b]; rewrite ?bits_cons; try done.
  intros E. apply app_inj_1 in E as [Ex E]; [|done].
  rewrite <-(bits8_of_byte x), Ex, bits8_of_byte. f_equal. auto.
Qed.

Lemma bits_zeros n : bits (zeros n) = replicate (8 * n) false.
Proof.
  induction n as [|n IH]; [done|]. replace (8 * S n)%nat with (8 + 8 * n)%nat by lia.
  change (zeros (S n)) with (Byte.x00 :: zeros n). rewrite bits_cons, IH, replicate_add. done.
Qed.

Lemma bits_take n l : bits (take n l) = take (8 * n) (bits l).
Proof.
  revert n. induction l as [|b l IH]; intros [|n]; rewrite ?take_nil; try done.
  rewrite firstn_cons, !bits_cons, IH.
  replace (8 * S n)%nat with (length (bits8 b) + 8 * n)%nat by (simpl; lia).
  by rewrite take_app_add.
Qed.

Lemma bits_drop n l : bits (drop n l) = drop (8 * n) (bits l).
Proof.
  revert n. induction l as [|b l IH]; intros [|n]; rewrite ?drop_nil; try done.
  rewrite skipn_cons, !bits_cons, IH.
  replace (8 * S n)%nat with (length (bits8 b) + 8 * n)%nat by (simpl; lia).
  by rewrite drop_app_add.
Qed.

Lemma bits_insert_flip l j k x :
  l !! j = Some x -> (k < 8)%nat ->
  bits (<[j := Zbyte (Z.lxor (byteZ x) (Z.shiftl 1 (7 - Z.of_nat k)))]> l) = alter negb (8 * j + k)%nat (bits l).
Proof.
  revert j. induction l as [|b l IH]; intros [|j]; [done..| |].
  - intros [= ->] Hk. cbn [insert list_insert]. rewrite !bits_cons, bits8_flip by done.
    by rewrite alter_app_l by (rewrite length_bits8; lia).
  - intros Hj Hk. cbn [insert list_insert lookup list_lookup] in *. rewrite !bits_cons.
    replace (8 * S j + k)%nat with (length (bits8 b) + (8 * j + k))%nat by (simpl; lia).
    rewrite alter_app_r. f_equal. by apply IH.
Qed.

Lemma bits_lookup l i b :
  l !! (i / 8)%nat = Some b -> bits l !! i = bits8 b !! (i mod 8)%nat.
Proof.
  intros Hb. rewrite <-(take_drop_middle _ _ _ Hb), bits_app, bits_cons.
  pose proof (lookup_lt_Some _ _ _ Hb). pose proof (Nat.div_mod i 8). pose proof (Nat.mod_upper_bound i 8).
  rewrite lookup_app_r; rewrite length_bits, length_take, Nat.min_l by lia; [|lia].
  rewrite lookup_app_l by (rewrite length_bits8; lia). f_equal. lia.
Qed.

Lemma pathBit_bits p i (b : bool) :
  bits p !! i = Some b -> pathBit p i = if b then 1 else 0.
Proof.
  intros Hi. pose proof (lookup_lt_Some _ _ _ Hi) as Hl. rewrite length_bits in Hl.
  destruct (lookup_lt_is_Some_2 p (i / 8)%nat) as [x Hx].
  { apply Nat.Div0.div_lt_upper_bound. lia. }
  rewrite (bits_lookup _ _ _ Hx) in Hi. unfold pathBit.
  rewrite (list_lookup_total_correct _ _ _ Hx). unfold bits8 in Hi.
  rewrite list_lookup_fmap, lookup_seq_lt in Hi by (apply Nat.mod_upper_bound; lia).
  injection Hi as <-. pose proof (Nat.mod_upper_bound i 8).
  change 1 with (Z.ones 1). rewrite Z.land_ones by lia. change (2 ^ 1) with 2.
  rewrite <-Z.bit0_mod, Z.shiftr_spec by lia. simpl (0 + _). replace (0 + (7 - Z.of_nat (i mod 8))) with (7 - Z.of_nat (i mod 8)) by lia.
  simpl. by destruct (Z.testbit _ _).
Qed.

(** Rebuilds a byte string from its bits. *)
Fixpoint bytes_of_bits (n : nat) (bs : list bool) : bytes :=
  match n with
  | O => []
  | S n' => Zbyte (foldl (fun a (x : bool) => 2 * a + (if x then 1 else 0)) 0 (take 8 bs))
            :: bytes_of_bits n' (drop 8 bs)
  end.

Lemma bytes_of_bits_bits l : bytes_of_bits (length l) (bits l) = l.
Proof.
  induction l as [|b l IH]; [done|]. cbn [length bytes_of_bits]. rewrite bits_cons.
  rewrite take_app_length' by done. rewrite drop_app_length' by done. by rewrite bits8_of_byte, IH.
Qed.

Lemma bits_bytes_of_bits n bs : length bs = (8 * n)%nat -> bits (bytes_of_bits n bs) = bs.
Proof.
  revert bs. induction n as [|n IH]; intros bs Hl.
  { symmetry. apply length_zero_iff_nil. lia. }
  destruct bs as [|b0 [|b1 [|b2 [|b3 [|b4 [|b5 [|b6 [|b7 bs]]]]]]]]; try (simpl in Hl; lia).
  cbn [bytes_of_bits]. rewrite bits_cons, skipn_cons, !skipn_cons, skipn_O.
  rewrite IH by (simpl in Hl; lia).
  rewrite !firstn_cons, firstn_O.
  trans ([b0; b1; b2; b3; b4; b5; b6; b7] ++ bs); [|done]. f_equal.
  destruct b0, b1, b2, b3, b4, b5, b6, b7; vm_compute; reflexivity.
Qed.

Lemma length_bytes_of_bits n bs : length (bytes_of_bits n bs) = n.
Proof. revert bs. induction n as [|n IH]; intros bs; [done|]. simpl. by rewrite IH. Qed.

(** ** Node keys

    A key is the depth followed by the path's prefix, padded with zeros. *)

Lemma nodeKey_shape d p : (d <= 256)%nat -> length p = 32%nat ->
  exists body, nodeKey d p = be_bytes 2 (Z.of_nat d) ++ body
    /\ length body = 32%nat /\ bits body = take d (bits p) ++ replicate (256 - d) false.
Proof.
  intros Hd Hp. unfold nodeKey.
  pose proof (Nat.div_mod d 8 ltac:(lia)) as Hdm. pose proof (Nat.mod_upper_bound d 8 ltac:(lia)) as Hm.
  assert (Hfull : (d / 8 <= 32)%nat) by (apply Nat.Div0.div_le_upper_bound; lia).
  set (full := (d / 8)%nat) in *. set (rem := (d mod 8)%nat) in *.
  set (hd := be_bytes 2 (Z.of_nat d)).
  assert (Hhd : length hd = 2%nat) by apply length_be_bytes.
  assert (E1 : copy_range (zeros 34) 0 2 hd = hd ++ zeros 32).
  { unfold copy_range. rewrite (take_ge hd) by lia. rewrite Hhd. done. }
  assert (E2 : copy_range (hd ++ zeros 32) 2 (2 + full) (take full p) = hd ++ take full p ++ zeros (32 - full)).
  { unfold copy_range. rewrite take_app_length' by done. f_equal.
    replace (2 + full - 2)%nat with full by lia.
    rewrite take_take, Nat.min_id. f_equal.
    rewrite length_take, Nat.min_l by lia. rewrite drop_app_ge by lia. rewrite Hhd.
    unfold zeros. rewrite drop_replicate. f_equal. lia. }
  rewrite E1, E2. destruct (Nat.eqb_spec rem 0) as [H0|H0].
  - exists (take full p ++ zeros (32 - full)). split; [done|]. split.
    { rewrite length_app, length_take, length_zeros. lia. }
    rewrite bits_app, bits_take, bits_zeros. f_equal; f_equal; lia.
  - destruct (lookup_lt_is_Some_2 p full) as [x Hx]; [lia|].
    rewrite (list_lookup_total_correct _ _ _ Hx).
    set (y := Zbyte _). exists (take full p ++ y :: zeros (31 - full)).
    split; [|split].
    + rewrite (insert_app_r_alt hd) by lia. f_equal.
      rewrite insert_app_r_alt by (rewrite length_take; lia). f_equal.
      rewrite Hhd, length_take, Nat.min_l by lia.
      replace (2 + full - 2 - full)%nat with 0%nat by lia.
      replace (32 - full)%nat with (S (31 - full)) by lia. done.
    + rewrite length_app, length_take. cbn [length]. rewrite length_zeros. lia.
    + rewrite bits_app, bits_take, bits_cons, bits_zeros. subst y. rewrite bits8_mask by done.
      rewrite <-app_assoc, <-replicate_add. rewrite app_assoc. f_equal.
      * replace d with (8 * full + rem)%nat at 1 by lia.
        rewrite <-(take_drop (8 * full) (bits p)) at 2.
        rewrite take_app_add' by (rewrite length_take, length_bits; lia). f_equal.
        rewrite <-bits_drop, (drop_S _ _ _ Hx), bits_cons.
        rewrite take_app_le by (rewrite length_bits8; lia). done.
      * f_equal. lia.
Qed.

(** Two nodes share a key exactly when they are the same tree node. *)
Lemma nodeKey_eq d e p q :
  (d <= 256)%nat -> (e <= 256)%nat -> length p = 32%nat -> length q = 32%nat ->
  nodeKey d p = nodeKey e q <-> d = e /\ take d (bits p) = take e (bits q).
Proof.
  intros Hd He Hp Hq.
  destruct (nodeKey_shape d p) as (b1 & E1 & L1 & B1); [done..|].
  destruct (nodeKey_shape e q) as (b2 & E2 & L2 & B2); [done..|].
  rewrite E1, E2. split.
  - intros E. apply app_inj_1 in E as [Eh Eb]; [|by rewrite !length_be_bytes].
    apply (f_equal be_Z) in Eh. rewrite !be_Z_be_bytes, !Z.mod_small in Eh by lia.
    assert (d = e) as -> by lia. split; [done|]. apply (f_equal bits) in Eb. rewrite B1, B2 in Eb.
    apply app_inj_1 in Eb as [Eb _]; [done|].
    rewrite !length_take, !length_bits, Hp, Hq. done.
  - intros [-> E]. f_equal. apply bits_inj. by rewrite B1, B2, E.
Qed.

(** The path that differs from [p] in bit [i]. *)
Definition flip_bit (p : bytes) (i : nat) : bytes :=
  <[(i / 8)%nat := Zbyte (Z.lxor (byteZ (p !!! (i / 8)%nat)) (Z.shiftl 1 (7 - Z.of_nat (i mod 8))))]> p.

Lemma length_flip_bit p i : length (flip_bit p i) = length p.
Proof. apply length_insert. Qed.

Lemma bits_flip_bit p i : (i < 8 * length p)%nat -> bits (flip_bit p i) = alter negb i (bits p).
Proof.
  intros Hi. destruct (lookup_lt_is_Some_2 p (i / 8)%nat) as [x Hx].
  { apply Nat.Div0.div_lt_upper_bound. lia. }
  unfold flip_bit. rewrite (list_lookup_total_correct _ _ _ Hx).
  rewrite bits_insert_flip; [|done|apply Nat.mod_upper_bound; lia].
  f_equal. rewrite <-Nat.div_mod_eq. done.
Qed.

Lemma siblingKey_nodeKey d p : (1 <= d <= 256)%nat -> length p = 32%nat ->
  siblingKey d p = nodeKey d (flip_bit p (d - 1)).
Proof.
  intros Hd Hp. unfold siblingKey.
  destruct (nodeKey_shape d p) as (b1 & E1 & L1 & B1); [lia|done|].
  destruct (nodeKey_shape d (flip_bit p (d - 1))) as (b2 & E2 & L2 & B2); [lia|by rewrite length_flip_bit|].
  rewrite E1, E2. set (i := (d - 1)%nat) in *.
  assert (Hj : (i / 8 < 32)%nat) by (apply Nat.Div0.div_lt_upper_bound; lia).
  destruct (lookup_lt_is_Some_2 b1 (i / 8)%nat) as [x Hx]; [lia|].
  rewrite insert_app_r_alt by (rewrite length_be_bytes; lia).
  rewrite length_be_bytes. f_equal. replace (2 + i / 8 - 2)%nat with (i / 8)%nat by lia.
  rewrite (list_lookup_total_correct _ _ x).
  2: { rewrite lookup_app_r by (rewrite length_be_bytes; lia). rewrite length_be_bytes.
       by replace (2 + i / 8 - 2)%nat with (i / 8)%nat by lia. }
  apply bits_inj. rewrite bits_insert_flip; [|done|apply Nat.mod_upper_bound; lia].
  rewrite <-Nat.div_mod_eq, B1, B2. rewrite bits_flip_bit by lia.
  rewrite alter_app_l by (rewrite length_take, length_bits; lia). f_equal.
  rewrite take_alter_lt by lia. done.
Qed.

(** ** The reference tree

    The tree the store represents: [V] gives the value hash of every path
    (all zeros when absent), [pre] is the prefix of a node and [n] its
    height. *)

Section Reference.
Context `{HH : Hasher}.

Fixpoint ref (V : bytes -> bytes) (n : nat) (pre : list bool) : bytes :=
  match n with
  | O => let p := bytes_of_bits 32 pre in leafHash p (V p)
  | S n' => internalHash (ref V n' (pre ++ [false])) (ref V n' (pre ++ [true]))
  end.

Definition upd (V : bytes -> bytes) (p v : bytes) : bytes -> bytes :=
  fun q => if decide (q = p) then v else V q.

Lemma length_leafHash p v : length (leafHash p v) = 32%nat.
Proof. unfold leafHash. destruct (isZero v); [apply length_zeros|apply length_Hash256]. Qed.

Lemma length_ref V n pre : length (ref V n pre) = 32%nat.
Proof. destruct n; simpl; [apply length_leafHash|apply length_Hash256]. Qed.

Lemma ref_leaf V p : length p = 32%nat -> ref V 0 (bits p) = leafHash p (V p).
Proof. intros Hp. cbn [ref]. by rewrite <-Hp, bytes_of_bits_bits. Qed.

Lemma ref_empty n pre : ref (fun _ => ZeroHash) n pre = defaults n.
Proof.
  revert pre. induction n as [|n IH]; intros pre; [done|]. cbn [ref defaults]. by rewrite !IH.
Qed.

(** Subtrees away from [p] do not see an update at [p]. *)
Lemma ref_upd_other V p v n pre :
  (length pre + n = 256)%nat -> length p = 32%nat -> pre <> take (length pre) (bits p) ->
  ref (upd V p v) n pre = ref V n pre.
Proof.
  intros Hl Hp. revert pre Hl. induction n as [|n IH]; intros pre Hl Hn; cbn [ref].
  - unfold upd. rewrite decide_False; [done|]. intros E. apply Hn.
    rewrite <-E, bits_bytes_of_bits by lia. by rewrite take_ge by lia.
  - assert (Hx : forall b, pre ++ [b] <> take (length (pre ++ [b])) (bits p)).
    { intros b E. apply Hn. apply (f_equal (take (length pre))) in E.
      rewrite take_app_length, take_take, length_app, Nat.min_l in E by (simpl; lia). done. }
    f_equal; apply IH; auto; rewrite length_app; simpl; lia.
Qed.

Lemma ref_upd_away V p v d q :
  (d <= 256)%nat -> length p = 32%nat -> length q = 32%nat -> take d (bits q) <> take d (bits p) ->
  ref (upd V p v) (256 - d) (take d (bits q)) = ref V (256 - d) (take d (bits q)).
Proof.
  intros Hd Hp Hq Hn. apply ref_upd_other; [|done|]; rewrite length_take, length_bits, Hq, Nat.min_l by lia;
    [lia|done].
Qed.

Lemma ref_ext V V' n pre : (forall p, V p = V' p) -> ref V n pre = ref V' n pre.
Proof. intros HV. revert pre. induction n as [|n IH]; intros pre; cbn [ref]; [by rewrite HV|by rewrite !IH]. Qed.

(** ** The store represents the reference tree *)

Context {St : Type} `{NS : NodeStore St} `{!NodeStoreLaws St}.

(** Node [d] on path [q] holds the reference hash. *)
Definition node_ok (V : bytes -> bytes) (s : St) (d : nat) (q : bytes) : Prop :=
  getNode s (nodeKey d q) (256 - d) = ref V (256 - d) (take d (bits q)).

Definition represents (s : St) (V : bytes -> bytes) : Prop :=
  forall d q, (d <= 256)%nat -> length q = 32%nat -> node_ok V s d q.

(** Only non-default nodes are stored. *)
Definition canonical (s : St) : Prop :=
  forall k x, ns_Get s k = Some x ->
    exists d q, (d <= 256)%nat /\ length q = 32%nat /\ k = nodeKey d q /\ x <> defaults (256 - d).

Lemma getNode_setNode s s' k h v k' :
  setNode s k h v = Ok s' ->
  getNode s' k' h = if decide (k = k') then v else getNode s k' h.
Proof.
  unfold setNode, getNode. case_bool_decide as Hv; intros E;
    rewrite ?(get_put _ _ _ _ _ E), ?(get_delete _ _ _ _ E); destruct (decide (k = k')); done.
Qed.

Lemma getNode_setNode_ne s s' k h v k' h' :
  setNode s k h v = Ok s' -> k <> k' -> getNode s' k' h' = getNode s k' h'.
Proof.
  unfold setNode, getNode. case_bool_decide as Hv; intros E Hk;
    rewrite ?(get_put _ _ _ _ _ E), ?(get_delete _ _ _ _ E); by rewrite decide_False.
Qed.

Lemma canonical_setNode s s' d q v :
  (d <= 256)%nat -> length q = 32%nat ->
  setNode s (nodeKey d q) (256 - d) v = Ok s' -> canonical s -> canonical s'.
Proof.
  intros Hd Hq E Hc k x. unfold setNode in E. case_bool_decide as Hv;
    rewrite ?(get_put _ _ _ _ _ E), ?(get_delete _ _ _ _ E); destruct (decide (_ = k)) as [<-|]; try done; try apply Hc.
  intros [= <-]. by exists d, q.
Qed.

(** Writing the node of height [256 - d] on [p]. *)
Lemma node_ok_setNode V V' s s' d p e q :
  (d <= 256)%nat -> (e <= 256)%nat -> length p = 32%nat -> length q = 32%nat ->
  setNode s (nodeKey d p) (256 - d) (ref V' (256 - d) (take d (bits p))) = Ok s' ->
  node_ok V s e q ->
  node_ok (if decide (e = d /\ take e (bits q) = take d (bits p)) then V' else V) s' e q.
Proof.
  intros Hd He Hp Hq E Ho. unfold node_ok in *. destruct (decide _) as [[-> Et]|Hn].
  - rewrite (getNode_setNode _ _ _ _ _ _ E). rewrite decide_True; [by rewrite Et|].
    apply nodeKey_eq; auto.
  - rewrite (getNode_setNode_ne _ _ _ _ _ _ _ E); [done|]. intros Ek. apply Hn.
    apply nodeKey_eq in Ek as [-> Et]; auto.
Qed.

(** The two children of the node at depth [d - 1] on [p]. *)
Lemma ref_fold_step V d p :
  (1 <= d <= 256)%nat -> length p = 32%nat ->
  fold_step p d (ref V (256 - d) (take d (bits p))) (ref V (256 - d) (take d (bits (flip_bit p (d - 1)))))
  = ref V (256 - (d - 1)) (take (d - 1) (bits p)).
Proof.
  intros Hd Hp. destruct (lookup_lt_is_Some_2 (bits p) (d - 1)) as [b Hb]; [rewrite length_bits; lia|].
  unfold fold_step. rewrite (pathBit_bits _ _ _ Hb).
  replace (256 - (d - 1))%nat with (S (256 - d)) by lia. cbn [ref].
  rewrite bits_flip_bit by lia. rewrite take_alter_lt by lia.
  assert (Et : take d (bits p) = take (d - 1) (bits p) ++ [b]).
  { replace d with (S (d - 1)) at 1 by lia. by apply take_S_r. }
  rewrite Et. rewrite alter_app_r_alt by (rewrite length_take, length_bits; lia).
  rewrite length_take, length_bits, Nat.min_l by lia. rewrite Nat.sub_diag.
  destruct b; done.
Qed.

(** The rehash loop carries the update from depth [d] to the root: nodes at
    depth [d] and below already hold the new tree, those above the old. *)
Lemma Update_loop_represents V p v d s s' :
  (d <= 256)%nat -> length p = 32%nat ->
  (forall e q, (e <= 256)%nat -> length q = 32%nat ->
     node_ok (if decide (d <= e)%nat then upd V p v else V) s e q) ->
  Update_loop d s p (ref (upd V p v) (256 - d) (take d (bits p))) = Ok s' ->
  represents s' (upd V p v).
Proof.
  intros Hd Hp. revert s Hd. induction d as [|d IH]; intros s Hd Hs E; cbn [Update_loop] in E.
  { injection E as <-. intros e q He Hq. specialize (Hs e q He Hq). rewrite decide_True in Hs by lia. done. }
  open_ok E. rewrite siblingKey_nodeKey in Hr, E by lia.
  pose proof (Hs (S d) (flip_bit p (S d - 1)) Hd ltac:(by rewrite length_flip_bit)) as Hsib.
  rewrite decide_True in Hsib by lia. unfold node_ok in Hsib. unfold Depth in *.
  rewrite Hsib, ref_fold_step in Hr, E by lia.
  replace (S d - 1)%nat with d in Hr, E by lia.
  replace (256 - S d + 1)%nat with (256 - d)%nat in Hr by lia.
  apply (IH r); [lia| |done]. intros e q He Hq.
  pose proof (node_ok_setNode _ _ _ _ d p e q ltac:(lia) He Hp Hq Hr (Hs e q He Hq)) as Ho.
  destruct (decide (e = d /\ _)) as [[-> Et]|Hn]; [by rewrite decide_True by lia|].
  destruct (decide (S d <= e)%nat); [by rewrite decide_True by lia|].
  destruct (decide (d <= e)%nat); [|done]. assert (e = d) as -> by lia.
  unfold node_ok in *. rewrite ref_upd_away; [exact Ho|done..|]. intros Et. by apply Hn.
Qed.

Lemma Update_represents V s s' p v :
  length p = 32%nat -> represents s V -> Update s p v = Ok s' -> represents s' (upd V p v).
Proof.
  intros Hp Hs E. unfold Update in E. open_ok E. unfold Depth in *.
  assert (Hleaf : leafHash p v = ref (upd V p v) (256 - 256) (take 256 (bits p))).
  { change (256 - 256)%nat with 0%nat. rewrite take_ge by (rewrite length_bits; lia).
    rewrite ref_leaf by done. unfold upd. by rewrite decide_True. }
  rewrite Hleaf in Hr, E.
  apply (Update_loop_represents V p v 256 r s'); [lia|done| |done]. intros e q He Hq.
  pose proof (node_ok_setNode _ _ _ _ 256 p e q ltac:(lia) He Hp Hq Hr (Hs e q He Hq)) as Ho.
  destruct (decide (e = 256%nat /\ _)) as [[-> Et]|Hn]; [by rewrite decide_True by lia|].
  destruct (decide (256 <= e)%nat); [|done]. assert (e = 256%nat) as -> by lia.
  unfold node_ok in *. rewrite ref_upd_away; [exact Ho|done..|]. intros Et. by apply Hn.
Qed.

Lemma Update_loop_canonical p d s s' cur :
  (d <= 256)%nat -> length p = 32%nat -> canonical s -> Update_loop d s p cur = Ok s' -> canonical s'.
Proof.
  intros Hd Hp. revert s cur Hd. induction d as [|d IH]; intros s cur Hd Hs E; cbn [Update_loop] in E.
  { by injection E as <-. }
  open_ok E. unfold Depth in *. replace (256 - S d + 1)%nat with (256 - d)%nat in Hr by lia.
  apply (IH r (fold_step p (S d) cur (getNode s (siblingKey (S d) p) (256 - S d)))); [lia| |exact E].
  eapply canonical_setNode; [|exact Hp|exact Hr|exact Hs]. lia.
Qed.

Lemma Update_canonical s s' p v :
  length p = 32%nat -> canonical s -> Update s p v = Ok s' -> canonical s'.
Proof.
  intros Hp Hs E. unfold Update in E. open_ok E.
  apply (Update_loop_canonical p Depth r s' (leafHash p v)); [unfold Depth; lia|done| |exact E].
  apply (canonical_setNode s r 256 p (leafHash p v)); [lia|done|exact Hr|exact Hs].
Qed.

(** A canonical store is determined by the tree it represents. *)
Lemma canonical_unique s1 s2 V :
  canonical s1 -> canonical s2 -> represents s1 V -> represents s2 V ->
  forall k, ns_Get s1 k = ns_Get s2 k.
Proof.
  assert (Hhalf : forall a b, canonical a -> represents a V -> represents b V ->
            forall k x, ns_Get a k = Some x -> ns_Get b k = Some x).
  { intros a b Ha Va Vb k x Hk. destruct (Ha _ _ Hk) as (d & q & Hd & Hq & -> & Hx).
    pose proof (Va d q Hd Hq) as E1. pose proof (Vb d q Hd Hq) as E2.
    unfold node_ok, getNode in E1, E2. rewrite Hk in E1. destruct (ns_Get b _); congruence. }
  intros C1 C2 V1 V2 k. apply option_eq. intros x. split; eauto.
Qed.

(** *** Sequences of updates *)

Definition run_updates (s : St) (us : list (bytes * bytes)) : res St :=
  res_fold (fun s '(p, v) => Update s p v) s us.

(** The last value written to each path. *)
Definition values_after (us : list (bytes * bytes)) : bytes -> bytes :=
  foldl (fun V '(p, v) => upd V p v) (fun _ => ZeroHash) us.

Lemma length_values_after us p :
  Forall (fun u => length u.1 = 32%nat /\ length u.2 = 32%nat) us -> length (values_after us p) = 32%nat.
Proof.
  unfold values_after. intros Hu.
  assert (G : forall V, (forall q, length (V q) = 32%nat) ->
            length (foldl (fun V '(p, v) => upd V p v) V us p) = 32%nat).
  { induction Hu as [|[q v] us [_ Hv] Hu IH]; intros V HV; [done|]. simpl. apply IH.
    intros r. unfold upd. by destruct (decide _). }
  apply G. intros. apply length_zeros.
Qed.

Definition empty_store (s : St) : Prop := forall k, ns_Get s k = None.

Lemma empty_represents s : empty_store s -> represents s (fun _ => ZeroHash).
Proof. intros Hs d q _ _. unfold node_ok, getNode. by rewrite Hs, ref_empty. Qed.

Lemma run_updates_ok us s s' V :
  Forall (fun u => length u.1 = 32%nat) us -> represents s V -> canonical s ->
  run_updates s us = Ok s' ->
  represents s' (foldl (fun V '(p, v) => upd V p v) V us) /\ canonical s'.
Proof.
  intros Hf. revert s V. induction Hf as [|[p v] us Hp Hf IH]; intros s V Hs Hc E; cbn in E.
  { injection E as <-. done. }
  apply res_bind_Ok in E as (s1 & E1 & E). simpl in Hp.
  apply (IH s1); [by eapply Update_represents|by eapply Update_canonical|done].
Qed.

Lemma run_updates_empty us s s' :
  Forall (fun u => length u.1 = 32%nat) us -> empty_store s -> run_updates s us = Ok s' ->
  represents s' (values_after us) /\ canonical s'.
Proof.
  intros Hf Hs. apply run_updates_ok; [done|by apply empty_represents|].
  intros k x. by rewrite Hs.
Qed.

Lemma Root_represents s V : represents s V -> Root s = ref V 256 [].
Proof.
  intros Hs. unfold Root. pose proof (Hs 0%nat (zeros 32) ltac:(lia) (length_zeros 32)) as E.
  unfold node_ok in E. change (256 - 0)%nat with 256%nat in E. unfold Depth. rewrite E, take_0.
  by rewrite to_array_list by apply length_ref.
Qed.

(** C7 - The incremental tree implements the recursive reference tree: after
    any sequence of [Update]s on an empty store, the root is the root of the
    256-level tree over the last value written to each path, and the stored
    nodes do not depend on the order or on overwritten values: another
    sequence with the same final values leaves the same root and the same
    nodes under every key. *)
Theorem Update_root_canonical s0 us s us' s' :
  empty_store s0 ->
  Forall (fun u => length u.1 = 32%nat) us -> Forall (fun u => length u.1 = 32%nat) us' ->
  run_updates s0 us = Ok s -> run_updates s0 us' = Ok s' ->
  Root s = ref (values_after us) 256 []
  /\ ((forall p, values_after us p = values_after us' p) ->
      Root s = Root s' /\ forall k, ns_Get s k = ns_Get s' k).
Proof.
  intros H0 Hu Hu' E E'.
  destruct (run_updates_empty _ _ _ Hu H0 E) as [Hr Hc].
  destruct (run_updates_empty _ _ _ Hu' H0 E') as [Hr' Hc'].
  split; [by apply Root_represents|]. intros HV.
  assert (Hk : forall k, ns_Get s k = ns_Get s' k).
  { apply canonical_unique with (V := values_after us); try done.
    intros d q Hd Hq. unfold node_ok. rewrite (Hr' d q Hd Hq). by apply ref_ext. }
  split; [|done]. unfold Root, getNode. by rewrite Hk.
Qed.

(** *** Merkle branches *)

(** [fold_step] hashes this 65-byte buffer. *)
Definition fold_pre (path : bytes) (depth : nat) (cur sib : bytes) : bytes :=
  if pathBit path (depth - 1) =? 0 then node_buf internalTag cur sib else node_buf internalTag sib cur.

Lemma fold_step_pre p d c x : fold_step p d c x = Hash256 (fold_pre p d c x).
Proof. unfold fold_step, fold_pre, internalHash. by destruct (_ =? _). Qed.

Lemma node_buf_shape tag a b : length a = 32%nat -> length b = 32%nat -> node_buf tag a b = tag :: a ++ b.
Proof.
  intros Ha Hb. unfold node_buf.
  assert (E : copy_range (tag :: zeros 64) 1 65 a = tag :: a ++ zeros 32).
  { unfold copy_range. rewrite (take_ge a) by lia. rewrite Ha. done. }
  rewrite E. unfold copy_range. rewrite (take_ge b) by lia. rewrite Hb.
  change (take 33 (tag :: a ++ zeros 32)) with (tag :: take 32 (a ++ zeros 32)).
  rewrite take_app_length' by done. rewrite drop_ge; [by rewrite app_nil_r|].
  cbn [length]. rewrite length_app, length_zeros. lia.
Qed.

Lemma node_buf_inj tag tag' a b a' b' :
  length a = 32%nat -> length b = 32%nat -> length a' = 32%nat -> length b' = 32%nat ->
  node_buf tag a b = node_buf tag' a' b' -> tag = tag' /\ a = a' /\ b = b'.
Proof.
  intros Ha Hb Ha' Hb'. rewrite !node_buf_shape by done. intros [= -> E].
  by apply app_inj_1 in E as [-> ->]; [|congruence].
Qed.

Lemma fold_pre_inj p d c x c' x' :
  length c = 32%nat -> length x = 32%nat -> length c' = 32%nat -> length x' = 32%nat ->
  fold_pre p d c x = fold_pre p d c' x' -> c = c'.
Proof.
  intros Hc Hx Hc' Hx'. unfold fold_pre.
  destruct (_ =? _); intros E; apply node_buf_inj in E as (_ & ? & ?); congruence.
Qed.

Lemma zlen_32 (b : bytes) : length b = 32%nat -> (zlen b =? HashSize) = true.
Proof. intros Hb. unfold zlen. by rewrite Hb. Qed.

Lemma zlen_32_inv (b : bytes) : (zlen b =? HashSize) = true -> length b = 32%nat.
Proof. unfold zlen, HashSize. rewrite Z.eqb_eq. lia. Qed.

(** Folding the branch of [Prove] from height [h] on. *)
Lemma Verify_loop_complete s V p h k :
  represents s V -> length p = 32%nat -> (h + k = 256)%nat ->
  Verify_loop h p (ref V h (take (256 - h) (bits p)))
    ((fun height => vec_to_list (to_array 32 (getNode s (siblingKey (256 - height) p) height))) <$> seq h k)
  = Some (ref V 256 []).
Proof.
  intros Hs Hp. revert h. induction k as [|k IH]; intros h Hk.
  { assert (h = 256%nat) as -> by lia. cbn [seq fmap list_fmap Verify_loop].
    by rewrite Nat.sub_diag, take_0. }
  cbn [seq fmap list_fmap Verify_loop].
  rewrite zlen_32 by apply length_vec_to_list. cbn [negb].
  rewrite siblingKey_nodeKey by lia.
  pose proof (Hs (256 - h)%nat (flip_bit p (256 - h - 1)) ltac:(lia) ltac:(by rewrite length_flip_bit)) as Hsib.
  unfold node_ok in Hsib. replace (256 - (256 - h))%nat with h in Hsib by lia.
  rewrite Hsib, to_array_list by apply length_ref.
  pose proof (ref_fold_step V (256 - h) p ltac:(lia) Hp) as Hf.
  replace (256 - (256 - h))%nat with h in Hf by lia. unfold Depth. rewrite Hf.
  replace (256 - (256 - h - 1))%nat with (S h) by lia.
  replace (256 - h - 1)%nat with (256 - S h)%nat by lia. apply IH. lia.
Qed.

Lemma Prove_Verify s V p :
  represents s V -> length p = 32%nat -> length (V p) = 32%nat ->
  Verify (Root s) p (V p) (Prove s p) = true.
Proof.
  intros Hs Hp Hv. unfold Verify.
  rewrite (Root_represents _ _ Hs), !zlen_32 by (done || apply length_ref).
  assert (Hl : length (Prove s p) = Depth) by (unfold Prove; by rewrite length_fmap, length_seq).
  rewrite Hl, Nat.eqb_refl. cbn [negb orb]. unfold Prove.
  pose proof (Verify_loop_complete s V p 0 256 Hs Hp eq_refl) as E.
  rewrite take_ge, ref_leaf in E by (rewrite ?length_bits; lia).
  unfold Depth. rewrite E. by rewrite bool_decide_eq_true_2.
Qed.

(** The level at which two branches with the same top first agree. *)
Fixpoint branch_collision (h : nat) (path c1 c2 : bytes) (pr1 pr2 : list bytes) : bytes * bytes :=
  match pr1, pr2 with
  | x1 :: pr1', x2 :: pr2' =>
      let n1 := fold_pre path (Depth - h) c1 x1 in
      let n2 := fold_pre path (Depth - h) c2 x2 in
      if bool_decide (Hash256 n1 = Hash256 n2) then (n1, n2)
      else branch_collision (S h) path (Hash256 n1) (Hash256 n2) pr1' pr2'
  | _, _ => (c1, c2)
  end.

(** Computes, from two accepted branches for different values at one path,
    two strings hashed by the verifier. *)
Definition trie_collision (path v1 v2 : bytes) (pr1 pr2 : list bytes) : bytes * bytes :=
  if bool_decide (leafHash path v1 = leafHash path v2)
  then if isZero v1 then (node_buf leafTag path v2, []) else (node_buf leafTag path v1, node_buf leafTag path v2)
  else branch_collision 0 path (leafHash path v1) (leafHash path v2) pr1 pr2.

Lemma branch_collision_ok h p c1 c2 pr1 pr2 top :
  length pr1 = length pr2 -> length c1 = 32%nat -> length c2 = 32%nat -> c1 <> c2 ->
  Verify_loop h p c1 pr1 = Some top -> Verify_loop h p c2 pr2 = Some top ->
  is_collision (branch_collision h p c1 c2 pr1 pr2).
Proof.
  revert h c1 c2 pr2. induction pr1 as [|x1 pr1 IH]; intros h c1 c2 [|x2 pr2]; try done.
  { simpl. intros. congruence. }
  intros [= Hl] H1' H2' Hn. cbn [Verify_loop branch_collision].
  destruct (zlen x1 =? HashSize) eqn:L1; [|done]. destruct (zlen x2 =? HashSize) eqn:L2; [|done].
  cbn [negb]. apply zlen_32_inv in L1, L2. rewrite !fold_step_pre. case_bool_decide as Hh.
  - intros _ _. split; [|done]. simpl. intros E. by apply fold_pre_inj in E.
  - apply IH; try done; apply length_Hash256.
Qed.

Lemma isZero_zeros v : isZero v = true -> v = zeros (length v).
Proof.
  induction v as [|x v IH]; [done|]. simpl. intros Hz. bools. rewrite IH at 1 by done.
  change (zeros (S (length v))) with (Byte.x00 :: zeros (length v)). f_equal. by apply byteZ_inj.
Qed.

Lemma Verify_inv root p v pr :
  Verify root p v pr = true ->
  length p = 32%nat /\ length v = 32%nat /\ length pr = Depth /\ Verify_loop 0 p (leafHash p v) pr = Some root.
Proof.
  unfold Verify. destruct (_ || _ || _ || _) eqn:G; [done|]. bools.
  destruct (Verify_loop _ _ _ _) as [cur|]; [|done]. intros E. bools. subst cur.
  unfold zlen, HashSize in *. split_and!; [lia..| |done]. by apply Nat.eqb_eq.
Qed.

Lemma Verify_two_values root p v1 v2 pr1 pr2 :
  Verify root p v1 pr1 = true -> Verify root p v2 pr2 = true -> v1 <> v2 ->
  let xy := trie_collision p v1 v2 pr1 pr2 in is_collision xy \/ Hash256 xy.1 = zeros 32.
Proof.
  intros (Hp & L1 & P1 & E1)%Verify_inv (_ & L2 & P2 & E2)%Verify_inv Hn.
  unfold trie_collision. case_bool_decide as Hl.
  - unfold leafHash in Hl. destruct (isZero v1) eqn:Z1, (isZero v2) eqn:Z2; cbn [fst].
    + apply isZero_zeros in Z1, Z2. congruence.
    + by right.
    + by right.
    + left. split; [|done]. simpl. intros E. by apply node_buf_inj in E as (_ & _ & ?).
  - left. eapply branch_collision_ok; eauto using length_leafHash. congruence.
Qed.

(** Proofs are complete and binding.  In every store reached by updates
    from the empty one, the branch [Prove] returns for a path verifies
    against the root with exactly the last value written there ([zeros32],
    a proof of absence, if none or deleted); and if any other value verifies
    against that root with any branch, [trie_collision] computes from the
    two branches a pair of distinct strings with the same hash, or a string
    hashing to all zeros. *)
Theorem Prove_Verify_complete_and_binding s0 us s p v pr :
  empty_store s0 -> Forall (fun u => length u.1 = 32%nat /\ length u.2 = 32%nat) us -> run_updates s0 us = Ok s ->
  length p = 32%nat ->
  Verify (Root s) p (values_after us p) (Prove s p) = true
  /\ (Verify (Root s) p v pr = true -> v <> values_after us p ->
      let xy := trie_collision p v (values_after us p) pr (Prove s p) in
      is_collision xy \/ Hash256 xy.1 = zeros 32).
Proof.
  intros H0 Hu E Hp.
  destruct (run_updates_empty us s0 s) as [Hr _]; [|done..|].
  { eapply Forall_impl; [exact Hu|]. by intros ? [? ?]. }
  assert (Hc : Verify (Root s) p (values_after us p) (Prove s p) = true).
  { apply Prove_Verify; [done..|]. by apply length_values_after. }
  split; [done|]. intros Hv Hn. by eapply Verify_two_values.
Qed.

End Reference.

(** The in-memory store never fails, so neither do updates on it. *)
Section MemTotal.
Context `{HH : Hasher}.

Lemma MemStore_setNode_ok (s : MemStore) k h v : exists s', setNode s k h v = Ok s'.
Proof. unfold setNode. case_bool_decide; eexists; reflexivity. Qed.

Lemma MemStore_Update_ok (s : MemStore) p v : exists s', Update s p v = Ok s'.
Proof.
  unfold Update. destruct (MemStore_setNode_ok s (nodeKey Depth p) 0 (leafHash p v)) as [s1 ->].
  cbn [res_bind]. generalize (leafHash p v). generalize s1. generalize Depth.
  intros d. induction d as [|d IH]; intros s2 cur; [by eexists|]. cbn [Update_loop].
  match goal with |- context [setNode s2 ?k ?h ?x] => destruct (MemStore_setNode_ok s2 k h x) as [s3 ->] end.
  apply IH.
Qed.

Lemma MemStore_run_updates_ok us (s : MemStore) : exists s', run_updates s us = Ok s'.
Proof.
  revert s. induction us as [|[p v] us IH]; intros s; [by eexists|]. cbn.
  destruct (MemStore_Update_ok s p v) as [s1 ->]. apply IH.
Qed.
End MemTotal.

(** ** Witnesses *)

(** A toy digest that mixes the first bytes of the two fields of a node. *)
Definition toy_hash : Hasher := fun b =>
  to_array 32 [Zbyte (byteZ (b !!! 0%nat) + 3 * byteZ (b !!! 1%nat) + 5 * byteZ (b !!! 33%nat) + 1)].

Definition path_a : bytes := Zbyte 128 :: zeros 31.
Definition path_b : bytes := zeros 31 ++ [Zbyte 3].
Definition val_a : bytes := replicate 32 (Zbyte 1).
Definition val_b : bytes := replicate 32 (Zbyte 2).

Lemma NewMemStore_empty : empty_store NewMemStore.
Proof. intros k. apply lookup_empty. Qed.

Definition updates_1 := [(path_a, val_b); (path_b, val_b); (path_a, val_a)].
Definition updates_2 := [(path_b, val_b); (path_a, val_a)].

Lemma Update_root_canonical_witness :
  exists s s' : MemStore,
    run_updates (HH := toy_hash) NewMemStore updates_1 = Ok s
    /\ run_updates (HH := toy_hash) NewMemStore updates_2 = Ok s'
    /\ Root (H := toy_hash) s = Root (H := toy_hash) s'.
Proof.
  destruct (MemStore_run_updates_ok (HH := toy_hash) updates_1 NewMemStore) as [s E1].
  destruct (MemStore_run_updates_ok (HH := toy_hash) updates_2 NewMemStore) as [s' E2].
  exists s, s'. split; [exact E1|]. split; [exact E2|].
  destruct (Update_root_canonical (HH := toy_hash) NewMemStore updates_1 s updates_2 s') as [_ Hroot];
    [exact NewMemStore_empty|repeat constructor|repeat constructor|exact E1|exact E2|].
  destruct Hroot as [Hroot _]; [|exact Hroot].
  intros p. unfold values_after, upd. simpl. repeat destruct (decide _); done.
Defined.

(** With a constant digest any two values verify against one root, so the
    binding half is exercised too. *)
Definition const_hash : Hasher := fun _ => to_array 32 val_a.

Lemma Prove_Verify_complete_and_binding_witness :
  exists s : MemStore, run_updates (HH := const_hash) NewMemStore updates_2 = Ok s
    /\ Verify (H := const_hash) (Root (H := const_hash) s) path_a (values_after updates_2 path_a)
         (Prove (H := const_hash) s path_a) = true
    /\ (let xy := trie_collision (HH := const_hash) path_a val_b (values_after updates_2 path_a)
                     (replicate 256 val_a) (Prove (H := const_hash) s path_a) in
        is_collision (H := const_hash) xy \/ Hash256 (H := const_hash) xy.1 = zeros 32).
Proof.
  destruct (MemStore_run_updates_ok (HH := const_hash) updates_2 NewMemStore) as [s E1].
  exists s. split; [exact E1|].
  destruct (Prove_Verify_complete_and_binding (HH := const_hash) NewMemStore updates_2 s path_a val_b (replicate 256 val_a))
    as [Hc Hb]; [exact NewMemStore_empty|repeat constructor|exact E1|reflexivity|].
  split; [exact Hc|]. apply Hb; [|done].
  destruct (run_updates_empty (HH := const_hash) updates_2 NewMemStore s) as [Hr _];
    [repeat constructor|exact NewMemStore_empty|exact E1|].
  rewrite (Root_represents (HH := const_hash) _ _ Hr).
  change (ref (HH := const_hash) (values_after updates_2) 256 []) with val_a.
  vm_compute. reflexivity.
Defined.
