(* ===== verification/Keys.v ===== *)
(** * Keys and addresses

    ngtypes/keys.go, keys_p256.go and address.go: the signature-scheme menu,
    key derivation from a seed, signing, verification and recovery, and the
    hash addresses.  The cryptographic libraries are the class [SigLibs]. *)

From S2P Require Import Prelude Params.

(** ** The libraries

    btcec (secp256k1), fndsa, mldsa44, slhdsa, x/crypto/sha3's SHAKE256,
    crypto/ecdsa over P-256, and base58. *)

Class SigLibs := {
  secp_priv : Type;
  mldsa_pub : Type;
  mldsa_priv : Type;
  slh_pub : Type;
  slh_priv : Type;
  (** the first [n] bytes squeezed after absorbing the argument *)
  shake256 : bytes -> nat -> bytes;
  secp_PrivKeyFromBytes : bytes -> secp_priv;
  secp_IsZero : secp_priv -> bool;
  secp_SerializeCompressed : secp_priv -> bytes;
  secp_SignCompact : secp_priv -> bytes -> bytes;
  (** the compressed key and the header's [compressed] flag *)
  secp_RecoverCompact : bytes -> bytes -> option (bytes * bool);
  (** key generation reads the SHAKE256 stream of the absorbed string *)
  fndsa_KeyGen : bytes -> option (bytes * bytes);
  (** signing draws randomness, given first *)
  fndsa_Sign : bytes -> bytes -> bytes -> bytes -> option bytes;
  fndsa_Verify : bytes -> bytes -> bytes -> bytes -> bool;
  mldsa_SeedSize : nat;
  mldsa_NewKeyFromSeed : bytes -> mldsa_pub * mldsa_priv;
  mldsa_MarshalBinary : mldsa_pub -> bytes;
  mldsa_UnmarshalBinary : bytes -> option mldsa_pub;
  mldsa_SignTo : mldsa_priv -> bytes -> bytes -> option bytes;
  mldsa_Verify : mldsa_pub -> bytes -> bytes -> bytes -> bool;
  slh_GenerateKey : bytes -> option (slh_pub * slh_priv);
  slh_MarshalBinary : slh_pub -> bytes;
  slh_UnmarshalBinary : bytes -> option slh_pub;
  slh_SignDeterministic : slh_priv -> bytes -> bytes -> option bytes;
  slh_Verify : slh_pub -> bytes -> bytes -> bytes -> bool;
  (** [ecdsa.Verify] over P-256: point, digest, r and s *)
  p256_Verify : Z * Z -> bytes -> Z -> Z -> bool;
  FastBase58Encoding : bytes -> string;
  FastBase58Decoding : string -> option bytes
}.

(** ** The scheme menu *)

Definition SigScheme := byte.

Definition SchemeSecp256k1 : SigScheme := Zbyte 1.
Definition SchemeFNDSA512 : SigScheme := Zbyte 16.
Definition SchemeMLDSA44 : SigScheme := Zbyte 17.
Definition SchemeSLHDSA128 : SigScheme := Zbyte 18.
Definition SchemeDefault : SigScheme := SchemeSecp256k1.
Definition SchemePQMin : SigScheme := Zbyte 16.
Definition SchemeSecp256r1 : SigScheme := Zbyte 2.

Definition IsPostQuantum (scheme : SigScheme) : bool := byteZ SchemePQMin <=? byteZ scheme.

Definition HasRecovery (scheme : SigScheme) : bool := bool_decide (scheme = SchemeSecp256k1).

Definition KeySeedSize : nat := 32.

Definition txDomain : bytes := str "ngcore".

(** The sizes the libraries declare: fndsa's [VerifyingKeySize(9)] and
    [SignatureSize(9)], mldsa44's [PublicKeySize] and [SignatureSize]. *)
Definition PubKeySize (scheme : SigScheme) : nat :=
  if bool_decide (scheme = SchemeSecp256k1) then 33
  else if bool_decide (scheme = SchemeFNDSA512) then 897
  else if bool_decide (scheme = SchemeMLDSA44) then 1312
  else if bool_decide (scheme = SchemeSLHDSA128) then 32
  else 0.

Definition SigSize (scheme : SigScheme) : nat :=
  if bool_decide (scheme = SchemeSecp256k1) then 65
  else if bool_decide (scheme = SchemeFNDSA512) then 666
  else if bool_decide (scheme = SchemeMLDSA44) then 2420
  else if bool_decide (scheme = SchemeSLHDSA128) then Z.to_nat 7856
  else 0.

(** ** Addresses *)

Definition Address := vec byte 32.

(** Addresses as map keys, through their bytes. *)
#[export] Program Instance array_countable n : Countable (vec byte n) :=
  {| encode v := encode (vec_to_list v); decode p := to_array n <$> decode p |}.
Next Obligation. intros n v. cbn beta. rewrite (decode_encode (vec_to_list v)). cbn. by rewrite to_array_vec. Qed.

Definition addressVersion : byte := Zbyte 1.

Definition zeroAddress : Address := to_array 32 [].

Definition Address_Bytes (a : Address) : bytes := vec_to_list a.

Definition Address_Equals (a other : Address) : bool := bool_decide (a = other).

Definition Address_SetBytes (b : bytes) : res Address :=
  if negb (zlen b =? AddressSize) then Err GoPanic else Ok (to_array 32 b).

Definition AddressOfPubKey `{Hasher} (scheme : SigScheme) (pubKey : bytes) : Address :=
  to_array 32 (Hash256 (addressVersion :: scheme :: pubKey)).

Section Keys.
Context `{SigLibs}.

Definition NewAddressFromBS58 (s : string) : res Address :=
  match FastBase58Decoding s with
  | None => Err ErrLibrary
  | Some raw => if negb (zlen raw =? AddressSize) then Err ErrAddressLenInvalid else Ok (to_array 32 raw)
  end.

Definition mustAddressFromBS58 (s : string) : res Address :=
  match NewAddressFromBS58 s with Ok addr => Ok addr | Err _ => Err GoPanic end.

Definition Address_BS58 (a : Address) : string := FastBase58Encoding (vec_to_list a).

(** ** Private keys *)

Record PrivateKey := {
  Scheme : SigScheme;
  seed : vec byte 32;
  secp : option secp_priv;
  fndsaSK : bytes;
  fndsaPK : bytes;
  mldsaPub : option mldsa_pub;
  mldsaPriv : option mldsa_priv;
  slhPub : option slh_pub;
  slhPriv : option slh_priv
}.

Definition bareKey (scheme : SigScheme) (sd : bytes) : PrivateKey :=
  {| Scheme := scheme; seed := to_array 32 sd; secp := None; fndsaSK := []; fndsaPK := [];
     mldsaPub := None; mldsaPriv := None; slhPub := None; slhPriv := None |}.

(** What the three [drbg.Write]s absorb. *)
Definition drbg (scheme : SigScheme) (sd : bytes) : bytes := str "ngcore-keygen" ++ [scheme] ++ sd.

Definition NewKeyFromSeed (scheme : SigScheme) (sd : bytes) : res PrivateKey :=
  reject negb (length sd =? KeySeedSize)%nat with ErrKeyInvalid ;
  let key := bareKey scheme sd in
  if bool_decide (scheme = SchemeSecp256k1) then
    let scalar := shake256 (drbg scheme sd) 32 in
    let k := secp_PrivKeyFromBytes scalar in
    if secp_IsZero k then Err ErrKeyInvalid
    else Ok {| Scheme := scheme; seed := seed key; secp := Some k; fndsaSK := []; fndsaPK := [];
               mldsaPub := None; mldsaPriv := None; slhPub := None; slhPriv := None |}
  else if bool_decide (scheme = SchemeFNDSA512) then
    match fndsa_KeyGen (drbg scheme sd) with
    | None => Err ErrLibrary
    | Some (sk, pk) =>
        Ok {| Scheme := scheme; seed := seed key; secp := None; fndsaSK := sk; fndsaPK := pk;
              mldsaPub := None; mldsaPriv := None; slhPub := None; slhPriv := None |}
    end
  else if bool_decide (scheme = SchemeMLDSA44) then
    let mseed := shake256 (drbg scheme sd) mldsa_SeedSize in
    let '(pub, priv) := mldsa_NewKeyFromSeed mseed in
    Ok {| Scheme := scheme; seed := seed key; secp := None; fndsaSK := []; fndsaPK := [];
          mldsaPub := Some pub; mldsaPriv := Some priv; slhPub := None; slhPriv := None |}
  else if bool_decide (scheme = SchemeSLHDSA128) then
    match slh_GenerateKey (drbg scheme sd) with
    | None => Err ErrLibrary
    | Some (pub, priv) =>
        Ok {| Scheme := scheme; seed := seed key; secp := None; fndsaSK := []; fndsaPK := [];
              mldsaPub := None; mldsaPriv := None; slhPub := Some pub; slhPriv := Some priv |}
    end
  else Err ErrSchemeUnknown.

(** The random seed [crypto/rand] returned is the argument. *)
Definition GenerateSchemeKey (rnd : bytes) (scheme : SigScheme) : res PrivateKey :=
  NewKeyFromSeed scheme rnd.

Definition GenerateKey (rnd : bytes) : res PrivateKey := GenerateSchemeKey rnd SchemeDefault.

Definition ParsePrivateKey (raw : bytes) : res PrivateKey :=
  match raw with
  | sc :: sd => if negb (length raw =? 1 + KeySeedSize)%nat then Err ErrKeyInvalid else NewKeyFromSeed sc sd
  | [] => Err ErrKeyInvalid
  end.

Definition Serialize (key : PrivateKey) : bytes := Scheme key :: vec_to_list (seed key).

(** A nil library key, or an unknown scheme, panics. *)
Definition PublicBytes (key : PrivateKey) : res bytes :=
  if bool_decide (Scheme key = SchemeSecp256k1) then
    match secp key with Some k => Ok (secp_SerializeCompressed k) | None => Err GoPanic end
  else if bool_decide (Scheme key = SchemeFNDSA512) then Ok (fndsaPK key)
  else if bool_decide (Scheme key = SchemeMLDSA44) then
    match mldsaPub key with Some p => Ok (mldsa_MarshalBinary p) | None => Err GoPanic end
  else if bool_decide (Scheme key = SchemeSLHDSA128) then
    match slhPub key with Some p => Ok (slh_MarshalBinary p) | None => Err GoPanic end
  else Err GoPanic.

Definition lib_sig (o : option bytes) : res bytes := match o with Some s => Ok s | None => Err ErrLibrary end.

(** [rnd] is the randomness fndsa draws. *)
Definition SignHash (rnd : bytes) (key : PrivateKey) (hash : bytes) : res bytes :=
  if bool_decide (Scheme key = SchemeSecp256k1) then
    match secp key with Some k => Ok (secp_SignCompact k hash) | None => Err GoPanic end
  else if bool_decide (Scheme key = SchemeFNDSA512) then lib_sig (fndsa_Sign rnd (fndsaSK key) txDomain hash)
  else if bool_decide (Scheme key = SchemeMLDSA44) then
    match mldsaPriv key with Some k => lib_sig (mldsa_SignTo k hash txDomain) | None => Err GoPanic end
  else if bool_decide (Scheme key = SchemeSLHDSA128) then
    match slhPriv key with Some k => lib_sig (slh_SignDeterministic k hash txDomain) | None => Err GoPanic end
  else Err ErrSchemeUnknown.

Definition VerifyHashSig (scheme : SigScheme) (pubKey hash sig : bytes) : bool :=
  if negb (length pubKey =? PubKeySize scheme)%nat || negb (length sig =? SigSize scheme)%nat then false
  else if bool_decide (scheme = SchemeSecp256k1) then
    match secp_RecoverCompact sig hash with
    | Some (recovered, true) => bool_decide (recovered = pubKey)
    | _ => false
    end
  else if bool_decide (scheme = SchemeFNDSA512) then fndsa_Verify pubKey txDomain hash sig
  else if bool_decide (scheme = SchemeMLDSA44) then
    match mldsa_UnmarshalBinary pubKey with Some pub => mldsa_Verify pub hash txDomain sig | None => false end
  else if bool_decide (scheme = SchemeSLHDSA128) then
    match slh_UnmarshalBinary pubKey with Some pub => slh_Verify pub hash sig txDomain | None => false end
  else false.

Definition RecoverPubKey (scheme : SigScheme) (hash sig : bytes) : option bytes :=
  if negb (bool_decide (scheme = SchemeSecp256k1)) || negb (length sig =? SigSize scheme)%nat then None
  else match secp_RecoverCompact sig hash with
       | Some (recovered, true) => Some recovered
       | _ => None
       end.

Definition slice (b : bytes) (lo hi : nat) : bytes := take (hi - lo) (drop lo b).

Definition verifyP256 (pubKey hash sig : bytes) : bool :=
  if negb (zlen hash =? 32) || negb (zlen sig =? 64) then false
  else
    let r := be_Z (slice sig 0 32) in
    let s := be_Z (slice sig 32 64) in
    if (length pubKey =? 65)%nat then
      if negb (bool_decide (pubKey !!! 0%nat = Zbyte 4)) then false
      else p256_Verify (be_Z (slice pubKey 1 33), be_Z (slice pubKey 33 65)) hash r s
    else if (length pubKey =? 64)%nat then
      p256_Verify (be_Z (slice pubKey 0 32), be_Z (slice pubKey 32 64)) hash r s
    else false.

Definition VerifyContractSig (scheme : SigScheme) (pubKey hash sig : bytes) : bool :=
  if bool_decide (scheme = SchemeSecp256r1) then verifyP256 pubKey hash sig
  else VerifyHashSig scheme pubKey hash sig.

Definition NewAddress `{Hasher} (key : PrivateKey) : res Address :=
  let! pub := PublicBytes key in Ok (AddressOfPubKey (Scheme key) pub).

(** ** Laws of the libraries *)

(** The documented contract of each scheme: keys and signatures have the
    declared sizes, encodings decode, and a signature made with a key
    verifies (or recovers) under the matching public key. *)
Class SigLaws : Prop := {
  secp_pub_len : forall k, length (secp_SerializeCompressed k) = 33%nat;
  secp_sig_len : forall k h, length (secp_SignCompact k h) = 65%nat;
  secp_recover : forall k h,
    secp_RecoverCompact (secp_SignCompact k h) h = Some (secp_SerializeCompressed k, true);
  fndsa_pk_len : forall b sk pk, fndsa_KeyGen b = Some (sk, pk) -> length pk = 897%nat;
  fndsa_sig_len : forall r sk d h sig, fndsa_Sign r sk d h = Some sig -> length sig = 666%nat;
  fndsa_correct : forall b sk pk r d h sig,
    fndsa_KeyGen b = Some (sk, pk) -> fndsa_Sign r sk d h = Some sig -> fndsa_Verify pk d h sig = true;
  mldsa_pub_len : forall p, length (mldsa_MarshalBinary p) = 1312%nat;
  mldsa_roundtrip : forall p, mldsa_UnmarshalBinary (mldsa_MarshalBinary p) = Some p;
  mldsa_sig_len : forall k h d sig, mldsa_SignTo k h d = Some sig -> length sig = 2420%nat;
  mldsa_correct : forall b pub priv h d sig,
    mldsa_NewKeyFromSeed b = (pub, priv) -> mldsa_SignTo priv h d = Some sig -> mldsa_Verify pub h d sig = true;
  slh_pub_len : forall p, length (slh_MarshalBinary p) = 32%nat;
  slh_roundtrip : forall p, slh_UnmarshalBinary (slh_MarshalBinary p) = Some p;
  slh_sig_len : forall k h d sig, slh_SignDeterministic k h d = Some sig -> length sig = Z.to_nat 7856;
  slh_correct : forall b pub priv h d sig,
    slh_GenerateKey b = Some (pub, priv) -> slh_SignDeterministic priv h d = Some sig ->
    slh_Verify pub h sig d = true
}.

(** ** Properties *)

(** Splits on the scheme tests, in the order the code makes them. *)
Ltac by_scheme sc :=
  destruct (decide (sc = SchemeSecp256k1)) as [->|?];
  [|destruct (decide (sc = SchemeFNDSA512)) as [->|?];
    [|destruct (decide (sc = SchemeMLDSA44)) as [->|?];
      [|destruct (decide (sc = SchemeSLHDSA128)) as [->|?]]]].

Ltac scheme_simpl :=
  repeat first [rewrite bool_decide_eq_true_2 by done | rewrite bool_decide_eq_false_2 by done].

Lemma NewKeyFromSeed_scheme sc sd key :
  NewKeyFromSeed sc sd = Ok key -> Scheme key = sc /\ vec_to_list (seed key) = sd.
Proof.
  unfold NewKeyFromSeed. intros E. open_ok E. bools. apply Nat.eqb_eq in Hg.
  assert (Hs : vec_to_list (seed (bareKey sc sd)) = sd) by (by apply to_array_list).
  repeat case_bool_decide; repeat case_match; simplify_eq; done.
Qed.

Lemma Parse_Serialize sc sd key :
  NewKeyFromSeed sc sd = Ok key -> ParsePrivateKey (Serialize key) = Ok key.
Proof.
  intros E. destruct (NewKeyFromSeed_scheme _ _ _ E) as [<- <-].
  unfold ParsePrivateKey, Serialize. cbn [length]. by rewrite length_vec_to_list.
Qed.

(** Only the four menu schemes have keys. *)
Lemma VerifyHashSig_known sc pub h sig : VerifyHashSig sc pub h sig = true -> PubKeySize sc <> 0%nat.
Proof.
  unfold VerifyHashSig, PubKeySize. destruct (_ || _); [done|].
  repeat case_bool_decide; lia || done.
Qed.

Context `{!SigLaws}.

Lemma sign_verify sc sd key rnd h sig pub :
  NewKeyFromSeed sc sd = Ok key -> SignHash rnd key h = Ok sig -> PublicBytes key = Ok pub ->
  VerifyHashSig sc pub h sig = true /\ length pub = PubKeySize sc /\ length sig = SigSize sc.
Proof.
  intros E Hs Hp. destruct (NewKeyFromSeed_scheme _ _ _ E) as [Hsc _].
  unfold NewKeyFromSeed in E. open_ok E.
  unfold SignHash, PublicBytes, lib_sig in *. unfold VerifyHashSig, PubKeySize, SigSize.
  rewrite Hsc in *. clear Hsc Hg. revert E Hs Hp.
  by_scheme sc; scheme_simpl; intros E Hs Hp; [..|done].
  - destruct (secp_IsZero _); [done|]. simplify_eq. simpl in *. simplify_eq.
    rewrite secp_pub_len, secp_sig_len, secp_recover. cbn. by rewrite bool_decide_eq_true_2.
  - destruct (fndsa_KeyGen _) as [[sk pk]|] eqn:Ek; [|done]. simplify_eq. simpl in *.
    destruct (fndsa_Sign _ _ _ _) eqn:Es; [|done]. simplify_eq.
    rewrite (fndsa_pk_len _ _ _ Ek), (fndsa_sig_len _ _ _ _ _ Es), (fndsa_correct _ _ _ _ _ _ _ Ek Es). done.
  - destruct (mldsa_NewKeyFromSeed _) as [pb pv] eqn:Ek. simplify_eq. simpl in *.
    destruct (mldsa_SignTo _ _ _) eqn:Es; [|done]. simplify_eq.
    rewrite mldsa_pub_len, (mldsa_sig_len _ _ _ _ Es), mldsa_roundtrip, (mldsa_correct _ _ _ _ _ _ Ek Es). done.
  - destruct (slh_GenerateKey _) as [[pb pv]|] eqn:Ek; [|done]. simplify_eq. simpl in *.
    destruct (slh_SignDeterministic _ _ _) eqn:Es; [|done]. simplify_eq.
    rewrite slh_pub_len, (slh_sig_len _ _ _ _ Es), slh_roundtrip, (slh_correct _ _ _ _ _ _ Ek Es). done.
Qed.

Lemma VerifyHashSig_recover pub h sig :
  VerifyHashSig SchemeSecp256k1 pub h sig = true -> RecoverPubKey SchemeSecp256k1 h sig = Some pub.
Proof.
  unfold VerifyHashSig, RecoverPubKey. destruct (_ || _) eqn:G; [done|]. apply orb_false_iff in G as [_ ->].
  rewrite bool_decide_eq_true_2 by done. simpl.
  destruct (secp_RecoverCompact sig h) as [[r [|]]|]; [|done..]. intros E. bools. by subst.
Qed.

End Keys.
