(* ===== verification/Contract.v ===== *)
(** * Contract slots and their key-value context

    ngtypes/contract_context.go and contract.go: the on-chain key-value
    store of a contract, kept both as a Go map and as the sorted parallel
    slices that RLP encodes, and the contract slot record. *)

From S2P Require Import Prelude Params Keys.

(** [valMap] is nil after a decoder filled the exported fields.  The
    [sync.RWMutex] guards one operation at a time and has no state here. *)
Record ContractContext := {
  ctx_Keys : list bytes;
  ctx_Values : list bytes;
  ctx_valMap : option (gmap bytes bytes)
}.

#[export] Instance ContractContext_eq_dec : EqDecision ContractContext.
Proof. solve_decision. Defined.

Definition NewContractContext : ContractContext :=
  {| ctx_Keys := []; ctx_Values := []; ctx_valMap := Some ∅ |}.

(** The loop of [ensureInit]: a key repeated keeps its last value, a key
    without a value is skipped. *)
Definition fill (keys values : list bytes) : gmap bytes bytes :=
  foldl (fun m kv => <[kv.1 := kv.2]> m) ∅ (zip keys values).

Definition ensureInit (ctx : ContractContext) : ContractContext :=
  match ctx_valMap ctx with
  | Some _ => ctx
  | None => {| ctx_Keys := ctx_Keys ctx; ctx_Values := ctx_Values ctx;
               ctx_valMap := Some (fill (ctx_Keys ctx) (ctx_Values ctx)) |}
  end.

(** [sort.Strings] of the map's keys, in whatever order the map yields them. *)
Definition sorted_keys (m : gmap bytes bytes) : list bytes := merge_sort bytes_le (map_to_list m).*1.

Definition the_map (ctx : ContractContext) : gmap bytes bytes := default ∅ (ctx_valMap ctx).

Definition splitMap (ctx : ContractContext) : ContractContext :=
  let keys := sorted_keys (the_map ctx) in
  {| ctx_Keys := keys; ctx_Values := (fun k => default [] (the_map ctx !! k)) <$> keys;
     ctx_valMap := ctx_valMap ctx |}.

Definition set_valMap (ctx : ContractContext) (m : gmap bytes bytes) : ContractContext :=
  {| ctx_Keys := ctx_Keys ctx; ctx_Values := ctx_Values ctx; ctx_valMap := Some m |}.

Definition Set' (ctx : ContractContext) (key val : bytes) : ContractContext :=
  let ctx := ensureInit ctx in splitMap (set_valMap ctx (<[key := val]> (the_map ctx))).

Definition Del (ctx : ContractContext) (key : bytes) : ContractContext :=
  let ctx := ensureInit ctx in splitMap (set_valMap ctx (delete key (the_map ctx))).

(** Reading initialises the map of a decoded context; the nil slice an absent
    key yields is the empty list. *)
Definition Get (ctx : ContractContext) (key : bytes) : bytes * ContractContext :=
  let ctx := ensureInit ctx in (default [] (the_map ctx !! key), ctx).

Definition Has (ctx : ContractContext) (key : bytes) : bool * ContractContext :=
  let ctx := ensureInit ctx in (bool_decide (is_Some (the_map ctx !! key)), ctx).

Definition Clone (ctx : ContractContext) : ContractContext * ContractContext :=
  let ctx := ensureInit ctx in (splitMap (set_valMap NewContractContext (the_map ctx)), ctx).

(** The range loop fails at the first key missing from, or different in,
    [other]. *)
Definition Context_Equals (ctx other : ContractContext) : bool :=
  let m := the_map (ensureInit ctx) in
  let o := the_map (ensureInit other) in
  (size m =? size o)%nat
  && forallb (fun kv => match o !! kv.1 with Some v => bool_decide (kv.2 = v) | None => false end) (map_to_list m).

(** ** contract.go *)

Record Contract := {
  Owner : Address;
  Source : bytes;
  Context' : option ContractContext
}.

Definition NewContract (owner : Address) (source : bytes) (context : option ContractContext) : Contract :=
  {| Owner := owner; Source := source; Context' := Some (default NewContractContext context) |}.

Definition ContextKeyActive : bytes := str "_active".

Definition IsActive (x : Contract) : bool :=
  match Context' x with
  | None => false
  | Some ctx => negb (zlen (Get ctx ContextKeyActive).1 =? 0)
  end.

Definition SetActive (x : Contract) (active : bool) : Contract :=
  let ctx := default NewContractContext (Context' x) in
  {| Owner := Owner x; Source := Source x;
     Context' := Some (if active then Set' ctx ContextKeyActive [Zbyte 1] else Del ctx ContextKeyActive) |}.

(** Comparing a nil context dereferences it. *)
Definition Contract_Equals (x other : Contract) : res bool :=
  if negb (Address_Equals (Owner x) (Owner other)) then Ok false
  else if negb (bool_decide (Source x = Source other)) then Ok false
  else match Context' x, Context' other with
       | Some a, Some b => Ok (Context_Equals a b)
       | _, _ => Err GoPanic
       end.

(** ** The abstract map *)

(** What a context stores, however it was obtained. *)
Definition abs (ctx : ContractContext) : gmap bytes bytes := the_map (ensureInit ctx).

(** The exported fields are the canonical listing of the map. *)
Definition listing (m : gmap bytes bytes) : list bytes * list bytes :=
  (sorted_keys m, (fun k => default [] (m !! k)) <$> sorted_keys m).

Definition flushed (ctx : ContractContext) : Prop := (ctx_Keys ctx, ctx_Values ctx) = listing (abs ctx).

Lemma elem_of_sorted_keys m k : k ∈ sorted_keys m <-> is_Some (m !! k).
Proof.
  unfold sorted_keys. rewrite merge_sort_Permutation, list_elem_of_fmap. split.
  - intros ([k' v] & -> & Hin%elem_of_map_to_list). by eexists.
  - intros [v Hv]. exists (k, v). split; [done|]. by apply elem_of_map_to_list.
Qed.

Lemma NoDup_sorted_keys m : NoDup (sorted_keys m).
Proof. unfold sorted_keys. rewrite merge_sort_Permutation. apply NoDup_fst_map_to_list. Qed.

Lemma sorted_sorted_keys m : StronglySorted bytes_le (sorted_keys m).
Proof. apply Sorted_StronglySorted; [apply _|]. apply (Sorted_merge_sort _). Qed.

Lemma lookup_fill_gen (keys : list bytes) (m m0 : gmap bytes bytes) k :
  NoDup keys ->
  foldl (fun m kv => <[kv.1 := kv.2]> m) m0 (zip keys ((fun k => default [] (m !! k)) <$> keys)) !! k
  = if decide (k ∈ keys) then Some (default [] (m !! k)) else m0 !! k.
Proof.
  revert m0. induction keys as [|x keys IH]; intros m0 Hnd; [done|].
  apply NoDup_cons in Hnd as [Hx Hnd]. cbn [fmap list_fmap zip_with foldl fst snd].
  rewrite IH by done. destruct (decide (k ∈ keys)) as [Hin|Hin].
  - rewrite decide_True; [done|]. by right.
  - destruct (decide (k = x)) as [->|Hne].
    + rewrite decide_True by (by left). by rewrite lookup_insert_eq.
    + rewrite decide_False by (rewrite elem_of_cons; naive_solver). by rewrite lookup_insert_ne.
Qed.

(** Decoding the listing of a map rebuilds the map. *)
Lemma fill_listing m : fill (listing m).1 (listing m).2 = m.
Proof.
  apply map_eq. intros k. unfold fill, listing. cbn [fst snd].
  rewrite lookup_fill_gen by apply NoDup_sorted_keys. rewrite lookup_empty.
  destruct (decide (k ∈ sorted_keys m)) as [Hin|Hin]; rewrite elem_of_sorted_keys in Hin.
  - destruct Hin as [v ->]. done.
  - destruct (m !! k); [|done]. exfalso. eauto.
Qed.

Lemma abs_splitMap ctx m : abs (splitMap (set_valMap ctx m)) = m.
Proof. done. Qed.

Lemma flushed_splitMap ctx m : flushed (splitMap (set_valMap ctx m)).
Proof. done. Qed.

(** One write of a context. *)
Inductive write := WSet (k v : bytes) | WDel (k : bytes).

Definition apply_write (ctx : ContractContext) (w : write) : ContractContext :=
  match w with WSet k v => Set' ctx k v | WDel k => Del ctx k end.

Definition write_map (m : gmap bytes bytes) (w : write) : gmap bytes bytes :=
  match w with WSet k v => <[k := v]> m | WDel k => delete k m end.

Lemma abs_apply_write ctx w : abs (apply_write ctx w) = write_map (abs ctx) w.
Proof. by destruct w. Qed.

Lemma abs_apply_writes ws ctx : abs (foldl apply_write ctx ws) = foldl write_map (abs ctx) ws.
Proof.
  revert ctx. induction ws as [|w ws IH]; intros ctx; [done|]. cbn. by rewrite IH, abs_apply_write.
Qed.

Lemma flushed_writes ws ctx : flushed ctx -> flushed (foldl apply_write ctx ws).
Proof.
  revert ctx. induction ws as [|w ws IH]; intros ctx Hf; [done|]. cbn. apply IH. by destruct w.
Qed.

Lemma forallb_map_to_list (m o : gmap bytes bytes) :
  forallb (fun kv => match o !! kv.1 with Some v => bool_decide (kv.2 = v) | None => false end) (map_to_list m) = true
  <-> m ⊆ o.
Proof.
  rewrite map_subseteq_spec, forallb_forall. split.
  - intros Hall k v Hk. specialize (Hall (k, v)).
    rewrite <-list_elem_of_In, elem_of_map_to_list in Hall. specialize (Hall Hk). cbn in Hall.
    destruct (o !! k); [|done]. bools. by subst.
  - intros Hsub [k v]. rewrite <-list_elem_of_In, elem_of_map_to_list. intros Hk%Hsub. cbn.
    rewrite Hk. by apply bool_decide_eq_true.
Qed.

Lemma Context_Equals_abs c c' : Context_Equals c c' = true <-> abs c = abs c'.
Proof.
  unfold Context_Equals. fold (abs c) (abs c'). rewrite andb_true_iff, Nat.eqb_eq, forallb_map_to_list. split.
  - intros [Hs Hsub]. apply map_subseteq_size_eq; [done|lia].
  - intros ->. done.
Qed.

(** A contract context implements a finite map with a canonical
    encoding.  After any sequence of writes from any context the stored map
    is the abstract map updated in order, and reads return it; if the start
    is flushed (a new context, or one decoded from a flushed one) the
    exported slices are the map's entries sorted by key, so two histories
    that end in the same map encode to identical bytes; decoding those
    slices alone restores the map; and [Equals] decides equality of maps. *)
Theorem ContractContext_refines_map ctx ctx' ws ws' k :
  flushed ctx -> flushed ctx' ->
  let c := foldl apply_write ctx ws in
  let c' := foldl apply_write ctx' ws' in
  let decoded := {| ctx_Keys := ctx_Keys c; ctx_Values := ctx_Values c; ctx_valMap := None |} in
  (Get c k).1 = default [] (foldl write_map (abs ctx) ws !! k)
  /\ (Has c k).1 = bool_decide (is_Some (foldl write_map (abs ctx) ws !! k))
  /\ StronglySorted bytes_le (ctx_Keys c) /\ NoDup (ctx_Keys c) /\ length (ctx_Keys c) = length (ctx_Values c)
  /\ abs decoded = abs c /\ flushed decoded
  /\ abs (Clone c).1 = abs c /\ flushed (Clone c).1
  /\ (Context_Equals c c' = true <-> abs c = abs c')
  /\ (abs c = abs c' -> ctx_Keys c = ctx_Keys c' /\ ctx_Values c = ctx_Values c').
Proof.
  intros Hf Hf' c c' decoded.
  pose proof (flushed_writes ws ctx Hf) as Hc. pose proof (flushed_writes ws' ctx' Hf') as Hc'.
  pose proof (abs_apply_writes ws ctx) as Ha. fold c in Hc, Ha. fold c' in Hc'.
  assert (Hd : abs decoded = abs c).
  { unfold abs at 1. cbn. unfold flushed in Hc. injection Hc as -> ->. apply (fill_listing (abs c)). }
  pose proof Hc as Hcl. unfold flushed in Hcl. injection Hcl as Hk Hv.
  rewrite <-Ha. split_and!; try done.
  - rewrite Hk. apply sorted_sorted_keys.
  - rewrite Hk. apply NoDup_sorted_keys.
  - rewrite Hk, Hv. by rewrite length_fmap.
  - unfold flushed. rewrite Hd. exact Hc.
  - apply Context_Equals_abs.
  - intros E. unfold flushed in Hc, Hc'. rewrite E, <-Hc' in Hc. by injection Hc.
Qed.

Lemma IsActive_SetActive x b : IsActive (SetActive x b) = b.
Proof.
  unfold IsActive, SetActive. cbn [Context']. set (c := default NewContractContext (Context' x)). destruct b.
  - change (Get (Set' c ContextKeyActive [Zbyte 1]) ContextKeyActive).1
      with (default [] (<[ContextKeyActive := [Zbyte 1]]> (abs c) !! ContextKeyActive)).
    by rewrite lookup_insert_eq.
  - change (Get (Del c ContextKeyActive) ContextKeyActive).1
      with (default [] (delete ContextKeyActive (abs c) !! ContextKeyActive)).
    by rewrite lookup_delete_eq.
Qed.

(** ** Witness *)

Lemma ContractContext_refines_map_witness :
  let c := foldl apply_write NewContractContext [WSet (str "b") (str "1"); WSet (str "a") (str "2"); WDel (str "b")] in
  let c' := foldl apply_write NewContractContext [WSet (str "a") (str "2")] in
  (Get c (str "a")).1 = str "2" /\ ctx_Keys c = ctx_Keys c' /\ ctx_Values c = ctx_Values c'.
Proof.
  destruct (ContractContext_refines_map NewContractContext NewContractContext
    [WSet (str "b") (str "1"); WSet (str "a") (str "2"); WDel (str "b")] [WSet (str "a") (str "2")] (str "a"))
    as (Hg & _ & _ & _ & _ & _ & _ & _ & _ & _ & Hcanon); [reflexivity|reflexivity|].
  split; [exact Hg|]. apply Hcanon. vm_compute. reflexivity.
Defined.
