(* ===== verification/Types.v ===== *)
(** * The wire types

    The records of ngtypes that travel on the wire or reach the store:
    transactions (tx.go), commitments (commitment.go), block headers and
    blocks (block_header.go, block.go), with the RLP library as the class
    [Codec].  A Go string is its bytes; a nil slice is the empty list, which
    RLP encodes alike; amounts are unbounded integers. *)

From S2P Require Import Prelude Params Keys.

(** [type TxType uint8] *)
Definition TxType := Z.
Definition InvalidTx : TxType := 0.
Definition GenerateTx : TxType := 1.
Definition TransactTx : TxType := 2.
Definition DeployTx : TxType := 3.

Record FullTx := {
  tx_Network : Network;
  tx_Type : TxType;
  tx_Height : Z;
  tx_To : Address;
  tx_Value : Z;
  tx_Fee : Z;
  tx_Extra : bytes;
  tx_Sign : bytes;
  tx_Salt : bytes
}.

#[export] Instance FullTx_eq_dec : EqDecision FullTx.
Proof. solve_decision. Defined.

Record Commitment := {
  c_Network : Network;
  c_Height : Z;
  c_Hash : bytes;
  c_Fee : option Z; (** a nil [*big.Int] is [None] *)
  c_Sign : bytes
}.

#[export] Instance Commitment_eq_dec : EqDecision Commitment.
Proof. solve_decision. Defined.

Record BlockHeader := {
  h_Network : Network;
  h_Height : Z;
  h_Timestamp : Z;
  h_PrevBlockHash : bytes;
  h_TxTrieHash : bytes;
  h_WitnessRoot : bytes;
  h_Difficulty : bytes;
  h_Coinbase : bytes;
  h_UnclesHash : bytes;
  h_StateRoot : bytes;
  h_BaseFee : bytes;
  h_Nonce : bytes
}.

#[export] Instance BlockHeader_eq_dec : EqDecision BlockHeader.
Proof. solve_decision. Defined.

Record FullBlock := {
  b_Header : BlockHeader;
  b_Txs : list FullTx;
  b_Uncles : list BlockHeader;
  b_Commits : list Commitment
}.

#[export] Instance FullBlock_eq_dec : EqDecision FullBlock.
Proof. solve_decision. Defined.

Record CallData := { cd_Method : bytes; cd_Args : bytes }.

(** Field updates: the in-place assignments of the code. *)
Definition tx_set_Sign (x : FullTx) (s : bytes) : FullTx :=
  {| tx_Network := tx_Network x; tx_Type := tx_Type x; tx_Height := tx_Height x; tx_To := tx_To x;
     tx_Value := tx_Value x; tx_Fee := tx_Fee x; tx_Extra := tx_Extra x; tx_Sign := s; tx_Salt := tx_Salt x |}.

Definition tx_set_Salt (x : FullTx) (s : bytes) : FullTx :=
  {| tx_Network := tx_Network x; tx_Type := tx_Type x; tx_Height := tx_Height x; tx_To := tx_To x;
     tx_Value := tx_Value x; tx_Fee := tx_Fee x; tx_Extra := tx_Extra x; tx_Sign := tx_Sign x; tx_Salt := s |}.

Definition tx_set_Height (x : FullTx) (h : Z) : FullTx :=
  {| tx_Network := tx_Network x; tx_Type := tx_Type x; tx_Height := h; tx_To := tx_To x;
     tx_Value := tx_Value x; tx_Fee := tx_Fee x; tx_Extra := tx_Extra x; tx_Sign := tx_Sign x; tx_Salt := tx_Salt x |}.

Definition c_set_Sign (c : Commitment) (s : bytes) : Commitment :=
  {| c_Network := c_Network c; c_Height := c_Height c; c_Hash := c_Hash c; c_Fee := c_Fee c; c_Sign := s |}.

Definition c_set_Height (c : Commitment) (h : Z) : Commitment :=
  {| c_Network := c_Network c; c_Height := h; c_Hash := c_Hash c; c_Fee := c_Fee c; c_Sign := c_Sign c |}.

(** ** RLP

    github.com/c0mm4nd/rlp: [EncodeToBytes] and [DecodeBytes] at the types
    the code uses them with.  Encoding is total on the values the program
    builds (it fails only on a negative [*big.Int], which no decoder yields). *)
Class Codec := {
  rlp_FullTx : FullTx -> bytes;
  rlp_Commitment : Commitment -> bytes;
  rlp_BlockHeader : BlockHeader -> bytes;
  rlp_FullBlock : FullBlock -> bytes;
  rlp_CallData : CallData -> bytes;
  dec_FullTx : bytes -> option FullTx;
  dec_Commitment : bytes -> option Commitment;
  dec_BlockHeader : bytes -> option BlockHeader;
  dec_FullBlock : bytes -> option FullBlock;
  dec_CallData : bytes -> option CallData
}.

(** Values RLP can carry: fixed-width fields in range, amounts not negative. *)
Definition wf_tx (x : FullTx) : Prop :=
  0 <= tx_Network x < 256 /\ 0 <= tx_Type x < 256 /\ is_u64 (tx_Height x) /\ 0 <= tx_Value x /\ 0 <= tx_Fee x.

Definition wf_commit (c : Commitment) : Prop :=
  0 <= c_Network c < 256 /\ is_u64 (c_Height c) /\ exists f, c_Fee c = Some f /\ 0 <= f.

Definition wf_header (h : BlockHeader) : Prop :=
  0 <= h_Network h < 256 /\ is_u64 (h_Height h) /\ is_u64 (h_Timestamp h).

Definition wf_block (b : FullBlock) : Prop :=
  wf_header (b_Header b) /\ Forall wf_tx (b_Txs b) /\ Forall wf_header (b_Uncles b) /\ Forall wf_commit (b_Commits b).

(** Decoding inverts encoding. *)
Class CodecLaws `{Codec} : Prop := {
  dec_rlp_FullTx : forall x, wf_tx x -> dec_FullTx (rlp_FullTx x) = Some x;
  dec_rlp_Commitment : forall c, wf_commit c -> dec_Commitment (rlp_Commitment c) = Some c;
  dec_rlp_BlockHeader : forall h, wf_header h -> dec_BlockHeader (rlp_BlockHeader h) = Some h;
  dec_rlp_FullBlock : forall b, wf_block b -> dec_FullBlock (rlp_FullBlock b) = Some b;
  dec_rlp_CallData : forall c, dec_CallData (rlp_CallData c) = Some c
}.

Section Inj.
Context `{CodecLaws}.

Lemma rlp_FullTx_inj x y : wf_tx x -> wf_tx y -> rlp_FullTx x = rlp_FullTx y -> x = y.
Proof. intros Hx Hy E. apply (f_equal dec_FullTx) in E. rewrite !dec_rlp_FullTx in E by done. congruence. Qed.

Lemma rlp_Commitment_inj x y : wf_commit x -> wf_commit y -> rlp_Commitment x = rlp_Commitment y -> x = y.
Proof. intros Hx Hy E. apply (f_equal dec_Commitment) in E. rewrite !dec_rlp_Commitment in E by done. congruence. Qed.

Lemma rlp_BlockHeader_inj x y : wf_header x -> wf_header y -> rlp_BlockHeader x = rlp_BlockHeader y -> x = y.
Proof. intros Hx Hy E. apply (f_equal dec_BlockHeader) in E. rewrite !dec_rlp_BlockHeader in E by done. congruence. Qed.

End Inj.
