(* ===== verification/Instances.v ===== *)
(** * Concrete library parameters

    Executable stand-ins for the third-party libraries that satisfy the laws
    the theorems assume, so that each theorem's hypotheses can be discharged
    on concrete inputs. *)

From S2P Require Import Prelude Params Keys Types.

(** ** A codec

    A record is the list of its fields as byte strings; each byte is preceded
    by a one, each field ended by a zero. *)

Fixpoint enc_field (f : bytes) : bytes :=
  match f with [] => [Byte.x00] | b :: f' => Byte.x01 :: b :: enc_field f' end.

Definition enc_fields (l : list bytes) : bytes := l ≫= enc_field.

(** [cur] is the open field, reversed; [n] bounds the input. *)
Fixpoint dec_fields (n : nat) (cur b : bytes) : list bytes :=
  match n with
  | O => []
  | S n' =>
      match b with
      | Byte.x00 :: r => reverse cur :: dec_fields n' [] r
      | _ :: x :: r => dec_fields n' (x :: cur) r
      | _ => []
      end
  end.

Lemma dec_enc_field f n cur r :
  (length f < n)%nat ->
  dec_fields n cur (enc_field f ++ r) = (reverse cur ++ f) :: dec_fields (n - length f - 1) [] r.
Proof.
  revert n cur. induction f as [|b f IH]; intros [|n] cur Hn; try (simpl in Hn; lia).
  - simpl. by rewrite app_nil_r, Nat.sub_0_r.
  - cbn [enc_field app dec_fields]. rewrite IH by (simpl in Hn; lia).
    by rewrite reverse_cons, <-app_assoc.
Qed.

Lemma length_enc_field f : length (enc_field f) = (2 * length f + 1)%nat.
Proof. induction f as [|b f IH]; simpl; [done|]. rewrite IH. lia. Qed.

Lemma dec_enc_fields l n : (length (enc_fields l) <= n)%nat -> dec_fields n [] (enc_fields l) = l.
Proof.
  revert n. induction l as [|f l IH]; intros n Hn; [by destruct n|].
  unfold enc_fields in *. cbn [mbind list_bind] in *. rewrite length_app, length_enc_field in Hn.
  rewrite dec_enc_field by lia. rewrite reverse_nil. cbn [app]. f_equal. apply IH. lia.
Qed.

Definition fields_of (b : bytes) : list bytes := dec_fields (length b) [] b.

Lemma fields_of_enc l : fields_of (enc_fields l) = l.
Proof. by apply dec_enc_fields. Qed.

#[local] Arguments enc_fields : simpl never.
#[local] Arguments fields_of : simpl never.

Definition toy_tx (x : FullTx) : bytes :=
  enc_fields [big_Bytes (tx_Network x); big_Bytes (tx_Type x); big_Bytes (tx_Height x); vec_to_list (tx_To x);
              big_Bytes (tx_Value x); big_Bytes (tx_Fee x); tx_Extra x; tx_Sign x; tx_Salt x].

Definition toy_dec_tx (b : bytes) : option FullTx :=
  match fields_of b with
  | [a; b; c; d; e; f; g; h; i] =>
      Some {| tx_Network := be_Z a; tx_Type := be_Z b; tx_Height := be_Z c; tx_To := to_array 32 d;
              tx_Value := be_Z e; tx_Fee := be_Z f; tx_Extra := g; tx_Sign := h; tx_Salt := i |}
  | _ => None
  end.

Definition toy_commit (x : Commitment) : bytes :=
  enc_fields [big_Bytes (c_Network x); big_Bytes (c_Height x); c_Hash x; big_Bytes (default 0 (c_Fee x)); c_Sign x].

Definition toy_dec_commit (b : bytes) : option Commitment :=
  match fields_of b with
  | [a; b; c; d; e] =>
      Some {| c_Network := be_Z a; c_Height := be_Z b; c_Hash := c; c_Fee := Some (be_Z d); c_Sign := e |}
  | _ => None
  end.

Definition toy_header (x : BlockHeader) : bytes :=
  enc_fields [big_Bytes (h_Network x); big_Bytes (h_Height x); big_Bytes (h_Timestamp x); h_PrevBlockHash x;
              h_TxTrieHash x; h_WitnessRoot x; h_Difficulty x; h_Coinbase x; h_UnclesHash x; h_StateRoot x;
              h_BaseFee x; h_Nonce x].

Definition toy_dec_header (b : bytes) : option BlockHeader :=
  match fields_of b with
  | [a; b; c; d; e; f; g; h; i; j; k; l] =>
      Some {| h_Network := be_Z a; h_Height := be_Z b; h_Timestamp := be_Z c; h_PrevBlockHash := d;
              h_TxTrieHash := e; h_WitnessRoot := f; h_Difficulty := g; h_Coinbase := h; h_UnclesHash := i;
              h_StateRoot := j; h_BaseFee := k; h_Nonce := l |}
  | _ => None
  end.

Definition toy_block (x : FullBlock) : bytes :=
  enc_fields [toy_header (b_Header x); enc_fields (toy_tx <$> b_Txs x);
              enc_fields (toy_header <$> b_Uncles x); enc_fields (toy_commit <$> b_Commits x)].

Definition toy_dec_block (b : bytes) : option FullBlock :=
  match fields_of b with
  | [a; b; c; d] =>
      h ← toy_dec_header a;
      txs ← mapM toy_dec_tx (fields_of b);
      us ← mapM toy_dec_header (fields_of c);
      cs ← mapM toy_dec_commit (fields_of d);
      Some {| b_Header := h; b_Txs := txs; b_Uncles := us; b_Commits := cs |}
  | _ => None
  end.

Definition toy_call (x : CallData) : bytes := enc_fields [cd_Method x; cd_Args x].

Definition toy_dec_call (b : bytes) : option CallData :=
  match fields_of b with [a; b] => Some {| cd_Method := a; cd_Args := b |} | _ => None end.

Definition toy_codec : Codec := {|
  rlp_FullTx := toy_tx; rlp_Commitment := toy_commit; rlp_BlockHeader := toy_header;
  rlp_FullBlock := toy_block; rlp_CallData := toy_call;
  dec_FullTx := toy_dec_tx; dec_Commitment := toy_dec_commit; dec_BlockHeader := toy_dec_header;
  dec_FullBlock := toy_dec_block; dec_CallData := toy_dec_call |}.

Lemma toy_dec_tx_ok x : wf_tx x -> toy_dec_tx (toy_tx x) = Some x.
Proof.
  unfold wf_tx, is_u64, toy_dec_tx, toy_tx. intros H. rewrite fields_of_enc. cbv beta iota.
  rewrite !be_Z_big_Bytes, to_array_vec by lia. by destruct x.
Qed.

Lemma toy_dec_commit_ok x : wf_commit x -> toy_dec_commit (toy_commit x) = Some x.
Proof.
  unfold wf_commit, is_u64, toy_dec_commit, toy_commit. intros (?&?&f&Hf&?). rewrite fields_of_enc.
  cbv beta iota. rewrite Hf. cbn [default]. rewrite !be_Z_big_Bytes by (simpl; lia). destruct x. by simplify_eq/=.
Qed.

Lemma toy_dec_header_ok x : wf_header x -> toy_dec_header (toy_header x) = Some x.
Proof.
  unfold wf_header, is_u64, toy_dec_header, toy_header. intros H. rewrite fields_of_enc. cbv beta iota.
  rewrite !be_Z_big_Bytes by lia. by destruct x.
Qed.

Lemma mapM_fmap_ok {A} (P : A -> Prop) (f : A -> bytes) (g : bytes -> option A) l :
  (forall x, P x -> g (f x) = Some x) -> Forall P l -> mapM g (f <$> l) = Some l.
Proof. intros Hg Hl. induction Hl as [|x l Hx _ IH]; [done|]. cbn. rewrite Hg by done. cbn. by setoid_rewrite IH. Qed.

Lemma toy_codec_laws : @CodecLaws toy_codec.
Proof.
  split; simpl; auto using toy_dec_tx_ok, toy_dec_commit_ok, toy_dec_header_ok.
  - intros [h txs us cs]. unfold wf_block, toy_dec_block, toy_block. simpl. intros (Hh & Ht & Hu & Hc).
    rewrite fields_of_enc, toy_dec_header_ok by done. simpl. rewrite !fields_of_enc.
    rewrite (mapM_fmap_ok wf_tx), (mapM_fmap_ok wf_header), (mapM_fmap_ok wf_commit)
      by auto using toy_dec_tx_ok, toy_dec_commit_ok, toy_dec_header_ok. done.
  - intros []. unfold toy_dec_call, toy_call. by rewrite fields_of_enc.
Qed.

(** ** A digest *)

(** Keeps the first 32 bytes of the little-endian sum of the input. *)
Definition toy_hasher : Hasher := fun b =>
  to_array 32 (le_bytes 32 (foldl (fun a x => (a * 257 + byteZ x + 1) mod (2 ^ 61 - 1)) (zlen b) b)).

(** ** Signature schemes in which a signature is the digest *)

Definition toy_libs : SigLibs := {|
  secp_priv := bytes; mldsa_pub := vec byte 1312; mldsa_priv := bytes; slh_pub := vec byte 32; slh_priv := bytes;
  shake256 := fun b n => take n (reverse b ++ zeros n);
  secp_PrivKeyFromBytes := fun b => b;
  secp_IsZero := fun _ => false;
  secp_SerializeCompressed := fun k => to_array 33 k;
  secp_SignCompact := fun k h => vec_to_list (to_array 33 k) ++ vec_to_list (to_array 32 h);
  secp_RecoverCompact := fun sig h =>
    if bool_decide (drop 33 sig = to_array 32 h) then Some (take 33 sig, true) else None;
  fndsa_KeyGen := fun b => Some (b, vec_to_list (to_array 897 (reverse b)));
  fndsa_Sign := fun _ _ _ h => Some (vec_to_list (to_array 666 h));
  fndsa_Verify := fun _ _ h sig => bool_decide (sig = to_array 666 h);
  mldsa_SeedSize := 32;
  mldsa_NewKeyFromSeed := fun b => (to_array 1312 b, b);
  mldsa_MarshalBinary := vec_to_list;
  mldsa_UnmarshalBinary := fun b => Some (to_array 1312 b);
  mldsa_SignTo := fun _ h _ => Some (vec_to_list (to_array 2420 h));
  mldsa_Verify := fun _ h _ sig => bool_decide (sig = to_array 2420 h);
  slh_GenerateKey := fun b => Some (to_array 32 (reverse b), b);
  slh_MarshalBinary := vec_to_list;
  slh_UnmarshalBinary := fun b => Some (to_array 32 b);
  slh_SignDeterministic := fun _ h _ => Some (vec_to_list (to_array (Z.to_nat 7856) h));
  slh_Verify := fun _ h sig _ => bool_decide (sig = to_array (Z.to_nat 7856) h);
  p256_Verify := fun _ _ _ _ => false;
  FastBase58Encoding := fun _ => ""%string;
  FastBase58Decoding := fun _ => None
|}.

Lemma Some_inj {A} (x y : A) : Some x = Some y -> x = y.
Proof. congruence. Qed.

Lemma toy_laws : @SigLaws toy_libs.
Proof.
  split; cbn [toy_libs secp_SerializeCompressed secp_SignCompact secp_RecoverCompact fndsa_KeyGen fndsa_Sign
    fndsa_Verify mldsa_MarshalBinary mldsa_UnmarshalBinary mldsa_SignTo mldsa_Verify mldsa_NewKeyFromSeed
    slh_MarshalBinary slh_UnmarshalBinary slh_SignDeterministic slh_Verify slh_GenerateKey secp_priv]; intros.
  - apply length_vec_to_list.
  - rewrite length_app, !length_vec_to_list. lia.
  - rewrite drop_app_length' by (by rewrite length_vec_to_list).
    rewrite take_app_length' by (by rewrite length_vec_to_list). by rewrite bool_decide_eq_true_2.
  - apply Some_inj, pair_equal_spec in H as [_ <-]. apply length_vec_to_list.
  - apply Some_inj in H as <-. apply length_vec_to_list.
  - apply Some_inj in H0 as <-. by apply bool_decide_eq_true_2.
  - apply length_vec_to_list.
  - by rewrite to_array_vec.
  - apply Some_inj in H as <-. apply length_vec_to_list.
  - apply Some_inj in H0 as <-. by apply bool_decide_eq_true_2.
  - apply length_vec_to_list.
  - by rewrite to_array_vec.
  - apply Some_inj in H as <-. apply length_vec_to_list.
  - apply Some_inj in H0 as <-. by apply bool_decide_eq_true_2.
Qed.
