(* ===== verification/Tx.v ===== *)
(** * Transactions and commitments

    ngtypes/tx.go, commitment.go and tx_extra.go: content hashes, the three
    signature envelopes, the derived sender, signing and verification, and
    the per-type self checks. *)

From S2P Require Import Prelude Params Keys Types Instances.

(** [type PubKeyResolver func(Address) []byte]; nil is [None], and a missing
    entry is the empty slice. *)
Definition PubKeyResolver := option (Address -> bytes).

Definition envelopeFull : byte := Zbyte 1.
Definition envelopeCompact : byte := Zbyte 2.
Definition envelopeRecover : byte := Zbyte 3.

Section Tx.
Context `{HH : Hasher} `{SL : SigLibs} `{CD : Codec}.

(** Optional arguments are the nil-able ones. *)
Definition NewTx (network : Network) (txType : TxType) (height : Z) (to : Address) (value fee : option Z)
    (extraData sign : bytes) : FullTx :=
  {| tx_Network := network; tx_Type := txType; tx_Height := height; tx_To := to;
     tx_Value := default 0 value; tx_Fee := default 0 fee; tx_Extra := extraData; tx_Sign := sign; tx_Salt := [] |}.

Definition NewUnsignedTx (network : Network) (txType : TxType) (height : Z) (to : Address) (value fee : option Z)
    (extraData : bytes) : FullTx :=
  NewTx network txType height to value fee extraData [].

Definition IsSigned (x : FullTx) : bool := negb (zlen (tx_Sign x) =? 0).

Definition IsCompactEnvelope (x : FullTx) : bool :=
  match tx_Sign x with b :: _ => bool_decide (b = envelopeCompact) | [] => false end.

Definition EnvelopeScheme (x : FullTx) : SigScheme :=
  match tx_Sign x with _ :: sc :: _ => sc | _ => Zbyte 0 end.

(** ** Hashes *)

Definition GetUnsignedHash (x : FullTx) : bytes :=
  Hash256 (rlp_FullTx (tx_set_Salt (tx_set_Sign x []) [])).

Definition GetHash (x : FullTx) : bytes := GetUnsignedHash x.

Definition UnheightedHash (x : FullTx) : bytes :=
  Hash256 (rlp_FullTx (tx_set_Height (tx_set_Salt (tx_set_Sign x []) []) 0)).

Definition SigningHash (x : FullTx) : bytes :=
  if (tx_Type x =? TransactTx) || (tx_Type x =? DeployTx) then UnheightedHash x else GetUnsignedHash x.

Definition Commitment_GetUnsignedHash (c : Commitment) : bytes := Hash256 (rlp_Commitment (c_set_Sign c [])).

Definition Commitment_SigningHash (c : Commitment) : bytes :=
  Hash256 (rlp_Commitment (c_set_Height (c_set_Sign c []) 0)).

(** ** Envelopes

    [FullTx.envelope] and [Commitment.envelope] are one text over different
    digests and error values, and so are the two [From]s. *)

Definition split_envelope (unsigned invalid : error) (sign hash : bytes) (lookup : PubKeyResolver)
    : res (SigScheme * bytes * bytes) :=
  match sign with
  | form :: scheme :: body =>
      let pkLen := PubKeySize scheme in
      let sigLen := SigSize scheme in
      reject (pkLen =? 0)%nat with invalid ;
      if bool_decide (form = envelopeFull) then
        reject negb (length body =? pkLen + sigLen)%nat with invalid ;
        Ok (scheme, take pkLen body, drop pkLen body)
      else if bool_decide (form = envelopeRecover) then
        reject negb (HasRecovery scheme) || negb (length body =? sigLen)%nat with invalid ;
        match RecoverPubKey scheme hash body with
        | None => Err invalid
        | Some pubKey => Ok (scheme, pubKey, body)
        end
      else if bool_decide (form = envelopeCompact) then
        reject negb (length body =? 32 + sigLen)%nat with invalid ;
        match lookup with
        | None => Err invalid
        | Some f =>
            let from := to_array 32 (take 32 body) in
            match f from with
            | sc :: pubKey =>
                reject negb (length pubKey =? pkLen)%nat || negb (bool_decide (sc = scheme)) with invalid ;
                reject negb (Address_Equals (AddressOfPubKey scheme pubKey) from) with invalid ;
                Ok (scheme, pubKey, drop 32 body)
            | [] => Err invalid
            end
        end
      else Err unsigned
  | _ => Err unsigned
  end.

Definition envelope_from (unsigned : error) (sign hash : bytes) : res Address :=
  match sign with
  | form :: scheme :: body =>
      let pkLen := PubKeySize scheme in
      let sigLen := SigSize scheme in
      if bool_decide (form = envelopeFull) then
        reject (pkLen =? 0)%nat || negb (length body =? pkLen + sigLen)%nat with unsigned ;
        Ok (AddressOfPubKey scheme (take pkLen body))
      else if bool_decide (form = envelopeCompact) then
        reject (pkLen =? 0)%nat || negb (length body =? 32 + sigLen)%nat with unsigned ;
        Ok (to_array 32 (take 32 body))
      else if bool_decide (form = envelopeRecover) then
        reject negb (HasRecovery scheme) || negb (length body =? sigLen)%nat with unsigned ;
        match RecoverPubKey scheme hash body with
        | None => Err unsigned
        | Some pubKey => Ok (AddressOfPubKey scheme pubKey)
        end
      else Err unsigned
  | _ => Err unsigned
  end.

Definition envelope (x : FullTx) (lookup : PubKeyResolver) : res (SigScheme * bytes * bytes) :=
  split_envelope ErrTxUnsigned ErrTxSignInvalid (tx_Sign x) (SigningHash x) lookup.

Definition From (x : FullTx) : res Address := envelope_from ErrTxUnsigned (tx_Sign x) (SigningHash x).

Definition Commitment_envelope (c : Commitment) (lookup : PubKeyResolver) : res (SigScheme * bytes * bytes) :=
  split_envelope ErrCommitUnsigned ErrCommitSignInvalid (c_Sign c) (Commitment_SigningHash c) lookup.

Definition Commitment_From (c : Commitment) : res Address :=
  envelope_from ErrCommitUnsigned (c_Sign c) (Commitment_SigningHash c).

(** ** Verification *)

Definition Verify (x : FullTx) (lookup : PubKeyResolver) : res unit :=
  if tx_Height x =? 0 then Ok tt
  else
    reject zlen (tx_Sign x) =? 0 with ErrTxUnsigned ;
    reject TxMaxExtraSize <? zlen (tx_Extra x) with ErrTxExtraExcess ;
    let! (scheme, pubKey, sig) := envelope x lookup in
    reject negb (VerifyHashSig scheme pubKey (SigningHash x) sig) with ErrTxSignInvalid ;
    Ok tt.

Definition Commitment_Verify (c : Commitment) (lookup : PubKeyResolver) : res unit :=
  reject zlen (c_Sign c) =? 0 with ErrCommitUnsigned ;
  let! (scheme, pubKey, sig) := Commitment_envelope c lookup in
  reject negb (VerifyHashSig scheme pubKey (Commitment_SigningHash c) sig) with ErrCommitSignInvalid ;
  Ok tt.

Definition Commitment_CheckError (c : Commitment) (blockHeight : Z) (lookup : PubKeyResolver) : res unit :=
  reject negb (zlen (c_Hash c) =? HashSize) with ErrCommitHashInvalid ;
  reject bool_decide (c_Fee c = None) with ErrCommitFeeInvalid ;
  reject negb (c_Height c =? blockHeight) with ErrCommitHeightInvalid ;
  Commitment_Verify c lookup.

Definition NewCommitment (network : Network) (height : Z) (hash : bytes) (fee : option Z) : Commitment :=
  {| c_Network := network; c_Height := height; c_Hash := hash; c_Fee := Some (default 0 fee); c_Sign := [] |}.

Definition Commitment_IsSigned (c : Commitment) : bool := negb (zlen (c_Sign c) =? 0).

(** Two commitments, seen as merkle contents. *)
Definition Commitment_Equals (c oc : Commitment) : bool :=
  bool_decide (Commitment_GetUnsignedHash c = Commitment_GetUnsignedHash oc).

Definition TotalExpenditure (x : FullTx) : Z := tx_Fee x + tx_Value x.

(** ** Self checks *)

Definition CheckGenerate (x : FullTx) (blockHeight : Z) (lookup : PubKeyResolver) : res unit :=
  reject negb (TotalExpenditure x =? GetBlockReward blockHeight) with ErrRewardInvalid ;
  reject negb (tx_Fee x =? 0) with ErrTxFeeInvalid ;
  do! Verify x lookup ;
  if negb (tx_Height x =? 0) then
    let! from := From x in
    reject negb (Address_Equals from (tx_To x)) with ErrTxToInvalid ;
    Ok tt
  else Ok tt.

Definition checkNoTransfer (x : FullTx) : res unit :=
  reject negb (Address_Equals (tx_To x) zeroAddress) with ErrTxToInvalid ;
  reject negb (tx_Value x =? 0) with ErrTxValueInvalid ;
  Ok tt.

Definition CheckTransaction (x : FullTx) (lookup : PubKeyResolver) : res unit :=
  reject tx_Value x <? 0 with ErrTxValueInvalid ;
  Verify x lookup.

Definition CheckDeploy (x : FullTx) (lookup : PubKeyResolver) : res unit :=
  do! checkNoTransfer x ;
  Verify x lookup.

(** The comparison merkletree uses; it ignores the type, the signature and
    the salt. *)
Definition Equals (x tx : FullTx) : bool :=
  (tx_Network x =? tx_Network tx) && (tx_Height x =? tx_Height tx) && bool_decide (tx_To x = tx_To tx)
  && (tx_Value x =? tx_Value tx) && (tx_Fee x =? tx_Fee tx) && bool_decide (tx_Extra x = tx_Extra tx).

(** ** Signing *)

(** The smallest self-contained envelope over a digest. *)
Definition sign_envelope (rnd : bytes) (privateKey : PrivateKey) (hash : bytes) : res bytes :=
  let! sig := SignHash rnd privateKey hash in
  if HasRecovery (Scheme privateKey) then Ok ([envelopeRecover; Scheme privateKey] ++ sig)
  else
    let! pub := PublicBytes privateKey in
    Ok ([envelopeFull; Scheme privateKey] ++ pub ++ sig).

Definition Signature (rnd : bytes) (x : FullTx) (privateKey : PrivateKey) : res FullTx :=
  let x := tx_set_Sign x [] in
  let! env := sign_envelope rnd privateKey (SigningHash x) in
  Ok (tx_set_Sign x env).

Definition SignatureCompact (rnd : bytes) (x : FullTx) (privateKey : PrivateKey) : res FullTx :=
  if HasRecovery (Scheme privateKey) then Signature rnd x privateKey
  else
    let x := tx_set_Sign x [] in
    let! sig := SignHash rnd privateKey (SigningHash x) in
    let! pub := PublicBytes privateKey in
    let from := AddressOfPubKey (Scheme privateKey) pub in
    Ok (tx_set_Sign x ([envelopeCompact; Scheme privateKey] ++ vec_to_list from ++ sig)).

Definition ManuallySetSignature (x : FullTx) (sign : bytes) : FullTx := tx_set_Sign x sign.

Definition Commitment_Signature (rnd : bytes) (c : Commitment) (privateKey : PrivateKey) : res Commitment :=
  let c := c_set_Sign c [] in
  let! env := sign_envelope rnd privateKey (Commitment_SigningHash c) in
  Ok (c_set_Sign c env).

(** ** tx_extra.go *)

Definition EntryOnTx : bytes := str "ng:main".
Definition EntryOnActivate : bytes := str "ng:init".
Definition EntryOnUpgrade : bytes := str "ng:upgrade".
Definition EntryOnValidate : bytes := str "ng:validate".

Definition EncodeCallData (method args : bytes) : bytes :=
  let method := if bool_decide (method = EntryOnTx) then [] else method in
  if bool_decide (method = []) && (zlen args =? 0) then []
  else rlp_CallData {| cd_Method := method; cd_Args := args |}.

Definition DecodeCallData (extra : bytes) : res (bytes * bytes) :=
  match dec_CallData extra with
  | None => Err ErrDecode
  | Some cd => Ok (cd_Method cd, cd_Args cd)
  end.

Definition commitRaw : byte := Zbyte 0.
Definition commitDeflate : byte := Zbyte 1.

(** compress/flate: a writer at [BestCompression], which may fail, and a
    reader: the bytes it yields and whether it ends in EOF rather than an
    error.  [io.LimitReader] stops at [2^24] bytes, before a later error. *)
Context (deflate : bytes -> option bytes) (inflate : bytes -> bytes * bool).

Definition inflateLimit : nat := Z.to_nat (Z.shiftl 1 24).

Definition EncodeCommitCode (code : bytes) : bytes :=
  match deflate code with
  | Some buf => if zlen buf <? zlen code then commitDeflate :: buf else commitRaw :: code
  | None => commitRaw :: code
  end.

Definition DecodeCommitCode (extra : bytes) : res bytes :=
  match extra with
  | [] => Err ErrCommitExtraInvalid
  | tag :: rest =>
      if bool_decide (tag = commitRaw) then Ok rest
      else if bool_decide (tag = commitDeflate) then
        let '(out, eof) := inflate rest in
        if (inflateLimit <=? length out)%nat then Ok (take inflateLimit out)
        else if eof then Ok out else Err ErrLibrary
      else Err ErrCommitExtraInvalid
  end.

(** ** Envelopes and senders *)

(** A split envelope names the sender [From] reports, and its key has the
    scheme's size. *)
Lemma split_envelope_from un un' inv sign hash lookup sc pub sig :
  split_envelope un inv sign hash lookup = Ok (sc, pub, sig) ->
  envelope_from un' sign hash = Ok (AddressOfPubKey sc pub).
Proof.
  unfold split_envelope, envelope_from. destruct sign as [|form [|scheme body]]; [done..|].
  intros E. open_ok E. rewrite Hg. case_bool_decide; [|case_bool_decide].
  - open_ok E. simplify_eq. by rewrite Hg0.
  - subst form. rewrite (bool_decide_eq_false_2 (envelopeRecover = envelopeCompact)) by done.
    open_ok E. rewrite Hg0. destruct (RecoverPubKey _ _ _); [|done]. by simplify_eq.
  - case_bool_decide; [|done]. open_ok E. rewrite Hg0. simpl. destruct lookup as [f|]; [|done].
    destruct (f _) as [|s pk]; [done|]. open_ok E. simplify_eq.
    unfold Address_Equals in Hg2. bools. simpl. by rewrite Hg2.
Qed.

Lemma tx_Verify_inv x lookup :
  tx_Height x <> 0 -> Verify x lookup = Ok tt ->
  exists sc pub sig, envelope x lookup = Ok (sc, pub, sig)
    /\ From x = Ok (AddressOfPubKey sc pub) /\ VerifyHashSig sc pub (SigningHash x) sig = true
    /\ zlen (tx_Extra x) <= TxMaxExtraSize.
Proof.
  unfold Verify. intros Hh E. rewrite (proj2 (Z.eqb_neq _ _) Hh) in E. open_ok E.
  destruct r as [[sc pub] sig]. open_ok E. exists sc, pub, sig. bools.
  split; [done|]. split; [by eapply split_envelope_from|]. split; [done|lia].
Qed.

(** C4 - The sender is authenticated: for every transaction of non-zero
    height that passes [Verify], with any envelope form and key registry, the
    address [From] returns (the one the state layer charges) is the hash of
    a public key of a menu scheme under which the envelope's signature over
    the signing hash verifies. *)
Theorem Verify_authenticates_From x lookup :
  tx_Height x <> 0 -> Verify x lookup = Ok tt ->
  exists sc pub sig, envelope x lookup = Ok (sc, pub, sig)
    /\ From x = Ok (AddressOfPubKey sc pub)
    /\ VerifyHashSig sc pub (SigningHash x) sig = true
    /\ length pub = PubKeySize sc /\ PubKeySize sc <> 0%nat.
Proof.
  intros Hh Hv. destruct (tx_Verify_inv x lookup Hh Hv) as (sc & pub & sig & He & Hf & Hs & _).
  exists sc, pub, sig. pose proof (VerifyHashSig_known _ _ _ _ Hs).
  split_and!; try done. unfold VerifyHashSig in Hs.
  destruct (_ || _) eqn:G in Hs; [done|]. bools. by apply Nat.eqb_eq.
Qed.

Lemma split_envelope_sign un inv rnd sc sd key hash env lookup :
  SigLaws -> NewKeyFromSeed sc sd = Ok key -> sign_envelope rnd key hash = Ok env ->
  exists pub sig, split_envelope un inv env hash lookup = Ok (sc, pub, sig)
    /\ VerifyHashSig sc pub hash sig = true /\ PublicBytes key = Ok pub.
Proof.
  intros HL Hk He. destruct (NewKeyFromSeed_scheme _ _ _ Hk) as [Hsc _].
  unfold sign_envelope in He. open_ok He. rewrite Hsc in He.
  destruct (HasRecovery sc) eqn:Hrec.
  - simplify_eq. unfold HasRecovery in Hrec. bools. subst.
    destruct (PublicBytes key) as [pub|] eqn:Hp.
    + rewrite Hrec in Hk. destruct (sign_verify _ _ _ _ _ _ _ Hk Hr Hp) as (Hv & Lp & Ls).
      exists pub, r. rewrite Hrec. split; [|done]. unfold split_envelope. cbn [app].
      cbn -[VerifyHashSig RecoverPubKey]. rewrite Ls. cbn -[RecoverPubKey].
      by rewrite (VerifyHashSig_recover _ _ _ Hv).
    + exfalso. unfold SignHash, PublicBytes in *. rewrite !bool_decide_eq_true_2 in * by done.
      by destruct (secp key).
  - open_ok He. simplify_eq. rename r0 into pub.
    destruct (sign_verify _ _ _ _ _ _ _ Hk Hr Hr0) as (Hv & Lp & Ls).
    exists pub, r. split; [|done]. unfold split_envelope. cbn [app].
    pose proof (VerifyHashSig_known _ _ _ _ Hv) as Hn. apply Nat.eqb_neq in Hn. rewrite Hn. cbn [guard].
    rewrite bool_decide_eq_true_2 by done. rewrite length_app, Lp, Ls, Nat.eqb_refl. cbn [negb guard].
    rewrite take_app_length' by done. by rewrite drop_app_length' by done.
Qed.

(** The signing digests do not read the envelope. *)
Lemma SigningHash_set_Sign x s : SigningHash (tx_set_Sign x s) = SigningHash x.
Proof. done. Qed.

Lemma Commitment_SigningHash_set_Sign c s : Commitment_SigningHash (c_set_Sign c s) = Commitment_SigningHash c.
Proof. done. Qed.

Lemma sign_envelope_nonempty rnd key h env : sign_envelope rnd key h = Ok env -> (zlen env =? 0) = false.
Proof.
  unfold sign_envelope. intros E. open_ok E. apply Z.eqb_neq. unfold zlen.
  destruct (HasRecovery _); open_ok E; simplify_eq; simpl; lia.
Qed.

Lemma Signature_Verify rnd x y sc sd key lookup :
  SigLaws -> NewKeyFromSeed sc sd = Ok key -> Signature rnd x key = Ok y ->
  zlen (tx_Extra x) <= TxMaxExtraSize ->
  Verify y lookup = Ok tt /\ (let! a := From y in Ok a) = NewAddress key.
Proof.
  intros HL Hk Hs Hx. destruct (NewKeyFromSeed_scheme _ _ _ Hk) as [Hsc _].
  unfold Signature in Hs. open_ok Hs. simplify_eq. rename r into env.
  destruct (split_envelope_sign ErrTxUnsigned ErrTxSignInvalid _ _ _ _ _ _ lookup HL Hk Hr)
    as (pub & sig & He & Hv & Hp).
  assert (Henv : envelope (tx_set_Sign (tx_set_Sign x []) env) lookup = Ok (Scheme key, pub, sig)) by exact He.
  split.
  - set (y := tx_set_Sign _ env) in *. unfold Verify. destruct (_ =? 0); [done|].
    change (tx_Sign y) with env. change (tx_Extra y) with (tx_Extra x).
    rewrite (sign_envelope_nonempty _ _ _ _ Hr), (proj2 (Z.ltb_ge _ _) Hx). cbn [guard].
    rewrite Henv. cbn [res_bind]. change (SigningHash y) with (SigningHash (tx_set_Sign x [])). by rewrite Hv.
  - unfold From. erewrite split_envelope_from by exact He. unfold NewAddress. by rewrite Hp.
Qed.

(** A compact envelope verifies once the registry holds the signer's key. *)
Lemma SignatureCompact_Verify rnd x y sc sd key lookup pub :
  SigLaws -> NewKeyFromSeed sc sd = Ok key -> SignatureCompact rnd x key = Ok y ->
  PublicBytes key = Ok pub -> lookup (AddressOfPubKey sc pub) = sc :: pub ->
  zlen (tx_Extra x) <= TxMaxExtraSize ->
  Verify y (Some lookup) = Ok tt /\ From y = Ok (AddressOfPubKey sc pub).
Proof.
  intros HL Hk Hs Hp Hl Hx. destruct (NewKeyFromSeed_scheme _ _ _ Hk) as [Hsc _].
  unfold SignatureCompact in Hs. rewrite Hsc in Hs. destruct (HasRecovery sc) eqn:Hrec.
  { destruct (Signature_Verify rnd x y sc sd key (Some lookup)) as [Hv Hf]; [done..|].
    split; [done|]. unfold NewAddress in Hf. rewrite Hp, Hsc in Hf. by destruct (From y). }
  open_ok Hs. rewrite Hp in Hr0. simplify_eq. rename r into sig, r0 into pub.
  destruct (sign_verify _ _ _ _ _ _ _ Hk Hr Hp) as (Hv & Lp & Ls).
  set (from := AddressOfPubKey (Scheme key) pub) in *.
  assert (Lf : length (vec_to_list from) = 32%nat) by apply length_vec_to_list.
  assert (Hn : (PubKeySize (Scheme key) =? 0)%nat = false)
    by (apply Nat.eqb_neq; by eapply VerifyHashSig_known).
  match goal with |- Verify ?z _ = _ /\ _ => set (y := z) end.
  assert (Henv : envelope y (Some lookup) = Ok (Scheme key, pub, sig)).
  { unfold envelope, split_envelope, y. cbn [tx_set_Sign tx_Sign app].
    rewrite Hn. cbn [guard]. rewrite !(bool_decide_eq_false_2 (envelopeCompact = _)) by done.
    rewrite bool_decide_eq_true_2 by done. rewrite length_app, Lf, Ls, Nat.eqb_refl. cbn [negb guard].
    rewrite take_app_length', drop_app_length' by done. rewrite to_array_vec, Hl.
    rewrite Lp, Nat.eqb_refl, bool_decide_eq_true_2 by done. cbn [negb orb guard].
    unfold Address_Equals. by rewrite bool_decide_eq_true_2 by done. }
  split.
  - unfold Verify. destruct (_ =? 0); [done|]. change (zlen (tx_Sign y) =? 0) with false. cbn [guard].
    change (tx_Extra y) with (tx_Extra x). rewrite (proj2 (Z.ltb_ge _ _) Hx). cbn [guard].
    rewrite Henv. cbn [res_bind]. change (SigningHash y) with (SigningHash (tx_set_Sign x [])). by rewrite Hv.
  - exact (split_envelope_from ErrTxUnsigned ErrTxUnsigned ErrTxSignInvalid _ _ (Some lookup) _ _ _ Henv).
Qed.

(** Signing and verifying round-trip, for every scheme of the menu and
    both envelope forms: a transaction signed by a key derived from any seed
    verifies and reports that key's address, with no registry for the
    self-contained form and with a registry holding the key for the compact
    form; and the wallet serialisation of the key parses back to it. *)
Theorem sign_verify_roundtrip rnd x sc sd key pub lookup :
  SigLaws -> NewKeyFromSeed sc sd = Ok key -> PublicBytes key = Ok pub ->
  zlen (tx_Extra x) <= TxMaxExtraSize ->
  ParsePrivateKey (Serialize key) = Ok key
  /\ (forall y, Signature rnd x key = Ok y ->
        Verify y None = Ok tt /\ From y = Ok (AddressOfPubKey sc pub))
  /\ (forall y, lookup (AddressOfPubKey sc pub) = sc :: pub -> SignatureCompact rnd x key = Ok y ->
        Verify y (Some lookup) = Ok tt /\ From y = Ok (AddressOfPubKey sc pub)).
Proof.
  intros HL Hk Hp Hx. destruct (NewKeyFromSeed_scheme _ _ _ Hk) as [Hsc _].
  split; [by eapply Parse_Serialize|]. split.
  - intros y Hy. destruct (Signature_Verify rnd x y sc sd key None) as [Hv Hf]; [done..|].
    split; [done|]. unfold NewAddress in Hf. rewrite Hp, Hsc in Hf. by destruct (From y).
  - intros y Hl Hy. by eapply SignatureCompact_Verify.
Qed.

(** ** What a signature covers *)

(** The string a transaction's signing hash digests. *)
Definition signing_preimage (x : FullTx) : bytes :=
  let x := tx_set_Salt (tx_set_Sign x []) [] in
  rlp_FullTx (if (tx_Type x =? TransactTx) || (tx_Type x =? DeployTx) then tx_set_Height x 0 else x).

Lemma SigningHash_preimage x : SigningHash x = Hash256 (signing_preimage x).
Proof. unfold SigningHash, signing_preimage, UnheightedHash, GetUnsignedHash. cbn. by destruct (_ || _). Qed.

Lemma wf_tx_strip x : wf_tx x ->
  wf_tx (tx_set_Salt (tx_set_Sign x []) []) /\ wf_tx (tx_set_Height (tx_set_Salt (tx_set_Sign x []) []) 0).
Proof. unfold wf_tx. cbn. intros (?&?&?&?&?). split_and!; try done || lia. Qed.

(** What one signature covers.  For an effect transaction (transact or
    deploy) the signature is independent of the height and of the salt: after
    retargeting to any other non-zero height and replacing the salt it still
    verifies and names the same sender, which is what lets a relay move a
    reveal inside its window.  It covers everything else: two well-formed
    transactions with equal signing hashes agree on network, type, recipient,
    value, fee and extra (and on the height when they are not effects), or
    their preimages are a hash collision. *)
Theorem signature_covers_content x y lookup h salt :
  CodecLaws -> wf_tx x -> wf_tx y ->
  (tx_Type x = TransactTx \/ tx_Type x = DeployTx ->
   tx_Height x <> 0 -> h <> 0 -> Verify x lookup = Ok tt ->
   Verify (tx_set_Height (tx_set_Salt x salt) h) lookup = Ok tt
   /\ From (tx_set_Height (tx_set_Salt x salt) h) = From x)
  /\ (SigningHash x = SigningHash y ->
      is_collision (signing_preimage x, signing_preimage y)
      \/ (tx_Network x = tx_Network y /\ tx_Type x = tx_Type y /\ tx_To x = tx_To y /\ tx_Value x = tx_Value y
          /\ tx_Fee x = tx_Fee y /\ tx_Extra x = tx_Extra y
          /\ (tx_Type x = GenerateTx -> tx_Height x = tx_Height y))).
Proof.
  intros HC Wx Wy. split.
  - intros Ht Hx Hh Hv. set (x' := tx_set_Height _ h).
    assert (Hs : SigningHash x' = SigningHash x).
    { unfold SigningHash. change (tx_Type x') with (tx_Type x).
      destruct Ht as [-> | ->]; done. }
    unfold From, Verify, envelope in *. rewrite Hs.
    change (tx_Sign x') with (tx_Sign x). change (tx_Extra x') with (tx_Extra x).
    change (tx_Height x') with h. rewrite (proj2 (Z.eqb_neq _ _) Hh).
    rewrite (proj2 (Z.eqb_neq _ _) Hx) in Hv. done.
  - rewrite !SigningHash_preimage. intros [E|C]%Hash256_eq_or_collision; [right|by left].
    unfold signing_preimage in E. cbn in E. apply rlp_FullTx_inj in E.
    + destruct (tx_Type x =? TransactTx) eqn:E1, (tx_Type x =? DeployTx) eqn:E2,
        (tx_Type y =? TransactTx) eqn:E3, (tx_Type y =? DeployTx) eqn:E4; cbn in E;
        bools; injection E; intros; simplify_eq; split_and!; try done; try congruence;
        unfold TransactTx, DeployTx, GenerateTx in *; lia.
    + clear E. destruct (_ || _); [exact (proj2 (wf_tx_strip x Wx))|exact (proj1 (wf_tx_strip x Wx))].
    + clear E. destruct (_ || _); [exact (proj2 (wf_tx_strip y Wy))|exact (proj1 (wf_tx_strip y Wy))].
Qed.

(** ** Commitments *)

(** A commitment a block accepts is self-consistent: its hash is 32
    bytes, its fee is present, its height is the block's, and the committer
    [From] reports is the hash of a key whose signature over the
    height-independent signing hash verifies; signing produces exactly such
    commitments. *)
Theorem Commitment_CheckError_authenticates c blockHeight lookup rnd sc sd key pub c0 :
  SigLaws -> NewKeyFromSeed sc sd = Ok key -> PublicBytes key = Ok pub ->
  (Commitment_CheckError c blockHeight lookup = Ok tt ->
   length (c_Hash c) = 32%nat /\ c_Height c = blockHeight /\ is_Some (c_Fee c)
   /\ exists sc' pub' sig', Commitment_From c = Ok (AddressOfPubKey sc' pub')
        /\ VerifyHashSig sc' pub' (Commitment_SigningHash c) sig' = true)
  /\ (Commitment_Signature rnd c0 key = Ok c -> length (c_Hash c0) = 32%nat -> is_Some (c_Fee c0) ->
      forall h, Commitment_CheckError (c_set_Height c h) h None = Ok tt
           /\ Commitment_From (c_set_Height c h) = Ok (AddressOfPubKey sc pub)).
Proof.
  intros HL Hk Hp. split.
  - intros E. unfold Commitment_CheckError in E. open_ok E. bools.
    unfold zlen, HashSize in *. split; [lia|]. split; [done|].
    split; [destruct (c_Fee c); [by eexists|done]|].
    unfold Commitment_Verify in E. open_ok E. destruct r as [[sc' pub'] sig']. open_ok E. bools.
    exists sc', pub', sig'. split; [|done]. by eapply split_envelope_from.
  - intros E Hl [f Hf] h. unfold Commitment_Signature in E. open_ok E. simplify_eq. rename r into env.
    destruct (split_envelope_sign ErrCommitUnsigned ErrCommitSignInvalid _ _ _ _ _ _ None HL Hk Hr)
      as (pub' & sig & He & Hv & Hp'). rewrite Hp in Hp'. simplify_eq.
    set (c := c_set_Height _ h).
    assert (Henv : Commitment_envelope c None = Ok (sc, pub', sig)) by exact He.
    split; [|exact (split_envelope_from ErrCommitUnsigned ErrCommitUnsigned ErrCommitSignInvalid _ _ None _ _ _ Henv)].
    unfold Commitment_CheckError. change (c_Hash c) with (c_Hash c0). change (c_Fee c) with (c_Fee c0).
    change (c_Height c) with h. unfold zlen. rewrite Hl, Hf, Z.eqb_refl. cbn [guard negb].
    rewrite bool_decide_eq_false_2 by done. cbn [guard]. unfold Commitment_Verify.
    change (c_Sign c) with env. rewrite (sign_envelope_nonempty _ _ _ _ Hr). cbn [guard].
    rewrite Henv. cbn [res_bind]. change (Commitment_SigningHash c) with (Commitment_SigningHash (c_set_Sign c0 [])).
    by rewrite Hv, Z.eqb_refl.
Qed.

(** ** Extra payloads *)

(** Contract payloads round-trip: a module encoded into a deploy extra
    decodes back whichever of the two forms the encoder chose, up to the
    decoder's 16 MiB limit; call data decodes to the method and arguments
    encoded, except that naming the default entry is the empty method and
    that a bare transfer has no payload at all. *)
Theorem extra_roundtrip code method args :
  (forall b z, deflate b = Some z -> inflate z = (b, true)) ->
  CodecLaws -> (length code < inflateLimit)%nat ->
  DecodeCommitCode (EncodeCommitCode code) = Ok code
  /\ (let m := if bool_decide (method = EntryOnTx) then [] else method in
      if bool_decide (m = []) && bool_decide (args = []) then EncodeCallData method args = []
      else DecodeCallData (EncodeCallData method args) = Ok (m, args)).
Proof.
  intros Hfl HC Hc. split.
  - unfold EncodeCommitCode. destruct (deflate code) as [z|] eqn:E; [|done].
    destruct (_ <? _); [|done]. unfold DecodeCommitCode.
    rewrite bool_decide_eq_false_2, bool_decide_eq_true_2 by done. rewrite (Hfl _ _ E).
    by rewrite (proj2 (Nat.leb_gt _ _) Hc).
  - unfold EncodeCallData, DecodeCallData. set (m := if bool_decide (method = EntryOnTx) then [] else method).
    assert (Ha : (zlen args =? 0) = bool_decide (args = [])).
    { destruct args; [done|]. by rewrite bool_decide_eq_false_2. }
    rewrite Ha. cbn zeta. destruct (bool_decide (m = []) && _); [done|]. by rewrite dec_rlp_CallData.
Qed.

End Tx.

(** ** Witnesses *)

Module Witness.

#[local] Existing Instance toy_hasher.
#[local] Existing Instance toy_libs.
#[local] Existing Instance toy_codec.
#[local] Existing Instance toy_laws.
#[local] Existing Instance toy_codec_laws.

Definition seed32 : bytes := replicate 32 (Zbyte 7).

Definition key_of (sc : SigScheme) : PrivateKey :=
  match NewKeyFromSeed sc seed32 with Ok k => k | Err _ => bareKey sc seed32 end.

Definition pub_of (sc : SigScheme) : bytes := match PublicBytes (key_of sc) with Ok p => p | Err _ => [] end.

Lemma key_of_ok sc : is_ok (NewKeyFromSeed sc seed32) = true -> NewKeyFromSeed sc seed32 = Ok (key_of sc).
Proof. unfold key_of. by destruct (NewKeyFromSeed sc seed32). Qed.

Lemma pub_of_ok sc : is_ok (PublicBytes (key_of sc)) = true -> PublicBytes (key_of sc) = Ok (pub_of sc).
Proof. unfold pub_of. by destruct (PublicBytes (key_of sc)). Qed.

Definition tx0 : FullTx := NewUnsignedTx ZERONET TransactTx 5 (to_array 32 [Zbyte 9]) (Some 10) (Some 3) (str "hi").

Definition signed (sc : SigScheme) : FullTx :=
  match Signature [] tx0 (key_of sc) with Ok y => y | Err _ => tx0 end.

Lemma Verify_authenticates_From_witness :
  exists sc pub sig, envelope (signed SchemeFNDSA512) None = Ok (sc, pub, sig)
    /\ From (signed SchemeFNDSA512) = Ok (AddressOfPubKey sc pub)
    /\ VerifyHashSig sc pub (SigningHash (signed SchemeFNDSA512)) sig = true
    /\ length pub = PubKeySize sc /\ PubKeySize sc <> 0%nat.
Proof.
  apply (Verify_authenticates_From (signed SchemeFNDSA512) None); [done|]. vm_compute. reflexivity.
Defined.

Lemma sign_verify_roundtrip_witness :
  ParsePrivateKey (Serialize (key_of SchemeMLDSA44)) = Ok (key_of SchemeMLDSA44)
  /\ (forall y, Signature [] tx0 (key_of SchemeMLDSA44) = Ok y ->
        Verify y None = Ok tt /\ From y = Ok (AddressOfPubKey SchemeMLDSA44 (pub_of SchemeMLDSA44))).
Proof.
  destruct (sign_verify_roundtrip [] tx0 SchemeMLDSA44 seed32 (key_of SchemeMLDSA44) (pub_of SchemeMLDSA44)
    (fun _ => [])) as (Hp & Hs & _).
  - exact toy_laws.
  - apply key_of_ok. vm_compute. reflexivity.
  - apply pub_of_ok. vm_compute. reflexivity.
  - vm_compute. done.
  - split; [exact Hp|exact Hs].
Defined.

Lemma signature_covers_content_witness :
  let x := signed SchemeSecp256k1 in
  Verify (tx_set_Height (tx_set_Salt x (str "salt")) 7) None = Ok tt
  /\ From (tx_set_Height (tx_set_Salt x (str "salt")) 7) = From x.
Proof.
  cbv zeta. destruct (signature_covers_content (signed SchemeSecp256k1) tx0 None 7 (str "salt")) as [Hr _].
  - exact toy_codec_laws.
  - repeat split; vm_compute; done.
  - repeat split; vm_compute; done.
  - apply Hr; [left; vm_compute; reflexivity|vm_compute; done|done|vm_compute; reflexivity].
Defined.

Definition commit0 : Commitment := NewCommitment ZERONET 5 (replicate 32 (Zbyte 4)) (Some 1).
Definition commit1 : Commitment :=
  match Commitment_Signature [] commit0 (key_of SchemeSecp256k1) with Ok c => c | Err _ => commit0 end.

Lemma Commitment_CheckError_authenticates_witness :
  Commitment_CheckError (c_set_Height commit1 9) 9 None = Ok tt
  /\ Commitment_From (c_set_Height commit1 9) = Ok (AddressOfPubKey SchemeSecp256k1 (pub_of SchemeSecp256k1)).
Proof.
  destruct (Commitment_CheckError_authenticates commit1 5 None [] SchemeSecp256k1 seed32
    (key_of SchemeSecp256k1) (pub_of SchemeSecp256k1) commit0) as [_ Hs].
  - exact toy_laws.
  - apply key_of_ok. vm_compute. reflexivity.
  - apply pub_of_ok. vm_compute. reflexivity.
  - apply Hs; [vm_compute; reflexivity|reflexivity|by eexists].
Defined.

(** A compressor that encodes the one byte string it shortens. *)
Lemma extra_roundtrip_witness :
  let deflate b := if bool_decide (b = zeros 5) then Some [Zbyte 5] else None in
  let inflate z := if bool_decide (z = [Zbyte 5]) then (zeros 5, true) else ([], false) in
  DecodeCommitCode inflate (EncodeCommitCode deflate (zeros 5)) = Ok (zeros 5)
  /\ DecodeCallData (EncodeCallData (str "mint") []) = Ok (str "mint", []).
Proof.
  cbv zeta.
  destruct (extra_roundtrip (fun b => if bool_decide (b = zeros 5) then Some [Zbyte 5] else None)
    (fun z => if bool_decide (z = [Zbyte 5]) then (zeros 5, true) else ([], false)) (zeros 5) (str "mint") [])
    as [Hc Hd].
  - intros b z. case_bool_decide; [|done]. intros [= <-]. subst. by rewrite bool_decide_eq_true_2.
  - exact toy_codec_laws.
  - unfold inflateLimit. change (length (zeros 5)) with 5%nat. change (Z.shiftl 1 24) with 16777216. lia.
  - split; [exact Hc|exact Hd].
Defined.

End Witness.
