(* ===== verification/Block.v ===== *)
(** * Blocks

    ngtypes/block.go, block_header.go, tx_trie.go, block_genesis.go,
    tx_genesis.go, difficulty.go and the block part of feemarket.go: hashes and
    roots, the proof-of-work preimage, block assembly, the context-free block
    check, the difficulty retarget and the genesis block. *)

From S2P Require Import Prelude Params StateTrie Keys Types Instances Tx.

(** The libraries: astrobwt's proof-of-work hash, and cbergoon/merkletree's
    root over the leaf hashes in order. *)
Class PowLib := astrobwt_POW : bytes -> vec byte 32.
Class MerkleLib := MerkleRoot : list bytes -> bytes.

(** ** Difficulty *)

Definition targetTimeAt (net : Network) (height : Z) : Z :=
  let _ := ActiveFork net height in TargetTime.

Definition MinimumDiffOf (network : Network) : Z :=
  if network =? ZERONET then 1 else minimumDifficulty.

(** The clamp of [factor] to [-99*target, target]. *)
Definition clampFactor (target factor : Z) : Z :=
  let factor := if target <? factor then target else factor in
  if factor <? -99 * target then -99 * target else factor.

(** [int64] arithmetic wraps; [big.Int.Quo] truncates towards zero. *)
Definition GetNextDiff (blockHeight blockTime : Z) (parent : BlockHeader) : res Z :=
  let diff := be_Z (h_Difficulty parent) in
  let! genesis := GetGenesisTimestamp (h_Network parent) in
  reject h_Timestamp parent <? genesis with GoPanic ;
  let target := i64 (targetTimeAt (h_Network parent) blockHeight / Millisecond) in
  let target := if target <? 1 then 1 else target in
  let d := i64 (i64 blockTime - i64 (h_Timestamp parent)) in
  let factor := clampFactor target (i64 (target - d)) in
  let diff := diff + Z.quot (diff * factor) (2048 * target) in
  let exp := Z.quot (i64 blockHeight) 100000 - 2 in
  let diff := if 0 <=? exp then diff + 2 ^ exp else diff in
  let minimum := MinimumDiffOf (h_Network parent) in
  Ok (if diff <? minimum then minimum else diff).

(** ** Properties of the retarget *)

(** The height-driven bump: [2^(height/100000 - 2)] from height 200000 on. *)
Definition bomb (height : Z) : Z :=
  let exp := Z.quot height 100000 - 2 in if 0 <=? exp then 2 ^ exp else 0.

Definition retarget (net : Network) (diff height d : Z) : Z :=
  Z.max (MinimumDiffOf net) (diff + Z.quot (diff * clampFactor 4000 (4000 - d)) (2048 * 4000) + bomb height).

(** Below [2^62] no [int64] wraps and the retarget is the formula. *)
Lemma GetNextDiff_formula height time parent genesis :
  GetGenesisTimestamp (h_Network parent) = Ok genesis -> genesis <= h_Timestamp parent ->
  0 <= h_Timestamp parent < 2 ^ 62 -> 0 <= time < 2 ^ 62 -> 0 <= height < 2 ^ 62 ->
  GetNextDiff height time parent
  = Ok (retarget (h_Network parent) (be_Z (h_Difficulty parent)) height (time - h_Timestamp parent)).
Proof.
  intros Hg Hge Hp Ht Hh. unfold GetNextDiff, retarget, bomb. rewrite Hg. cbn [res_bind].
  rewrite (proj2 (Z.ltb_ge _ _) Hge). cbn [guard].
  unfold targetTimeAt. change (i64 (TargetTime / Millisecond)) with 4000. cbv zeta.
  change (4000 <? 1) with false. cbv iota.
  assert (Hw : forall z, - 2 ^ 63 < z < 2 ^ 63 -> i64 z = z).
  { intros z Hz. unfold i64, two64. destruct (Z.le_gt_cases 0 z).
    - rewrite Z.mod_small by lia. destruct (Z.ltb_spec z 9223372036854775808); lia.
    - rewrite <-(Z.mod_add z 1), Z.mod_small by lia.
      destruct (Z.ltb_spec (z + 1 * 18446744073709551616) 9223372036854775808); lia. }
  rewrite (Hw time), (Hw (h_Timestamp parent)), (Hw (time - _)), (Hw height) by lia.
  set (d := time - h_Timestamp parent). rewrite (Hw (4000 - d)) by lia.
  f_equal. set (m := MinimumDiffOf _). destruct (0 <=? _).
  - destruct (Z.ltb_spec (be_Z (h_Difficulty parent) + Z.quot (be_Z (h_Difficulty parent) * clampFactor 4000 (4000 - d)) (2048 * 4000)
      + 2 ^ (Z.quot height 100000 - 2)) m); lia.
  - destruct (Z.ltb_spec (be_Z (h_Difficulty parent) + Z.quot (be_Z (h_Difficulty parent) * clampFactor 4000 (4000 - d)) (2048 * 4000)) m); lia.
Qed.

Lemma clampFactor_bounds f : -99 * 4000 <= clampFactor 4000 f <= 4000.
Proof. unfold clampFactor. destruct (Z.ltb_spec 4000 f); [done|]. destruct (Z.ltb_spec f (-99 * 4000)); lia. Qed.

Lemma clampFactor_mono f g : f <= g -> clampFactor 4000 f <= clampFactor 4000 g.
Proof.
  intros. unfold clampFactor.
  destruct (Z.ltb_spec 4000 f), (Z.ltb_spec 4000 g); try lia;
    repeat match goal with |- context [?a <? ?b] => destruct (Z.ltb_spec a b) end; lia.
Qed.

Lemma bomb_nonneg h : 0 <= bomb h.
Proof. unfold bomb. destruct (0 <=? _); [|done]. apply Z.pow_nonneg. lia. Qed.

(** C40 - The difficulty retarget, below [2^62] milliseconds and heights.
    The next difficulty never falls under the network's minimum; apart from
    the height bump it rises by at most 1/2048 and falls by at most 99/2048
    of the parent's; a block at or before the 4 s target never lowers it and
    one at or after the target never raises it; and it is antitone in the
    block time, so a later timestamp never demands more work. *)
Theorem GetNextDiff_tracks_target height time time' parent genesis :
  GetGenesisTimestamp (h_Network parent) = Ok genesis -> genesis <= h_Timestamp parent ->
  h_Timestamp parent <= time <= time' -> time' < 2 ^ 62 -> 0 <= height < 2 ^ 62 ->
  exists r r', GetNextDiff height time parent = Ok r /\ GetNextDiff height time' parent = Ok r'
    /\ r' <= r
    /\ (let diff := be_Z (h_Difficulty parent) in let m := MinimumDiffOf (h_Network parent) in
        m <= r
        /\ r <= Z.max m (diff + diff / 2048 + bomb height)
        /\ diff - 99 * diff / 2048 <= r
        /\ (time - h_Timestamp parent <= 4000 -> diff <= r)
        /\ (4000 <= time - h_Timestamp parent -> r <= Z.max m (diff + bomb height))).
Proof.
  intros Hg Hge Ht Ht' Hh.
  assert (0 <= genesis) by (unfold GetGenesisTimestamp in Hg; repeat case_match; simplify_eq; lia).
  eexists _, _. split; [eapply GetNextDiff_formula; [exact Hg|lia..]|].
  split; [eapply GetNextDiff_formula; [exact Hg|lia..]|].
  unfold retarget. set (diff := be_Z (h_Difficulty parent)). set (m := MinimumDiffOf _).
  assert (Hd : 0 <= diff) by apply be_Z_nonneg. pose proof (bomb_nonneg height).
  pose proof (clampFactor_bounds (4000 - (time - h_Timestamp parent))) as Hc.
  pose proof (clampFactor_mono (4000 - (time' - h_Timestamp parent)) (4000 - (time - h_Timestamp parent)) ltac:(lia)) as Hm.
  assert (Hq : forall c, c <= 4000 -> Z.quot (diff * c) (2048 * 4000) <= diff / 2048).
  { intros c Hc4. rewrite <-(Z.quot_div_nonneg diff 2048) by lia.
    rewrite <-(Z.quot_mul_cancel_r diff 2048 4000) by lia. apply Z.quot_le_mono; nia. }
  assert (Hq' : forall c, -99 * 4000 <= c -> - (99 * diff / 2048) <= Z.quot (diff * c) (2048 * 4000)).
  { intros c Hc4. rewrite <-(Z.quot_div_nonneg (99 * diff) 2048) by lia.
    rewrite <-(Z.quot_mul_cancel_r (99 * diff) 2048 4000), <-Z.quot_opp_l by lia. apply Z.quot_le_mono; nia. }
  pose proof (Z.quot_le_mono (diff * clampFactor 4000 (4000 - (time' - h_Timestamp parent)))
    (diff * clampFactor 4000 (4000 - (time - h_Timestamp parent))) (2048 * 4000) ltac:(lia) ltac:(nia)).
  split; [lia|]. cbv zeta. split_and!; [lia|specialize (Hq _ (proj2 Hc)); lia|specialize (Hq' _ (proj1 Hc)); lia| |].
  - intros Hle. pose proof (clampFactor_mono 0 (4000 - (time - h_Timestamp parent)) ltac:(lia)) as Hz0.
    change (clampFactor 4000 0) with 0 in Hz0.
    pose proof (Z.quot_pos (diff * clampFactor 4000 (4000 - (time - h_Timestamp parent))) (2048 * 4000) ltac:(nia) ltac:(lia)). lia.
  - intros Hle. pose proof (clampFactor_mono (4000 - (time - h_Timestamp parent)) 0 ltac:(lia)) as Hz0.
    change (clampFactor 4000 0) with 0 in Hz0.
    pose proof (Z.quot_le_mono (diff * clampFactor 4000 (4000 - (time - h_Timestamp parent))) 0 (2048 * 4000) ltac:(lia) ltac:(nia)) as Hz.
    rewrite Z.quot_0_l in Hz by lia. lia.
Qed.

Section Block.
Context `{HH : Hasher} `{SL : SigLibs} `{CD : Codec} `{PW : PowLib} `{ML : MerkleLib}.

(** ** Headers *)

Definition ReverseBytes (b : bytes) : bytes := reverse b.

(** A nil [nonce] is [None]. *)
Definition GetPoWRawHeader (x : BlockHeader) (nonce : option bytes) : bytes :=
  let raw := zeros 281 in
  let raw := copy_range raw 0 1 [Zbyte (h_Network x)] in
  let raw := copy_range raw 1 9 (le_bytes 8 (h_Height x)) in
  let raw := copy_range raw 9 17 (le_bytes 8 (h_Timestamp x)) in
  let raw := copy_range raw 17 49 (h_PrevBlockHash x) in
  let raw := copy_range raw 49 81 (h_TxTrieHash x) in
  let raw := copy_range raw 81 113 (h_WitnessRoot x) in
  let raw := copy_range raw 113 145 (ReverseBytes (h_Difficulty x)) in
  let raw := copy_range raw 145 177 (h_Coinbase x) in
  let raw := copy_range raw 177 209 (h_UnclesHash x) in
  let raw := copy_range raw 209 241 (h_StateRoot x) in
  let raw := copy_range raw 241 273 (ReverseBytes (h_BaseFee x)) in
  match nonce with
  | None => copy_range raw 273 281 (h_Nonce x)
  | Some n => copy_range raw 273 281 n
  end.

Definition PowHash (x : BlockHeader) : bytes := astrobwt_POW (GetPoWRawHeader x None).

(** [big.Int.Div] panics on a zero divisor. *)
Definition big_Div (a b : Z) : res Z := if b =? 0 then Err GoPanic else Ok (a / b).

Definition ActualDiff (x : BlockHeader) : res Z := big_Div MaxTarget (be_Z (PowHash x)).

Definition Header_GetHash (x : BlockHeader) : bytes := Hash256 (rlp_BlockHeader x).

Definition GetHeight (x : BlockHeader) : Z := h_Height x.
Definition GetPrevHash (x : BlockHeader) : bytes := h_PrevBlockHash x.
Definition GetTimestamp (x : BlockHeader) : Z := h_Timestamp x.

(** [now] is the clock, [time.Now().UnixMilli()]; the sum is a [uint64]. *)
Definition tooFarInFuture (now ts : Z) : bool := u64 (now + TimestampDriftTolerance) <? ts.

Definition checkStandaloneError (now : Z) (x : BlockHeader) : res unit :=
  reject negb (zlen (h_PrevBlockHash x) =? HashSize) || negb (zlen (h_TxTrieHash x) =? HashSize)
         || negb (zlen (h_WitnessRoot x) =? HashSize) || negb (zlen (h_UnclesHash x) =? HashSize)
         || negb (zlen (h_StateRoot x) =? HashSize) || negb (zlen (h_Coinbase x) =? AddressSize)
    with ErrUncleFixedSize ;
  reject (zlen (h_Difficulty x) =? 0) || (DiffSize <? zlen (h_Difficulty x)) with ErrUncleDifficulty ;
  reject DiffSize <? zlen (h_BaseFee x) with ErrUncleBaseFee ;
  reject negb (zlen (h_Nonce x) =? NonceSize) with ErrUncleNonceSize ;
  reject h_Height x =? 0 with ErrUncleGenesis ;
  reject tooFarInFuture now (h_Timestamp x) with ErrUncleTimestamp ;
  let! target := big_Div MaxTarget (be_Z (h_Difficulty x)) in
  reject target <=? be_Z (PowHash x) with ErrUncleNonce ;
  Ok tt.

Definition Header_Equals (x header : BlockHeader) : bool :=
  (h_Network x =? h_Network header) && (h_Height x =? h_Height header) && (h_Timestamp x =? h_Timestamp header)
  && bool_decide (h_PrevBlockHash x = h_PrevBlockHash header) && bool_decide (h_TxTrieHash x = h_TxTrieHash header)
  && bool_decide (h_WitnessRoot x = h_WitnessRoot header) && bool_decide (h_Difficulty x = h_Difficulty header)
  && bool_decide (h_Coinbase x = h_Coinbase header) && bool_decide (h_UnclesHash x = h_UnclesHash header)
  && bool_decide (h_StateRoot x = h_StateRoot header) && bool_decide (h_BaseFee x = h_BaseFee header)
  && bool_decide (h_Nonce x = h_Nonce header).

(** ** Roots *)

(** [sort.Slice] by a hash, ascending.  Go's sort leaves elements of equal
    key in any order; here they keep theirs. *)
Definition hash_le {A} (f : A -> bytes) (x y : A) : Prop := bytes_le (f x) (f y).

#[export] Instance hash_le_dec {A} (f : A -> bytes) : RelDecision (hash_le f).
Proof. intros x y. unfold hash_le. apply _. Defined.

Definition sort_by {A} (f : A -> bytes) (l : list A) : list A := merge_sort (hash_le f) l.

Definition TxTrie := list FullTx.

Definition NewTxTrie (txs : list FullTx) : TxTrie := sort_by GetHash txs.

(** The contents are known to merkletree by their [CalculateHash]. *)
Definition contentRoot (hashes : list bytes) : bytes :=
  match hashes with
  | [] => zeros 32
  | _ => MerkleRoot (sort_by id hashes)
  end.

Definition TrieRoot (tt : TxTrie) : bytes :=
  match tt with [] => zeros 32 | _ => contentRoot (GetUnsignedHash <$> tt) end.

Definition ContentRoot (txs : list FullTx) (commits : list Commitment) : bytes :=
  if (zlen txs =? 0) && (zlen commits =? 0) then zeros 32
  else contentRoot ((GetUnsignedHash <$> txs) ++ (Commitment_GetUnsignedHash <$> commits)).

Definition CalcWitnessRoot (txs : list FullTx) (commits : list Commitment) : bytes :=
  Hash256 ((txs ≫= fun tx => Hash256 (tx_Sign tx)) ++ (commits ≫= fun c => Hash256 (c_Sign c))).

Definition CalcUnclesHash (uncles : list BlockHeader) : bytes :=
  if zlen uncles =? 0 then zeros 32 else Hash256 (uncles ≫= Header_GetHash).

(** ** Assembling blocks *)

Definition h_set_roots (h : BlockHeader) (txTrieHash witnessRoot : bytes) : BlockHeader :=
  {| h_Network := h_Network h; h_Height := h_Height h; h_Timestamp := h_Timestamp h;
     h_PrevBlockHash := h_PrevBlockHash h; h_TxTrieHash := txTrieHash; h_WitnessRoot := witnessRoot;
     h_Difficulty := h_Difficulty h; h_Coinbase := h_Coinbase h; h_UnclesHash := h_UnclesHash h;
     h_StateRoot := h_StateRoot h; h_BaseFee := h_BaseFee h; h_Nonce := h_Nonce h |}.

Definition h_set_Coinbase (h : BlockHeader) (coinbase : bytes) : BlockHeader :=
  {| h_Network := h_Network h; h_Height := h_Height h; h_Timestamp := h_Timestamp h;
     h_PrevBlockHash := h_PrevBlockHash h; h_TxTrieHash := h_TxTrieHash h; h_WitnessRoot := h_WitnessRoot h;
     h_Difficulty := h_Difficulty h; h_Coinbase := coinbase; h_UnclesHash := h_UnclesHash h;
     h_StateRoot := h_StateRoot h; h_BaseFee := h_BaseFee h; h_Nonce := h_Nonce h |}.

Definition h_set_UnclesHash (h : BlockHeader) (unclesHash : bytes) : BlockHeader :=
  {| h_Network := h_Network h; h_Height := h_Height h; h_Timestamp := h_Timestamp h;
     h_PrevBlockHash := h_PrevBlockHash h; h_TxTrieHash := h_TxTrieHash h; h_WitnessRoot := h_WitnessRoot h;
     h_Difficulty := h_Difficulty h; h_Coinbase := h_Coinbase h; h_UnclesHash := unclesHash;
     h_StateRoot := h_StateRoot h; h_BaseFee := h_BaseFee h; h_Nonce := h_Nonce h |}.

Definition h_set_StateRoot_BaseFee (h : BlockHeader) (stateRoot baseFee : bytes) : BlockHeader :=
  {| h_Network := h_Network h; h_Height := h_Height h; h_Timestamp := h_Timestamp h;
     h_PrevBlockHash := h_PrevBlockHash h; h_TxTrieHash := h_TxTrieHash h; h_WitnessRoot := h_WitnessRoot h;
     h_Difficulty := h_Difficulty h; h_Coinbase := h_Coinbase h; h_UnclesHash := h_UnclesHash h;
     h_StateRoot := stateRoot; h_BaseFee := baseFee; h_Nonce := h_Nonce h |}.

Definition h_set_Nonce (h : BlockHeader) (nonce : bytes) : BlockHeader :=
  {| h_Network := h_Network h; h_Height := h_Height h; h_Timestamp := h_Timestamp h;
     h_PrevBlockHash := h_PrevBlockHash h; h_TxTrieHash := h_TxTrieHash h; h_WitnessRoot := h_WitnessRoot h;
     h_Difficulty := h_Difficulty h; h_Coinbase := h_Coinbase h; h_UnclesHash := h_UnclesHash h;
     h_StateRoot := h_StateRoot h; h_BaseFee := h_BaseFee h; h_Nonce := nonce |}.

Definition h_set_Difficulty (h : BlockHeader) (difficulty : bytes) : BlockHeader :=
  {| h_Network := h_Network h; h_Height := h_Height h; h_Timestamp := h_Timestamp h;
     h_PrevBlockHash := h_PrevBlockHash h; h_TxTrieHash := h_TxTrieHash h; h_WitnessRoot := h_WitnessRoot h;
     h_Difficulty := difficulty; h_Coinbase := h_Coinbase h; h_UnclesHash := h_UnclesHash h;
     h_StateRoot := h_StateRoot h; h_BaseFee := h_BaseFee h; h_Nonce := h_Nonce h |}.

Definition set_Header (x : FullBlock) (h : BlockHeader) : FullBlock :=
  {| b_Header := h; b_Txs := b_Txs x; b_Uncles := b_Uncles x; b_Commits := b_Commits x |}.

Definition NewBlock (network : Network) (height timestamp : Z)
    (prevBlockHash txTrieHash witnessRoot difficulty nonce : bytes) (txs : list FullTx) : FullBlock :=
  {| b_Header := {| h_Network := network; h_Height := height; h_Timestamp := timestamp;
                    h_PrevBlockHash := prevBlockHash; h_TxTrieHash := txTrieHash; h_WitnessRoot := witnessRoot;
                    h_Difficulty := difficulty; h_Coinbase := zeros 32; h_UnclesHash := zeros 32;
                    h_StateRoot := zeros 32; h_BaseFee := big_Bytes MinBaseFee; h_Nonce := nonce |};
     b_Txs := txs; b_Uncles := []; b_Commits := [] |}.

Definition NewBareBlock (network : Network) (height blockTime : Z) (prevBlockHash : bytes) (diff : Z) : FullBlock :=
  NewBlock network height blockTime prevBlockHash (zeros 32) (zeros 32) (big_Bytes diff) (zeros 8) [].

Definition SetCoinbase (x : FullBlock) (addr : Address) : FullBlock :=
  set_Header x (h_set_Coinbase (b_Header x) (vec_to_list addr)).

Definition SetUncles (x : FullBlock) (uncles : list BlockHeader) : FullBlock :=
  let uncles := sort_by Header_GetHash uncles in
  {| b_Header := h_set_UnclesHash (b_Header x) (CalcUnclesHash uncles);
     b_Txs := b_Txs x; b_Uncles := uncles; b_Commits := b_Commits x |}.

Definition SetCommits (x : FullBlock) (commits : list Commitment) : FullBlock :=
  {| b_Header := b_Header x; b_Txs := b_Txs x; b_Uncles := b_Uncles x; b_Commits := commits |}.

(** The loop over the transactions after the first. *)
Fixpoint checkUnsealingTxs (height : Z) (txs : list FullTx) : res unit :=
  match txs with
  | [] => Ok tt
  | tx :: rest =>
      if tx_Type tx =? GenerateTx then
        if IsSigned tx then Err ErrBlockOnlyOneGen else checkUnsealingTxs height rest
      else if negb (tx_Height tx =? height) then Err ErrTxExtraInvalid
      else checkUnsealingTxs height rest
  end.

Definition ToUnsealing (x : FullBlock) (txsWithGen : list FullTx) : res FullBlock :=
  match txsWithGen with
  | [] => Err GoPanic
  | gen :: rest =>
      reject negb (tx_Type gen =? GenerateTx) with ErrBlockNoGen ;
      do! checkUnsealingTxs (h_Height (b_Header x)) rest ;
      let txs := NewTxTrie txsWithGen in
      Ok {| b_Header := h_set_roots (b_Header x) (ContentRoot txs (b_Commits x)) (CalcWitnessRoot txs (b_Commits x));
            b_Txs := txs; b_Uncles := b_Uncles x; b_Commits := b_Commits x |}
  end.

(** A nil slice is the empty list, and every header built or decoded holds
    non-nil slices; [IsSealed] is only consulted after the nonce's length. *)
Definition IsUnsealing (x : FullBlock) : bool := negb (bool_decide (h_TxTrieHash (b_Header x) = [])).
Definition IsSealed (x : FullBlock) : bool := negb (bool_decide (h_Nonce (b_Header x) = [])).
Definition IsHead (x : FullBlock) : bool := h_Height (b_Header x) mod BlockCheckRound =? 0.
Definition IsTail (x : FullBlock) : bool := u64 (h_Height (b_Header x) + 1) mod BlockCheckRound =? 0.

Definition ToSealed (x : FullBlock) (nonce : bytes) : res FullBlock :=
  reject negb (IsUnsealing x) with ErrBlockSealBare ;
  reject negb (zlen nonce =? NonceSize) with ErrInvalidNonce ;
  Ok (set_Header x (h_set_Nonce (b_Header x) nonce)).

Definition Block_GetHash (x : FullBlock) : bytes := Hash256 (rlp_BlockHeader (b_Header x)).

Definition GetActualDiff (x : FullBlock) : res Z := big_Div MaxTarget (be_Z (PowHash (b_Header x))).

Definition verifyNonce (x : FullBlock) : res unit :=
  if h_Height (b_Header x) =? 0 then Ok tt
  else
    let! target := big_Div MaxTarget (be_Z (h_Difficulty (b_Header x))) in
    if be_Z (PowHash (b_Header x)) <? target then Ok tt else Err ErrInvalidNonce.

(** ** The context-free check *)

(** The [seen] map loops: the first repeated id is an error. *)
Fixpoint noDup (seen : gset bytes) (ids : list bytes) (e : error) : res unit :=
  match ids with
  | [] => Ok tt
  | id :: rest => if bool_decide (id ∈ seen) then Err e else noDup ({[id]} ∪ seen) rest e
  end.

Definition effectIds (txs : list FullTx) : list bytes :=
  GetHash <$> filter (fun tx => tx_Type tx <> GenerateTx) txs.

Fixpoint checkCommits (height : Z) (commits : list Commitment) : res unit :=
  match commits with
  | [] => Ok tt
  | c :: rest => do! Commitment_CheckError c height None ; checkCommits height rest
  end.

(** A panic inside the uncle check is not an error value. *)
Fixpoint checkUncles (now : Z) (prevHash : bytes) (seen : gset bytes) (uncles : list BlockHeader) : res unit :=
  match uncles with
  | [] => Ok tt
  | u :: rest =>
      match checkStandaloneError now u with
      | Err GoPanic => Err GoPanic
      | Err _ => Err ErrBlockUnclesInvalid
      | Ok _ =>
          let uh := Header_GetHash u in
          reject bool_decide (uh ∈ seen) with ErrBlockUnclesInvalid ;
          reject bool_decide (uh = prevHash) with ErrBlockUnclesInvalid ;
          checkUncles now prevHash ({[uh]} ∪ seen) rest
      end
  end.

Definition CheckError (now : Z) (x : FullBlock) : res unit :=
  let h := b_Header x in
  reject MaxBlockTxCount <? zlen (b_Txs x) with ErrBlockTxsExcess ;
  reject MaxBlockCommitCount <? zlen (b_Commits x) with ErrBlockCommitsExcess ;
  reject MaxBlockBytes <? zlen (rlp_FullBlock x) with ErrBlockBytesExcess ;
  reject negb (zlen (h_PrevBlockHash h) =? HashSize) with ErrBlockPrevHashInvalid ;
  reject negb (zlen (h_TxTrieHash h) =? HashSize) with ErrBlockTxTrieHashInvalid ;
  reject negb (zlen (h_Nonce h) =? NonceSize) with ErrInvalidNonce ;
  reject tooFarInFuture now (h_Timestamp h) with ErrBlockTimestampInvalid ;
  reject negb (IsSealed x) with ErrBlockNotSealed ;
  do! checkCommits (h_Height h) (b_Commits x) ;
  do! noDup ∅ (effectIds (b_Txs x)) ErrBlockDuplicateTx ;
  do! noDup ∅ (c_Hash <$> b_Commits x) ErrBlockDuplicateCommit ;
  reject negb (bool_decide (ContentRoot (b_Txs x) (b_Commits x) = h_TxTrieHash h)) with ErrBlockTxTrieHashInvalid ;
  reject negb (bool_decide (CalcWitnessRoot (b_Txs x) (b_Commits x) = h_WitnessRoot h)) with ErrBlockWitnessRootInvalid ;
  reject negb (zlen (h_Coinbase h) =? AddressSize) with ErrBlockUnclesInvalid ;
  reject negb (zlen (h_UnclesHash h) =? HashSize) with ErrBlockUnclesInvalid ;
  reject negb (zlen (h_StateRoot h) =? HashSize) with ErrBlockStateRootInvalid ;
  reject DiffSize <? zlen (h_BaseFee h) with ErrBlockBaseFeeInvalid ;
  reject MaxUncles <? zlen (b_Uncles x) with ErrBlockUnclesInvalid ;
  reject negb (bool_decide (CalcUnclesHash (b_Uncles x) = h_UnclesHash h)) with ErrBlockUnclesInvalid ;
  do! checkUncles now (h_PrevBlockHash h) ∅ (b_Uncles x) ;
  verifyNonce x.

Definition Block_Equals (x other : FullBlock) : bool :=
  Header_Equals (b_Header x) (b_Header other)
  && (length (b_Txs x) =? length (b_Txs other))%nat
  && forallb (fun p => Equals p.1 p.2) (zip (b_Txs x) (b_Txs other)).

Definition GetTx (x : FullBlock) (i : Z) : option FullTx :=
  if (zlen (b_Txs x) <=? i) || (i <? 0) then None else b_Txs x !! Z.to_nat i.

(** The [uint64] sum over the non-generate transactions. *)
Definition BlockUsedBytes (block : FullBlock) : Z :=
  foldl (fun used tx => if tx_Type tx =? GenerateTx then used else u64 (used + zlen (rlp_FullTx tx))) 0 (b_Txs block).

(** ** Genesis

    The base58 constant decodes to the all-zero address.  The package-level
    memo returns the value these functions compute. *)

Definition GenesisAddress : Address := zeroAddress.

Definition GetGenesisGenerateTxSignature (network : Network) : res bytes :=
  if (network =? TESTNET) || (network =? ZERONET) then Ok (zeros 64) else Err GoPanic.

Definition GetGenesisBlockNonce (network : Network) : res bytes :=
  if (network =? ZERONET) || (network =? TESTNET) then Ok (zeros 8) else Err GoPanic.

Definition GetGenesisGenerateTx (network : Network) : res FullTx :=
  let ggtx := NewTx network GenerateTx 0 GenesisAddress (Some (GetBlockReward 0)) (Some 0) [] [] in
  let! sig := GetGenesisGenerateTxSignature network in
  Ok (ManuallySetSignature ggtx sig).

Definition genesisStateRoot (network : Network) : bytes :=
  let store := NewMemStore in
  let reward := GetBlockReward 0 in
  let store :=
    if negb (reward =? 0) then
      let path := LeafPath DomainBalance (vec_to_list GenesisAddress) in
      match Update store path (ValueHash (big_Bytes reward)) with Ok s => s | Err _ => store end
    else store in
  Root store.

Definition GetGenesisBlock (network : Network) : res FullBlock :=
  let! gtx := GetGenesisGenerateTx network in
  let txs := [gtx] in
  let txTrie := NewTxTrie txs in
  let! ts := GetGenesisTimestamp network in
  let! nonce := GetGenesisBlockNonce network in
  let b := NewBlock network 0 ts (zeros 32) (TrieRoot txTrie) (CalcWitnessRoot txs [])
             (big_Bytes (MinimumDiffOf network)) nonce txs in
  let b := SetCoinbase b GenesisAddress in
  Ok (set_Header b (h_set_StateRoot_BaseFee (b_Header b) (genesisStateRoot network) (big_Bytes MinBaseFee))).

Definition IsGenesis (x : FullBlock) : res bool :=
  let! g := GetGenesisBlock (h_Network (b_Header x)) in
  Ok (bool_decide (Block_GetHash x = Block_GetHash g)).

(** ** The block check *)

Lemma noDup_Ok seen ids e :
  noDup seen ids e = Ok tt <-> NoDup ids /\ Forall (fun id => id ∉ seen) ids.
Proof.
  revert seen. induction ids as [|id ids IH]; intros seen; cbn [noDup].
  - split; [|done]. split; constructor.
  - case_bool_decide as Hin; [split; [done|]; intros [_ Hf]; by inversion_clear Hf|].
    rewrite IH, NoDup_cons, Forall_cons, !Forall_forall. split.
    + intros [Hnd Hf]. split_and!; try done; [intros Hi|intros x Hx]; apply Hf in Hi || apply Hf in Hx; set_solver.
    + intros [[Hi Hnd] [Hs Hf]]. split; [done|]. intros x Hx. specialize (Hf x Hx). set_solver.
Qed.

Lemma noDup_empty ids e : noDup ∅ ids e = Ok tt <-> NoDup ids.
Proof. rewrite noDup_Ok. split; [tauto|]. intros. split; [done|]. apply Forall_true. set_solver. Qed.

Lemma checkCommits_Ok h cs :
  checkCommits h cs = Ok tt <-> Forall (fun c => Commitment_CheckError c h None = Ok tt) cs.
Proof.
  induction cs as [|c cs IH]; cbn [checkCommits]; [done|]. by rewrite seq_Ok, IH, Forall_cons.
Qed.

Lemma checkUncles_Ok now prev seen us :
  checkUncles now prev seen us = Ok tt <->
  Forall (fun u => checkStandaloneError now u = Ok tt) us /\ NoDup (Header_GetHash <$> us)
  /\ Forall (fun id => id ∉ seen) (Header_GetHash <$> us) /\ prev ∉ Header_GetHash <$> us.
Proof.
  revert seen. induction us as [|u us IH]; intros seen; cbn [checkUncles fmap list_fmap].
  - split; [|done]. intros _. split_and!; [constructor..|]. apply not_elem_of_nil.
  - rewrite !Forall_cons, NoDup_cons, not_elem_of_cons.
    destruct (checkStandaloneError now u) as [[]|e]; [|split; [by destruct e|intros [[? ?] ?]; done]].
    rewrite !guard_Ok, !bool_decide_eq_false, IH, !Forall_forall. split.
    + intros (Hs & Hp & Hf & Hnd & Hd & Hpr). split_and!; try done.
      * intros Hi. apply Hd in Hi. set_solver.
      * intros x Hx. apply Hd in Hx. set_solver.
    + intros ([_ Hf] & [Hi Hnd] & [Hs Hd] & [Hp Hpr]). split_and!; try done.
      intros x Hx. specialize (Hd x Hx). set_solver.
Qed.

Lemma verifyNonce_Ok x :
  verifyNonce x = Ok tt <->
  h_Height (b_Header x) = 0
  \/ (be_Z (h_Difficulty (b_Header x)) <> 0
      /\ be_Z (PowHash (b_Header x)) < MaxTarget / be_Z (h_Difficulty (b_Header x))).
Proof.
  unfold verifyNonce, big_Div. destruct (Z.eqb_spec (h_Height (b_Header x)) 0) as [->|Hh]; [naive_solver|].
  destruct (Z.eqb_spec (be_Z (h_Difficulty (b_Header x))) 0) as [->|Hd]; cbn [res_bind]; [naive_solver|].
  destruct (Z.ltb_spec (be_Z (PowHash (b_Header x))) (MaxTarget / be_Z (h_Difficulty (b_Header x))));
    split; try naive_solver lia.
Qed.

(** What an accepted block satisfies. *)
Record block_valid (now : Z) (x : FullBlock) : Prop := {
  bv_txs : zlen (b_Txs x) <= MaxBlockTxCount;
  bv_commits : zlen (b_Commits x) <= MaxBlockCommitCount;
  bv_bytes : zlen (rlp_FullBlock x) <= MaxBlockBytes;
  bv_prev : length (h_PrevBlockHash (b_Header x)) = 32%nat;
  bv_nonce_len : length (h_Nonce (b_Header x)) = 8%nat;
  bv_time : h_Timestamp (b_Header x) <= u64 (now + TimestampDriftTolerance);
  bv_commit_ok : Forall (fun c => Commitment_CheckError c (h_Height (b_Header x)) None = Ok tt) (b_Commits x);
  bv_txids : NoDup (effectIds (b_Txs x));
  bv_commit_ids : NoDup (c_Hash <$> b_Commits x);
  bv_trie_len : length (h_TxTrieHash (b_Header x)) = 32%nat;
  bv_trie : ContentRoot (b_Txs x) (b_Commits x) = h_TxTrieHash (b_Header x);
  bv_witness : CalcWitnessRoot (b_Txs x) (b_Commits x) = h_WitnessRoot (b_Header x);
  bv_coinbase : length (h_Coinbase (b_Header x)) = 32%nat;
  bv_state_root : length (h_StateRoot (b_Header x)) = 32%nat;
  bv_base_fee : zlen (h_BaseFee (b_Header x)) <= DiffSize;
  bv_uncles : zlen (b_Uncles x) <= MaxUncles;
  bv_uncles_len : length (h_UnclesHash (b_Header x)) = 32%nat;
  bv_uncles_hash : CalcUnclesHash (b_Uncles x) = h_UnclesHash (b_Header x);
  bv_uncles_ok : Forall (fun u => checkStandaloneError now u = Ok tt) (b_Uncles x);
  bv_uncles_nodup : NoDup (Header_GetHash <$> b_Uncles x);
  bv_uncles_parent : h_PrevBlockHash (b_Header x) ∉ Header_GetHash <$> b_Uncles x;
  bv_pow : h_Height (b_Header x) = 0
    \/ (be_Z (h_Difficulty (b_Header x)) <> 0
        /\ be_Z (PowHash (b_Header x)) < MaxTarget / be_Z (h_Difficulty (b_Header x)))
}.

Lemma zlen_eqb (b : bytes) n : 0 <= n -> negb (zlen b =? n) = false <-> length b = Z.to_nat n.
Proof. unfold zlen. rewrite negb_false_iff, Z.eqb_eq. lia. Qed.

(** C19 - [CheckError] accepts a block exactly when: the transaction,
    commitment, byte and uncle caps hold; every fixed-size header field has
    its size and the timestamp is within the drift bound; every commitment
    is signed, well formed and of the block's height; no effect transaction
    id and no commitment hash occurs twice; the content, witness and uncle
    commitments in the header are those of the body; every uncle carries its
    own proof of work, none is repeated and none is the parent; and the
    proof of work meets the declared difficulty, which is not zero (the
    genesis height is exempt from proof of work only). *)
Theorem CheckError_iff_valid now x : CheckError now x = Ok tt <-> block_valid now x.
Proof.
  unfold CheckError. cbv zeta. rewrite !guard_Ok, !seq_Ok, !guard_Ok, !seq_Ok.
  rewrite !zlen_eqb by (unfold HashSize, AddressSize, NonceSize; lia). rewrite !Z.ltb_ge.
  rewrite checkCommits_Ok, !noDup_empty, checkUncles_Ok, verifyNonce_Ok, !negb_false_iff, !bool_decide_eq_true.
  split.
  - intros H. decompose [and] H. split; try done. by apply Z.ltb_ge.
  - intros []. split_and!; try done.
    + by apply Z.ltb_ge.
    + unfold IsSealed. destruct (h_Nonce (b_Header x)); [done|]. by rewrite bool_decide_eq_false_2.
    + apply Forall_true. set_solver.
Qed.

Lemma CheckError_uncles now x :
  CheckError now x = Ok tt -> Forall (fun u => checkStandaloneError now u = Ok tt) (b_Uncles x).
Proof.
  unfold CheckError. cbv zeta. rewrite !guard_Ok, !seq_Ok, !guard_Ok, !seq_Ok, checkUncles_Ok. intros H. by decompose [and] H.
Qed.

Lemma CheckError_commits now x :
  CheckError now x = Ok tt -> Forall (fun c => Commitment_CheckError c (h_Height (b_Header x)) None = Ok tt) (b_Commits x).
Proof.
  unfold CheckError. cbv zeta. rewrite !guard_Ok, !seq_Ok, !guard_Ok, !seq_Ok, checkCommits_Ok. intros H. by decompose [and] H.
Qed.

(** ** The proof-of-work preimage *)

(** The twelve fields, each truncated or zero-padded to its slot. *)
Definition pow_fields (x : BlockHeader) (n : bytes) : bytes :=
  vec_to_list (to_array 1 [Zbyte (h_Network x)]) ++ vec_to_list (to_array 8 (le_bytes 8 (h_Height x)))
  ++ vec_to_list (to_array 8 (le_bytes 8 (h_Timestamp x))) ++ vec_to_list (to_array 32 (h_PrevBlockHash x))
  ++ vec_to_list (to_array 32 (h_TxTrieHash x)) ++ vec_to_list (to_array 32 (h_WitnessRoot x))
  ++ vec_to_list (to_array 32 (reverse (h_Difficulty x))) ++ vec_to_list (to_array 32 (h_Coinbase x))
  ++ vec_to_list (to_array 32 (h_UnclesHash x)) ++ vec_to_list (to_array 32 (h_StateRoot x))
  ++ vec_to_list (to_array 32 (reverse (h_BaseFee x))) ++ vec_to_list (to_array 8 n).

(** One more field of the buffer. *)
Lemma copy_field_at (a b : bytes) (lo hi tot : nat) :
  length a = lo -> (lo <= hi <= tot)%nat ->
  copy_range (a ++ zeros (tot - lo)) lo hi b = (a ++ vec_to_list (to_array (hi - lo) b)) ++ zeros (tot - hi).
Proof.
  intros <- Hl. pose proof (copy_field a b (hi - length a) (tot - hi)) as E.
  replace (length a + (hi - length a))%nat with hi in E by lia.
  by replace (hi - length a + (tot - hi))%nat with (tot - length a)%nat in E by lia.
Qed.

Ltac next_field :=
  rewrite copy_field_at; [|rewrite ?length_app, ?length_vec_to_list; reflexivity|lia].

Lemma GetPoWRawHeader_fields x nonce :
  GetPoWRawHeader x nonce = pow_fields x (default (h_Nonce x) nonce).
Proof.
  unfold GetPoWRawHeader, ReverseBytes. cbv zeta. change (zeros 281) with ([] ++ zeros (281 - 0)).
  do 11 next_field. unfold pow_fields.
  destruct nonce; next_field; rewrite Nat.sub_diag; change (zeros 0) with (@nil byte);
    rewrite app_nil_r, <-!app_assoc; reflexivity.
Qed.

(** Padded little-endian numbers. *)
Lemma le_Z_app a b : le_Z (a ++ b) = le_Z a + 256 ^ Z.of_nat (length a) * le_Z b.
Proof.
  induction a as [|x a IH]; [cbn; lia|]. cbn [app le_Z length]. rewrite IH, pow256_S. lia.
Qed.

Lemma le_Z_zeros n : le_Z (zeros n) = 0.
Proof. induction n as [|n IH]; [done|]. change (zeros (S n)) with (Byte.x00 :: zeros n). cbn [le_Z]. rewrite IH. done. Qed.

Lemma to_array_short n b : (length b <= n)%nat -> vec_to_list (to_array n b) = b ++ zeros (n - length b).
Proof.
  intros Hl. pose proof (copy_field [] b n 0) as E. pose proof (copy_range_fill [] b [] n Hl) as E'.
  rewrite app_nil_r in E'. cbn [app length] in *. rewrite Nat.add_0_r in E. change (zeros 0) with (@nil byte) in E.
  rewrite app_nil_r in E, E'. change (0 + n)%nat with n in *. congruence.
Qed.

Lemma to_array_reverse_Z b c :
  (length b <= 32)%nat -> (length c <= 32)%nat ->
  vec_to_list (to_array 32 (reverse b)) = vec_to_list (to_array 32 (reverse c)) <-> be_Z b = be_Z c.
Proof.
  intros Hb Hc. rewrite <-(reverse_involutive b), <-(reverse_involutive c), !be_Z_reverse, !reverse_involutive.
  split.
  - intros E. apply (f_equal le_Z) in E.
    rewrite !to_array_short, !le_Z_app, !le_Z_zeros in E by (rewrite length_reverse; lia). lia.
  - intros E. apply le_Z_inj; [by rewrite !length_vec_to_list|].
    rewrite !to_array_short, !le_Z_app, !le_Z_zeros by (rewrite length_reverse; lia). lia.
Qed.

(** A header whose fixed-size fields have their sizes. *)
Definition sized (x : BlockHeader) : Prop :=
  wf_header x /\ length (h_PrevBlockHash x) = 32%nat /\ length (h_TxTrieHash x) = 32%nat
  /\ length (h_WitnessRoot x) = 32%nat /\ (length (h_Difficulty x) <= 32)%nat /\ length (h_Coinbase x) = 32%nat
  /\ length (h_UnclesHash x) = 32%nat /\ length (h_StateRoot x) = 32%nat /\ (length (h_BaseFee x) <= 32)%nat
  /\ length (h_Nonce x) = 8%nat.

Lemma array_eq_sized n (a b : bytes) :
  length a = n -> length b = n -> vec_to_list (to_array n a) = vec_to_list (to_array n b) <-> a = b.
Proof. intros Ha Hb. by rewrite !to_array_list. Qed.

Lemma le_bytes_array x y :
  is_u64 x -> is_u64 y -> vec_to_list (to_array 8 (le_bytes 8 x)) = vec_to_list (to_array 8 (le_bytes 8 y)) <-> x = y.
Proof.
  intros Hx Hy. rewrite array_eq_sized by apply length_le_bytes. split; [|congruence].
  apply PackUint64LE_inj; done.
Qed.

Lemma app_eq_len (a b c d : bytes) : length a = length c -> a ++ b = c ++ d <-> a = c /\ b = d.
Proof. intros Hl. split; [by apply app_inj_1|intros [-> ->]; done]. Qed.

(** What the proof of work commits to.  The preimage is always 281
    bytes, and for headers of proper sizes two preimages are equal exactly
    when every field is equal, the difficulty and the base fee being
    compared as numbers.  So work done for one header can be reused for
    another only by re-encoding those two numbers with leading zeros. *)
Theorem pow_preimage_binds_header x y :
  sized x -> sized y ->
  length (GetPoWRawHeader x None) = 281%nat
  /\ (GetPoWRawHeader x None = GetPoWRawHeader y None <->
      h_Network x = h_Network y /\ h_Height x = h_Height y /\ h_Timestamp x = h_Timestamp y
      /\ h_PrevBlockHash x = h_PrevBlockHash y /\ h_TxTrieHash x = h_TxTrieHash y
      /\ h_WitnessRoot x = h_WitnessRoot y /\ be_Z (h_Difficulty x) = be_Z (h_Difficulty y)
      /\ h_Coinbase x = h_Coinbase y /\ h_UnclesHash x = h_UnclesHash y /\ h_StateRoot x = h_StateRoot y
      /\ be_Z (h_BaseFee x) = be_Z (h_BaseFee y) /\ h_Nonce x = h_Nonce y).
Proof.
  intros ((Nx & Hx & Tx') & ? & ? & ? & ? & ? & ? & ? & ? & ?) ((Ny & Hy & Ty) & ? & ? & ? & ? & ? & ? & ? & ? & ?).
  rewrite !GetPoWRawHeader_fields. cbn [default]. unfold pow_fields. split.
  { rewrite !length_app, !length_vec_to_list. reflexivity. }
  rewrite !app_eq_len by (rewrite !length_vec_to_list; reflexivity).
  rewrite !le_bytes_array, !array_eq_sized by done.
  rewrite !to_array_reverse_Z by done.
  assert (Hn : [Zbyte (h_Network x)] = [Zbyte (h_Network y)] <-> h_Network x = h_Network y).
  { split; [|congruence]. intros [= E]. apply (f_equal byteZ) in E.
    rewrite !byteZ_Zbyte, !Z.mod_small in E by done. done. }
  rewrite Hn, !array_eq_sized by done. done.
Qed.

(** Re-encoding a header's difficulty with a leading zero byte leaves
    its proof of work intact: the new header has the same work hash and
    passes the same standalone (uncle) check, yet is a different header,
    whose block hash differs unless the two encodings collide. *)
Theorem difficulty_encoding_malleable now x :
  CodecLaws -> wf_header x -> (length (h_Difficulty x) < 32)%nat ->
  let x' := h_set_Difficulty x (Byte.x00 :: h_Difficulty x) in
  x' <> x /\ PowHash x' = PowHash x
  /\ (checkStandaloneError now x = Ok tt -> checkStandaloneError now x' = Ok tt)
  /\ (Header_GetHash x' = Header_GetHash x -> is_collision (rlp_BlockHeader x', rlp_BlockHeader x)).
Proof.
  intros HC Hw Hl x'.
  assert (Hne : x' <> x).
  { intros E. apply (f_equal (fun h => length (h_Difficulty h))) in E. cbn in E. lia. }
  assert (Hpow : PowHash x' = PowHash x).
  { unfold PowHash. rewrite !GetPoWRawHeader_fields. unfold pow_fields.
    assert (E : vec_to_list (to_array 32 (reverse (h_Difficulty x'))) = vec_to_list (to_array 32 (reverse (h_Difficulty x)))).
    { apply to_array_reverse_Z; [cbn; lia|lia|done]. }
    by rewrite E. }
  split_and!; try done.
  - unfold checkStandaloneError. rewrite Hpow. cbn [x' h_set_Difficulty h_PrevBlockHash h_TxTrieHash h_WitnessRoot
      h_UnclesHash h_StateRoot h_Coinbase h_Difficulty h_BaseFee h_Nonce h_Height h_Timestamp].
    rewrite be_Z_leading_zero, !guard_Ok. intros (Hf & Hd & Hrest). split; [exact Hf|]. split; [|exact Hrest].
    unfold zlen, DiffSize in *. cbn [length]. apply orb_false_iff. split; [apply Z.eqb_neq|apply Z.ltb_ge]; lia.
  - unfold Header_GetHash. intros [E|C]%Hash256_eq_or_collision; [|done].
    by apply rlp_BlockHeader_inj in E.
Qed.

(** A zero difficulty makes the check panic instead of rejecting the
    block: [verifyNonce] divides by the declared difficulty, which nothing
    before it requires to be non-zero, and the uncle check rejects an empty
    difficulty but not one made of zero bytes. *)
Theorem zero_difficulty_panics now x u :
  h_Height (b_Header x) <> 0 -> be_Z (h_Difficulty (b_Header x)) = 0 ->
  h_Height u <> 0 -> sized u -> h_Difficulty u <> [] -> be_Z (h_Difficulty u) = 0 ->
  tooFarInFuture now (h_Timestamp u) = false ->
  verifyNonce x = Err GoPanic /\ checkStandaloneError now u = Err GoPanic.
Proof.
  intros Hh Hd Hu Hs Hne Hz Ht. split.
  - unfold verifyNonce, big_Div. by rewrite (proj2 (Z.eqb_neq _ _) Hh), Hd.
  - destruct Hs as (_ & ? & ? & ? & ? & ? & ? & ? & ? & ?). unfold checkStandaloneError, zlen, guard.
    repeat match goal with E : length _ = _ |- _ => rewrite E; clear E end.
    cbn [negb orb]. rewrite (proj2 (Z.eqb_neq _ _) Hu), Ht.
    rewrite (proj2 (Z.ltb_ge _ (Z.of_nat (length (h_Difficulty u))))), (proj2 (Z.ltb_ge _ (Z.of_nat (length (h_BaseFee u)))))
      by (unfold DiffSize; lia).
    destruct (h_Difficulty u) as [|b l]; [done|]. cbn -[be_Z]. unfold big_Div. by rewrite Hz.
Qed.

(** ** Assembly *)

#[local] Instance hash_le_trans {A} (f : A -> bytes) : Transitive (hash_le f).
Proof. intros x y z. unfold hash_le. apply bytes_le_trans. Qed.

#[local] Instance hash_le_total {A} (f : A -> bytes) : Total (hash_le f).
Proof. intros x y. unfold hash_le. apply bytes_le_total. Qed.

Lemma sort_by_perm {A} (f : A -> bytes) l : sort_by f l ≡ₚ l.
Proof. apply merge_sort_Permutation. Qed.

Lemma sort_by_sorted {A} (f : A -> bytes) l : StronglySorted (hash_le f) (sort_by f l).
Proof. apply Sorted_StronglySorted; [apply _|]. apply (Sorted_merge_sort _). Qed.

(** Sorting hashes forgets the order they came in. *)
Lemma sort_by_id_perm (l k : list bytes) : l ≡ₚ k -> sort_by id l = sort_by id k.
Proof.
  intros Hp. assert (AntiSymm (=) (hash_le (@id bytes))) by (intros x y; apply (anti_symm bytes_le)).
  apply (StronglySorted_unique (hash_le id)).
  - apply sort_by_sorted.
  - apply sort_by_sorted.
  - by rewrite !sort_by_perm.
Qed.

Lemma contentRoot_perm l k : l ≡ₚ k -> contentRoot l = contentRoot k.
Proof.
  intros Hp. unfold contentRoot. destruct l as [|x l], k as [|y k]; [done| | |by rewrite (sort_by_id_perm _ _ Hp)].
  - by apply Permutation_nil_cons in Hp.
  - symmetry in Hp. by apply Permutation_nil_cons in Hp.
Qed.

Lemma ContentRoot_perm txs txs' cs cs' : txs ≡ₚ txs' -> cs ≡ₚ cs' -> ContentRoot txs cs = ContentRoot txs' cs'.
Proof.
  intros Ht Hc. unfold ContentRoot, zlen. rewrite (Permutation_length Ht), (Permutation_length Hc).
  destruct (_ && _); [done|]. apply contentRoot_perm. by rewrite Ht, Hc.
Qed.

Lemma checkUnsealingTxs_Ok h txs u :
  checkUnsealingTxs h txs = Ok u <->
  Forall (fun tx => if tx_Type tx =? GenerateTx then IsSigned tx = false else tx_Height tx = h) txs.
Proof.
  destruct u. induction txs as [|tx txs IH]; cbn [checkUnsealingTxs]; [done|].
  rewrite Forall_cons, <-IH. destruct (_ =? GenerateTx).
  - destruct (IsSigned tx); naive_solver.
  - destruct (Z.eqb_spec (tx_Height tx) h); cbn; naive_solver.
Qed.

(** Assembling a block establishes its own commitments: [ToUnsealing]
    succeeds exactly on a list that starts with a generate, whose other
    generates are unsigned and whose effects target the block's height; the
    block it returns carries those transactions in hash order, with content
    and witness roots that match its body, and sealing it with an 8-byte
    nonce keeps them; and the content root is the same for every order of
    the transactions and commitments. *)
Theorem ToUnsealing_commits x txs nonce :
  length nonce = 8%nat -> (forall l, length (MerkleRoot l) = 32%nat) ->
  (is_ok (ToUnsealing x txs) = true <->
     exists gen rest, txs = gen :: rest /\ tx_Type gen = GenerateTx
       /\ Forall (fun tx => if tx_Type tx =? GenerateTx then IsSigned tx = false
                            else tx_Height tx = h_Height (b_Header x)) rest)
  /\ (forall y, ToUnsealing x txs = Ok y ->
       b_Txs y ≡ₚ txs /\ StronglySorted (hash_le GetHash) (b_Txs y)
       /\ (forall txs' cs', txs' ≡ₚ txs -> cs' ≡ₚ b_Commits x -> ContentRoot txs' cs' = h_TxTrieHash (b_Header y))
       /\ exists z, ToSealed y nonce = Ok z
          /\ ContentRoot (b_Txs z) (b_Commits z) = h_TxTrieHash (b_Header z)
          /\ CalcWitnessRoot (b_Txs z) (b_Commits z) = h_WitnessRoot (b_Header z)
          /\ h_Nonce (b_Header z) = nonce).
Proof.
  intros Hn Hm. split.
  - rewrite is_ok_iff. unfold ToUnsealing. destruct txs as [|gen rest]; [naive_solver|]. split.
    + intros [y E]. open_ok E. bools. exists gen, rest. split_and!; [done..|]. by eapply checkUnsealingTxs_Ok.
    + intros (? & ? & [= <- <-] & Ht & Hf). rewrite Ht. cbn [guard Z.eqb negb].
      rewrite (proj2 (checkUnsealingTxs_Ok _ _ tt) Hf). by eexists.
  - intros y E. unfold ToUnsealing in E. destruct txs as [|gen rest]; [done|]. open_ok E. injection E as <-.
    assert (Hp : NewTxTrie (gen :: rest) ≡ₚ gen :: rest) by apply sort_by_perm.
    assert (Hs : StronglySorted (hash_le GetHash) (NewTxTrie (gen :: rest))) by apply sort_by_sorted.
    generalize dependent (NewTxTrie (gen :: rest)). intros ts Hp Hs. cbn.
    split_and!; [done|exact Hs| |].
    + intros txs' cs' Ht Hc. apply ContentRoot_perm; [by rewrite Ht, Hp|done].
    + unfold ToSealed, IsUnsealing. cbn. unfold zlen. rewrite Hn.
      rewrite bool_decide_eq_false_2; [by eexists|]. intros E0. apply (f_equal length) in E0.
      unfold ContentRoot, zlen in E0. rewrite (Permutation_length Hp) in E0. cbn [length] in E0.
      destruct (_ && _) eqn:Eb in E0; [bools; lia|]. unfold contentRoot in E0.
      destruct (_ ++ _) eqn:El in E0; [done|]. by rewrite Hm in E0.
Qed.

End Block.

(** ** Witnesses *)

Definition toy_pow : PowLib := fun _ => to_array 32 [].
Definition toy_merkle : MerkleLib := fun l => Hash256 (H := toy_hasher) (concat l).

Module Witness.

#[local] Existing Instance toy_hasher.
#[local] Existing Instance toy_libs.
#[local] Existing Instance toy_codec.
#[local] Existing Instance toy_pow.
#[local] Existing Instance toy_merkle.

Definition head0 : BlockHeader :=
  {| h_Network := ZERONET; h_Height := 5; h_Timestamp := 1603497601000; h_PrevBlockHash := replicate 32 (Zbyte 3);
     h_TxTrieHash := zeros 32; h_WitnessRoot := zeros 32; h_Difficulty := [Zbyte 9]; h_Coinbase := zeros 32;
     h_UnclesHash := zeros 32; h_StateRoot := zeros 32; h_BaseFee := [Zbyte 1]; h_Nonce := zeros 8 |}.

Definition head1 : BlockHeader := h_set_Difficulty head0 [Zbyte 0; Zbyte 9].

Lemma head0_sized : sized head0.
Proof. repeat split; vm_compute; intuition (discriminate || lia). Qed.

Lemma head1_sized : sized head1.
Proof. repeat split; vm_compute; intuition (discriminate || lia). Qed.

Lemma pow_preimage_binds_header_witness :
  length (GetPoWRawHeader head0 None) = 281%nat /\ GetPoWRawHeader head0 None = GetPoWRawHeader head1 None.
Proof.
  destruct (pow_preimage_binds_header head0 head1 head0_sized head1_sized) as [Hl He].
  split; [exact Hl|]. apply He. repeat split.
Defined.

Lemma difficulty_encoding_malleable_witness :
  let x' := h_set_Difficulty head0 (Byte.x00 :: h_Difficulty head0) in
  x' <> head0 /\ PowHash x' = PowHash head0 /\ checkStandaloneError 1603497601000 x' = Ok tt.
Proof.
  destruct (difficulty_encoding_malleable 1603497601000 head0) as (Hn & Hp & Hc & _).
  - exact toy_codec_laws.
  - exact (proj1 head0_sized).
  - cbn. lia.
  - split; [exact Hn|]. split; [exact Hp|]. apply Hc. vm_compute. reflexivity.
Defined.

Definition block_of (h : BlockHeader) : FullBlock := {| b_Header := h; b_Txs := []; b_Uncles := []; b_Commits := [] |}.

(** A block that passes every check before the nonce. *)
Definition panicking : FullBlock :=
  block_of (h_set_roots (h_set_Difficulty head0 []) (zeros 32) (CalcWitnessRoot [] [])).

Definition zero_uncle : BlockHeader := h_set_Difficulty head0 [Zbyte 0].

Lemma zero_difficulty_panics_witness :
  verifyNonce panicking = Err GoPanic /\ checkStandaloneError 1603497601000 zero_uncle = Err GoPanic
  /\ CheckError 1603497601000 panicking = Err GoPanic.
Proof.
  destruct (zero_difficulty_panics 1603497601000 panicking zero_uncle) as [Hv Hu];
    [done|reflexivity|done| |done|reflexivity|reflexivity|].
  - repeat split; vm_compute; intuition (discriminate || lia).
  - split; [exact Hv|]. split; [exact Hu|]. vm_compute. reflexivity.
Defined.

Definition gen0 : FullTx := NewTx ZERONET GenerateTx 5 zeroAddress (Some 10) (Some 0) [] [Zbyte 1].
Definition eff0 : FullTx := NewTx ZERONET TransactTx 5 zeroAddress (Some 1) (Some 0) [] [Zbyte 1].

Lemma ToUnsealing_commits_witness :
  exists y, ToUnsealing (block_of head0) [gen0; eff0] = Ok y /\ b_Txs y ≡ₚ [gen0; eff0]
    /\ ContentRoot [eff0; gen0] [] = h_TxTrieHash (b_Header y).
Proof.
  destruct (ToUnsealing_commits (block_of head0) [gen0; eff0] (zeros 8)) as [Hok Hall].
  - reflexivity.
  - intros l. apply length_Hash256.
  - destruct (is_ok_Ok (ToUnsealing (block_of head0) [gen0; eff0])) as [y Hy].
    { apply Hok. exists gen0, [eff0]. split_and!; [done..|]. repeat constructor. }
    exists y. destruct (Hall y Hy) as (Hp & _ & Hr & _). split; [exact Hy|]. split; [exact Hp|].
    apply Hr; [apply Permutation_swap|done].
Defined.

Lemma GetNextDiff_tracks_target_witness :
  exists r r', GetNextDiff 6 1603497602000 head0 = Ok r /\ GetNextDiff 6 1603497609000 head0 = Ok r' /\ r' <= r.
Proof.
  destruct (GetNextDiff_tracks_target 6 1603497602000 1603497609000 head0 1603497600000)
    as (r & r' & H1 & H2 & H3 & _).
  - reflexivity.
  - cbn. lia.
  - cbn. lia.
  - lia.
  - lia.
  - exists r, r'. split; [exact H1|]. split; [exact H2|exact H3].
Defined.

End Witness.
