(* ===== verification/BlockStore.v ===== *)
(** * The block store

    Package ngblocks over bbolt: the canonical height index, the block and
    transaction buckets, side blocks, cumulative work, branch switches and
    the account-history index.  A bbolt bucket is an ordered map from keys to
    values; a nil value is an absent key.  Writes of non-empty keys below
    bbolt's size limits do not fail. *)

From S2P Require Import Prelude Params Keys Types Instances Tx StateTrie Block.

Abbreviation bucket := (gmap bytes bytes).

(** The keys a cursor visits from [Seek(prefix)] while the prefix matches, in
    key order. *)
Definition kv_le (a b : bytes * bytes) : Prop := bytes_le a.1 b.1.

#[export] Instance kv_le_dec : RelDecision kv_le.
Proof. intros a b. unfold kv_le. apply _. Defined.

Definition has_prefix (p k : bytes) : bool := bool_decide (take (length p) k = p).

Definition prefix_scan (b : bucket) (p : bytes) : list (bytes * bytes) :=
  filter (fun kv => has_prefix p kv.1 = true) (merge_sort kv_le (map_to_list b)).

(** storage/init.go *)
Definition LatestHeightTag : bytes := str "latest:height".
Definition LatestHashTag : bytes := str "latest:hash".
Definition OriginHeightTag : bytes := str "origin:height".
Definition OriginHashTag : bytes := str "origin:hash".
Definition TxBlockPrefix : bytes := str "blk:".
Definition AddrTxPrefix : bytes := str "atx:".
Definition blockWorkPrefix : bytes := str "work:".
Definition sideBlockPrefix : bytes := str "side:".

(** [binary.LittleEndian.Uint64] of a slice panics below eight bytes. *)
Definition read_u64 (b : bytes) : res Z := if (length b <? 8)%nat then Err GoPanic else Ok (UnpackUint64LE b).

Section Store.
Context `{HH : Hasher} `{SL : SigLibs} `{CD : Codec}.

(** ** get.go *)

Definition GetTxByHash (txBucket : bucket) (hash : bytes) : res FullTx :=
  match txBucket !! hash with
  | None => Err ErrKeyNotFound
  | Some rawTx => match dec_FullTx rawTx with Some tx => Ok tx | None => Err ErrDecode end
  end.

Definition GetTxBlockHash (txBucket : bucket) (txHash : bytes) : res bytes :=
  match txBucket !! (TxBlockPrefix ++ txHash) with Some h => Ok h | None => Err ErrKeyNotFound end.

Definition GetBlockByHash (blockBucket : bucket) (hash : bytes) : res FullBlock :=
  match blockBucket !! hash with
  | None => Err ErrKeyNotFound
  | Some rawBlock => match dec_FullBlock rawBlock with Some b => Ok b | None => Err ErrDecode end
  end.

Definition GetBlockByHeight (blockBucket : bucket) (height : Z) : res FullBlock :=
  match blockBucket !! PackUint64LE height with
  | None => Err ErrKeyNotFound
  | Some hash =>
      match blockBucket !! hash with
      | None => Err ErrKeyNotFound
      | Some rawBlock => match dec_FullBlock rawBlock with Some b => Ok b | None => Err ErrDecode end
      end
  end.

Definition GetLatestHeight (blockBucket : bucket) : res Z :=
  match blockBucket !! LatestHeightTag with Some h => read_u64 h | None => Err ErrKeyNotFound end.

Definition GetLatestHash (blockBucket : bucket) : res bytes :=
  match blockBucket !! LatestHashTag with Some h => Ok h | None => Err ErrKeyNotFound end.

Definition GetLatestBlock (blockBucket : bucket) : res FullBlock :=
  let! hash := GetLatestHash blockBucket in GetBlockByHash blockBucket hash.

Definition GetOriginHeight (blockBucket : bucket) : res Z :=
  match blockBucket !! OriginHeightTag with Some h => read_u64 h | None => Err ErrKeyNotFound end.

Definition GetOriginHash (blockBucket : bucket) : res bytes :=
  match blockBucket !! OriginHashTag with Some h => Ok h | None => Err ErrKeyNotFound end.

Definition GetOriginBlock (blockBucket : bucket) : res FullBlock :=
  let! hash := GetOriginHash blockBucket in GetBlockByHash blockBucket hash.

(** ** check.go *)

Definition blockHeightExists (blockBucket : bucket) (height : Z) : bool :=
  if height =? 0 then true
  else match GetBlockByHeight blockBucket height with Err ErrKeyNotFound => false | _ => true end.

Definition blockPrevHashExists (blockBucket : bucket) (height : Z) (prevHash : bytes) : bool :=
  if (height =? 0) && bool_decide (prevHash = zeros 32) then true
  else match GetBlockByHash blockBucket prevHash with
       | Err _ => false
       | Ok b => h_Height (b_Header b) =? u64 (height - 1)
       end.

Definition checkBlock (blockBucket : bucket) (height : Z) (prevHash : bytes) : res unit :=
  reject blockHeightExists blockBucket height with ErrBlockHeightConflict ;
  reject negb (blockPrevHashExists blockBucket height prevHash) with ErrPrevBlockNotExist ;
  Ok tt.

(** ** work.go *)

Definition blockWorkKey (hash : bytes) : bytes := blockWorkPrefix ++ hash.

Definition PutBlockWork (blockBucket : bucket) (hash : bytes) (work : Z) : bucket :=
  <[blockWorkKey hash := big_Bytes work]> blockBucket.

Definition GetBlockWork (blockBucket : bucket) (hash : bytes) : res Z :=
  match blockBucket !! blockWorkKey hash with Some raw => Ok (be_Z raw) | None => Err ErrKeyNotFound end.

Definition sideBlockKey (hash : bytes) : bytes := sideBlockPrefix ++ hash.

Definition blockHeight (b : FullBlock) : Z := h_Height (b_Header b).

Definition PutSideBlock (blockBucket : bucket) (block : FullBlock) : bucket :=
  let b := <[Block_GetHash block := rlp_FullBlock block]> blockBucket in
  <[sideBlockKey (Block_GetHash block) := PackUint64LE (blockHeight block)]> b.

(** The cursor loop of [ListSideBlocksInRange]. *)
Fixpoint listSide (blockBucket : bucket) (minHeight maxHeight : Z) (entries : list (bytes * bytes)) : res (list FullBlock) :=
  match entries with
  | [] => Ok []
  | (k, v) :: rest =>
      let! height := read_u64 v in
      if (height <? minHeight) || (maxHeight <? height) then listSide blockBucket minHeight maxHeight rest
      else
        let! block := GetBlockByHash blockBucket (drop (length sideBlockPrefix) k) in
        let! out := listSide blockBucket minHeight maxHeight rest in
        Ok (block :: out)
  end.

Definition ListSideBlocksInRange (blockBucket : bucket) (minHeight maxHeight : Z) : res (list FullBlock) :=
  listSide blockBucket minHeight maxHeight (prefix_scan blockBucket sideBlockPrefix).

(** The victims the cursor loop of [PruneSideBlocks] collects. *)
Fixpoint sideVictims (blockBucket : bucket) (belowHeight : Z) (entries : list (bytes * bytes)) : res (list bytes) :=
  match entries with
  | [] => Ok []
  | (k, v) :: rest =>
      let! height := read_u64 v in
      let hash := drop (length sideBlockPrefix) k in
      let! out := sideVictims blockBucket belowHeight rest in
      if belowHeight <=? height then Ok out
      else if bool_decide (default [] (blockBucket !! PackUint64LE height) = hash) then Ok out
      else Ok (hash :: out)
  end.

Definition deleteSide (blockBucket : bucket) (hash : bytes) : bucket :=
  delete (sideBlockKey hash) (delete (blockWorkKey hash) (delete hash blockBucket)).

Definition PruneSideBlocks (blockBucket : bucket) (belowHeight : Z) : res (Z * bucket) :=
  let! victims := sideVictims blockBucket belowHeight (prefix_scan blockBucket sideBlockPrefix) in
  Ok (zlen victims, foldl deleteSide blockBucket victims).

(** ** addr_index.go *)

Definition addrTxKey (addr : Address) (height : Z) (txHash : bytes) : bytes :=
  AddrTxPrefix ++ vec_to_list addr ++ be_bytes 8 height ++ txHash.

Definition txAddresses (tx : FullTx) : list Address :=
  (if bool_decide (tx_To tx = zeroAddress) then [] else [tx_To tx])
  ++ match From tx with
     | Ok from => if bool_decide (from = zeroAddress) || bool_decide (from = tx_To tx) then [] else [from]
     | Err _ => []
     end.

Definition putTxAddrIndex (txBucket : bucket) (tx : FullTx) : bucket :=
  foldl (fun b addr => <[addrTxKey addr (tx_Height tx) (GetHash tx) := []]> b) txBucket (txAddresses tx).

Definition delTxAddrIndex (txBucket : bucket) (tx : FullTx) : bucket :=
  foldl (fun b addr => delete (addrTxKey addr (tx_Height tx) (GetHash tx)) b) txBucket (txAddresses tx).

Definition maxAddrTxLimit : Z := 1000.

(** The cursor loop of [GetTxsByAddress]; [n] entries are still wanted. *)
Fixpoint addrScan (txBucket : bucket) (toHeight : Z) (n : nat) (keys : list bytes) : res (list FullTx) :=
  match keys with
  | [] => Ok []
  | k :: rest =>
      if negb (length k =? 4 + 32 + 8 + 32)%nat then addrScan txBucket toHeight n rest
      else
        let height := be_Z (take 8 (drop 36 k)) in
        if toHeight <? height then Ok []
        else
          let! tx := GetTxByHash txBucket (drop (length k - 32) k) in
          match n with
          | S (S n') => let! out := addrScan txBucket toHeight (S n') rest in Ok (tx :: out)
          | _ => Ok [tx]
          end
  end.

Definition GetTxsByAddress (txBucket : bucket) (addr : Address) (fromHeight toHeight limit : Z) : res (list FullTx) :=
  let limit := if (limit <=? 0) || (maxAddrTxLimit <? limit) then maxAddrTxLimit else limit in
  let toHeight := if toHeight =? 0 then MaxUint64 else toHeight in
  let prefix := AddrTxPrefix ++ vec_to_list addr in
  let seek := addrTxKey addr fromHeight [] in
  addrScan txBucket toHeight (Z.to_nat limit)
    (filter (fun k => bytes_le seek k) (prefix_scan txBucket prefix).*1).

Definition PruneAddrTxIndexTxn (txBucket : bucket) (floor : Z) : bucket :=
  foldl (fun b kv => if negb (length kv.1 =? 4 + 32 + 8 + 32)%nat then b
                     else if be_Z (take 8 (drop 36 kv.1)) <? floor then delete kv.1 b else b)
        txBucket (prefix_scan txBucket AddrTxPrefix).

(** ** put.go, put_force.go *)

Definition putTx (blockHash : bytes) (txBucket : bucket) (tx : FullTx) : bucket :=
  let b := <[GetHash tx := rlp_FullTx tx]> txBucket in
  let b := <[TxBlockPrefix ++ GetHash tx := blockHash]> b in
  putTxAddrIndex b tx.

Definition putTxs (txBucket : bucket) (block : FullBlock) : bucket :=
  foldl (putTx (Block_GetHash block)) txBucket (b_Txs block).

Definition putBlock (blockBucket : bucket) (hash : bytes) (block : FullBlock) : bucket :=
  let b := <[hash := rlp_FullBlock block]> blockBucket in
  let b := <[PackUint64LE (blockHeight block) := hash]> b in
  delete (sideBlockKey hash) b.

Definition putLatestTags (blockBucket : bucket) (height : Z) (hash : bytes) : bucket :=
  <[LatestHashTag := hash]> (<[LatestHeightTag := PackUint64LE height]> blockBucket).

Definition PutNewBlock (blockBucket txBucket : bucket) (block : FullBlock) : res (bucket * bucket) :=
  let hash := Block_GetHash block in
  do! checkBlock blockBucket (blockHeight block) (GetPrevHash (b_Header block)) ;
  let blockBucket := putBlock blockBucket hash block in
  let txBucket := putTxs txBucket block in
  Ok (putLatestTags blockBucket (blockHeight block) hash, txBucket).

Definition delTx (txBucket : bucket) (tx : FullTx) : bucket :=
  let b := delete (GetHash tx) txBucket in
  let b := delete (TxBlockPrefix ++ GetHash tx) b in
  delTxAddrIndex b tx.

Definition delTxs (txBucket : bucket) (txs : list FullTx) : bucket := foldl delTx txBucket txs.

Definition ForcePutNewBlock (blockBucket txBucket : bucket) (block : FullBlock) : res (bucket * bucket) :=
  let hash := Block_GetHash block in
  let! txBucket :=
    if blockHeightExists blockBucket (blockHeight block) then
      let! b := GetBlockByHeight blockBucket (blockHeight block) in Ok (delTxs txBucket (b_Txs b))
    else Ok txBucket in
  reject negb (blockPrevHashExists blockBucket (blockHeight block) (GetPrevHash (b_Header block))) with ErrPrevBlockNotExist ;
  let blockBucket := putBlock blockBucket hash block in
  let txBucket := putTxs txBucket block in
  Ok (putLatestTags blockBucket (blockHeight block) hash, txBucket).

(** ** branch.go *)

Fixpoint branchConnected (branch : list FullBlock) : bool :=
  match branch with
  | [] => true
  | a :: rest =>
      match rest with
      | [] => true
      | b :: _ =>
          (blockHeight b =? u64 (blockHeight a + 1))
          && bool_decide (GetPrevHash (b_Header b) = Block_GetHash a) && branchConnected rest
      end
  end.

(** The heights [lo, lo+1, .., hi] of a [for h := lo; h <= hi; h++] loop. *)
Definition heights (lo hi : Z) : list Z := seqZ lo (hi - lo + 1).

Definition unlinkOld (st : bucket * bucket) (h : Z) : res (bucket * bucket) :=
  let '(blockBucket, txBucket) := st in
  let! old := GetBlockByHeight blockBucket h in
  Ok (<[sideBlockKey (Block_GetHash old) := PackUint64LE (blockHeight old)]> blockBucket, delTxs txBucket (b_Txs old)).

Definition connectBlock (st : bucket * bucket) (block : FullBlock) : bucket * bucket :=
  let '(blockBucket, txBucket) := st in
  (delete (sideBlockKey (Block_GetHash block)) (putBlock blockBucket (Block_GetHash block) block), putTxs txBucket block).

Definition dropHeight (b : bucket) (h : Z) : bucket := delete (PackUint64LE h) b.

Definition SwitchToBranch (blockBucket txBucket : bucket) (branch : list FullBlock) : res (bucket * bucket) :=
  match branch, last branch with
  | first :: _, Some newTip =>
      reject negb (branchConnected branch) with ErrBranchDisconnected ;
      let ancestorHeight := u64 (blockHeight first - 1) in
      reject negb (bool_decide (blockBucket !! PackUint64LE ancestorHeight = Some (GetPrevHash (b_Header first))))
        with ErrBranchDetached ;
      let! oldHeight := GetLatestHeight blockBucket in
      let! st := res_fold unlinkOld (blockBucket, txBucket) (heights (blockHeight first) oldHeight) in
      let '(blockBucket, txBucket) := foldl connectBlock st branch in
      let blockBucket := foldl dropHeight blockBucket (heights (u64 (blockHeight newTip + 1)) oldHeight) in
      Ok (putLatestTags blockBucket (blockHeight newTip) (Block_GetHash newTip), txBucket)
  | _, _ => Err ErrBranchEmpty
  end.

(** ** blockchain/check_health.go *)

Fixpoint healthLoop (blockBucket : bucket) (hs : list Z) (prevBlockHash : bytes) : res unit :=
  match hs with
  | [] => Ok tt
  | h :: rest =>
      match GetBlockByHeight blockBucket h with
      | Err _ => Err GoPanic
      | Ok b =>
          if negb (bool_decide (GetPrevHash (b_Header b) = prevBlockHash)) then Err GoPanic
          else healthLoop blockBucket rest (Block_GetHash b)
      end
  end.

(** The getters of the chain panic on a store error. *)
Definition CheckHealth (blockBucket : bucket) : res unit :=
  match GetLatestHeight blockBucket, GetOriginBlock blockBucket with
  | Ok latestHeight, Ok origin =>
      healthLoop blockBucket (heights (blockHeight origin + 1) latestHeight) (Block_GetHash origin)
  | _, _ => Err GoPanic
  end.

(** ** init.go *)

(** The writes shared by [initWithGenesis] and [InitFromCheckpoint]. *)
Definition InitFromCheckpoint (blockBucket : bucket) (block : FullBlock) : bucket :=
  let hash := Block_GetHash block in
  let b := <[hash := rlp_FullBlock block]> blockBucket in
  let b := <[PackUint64LE (blockHeight block) := hash]> b in
  let b := <[LatestHeightTag := PackUint64LE (blockHeight block)]> b in
  let b := <[LatestHashTag := hash]> b in
  let b := <[OriginHeightTag := PackUint64LE (blockHeight block)]> b in
  <[OriginHashTag := hash]> b.

(** ** The store invariant *)

(** [chain] is the canonical chain from height [origin] on: every block is
    stored under its hash and its height, each builds on the one before, no
    height above the tip is indexed, and the tags name both ends. *)
Record canonical_chain (blk : bucket) (origin : Z) (chain : list FullBlock) : Prop := {
  cc_origin : 0 <= origin;
  cc_width : origin + zlen chain < two64;
  cc_block : forall i b, chain !! i = Some b ->
    blockHeight b = origin + Z.of_nat i /\ wf_block b
    /\ blk !! PackUint64LE (origin + Z.of_nat i) = Some (Block_GetHash b)
    /\ blk !! Block_GetHash b = Some (rlp_FullBlock b);
  cc_link : forall i a b, chain !! i = Some a -> chain !! S i = Some b -> h_PrevBlockHash (b_Header b) = Block_GetHash a;
  cc_above : forall h, origin + zlen chain <= h < two64 -> blk !! PackUint64LE h = None;
  cc_latest : exists tip, last chain = Some tip
    /\ blk !! LatestHashTag = Some (Block_GetHash tip)
    /\ blk !! LatestHeightTag = Some (PackUint64LE (blockHeight tip));
  cc_first : exists first, head chain = Some first
    /\ blk !! OriginHashTag = Some (Block_GetHash first)
    /\ blk !! OriginHeightTag = Some (PackUint64LE (blockHeight first))
}.

(** Every key under the side prefix is the mark of a stored block, with its
    height. *)
Definition side_marks (blk : bucket) : Prop :=
  forall k v, blk !! k = Some v -> has_prefix sideBlockPrefix k = true ->
    exists b, wf_block b /\ k = sideBlockKey (Block_GetHash b) /\ blk !! Block_GetHash b = Some (rlp_FullBlock b)
         /\ v = PackUint64LE (blockHeight b).

Definition store_inv (blk : bucket) (origin : Z) (chain : list FullBlock) : Prop :=
  canonical_chain blk origin chain /\ side_marks blk.

(** Neither the hash nor the height key of the block starts with the side
    prefix. *)
Definition plain_keys (b : FullBlock) : Prop :=
  has_prefix sideBlockPrefix (Block_GetHash b) = false
  /\ has_prefix sideBlockPrefix (PackUint64LE (blockHeight b)) = false.

Lemma length_Block_GetHash b : length (Block_GetHash b) = 32%nat.
Proof. apply length_Hash256. Qed.

Lemma length_sideBlockKey h : length (sideBlockKey h) = (5 + length h)%nat.
Proof. unfold sideBlockKey. by rewrite length_app. Qed.

Lemma length_blockWorkKey h : length (blockWorkKey h) = (5 + length h)%nat.
Proof. unfold blockWorkKey. by rewrite length_app. Qed.

Lemma sideBlockKey_inj a b : sideBlockKey a = sideBlockKey b -> a = b.
Proof. apply app_inv_head. Qed.

Lemma has_prefix_sideBlockKey h : has_prefix sideBlockPrefix (sideBlockKey h) = true.
Proof. apply bool_decide_eq_true. unfold sideBlockKey. by rewrite take_app_length. Qed.

Lemma has_prefix_workKey h : has_prefix sideBlockPrefix (blockWorkKey h) = false.
Proof. apply bool_decide_eq_false. unfold blockWorkKey. by rewrite take_app_length' by done. Qed.

(** Keys of different kinds differ in length or prefix. *)
Ltac key_ne :=
  first [ done
        | let E := fresh in intros E; apply (f_equal length) in E;
          rewrite ?length_sideBlockKey, ?length_blockWorkKey, ?length_PackUint64LE, ?length_Block_GetHash in E;
          cbn in E; lia ].

Ltac look :=
  repeat first [ rewrite lookup_insert_ne by key_ne | rewrite lookup_delete_ne by key_ne
               | rewrite lookup_insert_eq ].

Lemma canonical_height_hash blk o chain i b :
  canonical_chain blk o chain -> chain !! i = Some b -> is_u64 (blockHeight b).
Proof.
  intros C Hi. destruct (cc_block _ _ _ C i b Hi) as [-> _]. pose proof (lookup_lt_Some _ _ _ Hi).
  pose proof (cc_origin _ _ _ C). pose proof (cc_width _ _ _ C). unfold is_u64, zlen in *. lia.
Qed.

Lemma GetBlockByHash_stored `{!CodecLaws} blk b :
  wf_block b -> blk !! Block_GetHash b = Some (rlp_FullBlock b) -> GetBlockByHash blk (Block_GetHash b) = Ok b.
Proof. intros Hw Hb. unfold GetBlockByHash. by rewrite Hb, dec_rlp_FullBlock. Qed.

Lemma GetBlockByHeight_stored `{!CodecLaws} blk h b :
  wf_block b -> blk !! PackUint64LE h = Some (Block_GetHash b) ->
  blk !! Block_GetHash b = Some (rlp_FullBlock b) -> GetBlockByHeight blk h = Ok b.
Proof. intros Hw Hh Hb. unfold GetBlockByHeight. by rewrite Hh, Hb, dec_rlp_FullBlock. Qed.

(** The heights indexed are those of the chain. *)
Lemma canonical_get_height `{!CodecLaws} blk o chain i b :
  canonical_chain blk o chain -> chain !! i = Some b -> GetBlockByHeight blk (o + Z.of_nat i) = Ok b.
Proof.
  intros C Hi. destruct (cc_block _ _ _ C i b Hi) as (_ & Hw & Hh & Hb). by eapply GetBlockByHeight_stored.
Qed.

Lemma canonical_latest blk o chain :
  canonical_chain blk o chain -> GetLatestHeight blk = Ok (o + zlen chain - 1) /\ chain <> [].
Proof.
  intros C. destruct (cc_latest _ _ _ C) as (tip & Hl & _ & Ht).
  apply last_Some in Hl as [l Hl]. assert (Hi : chain !! length l = Some tip).
  { rewrite Hl. by apply list_lookup_middle. }
  pose proof (canonical_height_hash _ _ _ _ _ C Hi) as Hu.
  destruct (cc_block _ _ _ C _ _ Hi) as [Hh _]. split; [|rewrite Hl; by destruct l].
  unfold GetLatestHeight. rewrite Ht. unfold read_u64. rewrite length_PackUint64LE. cbn [Nat.ltb Nat.leb].
  rewrite Unpack_Pack by done. f_equal. rewrite Hh, Hl. unfold zlen. rewrite length_app. simpl. lia.
Qed.

(** ** Preservation *)

(** The chain without its ends: what survives while blocks are connected. *)
Definition linked (blk : bucket) (origin : Z) (chain : list FullBlock) : Prop :=
  (forall i b, chain !! i = Some b ->
    blockHeight b = origin + Z.of_nat i /\ wf_block b
    /\ blk !! PackUint64LE (origin + Z.of_nat i) = Some (Block_GetHash b)
    /\ blk !! Block_GetHash b = Some (rlp_FullBlock b))
  /\ (forall i a b, chain !! i = Some a -> chain !! S i = Some b -> h_PrevBlockHash (b_Header b) = Block_GetHash a).

(** The block's hash is not in use for another block. *)
Definition no_clash (blk : bucket) (b : FullBlock) : Prop :=
  forall raw, blk !! Block_GetHash b = Some raw -> raw = rlp_FullBlock b.

Lemma linked_frame blk blk' o chain :
  (forall i, (i < length chain)%nat -> blk' !! PackUint64LE (o + Z.of_nat i) = blk !! PackUint64LE (o + Z.of_nat i)) ->
  (forall k, length k = 32%nat -> blk' !! k = blk !! k) ->
  linked blk o chain -> linked blk' o chain.
Proof.
  intros H8 H32 [Hb Hl]. split; [|done]. intros i b Hi. pose proof (lookup_lt_Some _ _ _ Hi).
  rewrite H8, H32 by (done || apply length_Block_GetHash). by apply Hb.
Qed.

Lemma linked_prefix blk o pre suf : linked blk o (pre ++ suf) -> linked blk o pre.
Proof.
  intros [Hb Hl]. split.
  - intros i b Hi. apply Hb. by apply lookup_app_l_Some.
  - intros i a b Ha Hb'. by apply (Hl i a b); apply lookup_app_l_Some.
Qed.

Lemma lookup_putBlock blk b k :
  putBlock blk (Block_GetHash b) b !! k =
  if decide (k = sideBlockKey (Block_GetHash b)) then None
  else if decide (k = PackUint64LE (blockHeight b)) then Some (Block_GetHash b)
  else if decide (k = Block_GetHash b) then Some (rlp_FullBlock b) else blk !! k.
Proof.
  unfold putBlock. cbv zeta. destruct (decide (k = sideBlockKey _)) as [->|]; [by rewrite lookup_delete_eq|].
  rewrite lookup_delete_ne by done. destruct (decide (k = PackUint64LE _)) as [->|]; [by rewrite lookup_insert_eq|].
  rewrite lookup_insert_ne by done. destruct (decide (k = Block_GetHash b)) as [->|]; [by rewrite lookup_insert_eq|].
  by rewrite lookup_insert_ne.
Qed.

(** Reads of a connected block's keys. *)
Lemma putBlock_32 blk b k :
  length k = 32%nat -> no_clash blk b ->
  putBlock blk (Block_GetHash b) b !! k = if decide (k = Block_GetHash b) then Some (rlp_FullBlock b) else blk !! k.
Proof.
  intros Hk Hc. rewrite lookup_putBlock. rewrite (decide_False (P := k = sideBlockKey _)) by key_ne.
  by rewrite (decide_False (P := k = PackUint64LE _)) by key_ne.
Qed.

Lemma putBlock_8 blk b h :
  is_u64 h -> is_u64 (blockHeight b) ->
  putBlock blk (Block_GetHash b) b !! PackUint64LE h
  = if decide (h = blockHeight b) then Some (Block_GetHash b) else blk !! PackUint64LE h.
Proof.
  intros Hh Hb. rewrite lookup_putBlock. rewrite decide_False by key_ne.
  destruct (decide (h = blockHeight b)) as [->|Hne]; [by rewrite decide_True|].
  rewrite decide_False by (intros E; apply PackUint64LE_inj in E; done).
  by rewrite decide_False by key_ne.
Qed.

Section Laws.
Context `{CL : !CodecLaws}.

Lemma rlp_FullBlock_inj x y : wf_block x -> wf_block y -> rlp_FullBlock x = rlp_FullBlock y -> x = y.
Proof. intros Hx Hy E. apply (f_equal dec_FullBlock) in E. rewrite !dec_rlp_FullBlock in E by done. congruence. Qed.

Lemma linked_connect blk o chain b :
  0 <= o -> o + zlen chain + 1 < two64 -> linked blk o chain -> wf_block b -> no_clash blk b ->
  blockHeight b = o + zlen chain ->
  (forall a, last chain = Some a -> h_PrevBlockHash (b_Header b) = Block_GetHash a) ->
  linked (putBlock blk (Block_GetHash b) b) o (chain ++ [b]).
Proof.
  intros Ho Hw [Hb Hl] Hwf Hc Hh Hprev. unfold zlen in *.
  assert (Hu : is_u64 (blockHeight b)) by (unfold is_u64; lia). split.
  - intros i c Hi. pose proof (lookup_lt_Some _ _ _ Hi) as Hlt. rewrite length_app in Hlt. simpl in Hlt.
    rewrite putBlock_8 by (done || (unfold is_u64; lia)). rewrite putBlock_32 by (done || apply length_Block_GetHash).
    apply lookup_app_Some in Hi as [Hi|[Hge Hi]].
    + pose proof (lookup_lt_Some _ _ _ Hi). destruct (Hb i c Hi) as (Hch & Hcw & Hc8 & Hc32).
      rewrite decide_False by lia. rewrite decide_False; [done|]. intros E. apply Hc in Hc32 as Hraw || rewrite E in Hc32.
      assert (c = b) as -> by (apply rlp_FullBlock_inj; [done..|]; apply Hc; done). lia.
    + apply list_lookup_singleton_Some in Hi as [Hi <-]. assert (i = length chain) as -> by lia.
      rewrite !decide_True by done. done.
  - intros i x y Hx Hy. apply lookup_app_Some in Hy as [Hy|[Hge Hy]].
    + pose proof (lookup_lt_Some _ _ _ Hy). apply (Hl i); [|done]. by rewrite lookup_app_l in Hx by lia.
    + apply list_lookup_singleton_Some in Hy as [Hy <-]. apply Hprev.
      assert (Hi : S i = length chain) by lia. rewrite lookup_app_l in Hx by lia.
      rewrite last_lookup, <-Hi. done.
Qed.

Lemma linked_last blk o chain tip : linked blk o chain -> last chain = Some tip -> blockHeight tip = o + zlen chain - 1.
Proof.
  intros [Hb _] Hl. apply last_Some in Hl as [l ->].
  destruct (Hb (length l) tip) as [-> _]; [by apply list_lookup_middle|].
  unfold zlen. rewrite length_app. simpl. lia.
Qed.

Lemma canonical_linked blk o chain : canonical_chain blk o chain -> linked blk o chain.
Proof. intros C. split; [apply (cc_block _ _ _ C)|apply (cc_link _ _ _ C)]. Qed.

Lemma side_marks_mono blk blk' :
  (forall k, has_prefix sideBlockPrefix k = true -> blk' !! k = blk !! k \/ blk' !! k = None) ->
  (forall b, blk !! Block_GetHash b = Some (rlp_FullBlock b) -> blk' !! Block_GetHash b = Some (rlp_FullBlock b)) ->
  side_marks blk -> side_marks blk'.
Proof.
  intros Hk Hb Hs k v Hv Hp. destruct (Hk k Hp) as [E|E]; rewrite Hv in E; [|done].
  destruct (Hs k v) as (b & Hw & -> & Hst & ->); [done..|]. exists b. auto.
Qed.

Lemma side_marks_putBlock blk b :
  plain_keys b -> no_clash blk b -> side_marks blk -> side_marks (putBlock blk (Block_GetHash b) b).
Proof.
  intros [P32 P8] Hc. apply side_marks_mono.
  - intros k Hk. rewrite lookup_putBlock. destruct (decide _) as [|]; [by right|left].
    rewrite decide_False by congruence. by rewrite decide_False by congruence.
  - intros c Hst. rewrite putBlock_32 by (done || apply length_Block_GetHash).
    destruct (decide _) as [E|]; [|done]. f_equal. symmetry. apply Hc. by rewrite <-E.
Qed.

(** Tags carry no side prefix and are of a length of their own. *)
Lemma lookup_putLatestTags blk h hash k :
  k <> LatestHashTag -> k <> LatestHeightTag -> putLatestTags blk h hash !! k = blk !! k.
Proof. intros. unfold putLatestTags. by rewrite !lookup_insert_ne. Qed.

Lemma side_marks_tags blk h hash : side_marks blk -> side_marks (putLatestTags blk h hash).
Proof.
  apply side_marks_mono.
  - intros k Hk. left. apply lookup_putLatestTags; intros ->; done.
  - intros b Hb. by rewrite lookup_putLatestTags by key_ne.
Qed.

(** A linked chain with tags and nothing above its tip is canonical. *)
Lemma canonical_of_linked blk o chain tip first :
  0 <= o -> o + zlen chain < two64 -> linked blk o chain -> last chain = Some tip -> head chain = Some first ->
  (forall h, o + zlen chain <= h < two64 -> blk !! PackUint64LE h = None) ->
  blk !! OriginHashTag = Some (Block_GetHash first) ->
  blk !! OriginHeightTag = Some (PackUint64LE (blockHeight first)) ->
  canonical_chain (putLatestTags blk (blockHeight tip) (Block_GetHash tip)) o chain.
Proof.
  intros Ho Hw Hl Hlast Hhead Habove Ho1 Ho2.
  assert (Hl' : linked (putLatestTags blk (blockHeight tip) (Block_GetHash tip)) o chain).
  { eapply linked_frame; [| |exact Hl].
    - intros i _. by rewrite lookup_putLatestTags by key_ne.
    - intros k Hk. rewrite lookup_putLatestTags; [done|intros ->; done..]. }
  destruct Hl' as [Hb Hlk]. split; try done.
  - intros h Hh. rewrite lookup_putLatestTags by key_ne. by apply Habove.
  - exists tip. split; [done|]. unfold putLatestTags. split; [by rewrite lookup_insert_eq|].
    by rewrite lookup_insert_ne, lookup_insert_eq by done.
  - exists first. split; [done|]. by rewrite !lookup_putLatestTags by done.
Qed.

Lemma PutNewBlock_inv blk txb o chain tip b :
  store_inv blk o chain -> last chain = Some tip -> wf_block b -> no_clash blk b -> plain_keys b ->
  o + zlen chain + 1 < two64 -> h_PrevBlockHash (b_Header b) = Block_GetHash tip ->
  blockHeight b = o + zlen chain ->
  exists blk', PutNewBlock blk txb b = Ok (blk', putTxs txb b) /\ store_inv blk' o (chain ++ [b]).
Proof.
  intros [C Hs] Hlast Hwf Hc Hp Hw Hprev Hh.
  pose proof (canonical_linked _ _ _ C) as Hl. pose proof (linked_last _ _ _ _ Hl Hlast) as Htip.
  pose proof (cc_origin _ _ _ C) as Ho.
  assert (Hne : 1 <= zlen chain) by (destruct chain; [done|]; unfold zlen; cbn; lia).
  assert (Htip_st : blk !! Block_GetHash tip = Some (rlp_FullBlock tip) /\ wf_block tip).
  { apply last_Some in Hlast as [l ->]. destruct Hl as [Hb _].
    destruct (Hb (length l) tip) as (_ & ? & _ & ?); [by apply list_lookup_middle|done]. }
  unfold PutNewBlock, checkBlock, GetPrevHash.
  assert (E1 : blockHeightExists blk (blockHeight b) = false).
  { unfold blockHeightExists. destruct (Z.eqb_spec (blockHeight b) 0); [lia|].
    unfold GetBlockByHeight. by rewrite (cc_above _ _ _ C) by lia. }
  assert (E2 : blockPrevHashExists blk (blockHeight b) (h_PrevBlockHash (b_Header b)) = true).
  { unfold blockPrevHashExists. rewrite Hprev, GetBlockByHash_stored by (by apply Htip_st).
    destruct (_ && _); [done|]. fold (blockHeight tip). rewrite Htip, Hh. unfold u64. rewrite Z.mod_small by lia.
    by apply Z.eqb_eq; lia. }
  rewrite E1, E2. cbn [guard negb res_bind]. eexists. split; [done|].
  destruct (cc_first _ _ _ C) as (first & Hf & Hf1 & Hf2). split.
  - apply canonical_of_linked with (first := first); try done.
    + unfold zlen in *. rewrite length_app. cbn. lia.
    + apply linked_connect; try done. intros a Ha. congruence.
    + apply last_snoc.
    + by destruct chain.
    + intros h Hh'. unfold zlen in *. rewrite length_app in Hh'. cbn in Hh'.
      rewrite putBlock_8 by (unfold is_u64; lia). rewrite decide_False by lia. apply (cc_above _ _ _ C). unfold zlen. lia.
    + rewrite lookup_putBlock. by rewrite !decide_False by key_ne.
    + rewrite lookup_putBlock. by rewrite !decide_False by key_ne.
  - by apply side_marks_tags, side_marks_putBlock.
Qed.

Lemma PutSideBlock_inv blk o chain b :
  store_inv blk o chain -> wf_block b -> no_clash blk b -> plain_keys b -> store_inv (PutSideBlock blk b) o chain.
Proof.
  intros [C Hs] Hwf Hc [P32 P8]. unfold PutSideBlock. cbv zeta.
  assert (H32 : forall k, length k = 32%nat -> forall r, blk !! k = Some r ->
    <[sideBlockKey (Block_GetHash b) := PackUint64LE (blockHeight b)]> (<[Block_GetHash b := rlp_FullBlock b]> blk) !! k = Some r).
  { intros k Hk r Hr. rewrite lookup_insert_ne by key_ne. destruct (decide (Block_GetHash b = k)) as [<-|].
    - rewrite lookup_insert_eq. f_equal. symmetry. by apply Hc.
    - by rewrite lookup_insert_ne. }
  split.
  - destruct C. split; try done.
    + intros i c Hi. destruct (cc_block0 i c Hi) as (? & ? & ? & ?). split_and!; try done.
      * by look.
      * apply H32; [apply length_Block_GetHash|done].
    + intros h Hh. look. by apply cc_above0.
    + destruct cc_latest0 as (tip & ? & ? & ?). exists tip. split_and!; [done|by look|by look].
    + destruct cc_first0 as (first & ? & ? & ?). exists first. split_and!; [done|by look|by look].
  - intros k v Hv Hpre. destruct (decide (k = sideBlockKey (Block_GetHash b))) as [->|Hne].
    + rewrite lookup_insert_eq in Hv. simplify_eq. exists b. split_and!; try done. look. done.
    + rewrite lookup_insert_ne in Hv by done. rewrite lookup_insert_ne in Hv by congruence.
      destruct (Hs k v) as (c & Hw & -> & Hst & ->); [done..|]. exists c. split_and!; try done.
      apply H32; [apply length_Block_GetHash|done].
Qed.

(** *** Pruning *)

Definition marked (blk : bucket) (b : FullBlock) : Prop :=
  wf_block b /\ blk !! Block_GetHash b = Some (rlp_FullBlock b).

Lemma wf_block_height b : wf_block b -> is_u64 (blockHeight b).
Proof. intros [[_ [? _]] _]. done. Qed.

Lemma read_u64_Pack h : is_u64 h -> read_u64 (PackUint64LE h) = Ok h.
Proof. intros Hh. unfold read_u64. rewrite length_PackUint64LE. cbn [Nat.ltb Nat.leb]. by rewrite Unpack_Pack. Qed.

Lemma drop_sideBlockKey h : drop (length sideBlockPrefix) (sideBlockKey h) = h.
Proof. apply drop_app_length. Qed.

(** The side entries of a cursor are the marks. *)
Lemma prefix_scan_marks blk :
  side_marks blk ->
  Forall (fun kv => exists b, marked blk b /\ kv = (sideBlockKey (Block_GetHash b), PackUint64LE (blockHeight b)))
    (prefix_scan blk sideBlockPrefix).
Proof.
  intros Hs. apply Forall_forall. intros [k v] Hin. unfold prefix_scan in Hin.
  apply list_elem_of_filter in Hin as [Hp Hin]. rewrite merge_sort_Permutation, elem_of_map_to_list in Hin.
  destruct (Hs k v Hin Hp) as (b & Hw & -> & Hst & ->). by exists b.
Qed.

Lemma sideVictims_ok blk below entries :
  Forall (fun kv => exists b, marked blk b /\ kv = (sideBlockKey (Block_GetHash b), PackUint64LE (blockHeight b))) entries ->
  exists vs, sideVictims blk below entries = Ok vs
    /\ Forall (fun h => exists b, marked blk b /\ h = Block_GetHash b /\ blockHeight b < below
                        /\ blk !! PackUint64LE (blockHeight b) <> Some h) vs.
Proof.
  induction 1 as [|kv entries (b & [Hw Hst] & ->) _ (vs & Hv & Hf)]; [by exists []|].
  cbn [sideVictims]. rewrite read_u64_Pack by (by apply wf_block_height). cbn [res_bind]. rewrite Hv.
  cbn [res_bind]. rewrite drop_sideBlockKey. destruct (Z.leb_spec below (blockHeight b)); [by exists vs|].
  case_bool_decide as Hcan; [by exists vs|]. eexists. split; [done|]. constructor; [|done].
  exists b. split_and!; try done. intros E. by rewrite E in Hcan.
Qed.

Lemma lookup_deleteSides vs blk k :
  (k ∈ vs \/ k ∈ sideBlockKey <$> vs \/ k ∈ blockWorkKey <$> vs ->
     foldl deleteSide blk vs !! k = None)
  /\ (k ∉ vs -> k ∉ sideBlockKey <$> vs -> k ∉ blockWorkKey <$> vs -> foldl deleteSide blk vs !! k = blk !! k).
Proof.
  revert blk. induction vs as [|v vs IH]; intros blk.
  { split; [set_solver|done]. }
  assert (Hnone : forall b, b !! k = None -> foldl deleteSide b vs !! k = None).
  { clear IH. induction vs as [|w vs IH]; intros b Hb; [done|]. cbn. apply IH. unfold deleteSide.
    by rewrite !lookup_delete_None, Hb; auto. }
  cbn [foldl fmap list_fmap]. split.
  - intros Hk. destruct (decide (k = v \/ k = sideBlockKey v \/ k = blockWorkKey v)) as [E|E].
    + apply Hnone. unfold deleteSide. rewrite !lookup_delete_None. naive_solver.
    + apply IH. set_solver.
  - rewrite !not_elem_of_cons. intros [? ?] [? ?] [? ?].
    rewrite (proj2 (IH (deleteSide blk v))) by done. unfold deleteSide. by rewrite !lookup_delete_ne.
Qed.

Lemma PruneSideBlocks_inv blk o chain below :
  store_inv blk o chain ->
  exists n blk', PruneSideBlocks blk below = Ok (n, blk') /\ store_inv blk' o chain.
Proof.
  intros [C Hs]. unfold PruneSideBlocks.
  destruct (sideVictims_ok blk below _ (prefix_scan_marks blk Hs)) as (vs & -> & Hv).
  cbn [res_bind]. eexists _, _. split; [done|]. rewrite Forall_forall in Hv.
  assert (Hlen : forall v, v ∈ vs -> length v = 32%nat).
  { intros v (b & _ & -> & _)%Hv. apply length_Block_GetHash. }
  assert (Hsame : forall k, length k <> 37%nat -> k ∉ vs -> foldl deleteSide blk vs !! k = blk !! k).
  { intros k Hk Hn. apply lookup_deleteSides; [done|..];
      intros (v & -> & Hin)%list_elem_of_fmap; apply Hlen in Hin;
      rewrite ?length_sideBlockKey, ?length_blockWorkKey in Hk; lia. }
  assert (H8 : forall h, foldl deleteSide blk vs !! PackUint64LE h = blk !! PackUint64LE h).
  { intros h. apply Hsame; [by rewrite length_PackUint64LE|]. intros Hin%Hlen. by rewrite length_PackUint64LE in Hin. }
  assert (Htag : forall k, (length k < 32)%nat -> foldl deleteSide blk vs !! k = blk !! k).
  { intros k Hk. apply Hsame; [lia|]. intros Hin%Hlen. lia. }
  split.
  - destruct C. split; try done.
    + intros i c Hi. destruct (cc_block0 i c Hi) as (Hh & Hw & Hi8 & Hi32). split_and!; try done.
      * by rewrite H8.
      * rewrite Hsame; [done|by rewrite length_Block_GetHash|].
        intros (b & [Hwb Hst] & Heq & _ & Hnc)%Hv. apply Hnc.
        assert (b = c) as -> by (apply rlp_FullBlock_inj; [done..|]; rewrite <-Heq, Hi32 in Hst; congruence).
        by rewrite Hh.
    + intros h Hh. rewrite H8. by apply cc_above0.
    + destruct cc_latest0 as (tip & ? & ? & ?). exists tip. by rewrite !Htag by (cbn; lia).
    + destruct cc_first0 as (first & ? & ? & ?). exists first. by rewrite !Htag by (cbn; lia).
  - intros k v Hk Hp. destruct (decide (k ∈ vs \/ k ∈ sideBlockKey <$> vs \/ k ∈ blockWorkKey <$> vs)) as [Hin|Hin].
    { rewrite (proj1 (lookup_deleteSides vs blk k)) in Hk by done. done. }
    rewrite (proj2 (lookup_deleteSides vs blk k)) in Hk by tauto.
    destruct (Hs k v Hk Hp) as (b & Hw & -> & Hst & ->). exists b. split_and!; try done.
    rewrite Hsame; [done|by rewrite length_Block_GetHash|]. intros Hb. apply Hin. right; left.
    by apply list_elem_of_fmap_2.
Qed.

(** *** Switching branches *)

(** Unlinking canonical heights only adds side marks. *)
Lemma unlinkOld_ok blk txb o chain olds (lo : Z) :
  canonical_chain blk o chain -> side_marks blk -> o <= lo ->
  olds = drop (Z.to_nat (lo - o)) chain ->
  exists blk' txb', res_fold unlinkOld (blk, txb) (heights lo (o + zlen chain - 1)) = Ok (blk', txb')
    /\ side_marks blk' /\ (forall k, length k <> 37%nat -> blk' !! k = blk !! k)
    /\ txb' = foldl delTxs txb (b_Txs <$> olds).
Proof.
  intros C Hs Hlo ->. unfold heights, seqZ.
  replace (Z.to_nat (o + zlen chain - 1 - lo + 1)) with (length chain - Z.to_nat (lo - o))%nat by (unfold zlen; lia).
  set (n0 := Z.to_nat (lo - o)) in *.
  assert (G : forall n (cur : bucket) tx, (n0 + n <= length chain)%nat \/ n = 0%nat ->
    side_marks cur -> (forall k, length k <> 37%nat -> cur !! k = blk !! k) ->
    forall j, (n0 <= j)%nat -> (j + n = length chain)%nat \/ n = 0%nat ->
    exists blk' txb', res_fold unlinkOld (cur, tx) ((fun i => Z.of_nat i + lo) <$> seq (j - n0) n) = Ok (blk', txb')
      /\ side_marks blk' /\ (forall k, length k <> 37%nat -> blk' !! k = blk !! k)
      /\ txb' = foldl delTxs tx (b_Txs <$> take n (drop j chain))).
  { induction n as [|n IH]; intros cur tx Hn Hm Hsame j Hj Hjn; [by exists cur, tx|].
    destruct (lookup_lt_is_Some_2 chain j) as [b Hb]; [lia|].
    destruct (cc_block _ _ _ C j b Hb) as (Hh & Hw & H8 & H32).
    cbn [seq fmap list_fmap res_fold]. replace (Z.of_nat (j - n0) + lo) with (o + Z.of_nat j) by lia.
    unfold unlinkOld at 1. rewrite (GetBlockByHeight_stored cur (o + Z.of_nat j) b Hw); cycle 1.
    { rewrite Hsame; [done|by rewrite length_PackUint64LE]. }
    { rewrite Hsame; [done|by rewrite length_Block_GetHash]. }
    cbn [res_bind]. replace (S (j - n0)) with (S j - n0)%nat by lia.
    rewrite (drop_S _ _ _ Hb). cbn [take fmap list_fmap foldl]. apply IH; [lia| | |lia|lia].
    - intros k v Hv Hp. destruct (decide (k = sideBlockKey (Block_GetHash b))) as [->|Hne].
      + rewrite lookup_insert_eq in Hv. simplify_eq. exists b. split_and!; try done. look.
        rewrite Hsame; [done|by rewrite length_Block_GetHash].
      + rewrite lookup_insert_ne in Hv by done. destruct (Hm k v Hv Hp) as (c & ? & -> & ? & ->).
        exists c. split_and!; try done. by look.
    - intros k Hk. rewrite lookup_insert_ne; [by apply Hsame|]. intros <-. apply Hk.
      by rewrite length_sideBlockKey, length_Block_GetHash. }
  destruct (decide (n0 <= length chain)%nat) as [Hle|Hgt].
  - destruct (G (length chain - n0)%nat blk txb) with (j := n0) as (blk' & txb' & E & ? & ? & Ht); try done; try lia.
    rewrite Nat.sub_diag in E. exists blk', txb'. split_and!; try done.
    rewrite Ht. f_equal. f_equal. rewrite take_ge; [done|]. by rewrite length_drop.
  - replace (length chain - n0)%nat with 0%nat by lia. exists blk, txb. split_and!; try done.
    by rewrite drop_ge by lia.
Qed.

(** Connecting a branch on a linked chain. *)
Lemma connect_ok branch blk txb o pre :
  0 <= o -> o + zlen pre + zlen branch < two64 -> linked blk o pre -> side_marks blk ->
  Forall wf_block branch -> Forall plain_keys branch -> Forall (no_clash blk) branch -> NoDup (Block_GetHash <$> branch) ->
  (forall b, head branch = Some b -> blockHeight b = o + zlen pre
     /\ forall a, last pre = Some a -> h_PrevBlockHash (b_Header b) = Block_GetHash a) ->
  branchConnected branch = true ->
  exists blk' txb', foldl connectBlock (blk, txb) branch = (blk', txb')
    /\ linked blk' o (pre ++ branch) /\ side_marks blk' /\ txb' = foldl putTxs txb branch
    /\ (forall h, o + zlen pre + zlen branch <= h < two64 -> blk' !! PackUint64LE h = blk !! PackUint64LE h)
    /\ (forall k, (length k < 32)%nat -> length k <> 8%nat -> blk' !! k = blk !! k).
Proof.
  revert blk txb pre. induction branch as [|b branch IH]; intros blk txb pre Ho Hw Hl Hs Hwf Hp Hc Hnd Hhead Hconn.
  { exists blk, txb. rewrite app_nil_r. split_and!; done. }
  apply Forall_cons in Hwf as [Hwb Hwf], Hp as [Hpb Hp], Hc as [Hcb Hc].
  cbn [fmap list_fmap] in Hnd. apply NoDup_cons in Hnd as [Hnb Hnd].
  destruct (Hhead b eq_refl) as [Hh Hprev].
  assert (Hz : zlen (b :: branch) = zlen branch + 1) by (unfold zlen; cbn [length]; lia).
  assert (Hz0 : 0 <= zlen branch) by (unfold zlen; lia).
  assert (Edel : delete (sideBlockKey (Block_GetHash b)) (putBlock blk (Block_GetHash b) b) = putBlock blk (Block_GetHash b) b).
  { apply delete_id. rewrite lookup_putBlock. by rewrite decide_True. }
  cbn [foldl connectBlock]. rewrite Edel.
  assert (Hzp : zlen (pre ++ [b]) = zlen pre + 1) by (unfold zlen; rewrite length_app; cbn; lia).
  destruct (IH (putBlock blk (Block_GetHash b) b) (putTxs txb b) (pre ++ [b])) as (blk' & txb' & E & Hl' & Hs' & Ht & Habove & Hkeep); try done.
  - lia.
  - apply linked_connect; try done. lia.
  - by apply side_marks_putBlock.
  - rewrite Forall_forall in Hc |- *. intros c Hin raw. specialize (Hc c Hin raw).
    rewrite putBlock_32 by (done || apply length_Block_GetHash). rewrite decide_False; [done|].
    intros Eh. apply Hnb. rewrite <-Eh. by apply list_elem_of_fmap_2.
  - intros c Hhc. destruct branch as [|c' branch]; [done|]. injection Hhc as ->.
    cbn [branchConnected] in Hconn. bools. split.
    + rewrite H, Hh, Hzp. unfold u64. rewrite Z.mod_small; [lia|]. unfold zlen in *. lia.
    + intros a. rewrite last_snoc. by intros [= <-].
  - destruct branch; [done|]. cbn [branchConnected] in Hconn. by bools.
  - exists blk', txb'. split; [done|]. rewrite <-app_assoc in Hl'. split; [done|]. split; [done|]. split; [done|]. split.
    + intros h Hh'. rewrite Habove by lia. unfold zlen in *. rewrite putBlock_8 by (unfold is_u64; lia).
      by rewrite decide_False by lia.
    + intros k Hk Hk8. rewrite Hkeep by done. rewrite lookup_putBlock.
      rewrite decide_False by (intros ->; rewrite length_sideBlockKey, length_Block_GetHash in Hk; lia).
      rewrite decide_False by (intros ->; by rewrite length_PackUint64LE in Hk8).
      by rewrite decide_False by (intros ->; rewrite length_Block_GetHash in Hk; lia).
Qed.

Lemma lookup_dropHeights hs blk k :
  Forall is_u64 hs ->
  foldl dropHeight blk hs !! k = if decide (k ∈ PackUint64LE <$> hs) then None else blk !! k.
Proof.
  intros Hf. revert blk. induction Hf as [|h hs Hh _ IH]; intros blk; [done|].
  cbn [foldl fmap list_fmap]. rewrite IH. destruct (decide (k ∈ PackUint64LE <$> hs)) as [Hin|Hin].
  - by rewrite decide_True by (by right).
  - unfold dropHeight. destruct (decide (k = PackUint64LE h)) as [->|Hne].
    + rewrite decide_True by (by left). by rewrite lookup_delete_eq.
    + rewrite decide_False by (rewrite elem_of_cons; tauto). by rewrite lookup_delete_ne.
Qed.

(** Dropping the stale heights and moving the tags completes a switch. *)
Lemma canonical_after_drop blk o chain oldTop tip first :
  0 <= o -> o + zlen chain < two64 -> oldTop < two64 -> linked blk o chain ->
  last chain = Some tip -> head chain = Some first ->
  (forall h, o + zlen chain <= h < two64 -> oldTop < h -> blk !! PackUint64LE h = None) ->
  blk !! OriginHashTag = Some (Block_GetHash first) ->
  blk !! OriginHeightTag = Some (PackUint64LE (blockHeight first)) -> side_marks blk ->
  store_inv (putLatestTags (foldl dropHeight blk (heights (blockHeight tip + 1) oldTop)) (blockHeight tip) (Block_GetHash tip))
    o chain.
Proof.
  intros Ho Hw Hot Hl Hlast Hhead Habove Ho1 Ho2 Hs.
  pose proof (linked_last _ _ _ _ Hl Hlast) as Htip. set (hs := heights (blockHeight tip + 1) oldTop).
  assert (Hhs : forall h, h ∈ hs <-> o + zlen chain <= h <= oldTop).
  { intros h. unfold hs, heights. rewrite elem_of_seqZ. lia. }
  assert (Hfu : Forall is_u64 hs).
  { apply Forall_forall. intros h Hin%Hhs. unfold is_u64, zlen in *. lia. }
  assert (Hnot8 : forall k', length k' <> 8%nat -> foldl dropHeight blk hs !! k' = blk !! k').
  { intros k' Hk'. rewrite lookup_dropHeights by done. rewrite decide_False; [done|].
    intros (h & -> & _)%list_elem_of_fmap. by rewrite length_PackUint64LE in Hk'. }
  assert (H8 : forall h, is_u64 h ->
    foldl dropHeight blk hs !! PackUint64LE h = if decide (h ∈ hs) then None else blk !! PackUint64LE h).
  { intros h Hh. rewrite lookup_dropHeights by done. destruct (decide (h ∈ hs)) as [Hin|Hin].
    - rewrite decide_True; [done|]. by apply list_elem_of_fmap_2.
    - rewrite decide_False; [done|]. intros (h' & Eh & Hin')%list_elem_of_fmap.
      apply PackUint64LE_inj in Eh as ->; [done|done|]. rewrite Forall_forall in Hfu. by apply Hfu. }
  split.
  - apply canonical_of_linked with (first := first); try done.
    + apply (linked_frame blk); [| |done].
      * intros i Hi. rewrite H8 by (unfold is_u64, zlen in *; lia). rewrite decide_False; [done|]. rewrite Hhs.
        unfold zlen in *. lia.
      * intros k' Hk'. apply Hnot8. by rewrite Hk'.
    + intros h Hh. rewrite H8 by (unfold is_u64, zlen in *; lia). destruct (decide (h ∈ hs)) as [|Hn]; [done|].
      rewrite Hhs in Hn. apply Habove; lia.
    + by rewrite Hnot8.
    + by rewrite Hnot8.
  - apply side_marks_tags. revert Hs. apply side_marks_mono.
    + intros k' _. rewrite lookup_dropHeights by done. destruct (decide _); auto.
    + intros b Hb. rewrite Hnot8; [done|by rewrite length_Block_GetHash].
Qed.

Lemma SwitchToBranch_inv blk txb o chain branch first tip :
  store_inv blk o chain -> head branch = Some first -> last branch = Some tip ->
  Forall wf_block branch -> Forall plain_keys branch -> Forall (no_clash blk) branch -> NoDup (Block_GetHash <$> branch) ->
  o < blockHeight first -> blockHeight first + zlen branch < two64 ->
  branchConnected branch = true ->
  blk !! PackUint64LE (blockHeight first - 1) = Some (h_PrevBlockHash (b_Header first)) ->
  let k := Z.to_nat (blockHeight first - o) in
  exists blk', SwitchToBranch blk txb branch
      = Ok (blk', foldl putTxs (foldl delTxs txb (b_Txs <$> drop k chain)) branch)
    /\ store_inv blk' o (take k chain ++ branch).
Proof.
  intros [C Hs] Hhead Hlast Hwf Hp Hc Hnd Ho Hw Hconn Hanc k.
  pose proof (cc_origin _ _ _ C) as Ho0. pose proof (cc_width _ _ _ C) as Hcw.
  assert (Hz : 1 <= zlen branch) by (destruct branch; [done|unfold zlen; cbn; lia]).
  assert (Hk : (k <= length chain)%nat).
  { destruct (decide (k <= length chain)%nat) as [|Hgt]; [done|].
    rewrite (cc_above _ _ _ C) in Hanc by (unfold zlen in *; lia). done. }
  assert (Hpre : zlen (take k chain) = blockHeight first - o) by (unfold zlen; rewrite length_take; lia).
  destruct (unlinkOld_ok blk txb o chain _ (blockHeight first) C Hs ltac:(lia) eq_refl)
    as (blk1 & txb1 & E1 & Hs1 & Hk1 & Ht1). fold k in Ht1.
  assert (Hl1 : linked blk1 o (take k chain)).
  { apply (linked_frame blk).
    - intros i _. apply Hk1. by rewrite length_PackUint64LE.
    - intros k' Hk'. apply Hk1. by rewrite Hk'.
    - apply (linked_prefix _ _ _ (drop k chain)). rewrite take_drop. by apply canonical_linked. }
  destruct (connect_ok branch blk1 txb1 o (take k chain)) as (blk2 & txb2 & E2 & Hl2 & Hs2 & Ht2 & Ha2 & Hk2); try done; [lia| | |].
  { rewrite Forall_forall in Hc |- *. intros b Hin raw. rewrite Hk1 by (by rewrite length_Block_GetHash). by apply Hc. }
  { intros b Hb. rewrite Hhead in Hb. injection Hb as <-. split; [lia|]. intros a Ha.
    apply last_Some in Ha as [l Hl]. assert (Hi : chain !! length l = Some a).
    { rewrite <-(take_drop k chain), Hl. rewrite <-app_assoc. by apply list_lookup_middle. }
    destruct (cc_block _ _ _ C _ _ Hi) as (_ & _ & H8 & _). apply (f_equal length) in Hl.
    rewrite length_app, length_take in Hl. cbn in Hl.
    replace (o + Z.of_nat (length l)) with (blockHeight first - 1) in H8 by lia. congruence. }
  assert (Htip : blockHeight tip = o + zlen (take k chain ++ branch) - 1).
  { apply (linked_last blk2); [done|]. rewrite last_app, Hlast. done. }
  assert (Hzz : zlen (take k chain ++ branch) = zlen (take k chain) + zlen branch).
  { unfold zlen. rewrite length_app. lia. }
  destruct (canonical_latest _ _ _ C) as [Hlat Hne].
  assert (E : SwitchToBranch blk txb branch = Ok (putLatestTags (foldl dropHeight blk2 (heights (u64 (blockHeight tip + 1)) (o + zlen chain - 1)))
                    (blockHeight tip) (Block_GetHash tip), txb2)).
  { unfold SwitchToBranch. destruct branch as [|b0 branch]; [done|]. injection Hhead as ->. rewrite Hlast, Hconn.
    unfold GetPrevHash. rewrite u64_id by (unfold is_u64; lia). rewrite Hanc.
    rewrite bool_decide_eq_true_2 by done. cbn [guard negb]. rewrite Hlat. cbn [res_bind]. rewrite E1. cbn [res_bind].
    by rewrite E2. }
  rewrite E, Ht2, Ht1. eexists. split; [done|].
  rewrite u64_id by (unfold is_u64; lia). destruct (cc_first _ _ _ C) as (f & Hf & Hf1 & Hf2).
  apply canonical_after_drop with (first := f); try done; try lia.
  - by rewrite last_app, Hlast.
  - destruct chain as [|c0 chain]; [done|]. destruct k eqn:Ek; [lia|]. done.
  - intros h Hh Hgt. rewrite Ha2 by lia. rewrite Hk1 by (by rewrite length_PackUint64LE).
    apply (cc_above _ _ _ C). lia.
  - rewrite Hk2, Hk1 by (cbn; lia). done.
  - rewrite Hk2, Hk1 by (cbn; lia). done.
Qed.

(** ** Healthy stores *)

(** A block that may be written: in the code's value ranges, and with a hash
    that is neither taken by another block nor mistaken for a side mark. *)
Definition storable (blk : bucket) (b : FullBlock) : Prop := wf_block b /\ plain_keys b /\ no_clash blk b.

Lemma InitFromCheckpoint_inv b :
  storable ∅ b -> blockHeight b + 1 < two64 -> store_inv (InitFromCheckpoint ∅ b) (blockHeight b) [b].
Proof.
  intros (Hw & [P32 P8] & _) Hh. pose proof (wf_block_height _ Hw) as Hu. unfold InitFromCheckpoint. cbv zeta. split.
  - split.
    + apply Hu.
    + unfold zlen. cbn. lia.
    + intros i c Hi. apply list_lookup_singleton_Some in Hi as [-> <-]. rewrite Z.add_0_r.
      split_and!; [done|done|by look|by look].
    + intros i a c _ Hc. done.
    + intros h Hh'. unfold zlen in Hh'. cbn in Hh'. look.
      rewrite lookup_insert_ne by (intros E; apply PackUint64LE_inj in E; unfold is_u64 in *; lia). by look.
    + exists b. split_and!; [done|by look|by look].
    + exists b. split_and!; [done|by look|by look].
  - intros k v Hv Hp. exfalso. revert Hv.
    rewrite !lookup_insert_ne, lookup_empty by (intros <-; first [done | congruence]). done.
Qed.

Lemma SwitchToBranch_guards blk txb branch first r :
  head branch = Some first -> SwitchToBranch blk txb branch = Ok r ->
  branchConnected branch = true
  /\ blk !! PackUint64LE (u64 (blockHeight first - 1)) = Some (h_PrevBlockHash (b_Header first)).
Proof.
  intros Hh E. unfold SwitchToBranch in E. destruct branch as [|b branch]; [done|]. injection Hh as ->.
  destruct (last _); [|done]. open_ok E. by bools.
Qed.

Lemma healthLoop_ok blk o chain prev j :
  canonical_chain blk o chain -> chain !! j = Some prev ->
  healthLoop blk ((fun i => Z.of_nat i + (o + 1)) <$> seq j (length chain - 1 - j)) (Block_GetHash prev) = Ok tt.
Proof.
  intros C. remember (length chain - 1 - j)%nat as n eqn:Hn. revert j prev Hn.
  induction n as [|n IH]; intros j prev Hn Hj; [done|]. cbn [seq fmap list_fmap healthLoop].
  destruct (lookup_lt_is_Some_2 chain (S j)) as [b Hb]; [lia|].
  replace (Z.of_nat j + (o + 1)) with (o + Z.of_nat (S j)) by lia.
  rewrite (canonical_get_height _ _ _ _ _ C Hb). unfold GetPrevHash.
  rewrite (cc_link _ _ _ C j prev b Hj Hb), bool_decide_eq_true_2 by done. cbn [negb]. apply IH; [lia|done].
Qed.

(** What the invariant means to a reader: every height from the origin to
    the tip resolves to its block, which builds on the block below and is
    also found by hash; the latest tags name the tip; no height above it
    resolves; and the restart health check passes instead of panicking. *)
Record healthy (blk : bucket) (o : Z) (chain : list FullBlock) : Prop := {
  hl_block : forall i b, chain !! i = Some b ->
     GetBlockByHeight blk (o + Z.of_nat i) = Ok b /\ GetBlockByHash blk (Block_GetHash b) = Ok b
     /\ forall a, (0 < i)%nat -> chain !! (i - 1)%nat = Some a -> h_PrevBlockHash (b_Header b) = Block_GetHash a;
  hl_above : forall h, o + zlen chain <= h < two64 -> GetBlockByHeight blk h = Err ErrKeyNotFound;
  hl_tip : exists tip, last chain = Some tip /\ GetLatestBlock blk = Ok tip /\ GetLatestHeight blk = Ok (blockHeight tip);
  hl_check : CheckHealth blk = Ok tt
}.

Lemma store_inv_healthy blk o chain : store_inv blk o chain -> healthy blk o chain.
Proof.
  intros [C Hs]. pose proof (canonical_linked _ _ _ C) as Hl. destruct (canonical_latest _ _ _ C) as [Hlat Hne]. split.
  - intros i b Hi. destruct (cc_block _ _ _ C i b Hi) as (Hh & Hw & H8 & H32).
    split; [by eapply canonical_get_height|]. split; [by apply GetBlockByHash_stored|].
    intros a Hpos Ha. apply (cc_link _ _ _ C (i - 1)); [done|]. by replace (S (i - 1)) with i by lia.
  - intros h Hh. unfold GetBlockByHeight. by rewrite (cc_above _ _ _ C).
  - destruct (cc_latest _ _ _ C) as (tip & Hlast & Ht & _). exists tip. split; [done|].
    rewrite Hlat, (linked_last _ _ _ _ Hl Hlast). split; [|done].
    unfold GetLatestBlock, GetLatestHash. rewrite Ht. cbn [res_bind].
    apply last_Some in Hlast as [l Hcl]. destruct (cc_block _ _ _ C (length l) tip) as (_ & Hw & _ & H32).
    { rewrite Hcl. by apply list_lookup_middle. }
    by apply GetBlockByHash_stored.
  - destruct (cc_first _ _ _ C) as (f & Hf & Hf1 & _). unfold CheckHealth, GetOriginBlock, GetOriginHash.
    rewrite Hlat, Hf1. cbn [res_bind]. assert (H0 : chain !! 0%nat = Some f) by (by destruct chain).
    destruct (cc_block _ _ _ C 0%nat f H0) as (Hh & Hw & _ & H32). rewrite GetBlockByHash_stored by done.
    pose proof (healthLoop_ok blk o chain f 0 C H0) as Hloop. unfold heights, seqZ.
    rewrite Hh. replace (Z.to_nat (o + zlen chain - 1 - (o + Z.of_nat 0 + 1) + 1)) with (length chain - 1 - 0)%nat by (unfold zlen; lia).
    by replace (o + Z.of_nat 0 + 1) with (o + 1) by lia.
Qed.

(** ** The transaction index *)

Lemma length_GetHash tx : length (GetHash tx) = 32%nat.
Proof. apply length_Hash256. Qed.

Lemma length_addrTxKey a h x : length (addrTxKey a h x) = (44 + length x)%nat.
Proof. unfold addrTxKey. rewrite !length_app, length_vec_to_list, length_be_bytes. cbn. lia. Qed.

(** The account-history writes leave the shorter keys alone. *)
Lemma lookup_putTxAddrIndex txb tx k : length k <> 76%nat -> putTxAddrIndex txb tx !! k = txb !! k.
Proof.
  intros Hk. unfold putTxAddrIndex. revert txb. induction (txAddresses tx) as [|a l IH]; intros txb; [done|].
  cbn [foldl]. rewrite IH. apply lookup_insert_ne. intros <-. by rewrite length_addrTxKey, length_GetHash in Hk.
Qed.

Lemma lookup_delTxAddrIndex txb tx k : length k <> 76%nat -> delTxAddrIndex txb tx !! k = txb !! k.
Proof.
  intros Hk. unfold delTxAddrIndex. revert txb. induction (txAddresses tx) as [|a l IH]; intros txb; [done|].
  cbn [foldl]. rewrite IH. apply lookup_delete_ne. intros <-. by rewrite length_addrTxKey, length_GetHash in Hk.
Qed.

Lemma prefixed_ne (h h' : bytes) : length h = 32%nat -> length h' = 32%nat -> TxBlockPrefix ++ h <> h'.
Proof. intros Hh Hh' E. apply (f_equal length) in E. rewrite length_app, Hh, Hh' in E. done. Qed.

Lemma lookup_putTx bh txb tx h :
  length h = 32%nat ->
  putTx bh txb tx !! h = (if decide (h = GetHash tx) then Some (rlp_FullTx tx) else txb !! h)
  /\ putTx bh txb tx !! (TxBlockPrefix ++ h) = (if decide (h = GetHash tx) then Some bh else txb !! (TxBlockPrefix ++ h)).
Proof.
  intros Hh. pose proof (length_GetHash tx) as Ht. unfold putTx. cbv zeta.
  rewrite !lookup_putTxAddrIndex by (rewrite ?length_app, ?Hh; done).
  rewrite (lookup_insert_ne _ (TxBlockPrefix ++ GetHash tx) h) by (by apply prefixed_ne).
  destruct (decide (h = GetHash tx)) as [->|Hne].
  - by rewrite !lookup_insert_eq.
  - rewrite lookup_insert_ne by done. rewrite lookup_insert_ne by (intros E%app_inv_head; done).
    rewrite lookup_insert_ne; [done|]. intros E. symmetry in E. revert E. by apply prefixed_ne.
Qed.

Lemma lookup_delTx txb tx h :
  length h = 32%nat ->
  delTx txb tx !! h = (if decide (h = GetHash tx) then None else txb !! h)
  /\ delTx txb tx !! (TxBlockPrefix ++ h) = (if decide (h = GetHash tx) then None else txb !! (TxBlockPrefix ++ h)).
Proof.
  intros Hh. pose proof (length_GetHash tx) as Ht. unfold delTx. cbv zeta.
  rewrite !lookup_delTxAddrIndex by (rewrite ?length_app, ?Hh; done).
  rewrite (lookup_delete_ne _ (TxBlockPrefix ++ GetHash tx) h) by (by apply prefixed_ne).
  destruct (decide (h = GetHash tx)) as [->|Hne].
  - by rewrite !lookup_delete_eq.
  - rewrite lookup_delete_ne by done. rewrite lookup_delete_ne by (intros E%app_inv_head; done).
    rewrite lookup_delete_ne; [done|]. intros E. symmetry in E. revert E. by apply prefixed_ne.
Qed.

Lemma putTxs_other bh txs txb h :
  length h = 32%nat -> h ∉ GetHash <$> txs ->
  foldl (putTx bh) txb txs !! h = txb !! h
  /\ foldl (putTx bh) txb txs !! (TxBlockPrefix ++ h) = txb !! (TxBlockPrefix ++ h).
Proof.
  intros Hh. revert txb. induction txs as [|t txs IH]; intros txb Hn; [done|].
  cbn [foldl fmap list_fmap] in *. apply not_elem_of_cons in Hn as [Hn Hn'].
  destruct (IH (putTx bh txb t) Hn') as [-> ->]. destruct (lookup_putTx bh txb t h Hh) as [-> ->].
  by rewrite !decide_False.
Qed.

Lemma delTxs_lookup txs txb h :
  length h = 32%nat ->
  delTxs txb txs !! h = (if decide (h ∈ GetHash <$> txs) then None else txb !! h)
  /\ delTxs txb txs !! (TxBlockPrefix ++ h) = (if decide (h ∈ GetHash <$> txs) then None else txb !! (TxBlockPrefix ++ h)).
Proof.
  intros Hh. unfold delTxs. revert txb. induction txs as [|t txs IH]; intros txb; [done|].
  cbn [foldl fmap list_fmap]. destruct (IH (delTx txb t)) as [-> ->]. destruct (lookup_delTx txb t h Hh) as [-> ->].
  destruct (decide (h ∈ GetHash <$> txs)) as [Hin|Hin].
  - by rewrite !decide_True by (by right).
  - destruct (decide (h = GetHash t)) as [->|Hne].
    + by rewrite !decide_True by (by left).
    + by rewrite !decide_False by (rewrite elem_of_cons; tauto).
Qed.

(** The transaction index follows the canonical chain: after a block is
    put, each of its transactions is found by id, mapped to the block's hash;
    unlinking the block removes exactly those entries and leaves every other
    transaction as it was before; and the account-history keys of an address
    sort by height, which the range scan relies on. *)
Theorem tx_index_put_del txb block tx h addr h1 h2 x y :
  Forall wf_tx (b_Txs block) -> NoDup (GetHash <$> b_Txs block) -> tx ∈ b_Txs block ->
  length h = 32%nat -> h ∉ GetHash <$> b_Txs block -> is_u64 h1 -> is_u64 h2 -> h1 < h2 ->
  GetTxByHash (putTxs txb block) (GetHash tx) = Ok tx
  /\ GetTxBlockHash (putTxs txb block) (GetHash tx) = Ok (Block_GetHash block)
  /\ GetTxByHash (delTxs (putTxs txb block) (b_Txs block)) (GetHash tx) = Err ErrKeyNotFound
  /\ GetTxBlockHash (delTxs (putTxs txb block) (b_Txs block)) (GetHash tx) = Err ErrKeyNotFound
  /\ GetTxByHash (delTxs (putTxs txb block) (b_Txs block)) h = GetTxByHash txb h
  /\ GetTxBlockHash (delTxs (putTxs txb block) (b_Txs block)) h = GetTxBlockHash txb h
  /\ bytes_lt (addrTxKey addr h1 x) (addrTxKey addr h2 y).
Proof.
  intros Hw Hnd Hin Hh Hnot Hu1 Hu2 Hlt. unfold GetTxByHash, GetTxBlockHash.
  destruct (delTxs_lookup (b_Txs block) (putTxs txb block) (GetHash tx) (length_GetHash tx)) as [D1 D2].
  rewrite decide_True in D1, D2 by (by apply list_elem_of_fmap_2).
  destruct (delTxs_lookup (b_Txs block) (putTxs txb block) h Hh) as [D3 D4]. rewrite decide_False in D3, D4 by done.
  rewrite D1, D2, D3, D4. unfold putTxs.
  destruct (putTxs_other (Block_GetHash block) (b_Txs block) txb h Hh Hnot) as [-> ->].
  apply list_elem_of_split in Hin as (l1 & l2 & Hl). rewrite Hl in Hnd, Hw |- *.
  rewrite fmap_app, NoDup_app in Hnd. destruct Hnd as (_ & _ & Hnd). cbn [fmap list_fmap] in Hnd. apply NoDup_cons in Hnd as [Hn2 _].
  rewrite foldl_app. cbn [foldl].
  destruct (putTxs_other (Block_GetHash block) l2
    (putTx (Block_GetHash block) (foldl (putTx (Block_GetHash block)) txb l1) tx) (GetHash tx) (length_GetHash tx) Hn2) as [-> ->].
  destruct (lookup_putTx (Block_GetHash block) (foldl (putTx (Block_GetHash block)) txb l1) tx (GetHash tx) (length_GetHash tx)) as [-> ->].
  rewrite !decide_True by done. apply Forall_app in Hw as [_ [Hw _]%Forall_cons].
  split_and!; try done; [by rewrite dec_rlp_FullTx|].
  unfold addrTxKey, bytes_lt. rewrite !bytes_cmp_app.
  apply bytes_cmp_app_lt; [by rewrite !length_be_bytes|]. unfold bytes_lt.
  rewrite bytes_cmp_be_Z, !be_Z_be_bytes, !Z.mod_small by (rewrite ?length_be_bytes; done || (unfold is_u64, two64 in *; lia)).
  by apply Z.compare_lt_iff.
Qed.

End Laws.

End Store.

(** ** Witnesses *)

Module Witness.

#[local] Existing Instance toy_hasher.
#[local] Existing Instance toy_libs.
#[local] Existing Instance toy_codec.
#[local] Existing Instance toy_codec_laws.

Definition head_at (h : Z) (prev : bytes) : BlockHeader :=
  {| h_Network := ZERONET; h_Height := h; h_Timestamp := 1603497601000 + h; h_PrevBlockHash := prev;
     h_TxTrieHash := zeros 32; h_WitnessRoot := zeros 32; h_Difficulty := [Zbyte 9]; h_Coinbase := zeros 32;
     h_UnclesHash := zeros 32; h_StateRoot := zeros 32; h_BaseFee := [Zbyte 1]; h_Nonce := zeros 8 |}.

Definition pay : FullTx := NewTx ZERONET TransactTx 6 (to_array 32 [Zbyte 9]) (Some 1) (Some 2) [] [].

Definition b5 : FullBlock := {| b_Header := head_at 5 (zeros 32); b_Txs := []; b_Uncles := []; b_Commits := [] |}.
Definition b6 : FullBlock :=
  {| b_Header := head_at 6 (Block_GetHash b5); b_Txs := [pay]; b_Uncles := []; b_Commits := [] |}.

Lemma b6_wf : wf_block b6.
Proof. repeat split; try done; repeat constructor; done. Qed.

(** The store's own check takes any stored block of the height below for a
    parent: a child of a side block beside the tip is put on the canonical
    chain, and the health check of the next start panics.  Only the
    comparison with the latest hash in [importBlock] prevents it. *)
Definition side5 : FullBlock := {| b_Header := head_at 5 (repeat (Zbyte 1) 32); b_Txs := []; b_Uncles := []; b_Commits := [] |}.
Definition side6 : FullBlock := {| b_Header := head_at 6 (Block_GetHash side5); b_Txs := []; b_Uncles := []; b_Commits := [] |}.

Example store_takes_child_of_side_block :
  match PutNewBlock (PutSideBlock (InitFromCheckpoint ∅ b5) side5) ∅ side6 with
  | Ok (blk, _) => bool_decide (GetLatestHash blk = Ok (Block_GetHash side6)) && bool_decide (CheckHealth blk = Err GoPanic)
  | Err _ => false
  end = true.
Proof. vm_compute. reflexivity. Qed.

Lemma tx_index_put_del_witness :
  GetTxByHash (putTxs ∅ b6) (GetHash pay) = Ok pay
  /\ GetTxBlockHash (putTxs ∅ b6) (GetHash pay) = Ok (Block_GetHash b6)
  /\ bytes_lt (addrTxKey zeroAddress 255 []) (addrTxKey zeroAddress 256 []).
Proof.
  destruct (tx_index_put_del ∅ b6 pay (zeros 32) zeroAddress 255 256 [] [])
    as (H1 & H2 & _ & _ & _ & _ & H3).
  - exact (proj1 (proj2 b6_wf)).
  - apply NoDup_singleton.
  - by left.
  - reflexivity.
  - apply (bool_decide_unpack _). vm_compute. exact I.
  - done.
  - done.
  - done.
  - split; [exact H1|]. split; [exact H2|exact H3].
Defined.

End Witness.
