(* ===== verification/State.v ===== *)
(** * The state store

    The buckets of package ngstate inside one bbolt write transaction and
    every function that writes them: balances, contract slots and the shared
    code store, the key registry, pending commitments with their consumption
    journal, the randomness beacon, the state commitment kept beside them
    (statetrie.go), and the archive change sets with the per-height undo
    (state_helper.go, changeset.go, commit.go, beacon.go). *)

From S2P Require Import Prelude Params StateTrie Keys Contract Types Instances Tx BlockStore.

(** storage/init.go: the buckets of a database. *)
Inductive BucketName :=
  | BlockBucketName | TxBucketName
  | ContractBucketName | CodeBucketName | Addr2BalBucketName | KeyRegistryBucketName
  | CommitBucketName | CommitSpentBucketName | SnapshotBucketName | ReceiptBucketName
  | BalChangeSetBucketName | ContractChangeSetBucketName | KeyChangeSetBucketName
  | BalHistBucketName | ContractHistBucketName
  | StateTrieBucketName | BeaconBucketName | BeaconChangeSetBucketName.

#[export] Instance BucketName_eq_dec : EqDecision BucketName.
Proof. solve_decision. Defined.

Definition bucket_index (n : BucketName) : nat :=
  match n with
  | BlockBucketName => 0 | TxBucketName => 1 | ContractBucketName => 2 | CodeBucketName => 3
  | Addr2BalBucketName => 4 | KeyRegistryBucketName => 5 | CommitBucketName => 6
  | CommitSpentBucketName => 7 | SnapshotBucketName => 8 | ReceiptBucketName => 9
  | BalChangeSetBucketName => 10 | ContractChangeSetBucketName => 11 | KeyChangeSetBucketName => 12
  | BalHistBucketName => 13 | ContractHistBucketName => 14 | StateTrieBucketName => 15
  | BeaconBucketName => 16 | BeaconChangeSetBucketName => 17
  end.

Definition bucket_names : list BucketName :=
  [BlockBucketName; TxBucketName; ContractBucketName; CodeBucketName; Addr2BalBucketName;
   KeyRegistryBucketName; CommitBucketName; CommitSpentBucketName; SnapshotBucketName;
   ReceiptBucketName; BalChangeSetBucketName; ContractChangeSetBucketName; KeyChangeSetBucketName;
   BalHistBucketName; ContractHistBucketName; StateTrieBucketName; BeaconBucketName;
   BeaconChangeSetBucketName].

#[export] Program Instance BucketName_countable : Countable BucketName :=
  inj_countable bucket_index (fun i => bucket_names !! i) _.
Next Obligation. by intros []. Qed.

(** A write transaction: every bucket exists from the start of the node; an
    entry never written is the empty bucket. *)
Abbreviation Txn := (gmap BucketName bucket).

Definition Bucket (txn : Txn) (n : BucketName) : bucket := default ∅ (txn !! n).
Definition setBucket (txn : Txn) (n : BucketName) (b : bucket) : Txn := <[n := b]> txn.
Definition bGet (txn : Txn) (n : BucketName) (k : bytes) : option bytes := Bucket txn n !! k.
Definition bPut (txn : Txn) (n : BucketName) (k v : bytes) : Txn := setBucket txn n (<[k := v]> (Bucket txn n)).
Definition bDelete (txn : Txn) (n : BucketName) (k : bytes) : Txn := setBucket txn n (delete k (Bucket txn n)).

(** A cursor visits a bucket in key order. *)
Definition cursor (b : bucket) : list (bytes * bytes) := merge_sort kv_le (map_to_list b).

(** [c.Seek(k)]: the first entry at or after [k]. *)
Definition Seek (b : bucket) (k : bytes) : option (bytes * bytes) :=
  head (filter (fun kv => bytes_le k kv.1) (cursor b)).

(** The on-disk shape of a contract slot. *)
Record storedContract := {
  sc_Owner : Address;
  sc_CodeHash : bytes;
  sc_Context : option ContractContext
}.

(** RLP of a slot.  The decoder fills the exported fields of the context
    only. *)
Class SlotCodec := {
  rlp_storedContract : storedContract -> bytes;
  dec_storedContract : bytes -> option storedContract
}.

Definition decoded_context (ctx : ContractContext) : ContractContext :=
  {| ctx_Keys := ctx_Keys ctx; ctx_Values := ctx_Values ctx; ctx_valMap := None |}.

Class SlotCodecLaws `{SlotCodec} : Prop := {
  rlp_slot_nonempty : forall sc, rlp_storedContract sc <> [];
  dec_rlp_slot : forall sc ctx, sc_Context sc = Some ctx ->
    dec_storedContract (rlp_storedContract sc)
    = Some {| sc_Owner := sc_Owner sc; sc_CodeHash := sc_CodeHash sc; sc_Context := Some (decoded_context ctx) |}
}.

(** ngtypes/beacon.go *)
Definition BeaconStateKey : bytes := str "randao".

(** bboltNodeStore: the trie bucket as a [NodeStore]. *)
Record bboltNodeStore := { ns_bucket : bucket }.

Definition bbolt_Get (s : bboltNodeStore) (key : bytes) : option bytes := ns_bucket s !! key.
Definition bbolt_Put (s : bboltNodeStore) (key val : bytes) : res bboltNodeStore :=
  Ok {| ns_bucket := <[key := val]> (ns_bucket s) |}.
Definition bbolt_Delete (s : bboltNodeStore) (key : bytes) : res bboltNodeStore :=
  Ok {| ns_bucket := delete key (ns_bucket s) |}.

#[export] Instance bbolt_NodeStore : NodeStore bboltNodeStore :=
  {| ns_Get := bbolt_Get; ns_Put := bbolt_Put; ns_Delete := bbolt_Delete |}.

#[export] Instance bbolt_laws : NodeStoreLaws bboltNodeStore.
Proof.
  split; simpl; unfold bbolt_Get, bbolt_Put, bbolt_Delete; intros s s' k.
  - intros v k' [= <-]. simpl. apply lookup_insert.
  - intros k' [= <-]. simpl. apply lookup_delete.
Qed.

Definition newNodeStore (txn : Txn) : bboltNodeStore := {| ns_bucket := Bucket txn StateTrieBucketName |}.

(** changeset: a nil recorder is [None]. *)
Record changeset := { height : Z }.
Definition newChangeset (h : Z) : changeset := {| height := h |}.

Definition preimageAbsent : byte := Zbyte 0.
Definition preimagePresent : byte := Zbyte 1.

Definition taggedPreimage (old : option bytes) : bytes :=
  match old with None => [preimageAbsent] | Some v => preimagePresent :: v end.

Definition splitPreimage (tagged : bytes) : option bytes :=
  match tagged with
  | [] => None
  | tag :: v => if bool_decide (tag = preimageAbsent) then None else Some v
  end.

Definition csKey (h : Z) (addr : Address) : bytes := PackUint64LE h ++ vec_to_list addr.
Definition histKey (addr : Address) (h : Z) : bytes := vec_to_list addr ++ be_bytes 8 h.

Section State.
Context `{HH : Hasher} `{SL : SigLibs} `{CD : Codec} `{SC : SlotCodec}.

(** ** statetrie.go *)

(** [Update] over a bucket does not fail (lemma [bbolt_Update_ok]); the
    discarded error leaves the transaction as it is. *)
Definition trieSetLeaf (txn : Txn) (domain : byte) (key value : bytes) : Txn :=
  let path := LeafPath domain key in
  let vh := if zlen value =? 0 then ZeroHash else ValueHash value in
  match Update (newNodeStore txn) path vh with
  | Ok store => setBucket txn StateTrieBucketName (ns_bucket store)
  | Err _ => txn
  end.

(** A nil balance is [None]. *)
Definition trieSetBalance (txn : Txn) (addr : Address) (balance : option Z) : Txn :=
  let val := match balance with
             | Some b => if negb (b =? 0) then big_Bytes b else []
             | None => []
             end in
  trieSetLeaf txn DomainBalance (vec_to_list addr) val.

Definition trieSetKey (txn : Txn) (addr : Address) (entry : bytes) : Txn :=
  trieSetLeaf txn DomainKey (vec_to_list addr) entry.

Definition trieSetContract (txn : Txn) (addr : Address) (storedRLP : bytes) : Txn :=
  trieSetLeaf txn DomainContract (vec_to_list addr) storedRLP.

Definition trieSetCommit (txn : Txn) (bucketKey from : bytes) : Txn :=
  trieSetLeaf txn DomainCommit bucketKey from.

Definition trieSetBeacon (txn : Txn) (seed : bytes) : Txn :=
  trieSetLeaf txn DomainBeacon BeaconStateKey seed.

Definition StateRoot (txn : Txn) : bytes := Root (newNodeStore txn).

Definition rebuildBalances (store : bboltNodeStore) (kv : bytes * bytes) : res bboltNodeStore :=
  let bal := be_Z kv.2 in
  if bal =? 0 then Ok store
  else Update store (LeafPath DomainBalance (vec_to_list (to_array 32 kv.1))) (ValueHash (big_Bytes bal)).

Definition rebuildAddr (domain : byte) (store : bboltNodeStore) (kv : bytes * bytes) : res bboltNodeStore :=
  Update store (LeafPath domain (vec_to_list (to_array 32 kv.1))) (ValueHash kv.2).

Definition rebuildCommit (store : bboltNodeStore) (kv : bytes * bytes) : res bboltNodeStore :=
  Update store (LeafPath DomainCommit kv.1) (ValueHash kv.2).

Definition RebuildTrie (txn : Txn) : res Txn :=
  let txn := setBucket txn StateTrieBucketName ∅ in
  let store := newNodeStore txn in
  let! store := res_fold rebuildBalances store (cursor (Bucket txn Addr2BalBucketName)) in
  let! store := res_fold (rebuildAddr DomainKey) store (cursor (Bucket txn KeyRegistryBucketName)) in
  let! store := res_fold (rebuildAddr DomainContract) store (cursor (Bucket txn ContractBucketName)) in
  let! store := res_fold rebuildCommit store (cursor (Bucket txn CommitBucketName)) in
  let! store := match bGet txn BeaconBucketName BeaconStateKey with
                | Some v => Update store (LeafPath DomainBeacon BeaconStateKey) (ValueHash v)
                | None => Ok store
                end in
  Ok (setBucket txn StateTrieBucketName (ns_bucket store)).

Definition CheckStateRoot (txn : Txn) (want : bytes) : res unit :=
  reject negb (bool_decide (StateRoot txn = want)) with ErrBlockStateRootInvalid ;
  Ok tt.

Definition stateDomain (domain : string) : res (byte * BucketName) :=
  if bool_decide (domain = "balance"%string) then Ok (DomainBalance, Addr2BalBucketName)
  else if bool_decide (domain = "key"%string) then Ok (DomainKey, KeyRegistryBucketName)
  else if bool_decide (domain = "contract"%string) then Ok (DomainContract, ContractBucketName)
  else if bool_decide (domain = "commit"%string) then Ok (DomainCommit, CommitBucketName)
  else if bool_decide (domain = "beacon"%string) then Ok (DomainBeacon, BeaconBucketName)
  else Err ErrUnknownStateDomain.

Record LeafProof := {
  pr_root : bytes; pr_path : bytes; pr_value : bytes; pr_valueHash : bytes; pr_proof : list bytes
}.

(** A nil value is the empty slice. *)
Definition StateProof (txn : Txn) (domain : string) (rawKey : bytes) : res LeafProof :=
  let! (tag, bucketName) := stateDomain domain in
  let path := LeafPath tag rawKey in
  let value := default [] (bGet txn bucketName rawKey) in
  let valueHash := if zlen value =? 0 then ZeroHash else ValueHash value in
  let store := newNodeStore txn in
  Ok {| pr_root := Root store; pr_path := path; pr_value := value; pr_valueHash := valueHash;
        pr_proof := Prove store path |}.

(** ** changeset.go: recording *)

(** The value part of the index entries is nil. *)
Definition recordBal (cs : option changeset) (txn : Txn) (addr : Address) : Txn :=
  match cs with
  | None => txn
  | Some cs =>
      let k := csKey (height cs) addr in
      match bGet txn BalChangeSetBucketName k with
      | Some _ => txn
      | None =>
          let old := bGet txn Addr2BalBucketName (vec_to_list addr) in
          let txn := bPut txn BalChangeSetBucketName k (taggedPreimage old) in
          bPut txn BalHistBucketName (histKey addr (height cs)) []
      end
  end.

Definition recordContract (cs : option changeset) (txn : Txn) (addr : Address) : Txn :=
  match cs with
  | None => txn
  | Some cs =>
      let k := csKey (height cs) addr in
      match bGet txn ContractChangeSetBucketName k with
      | Some _ => txn
      | None =>
          let old := bGet txn ContractBucketName (vec_to_list addr) in
          let txn := bPut txn ContractChangeSetBucketName k (taggedPreimage old) in
          bPut txn ContractHistBucketName (histKey addr (height cs)) []
      end
  end.

Definition recordKey (cs : option changeset) (txn : Txn) (addr : Address) : Txn :=
  match cs with
  | None => txn
  | Some cs =>
      let k := csKey (height cs) addr in
      match bGet txn KeyChangeSetBucketName k with
      | Some _ => txn
      | None => bPut txn KeyChangeSetBucketName k [preimageAbsent]
      end
  end.

Definition recordBeacon (cs : option changeset) (txn : Txn) : Txn :=
  match cs with
  | None => txn
  | Some cs =>
      let k := PackUint64LE (height cs) in
      match bGet txn BeaconChangeSetBucketName k with
      | Some _ => txn
      | None => bPut txn BeaconChangeSetBucketName k (taggedPreimage (bGet txn BeaconBucketName BeaconStateKey))
      end
  end.

(** ** state_helper.go *)

Definition loadCode (txn : Txn) (codeHash : bytes) : bytes :=
  match bGet txn CodeBucketName codeHash with
  | Some entry => if (length entry <? 8)%nat then [] else drop 8 entry
  | None => []
  end.

Definition decodeStoredContract (txn : Txn) (raw : bytes) : res Contract :=
  match dec_storedContract raw with
  | None => Err ErrDecode
  | Some sc => Ok {| Owner := sc_Owner sc; Source := loadCode txn (sc_CodeHash sc); Context' := sc_Context sc |}
  end.

(** [fetchRemoteState] of remote_fallback.go is a no-op on nodes: its hook is
    only installed by the lazy-fork tool. *)
Definition getContract (txn : Txn) (addr : Address) : res Contract :=
  match bGet txn ContractBucketName (vec_to_list addr) with
  | None => Err ErrKeyNotFound
  | Some raw => decodeStoredContract txn raw
  end.

Definition contractExists (txn : Txn) (addr : Address) : bool :=
  bool_decide (is_Some (bGet txn ContractBucketName (vec_to_list addr))).

(** An entry shorter than its counter panics. *)
Definition retainCode (txn : Txn) (codeHash code : bytes) : res Txn :=
  match bGet txn CodeBucketName codeHash with
  | None => Ok (bPut txn CodeBucketName codeHash (PackUint64LE 1 ++ code))
  | Some entry =>
      let! refs := read_u64 entry in
      Ok (bPut txn CodeBucketName codeHash (PackUint64LE (u64 (refs + 1)) ++ drop 8 entry))
  end.

Definition releaseCode (txn : Txn) (codeHash : bytes) (keepForHistory : bool) : Txn :=
  match bGet txn CodeBucketName codeHash with
  | None => txn
  | Some entry =>
      if (length entry <? 8)%nat then txn
      else
        let refs := UnpackUint64LE entry in
        if (refs <=? 1) && negb keepForHistory then bDelete txn CodeBucketName codeHash
        else
          let refs := if 0 <? refs then refs - 1 else refs in
          bPut txn CodeBucketName codeHash (PackUint64LE refs ++ drop 8 entry)
  end.

Definition rec_on (rec : option changeset) : bool := match rec with Some _ => true | None => false end.

(** The code-registry part of [setContract], up to the label [store]. *)
Definition reconcileCode (txn : Txn) (rec : option changeset) (owner : Address) (newHash source : bytes) : res Txn :=
  match bGet txn ContractBucketName (vec_to_list owner) with
  | Some prev =>
      match dec_storedContract prev with
      | Some old =>
          if bool_decide (sc_CodeHash old = newHash) then Ok txn
          else retainCode (releaseCode txn (sc_CodeHash old) (rec_on rec)) newHash source
      | None => retainCode txn newHash source
      end
  | None => retainCode txn newHash source
  end.

Definition setContract (txn : Txn) (rec : option changeset) (account : Contract) : res Txn :=
  let newHash := Hash256 (Source account) in
  let txn := recordContract rec txn (Owner account) in
  let! txn := reconcileCode txn rec (Owner account) newHash (Source account) in
  let raw := rlp_storedContract {| sc_Owner := Owner account; sc_CodeHash := newHash; sc_Context := Context' account |} in
  let txn := bPut txn ContractBucketName (vec_to_list (Owner account)) raw in
  Ok (trieSetContract txn (Owner account) raw).

Definition delContract (txn : Txn) (rec : option changeset) (addr : Address) : Txn :=
  let txn := recordContract rec txn addr in
  let txn := match bGet txn ContractBucketName (vec_to_list addr) with
             | Some prev => match dec_storedContract prev with
                            | Some old => releaseCode txn (sc_CodeHash old) (rec_on rec)
                            | None => txn
                            end
             | None => txn
             end in
  let txn := bDelete txn ContractBucketName (vec_to_list addr) in
  trieSetContract txn addr [].

Definition getBalance (txn : Txn) (addr : Address) : Z :=
  match bGet txn Addr2BalBucketName (vec_to_list addr) with
  | None => 0
  | Some raw => be_Z raw
  end.

Definition setBalance (txn : Txn) (rec : option changeset) (addr : Address) (balance : Z) : Txn :=
  let txn := recordBal rec txn addr in
  let txn := bPut txn Addr2BalBucketName (vec_to_list addr) (big_Bytes balance) in
  trieSetBalance txn addr (Some balance).

Definition keyResolver (txn : Txn) : PubKeyResolver :=
  Some (fun addr => default [] (bGet txn KeyRegistryBucketName (vec_to_list addr))).

Definition registerPubKey (txn : Txn) (rec : option changeset) (tx : FullTx) : Txn :=
  if IsCompactEnvelope tx then txn
  else
    let scheme := EnvelopeScheme tx in
    let pkLen := PubKeySize scheme in
    if (pkLen =? 0)%nat || negb (length (tx_Sign tx) =? 2 + pkLen + SigSize scheme)%nat then txn
    else
      let pubKey := slice (tx_Sign tx) 2 (2 + pkLen) in
      let addr := AddressOfPubKey scheme pubKey in
      match bGet txn KeyRegistryBucketName (vec_to_list addr) with
      | Some _ => txn
      | None =>
          let txn := recordKey rec txn addr in
          let entry := scheme :: pubKey in
          let txn := bPut txn KeyRegistryBucketName (vec_to_list addr) entry in
          trieSetKey txn addr entry
      end.

(** ** commit.go *)

Definition commitKey (h : Z) (hash : bytes) : bytes := PackUint64LE h ++ vec_to_list (to_array 32 hash).
Definition spentKey (revealHeight : Z) (hash : bytes) : bytes :=
  PackUint64LE revealHeight ++ vec_to_list (to_array 32 hash).

Definition putCommit (txn : Txn) (h : Z) (hash : bytes) (from : Address) : Txn :=
  let key := commitKey h hash in
  let txn := bPut txn CommitBucketName key (vec_to_list from) in
  trieSetCommit txn key (vec_to_list from).

(** [for h := low; h < hi; h++], the heights of a scan. *)
Definition scan_heights (low hi : Z) : list Z := seqZ low (hi - low).

Definition commit_at (txn : Txn) (from : Address) (hash : bytes) (h : Z) : bool :=
  bool_decide (bGet txn CommitBucketName (commitKey h hash) = Some (vec_to_list from)).

(** [None] is the pair [(0, false)]. *)
Definition findCommit (txn : Txn) (from : Address) (hash : bytes) (revealHeight : Z) : option Z :=
  let low := if CommitWindow <? revealHeight then revealHeight - CommitWindow else 0 in
  head (filter (fun h => commit_at txn from hash h = true) (scan_heights low revealHeight)).

Definition consumeCommit (txn : Txn) (h : Z) (hash : bytes) : Txn :=
  let key := commitKey h hash in
  let txn := bDelete txn CommitBucketName key in
  trieSetCommit txn key [].

Definition commitFromPending (txn : Txn) (from : Address) (hash : bytes) (h : Z) : bool :=
  let low := if CommitWindow + 1 <? h then h - CommitWindow - 1 else 0 in
  existsb (commit_at txn from hash) (scan_heights low h).

Definition CommitOnChain (txn : Txn) (from : Address) (hash : bytes) (next : Z) : bool :=
  commitFromPending txn from hash next.

Definition journalConsumed (txn : Txn) (revealHeight recordHeight : Z) (hash : bytes) (from : Address) : Txn :=
  bPut txn CommitSpentBucketName (spentKey revealHeight hash) (PackUint64LE recordHeight ++ vec_to_list from).

Definition restoreEntry (h : Z) (txn : Txn) (kv : bytes * bytes) : Txn :=
  let hash := drop 8 kv.1 in
  let recordHeight := UnpackUint64LE (take 8 kv.2) in
  let from := to_array 32 (drop 8 kv.2) in
  let txn := putCommit txn recordHeight hash from in
  bDelete txn CommitSpentBucketName (spentKey h hash).

Definition restoreConsumedAtHeight (txn : Txn) (h : Z) : Txn :=
  foldl (restoreEntry h) txn (prefix_scan (Bucket txn CommitSpentBucketName) (PackUint64LE h)).

Definition dropCommit (txn : Txn) (k : bytes) : Txn := trieSetCommit (bDelete txn CommitBucketName k) k [].

Definition deleteCommitsAtHeight (txn : Txn) (h : Z) : Txn :=
  foldl dropCommit txn (prefix_scan (Bucket txn CommitBucketName) (PackUint64LE h)).*1.

Definition pruneEntry (name : BucketName) (inTrie : bool) (txn : Txn) (k : bytes) : Txn :=
  let txn := bDelete txn name k in
  if inTrie then trieSetCommit txn k [] else txn.

Definition below (cutoff : Z) (k : bytes) : bool := (8 <=? length k)%nat && (UnpackUint64LE k <? cutoff).

Definition pruneHeightBucketBelow (txn : Txn) (name : BucketName) (cutoff : Z) (inTrie : bool) : Txn :=
  foldl (pruneEntry name inTrie) txn (filter (fun k => below cutoff k = true) (cursor (Bucket txn name)).*1).

Definition pruneCommits (txn : Txn) (tip : Z) : Txn :=
  if tip <=? CommitWindow then txn
  else
    let cutoff := tip - CommitWindow in
    let txn := pruneHeightBucketBelow txn CommitBucketName cutoff true in
    pruneHeightBucketBelow txn CommitSpentBucketName cutoff false.

Definition CheckCommitment (txn : Txn) (commit : Commitment) (h : Z) : res unit :=
  do! Commitment_CheckError commit h (keyResolver txn) ;
  let! from := Commitment_From commit in
  reject commitFromPending txn from (c_Hash commit) h with ErrCommitDuplicate ;
  match c_Fee commit with
  | None => Err GoPanic
  | Some fee => reject getBalance txn from <? fee with ErrCommitUnaffordable ; Ok tt
  end.

(** ** beacon.go *)

Definition beaconDomain : bytes := str "ngcore/randao".

Definition getBeacon (txn : Txn) : bytes :=
  match bGet txn BeaconBucketName BeaconStateKey with
  | Some v => vec_to_list (to_array 32 v)
  | None => zeros 32
  end.

Definition setBeacon (txn : Txn) (cs : option changeset) (seed : bytes) : Txn :=
  let txn := recordBeacon cs txn in
  let txn := bPut txn BeaconBucketName BeaconStateKey seed in
  trieSetBeacon txn seed.

Definition nextSeed (prev : bytes) (block : FullBlock) : bytes :=
  let saltsHash := Hash256 (concat (tx_Salt <$> b_Txs block)) in
  Hash256 (beaconDomain ++ prev ++ h_PrevBlockHash (b_Header block) ++ saltsHash ++ PackUint64LE (blockHeight block)).

Definition updateBeacon (txn : Txn) (cs : option changeset) (block : FullBlock) : Txn :=
  if negb (IsForkActive (h_Network (b_Header block)) ForkRandomBeacon (blockHeight block)) then txn
  else if blockHeight block =? 0 then txn
  else setBeacon txn cs (nextSeed (getBeacon txn) block).

(** ** changeset.go: history and undo *)

Definition firstChangeHeightAfter (txn : Txn) (histBucket : BucketName) (addr : Address) (target : Z) : option Z :=
  match Seek (Bucket txn histBucket) (histKey addr (u64 (target + 1))) with
  | None => None
  | Some (k, _) =>
      if negb (length k =? 40)%nat then None
      else if negb (bool_decide (take 32 k = vec_to_list addr)) then None
      else Some (be_Z (drop 32 k))
  end.

Definition balanceAtHeight (txn : Txn) (addr : Address) (h : Z) : Z :=
  match firstChangeHeightAfter txn BalHistBucketName addr h with
  | None => getBalance txn addr
  | Some m =>
      match splitPreimage (default [] (bGet txn BalChangeSetBucketName (csKey m addr))) with
      | None => 0
      | Some val => be_Z val
      end
  end.

(** [None] is a slot that did not exist at the height. *)
Definition contractAtHeight (txn : Txn) (addr : Address) (h : Z) : res (option Contract) :=
  match firstChangeHeightAfter txn ContractHistBucketName addr h with
  | None =>
      match getContract txn addr with
      | Ok acc => Ok (Some acc)
      | Err ErrKeyNotFound => Ok None
      | Err e => Err e
      end
  | Some m =>
      match splitPreimage (default [] (bGet txn ContractChangeSetBucketName (csKey m addr))) with
      | None => Ok None
      | Some raw => let! acc := decodeStoredContract txn raw in Ok (Some acc)
      end
  end.

Definition changesetCovers (txn : Txn) (h : Z) : bool :=
  match Seek (Bucket txn BalChangeSetBucketName) (PackUint64LE h) with
  | Some (k, _) => has_prefix (PackUint64LE h) k
  | None => false
  end.

(** One entry of the undo: restore, mirror, drop the index and the record. *)
Definition revertEntry (csName stateName : BucketName) (histName : option BucketName) (h : Z)
    (mirror : Txn -> Address -> option bytes -> Txn) (txn : Txn) (e : Address * bytes) : Txn :=
  let '(addr, tagged) := e in
  let val := splitPreimage tagged in
  let txn := match val with
             | Some v => bPut txn stateName (vec_to_list addr) v
             | None => bDelete txn stateName (vec_to_list addr)
             end in
  let txn := mirror txn addr val in
  let txn := match histName with
             | Some hn => bDelete txn hn (histKey addr h)
             | None => txn
             end in
  bDelete txn csName (csKey h addr).

Definition revertDomain (txn : Txn) (csName stateName : BucketName) (histName : option BucketName) (h : Z)
    (mirror : Txn -> Address -> option bytes -> Txn) : Txn :=
  let entries :=
    (fun kv => (to_array 32 (drop 8 kv.1), kv.2))
      <$> filter (fun kv => length kv.1 = 40%nat) (prefix_scan (Bucket txn csName) (PackUint64LE h)) in
  foldl (revertEntry csName stateName histName h mirror) txn entries.

Definition revertBeacon (txn : Txn) (h : Z) : Txn :=
  let k := PackUint64LE h in
  match bGet txn BeaconChangeSetBucketName k with
  | None => txn
  | Some tagged =>
      let txn := match splitPreimage tagged with
                 | Some val => trieSetBeacon (bPut txn BeaconBucketName BeaconStateKey val) val
                 | None => trieSetBeacon (bDelete txn BeaconBucketName BeaconStateKey) []
                 end in
      bDelete txn BeaconChangeSetBucketName k
  end.

Definition mirrorBalance (txn : Txn) (addr : Address) (val : option bytes) : Txn :=
  trieSetBalance txn addr (be_Z <$> val).
Definition mirrorContract (txn : Txn) (addr : Address) (val : option bytes) : Txn :=
  trieSetContract txn addr (default [] val).
Definition mirrorKey (txn : Txn) (addr : Address) (val : option bytes) : Txn :=
  trieSetKey txn addr (default [] val).

Definition unwindHeightTxn (txn : Txn) (h : Z) : Txn :=
  let txn := revertDomain txn BalChangeSetBucketName Addr2BalBucketName (Some BalHistBucketName) h mirrorBalance in
  let txn := revertDomain txn ContractChangeSetBucketName ContractBucketName (Some ContractHistBucketName) h mirrorContract in
  let txn := revertDomain txn KeyChangeSetBucketName KeyRegistryBucketName None h mirrorKey in
  let txn := deleteCommitsAtHeight txn h in
  let txn := restoreConsumedAtHeight txn h in
  revertBeacon txn h.

End State.
