(* ===== verification/StateCommit.v ===== *)
(** * The state commitment mirrors the buckets

    Every write of package ngstate keeps the sparse Merkle tree equal to the
    tree a full rebuild computes from the five committed buckets, and the
    proofs it serves verify.  Leaf paths are hashes of tagged keys, so the
    statements fix a finite set of tagged keys on which the hash has no
    collision and ask that the keys in use belong to it. *)

From S2P Require Import Prelude Params StateTrie Keys Contract Types Instances Tx BlockStore State.

(** Conversion looks at the tree operations last. *)
Strategy 1000 [trieSetLeaf Update].

(** ** Bucket algebra *)

Lemma Bucket_setBucket t n b n' : Bucket (setBucket t n b) n' = if decide (n = n') then b else Bucket t n'.
Proof.
  unfold Bucket, setBucket. destruct (decide (n = n')) as [->|Hn]; [by rewrite lookup_insert_eq|by rewrite lookup_insert_ne].
Qed.

Lemma bGet_setBucket t n b n' k : bGet (setBucket t n b) n' k = if decide (n = n') then b !! k else bGet t n' k.
Proof. unfold bGet. rewrite Bucket_setBucket. by destruct (decide _). Qed.

Lemma bGet_bPut t n k v n' k' :
  bGet (bPut t n k v) n' k' = if decide (n = n' /\ k = k') then Some v else bGet t n' k'.
Proof.
  unfold bPut. rewrite bGet_setBucket. destruct (decide (n = n')) as [->|Hn].
  - rewrite lookup_insert. unfold bGet. destruct (decide (k = k')).
    + by rewrite decide_True by done.
    + rewrite decide_False by tauto. done.
  - rewrite decide_False by tauto. done.
Qed.

Lemma bGet_bDelete t n k n' k' :
  bGet (bDelete t n k) n' k' = if decide (n = n' /\ k = k') then None else bGet t n' k'.
Proof.
  unfold bDelete. rewrite bGet_setBucket. destruct (decide (n = n')) as [->|Hn].
  - rewrite lookup_delete. unfold bGet. destruct (decide (k = k')).
    + by rewrite decide_True by done.
    + rewrite decide_False by tauto. done.
  - rewrite decide_False by tauto. done.
Qed.

Lemma Bucket_ext t t' n : (forall k, bGet t n k = bGet t' n k) -> Bucket t n = Bucket t' n.
Proof. intros Hk. apply map_eq, Hk. Qed.

(** Puts or deletes, as the undo does. *)
Definition bWrite (t : Txn) (n : BucketName) (k : bytes) (o : option bytes) : Txn :=
  match o with Some v => bPut t n k v | None => bDelete t n k end.

Lemma bGet_bWrite t n k o n' k' :
  bGet (bWrite t n k o) n' k' = if decide (n = n' /\ k = k') then o else bGet t n' k'.
Proof. destruct o; [apply bGet_bPut|apply bGet_bDelete]. Qed.

Lemma elem_of_cursor b k v : (k, v) ∈ cursor b <-> b !! k = Some v.
Proof. unfold cursor. by rewrite merge_sort_Permutation, elem_of_map_to_list. Qed.

Lemma NoDup_cursor_keys b : NoDup (cursor b).*1.
Proof.
  unfold cursor. eapply NoDup_Permutation_proper; [apply fmap_Permutation, merge_sort_Permutation|].
  apply NoDup_fst_map_to_list.
Qed.

(** ** The committed view *)

Definition domain_bucket (d : byte) : option BucketName :=
  if bool_decide (d = DomainBalance) then Some Addr2BalBucketName
  else if bool_decide (d = DomainKey) then Some KeyRegistryBucketName
  else if bool_decide (d = DomainContract) then Some ContractBucketName
  else if bool_decide (d = DomainCommit) then Some CommitBucketName
  else if bool_decide (d = DomainBeacon) then Some BeaconBucketName
  else None.

Lemma domain_bucket_inj d d' n : domain_bucket d = Some n -> domain_bucket d' = Some n -> d = d'.
Proof. unfold domain_bucket. repeat case_bool_decide; congruence. Qed.

Lemma domain_bucket_not_trie d : domain_bucket d <> Some StateTrieBucketName.
Proof. unfold domain_bucket. by repeat case_bool_decide. Qed.

(** What each bucket of the state layer stores. *)
Definition shape (n : BucketName) (k v : bytes) : Prop :=
  match n with
  | Addr2BalBucketName => length k = 32%nat /\ big_Bytes (be_Z v) = v
  | KeyRegistryBucketName | ContractBucketName => length k = 32%nat /\ v <> []
  | CommitBucketName => length k = 40%nat /\ length v = 32%nat
  | BeaconBucketName => k = BeaconStateKey /\ v <> []
  | BalChangeSetBucketName => match splitPreimage v with Some b => big_Bytes (be_Z b) = b | None => True end
  | ContractChangeSetBucketName | BeaconChangeSetBucketName => splitPreimage v <> Some []
  | KeyChangeSetBucketName => splitPreimage v = None
  | CommitSpentBucketName => length k = 40%nat
  | _ => True
  end.

Lemma splitPreimage_tagged o : splitPreimage (taggedPreimage o) = o.
Proof. by destruct o. Qed.

Lemma big_Bytes_be_big z : big_Bytes (be_Z (big_Bytes z)) = big_Bytes z.
Proof.
  assert (E : big_Bytes z = big_Bytes (Z.abs z)).
  { unfold big_Bytes. rewrite Z.abs_idemp. destruct (Z.eqb_spec z 0), (Z.eqb_spec (Z.abs z) 0); try lia; done. }
  rewrite E. f_equal. apply be_Z_big_Bytes. lia.
Qed.

Section Commit.
Context `{HH : Hasher} `{SL : SigLibs} `{CD : Codec} `{SC : SlotCodec} `{!SlotCodecLaws}.

Lemma bbolt_setNode_ok (s : bboltNodeStore) k h v : exists s', setNode s k h v = Ok s'.
Proof. unfold setNode. case_bool_decide; eexists; reflexivity. Qed.

Lemma bbolt_Update_ok (s : bboltNodeStore) p v : exists s', Update s p v = Ok s'.
Proof.
  unfold Update. destruct (bbolt_setNode_ok s (nodeKey Depth p) 0 (leafHash p v)) as [s1 ->].
  cbn [res_bind]. generalize (leafHash p v). generalize s1. generalize Depth.
  intros d. induction d as [|d IH]; intros s2 cur; [by eexists|]. cbn [Update_loop].
  match goal with |- context [setNode s2 ?k ?h ?x] => destruct (bbolt_setNode_ok s2 k h x) as [s3 ->] end.
  apply IH.
Qed.

Definition leaf_of (o : option bytes) : bytes :=
  match o with None | Some [] => ZeroHash | Some v => ValueHash v end.

(** The leaf value committed under a tagged key. *)
Definition committed (t : Txn) (x : bytes) : bytes :=
  match x with
  | d :: k => match domain_bucket d with Some n => leaf_of (bGet t n k) | None => ZeroHash end
  | [] => ZeroHash
  end.

Lemma leaf_of_default o : leaf_of o = if zlen (default [] o) =? 0 then ZeroHash else ValueHash (default [] o).
Proof. by destruct o as [[|? ?]|]. Qed.

Section Universe.

(** The tagged keys in use. *)
Context (U : gset bytes).

Definition collision_free : Prop := forall x y, x ∈ U -> y ∈ U -> Hash256 x = Hash256 y -> x = y.

(** A view of tagged keys, seen from the paths. *)
Definition at_path (W : bytes -> bytes) (p : bytes) : bytes :=
  match filter (fun x => Hash256 x = p) (elements U) with x :: _ => W x | [] => ZeroHash end.

(** The tagged keys an entry stands for: its own, or the one its undo
    restores. *)
Definition in_use (n : BucketName) (k v : bytes) : Prop :=
  match n with
  | Addr2BalBucketName => DomainBalance :: k ∈ U
  | KeyRegistryBucketName => DomainKey :: k ∈ U
  | ContractBucketName => DomainContract :: k ∈ U
  | CommitBucketName => DomainCommit :: k ∈ U
  | BeaconBucketName => DomainBeacon :: k ∈ U
  | BalChangeSetBucketName => DomainBalance :: drop 8 k ∈ U
  | KeyChangeSetBucketName => DomainKey :: drop 8 k ∈ U
  | ContractChangeSetBucketName => DomainContract :: drop 8 k ∈ U
  | CommitSpentBucketName => DomainCommit :: commitKey (UnpackUint64LE (take 8 v)) (drop 8 k) ∈ U
  | BeaconChangeSetBucketName => DomainBeacon :: BeaconStateKey ∈ U
  | _ => True
  end.

Definition good (n : BucketName) (k v : bytes) : Prop := shape n k v /\ in_use n k v.

Definition wf_txn (t : Txn) : Prop := forall n k v, bGet t n k = Some v -> good n k v.

Lemma in_use_domain d n k v : domain_bucket d = Some n -> in_use n k v -> d :: k ∈ U.
Proof. unfold domain_bucket. repeat case_bool_decide; intros [= <-]; by subst. Qed.

Definition mirrors (t : Txn) : Prop :=
  represents (newNodeStore t) (at_path (committed t)) /\ canonical (newNodeStore t).

Lemma at_path_ext W W' p : (forall x, x ∈ U -> W x = W' x) -> at_path W p = at_path W' p.
Proof.
  intros HW. unfold at_path. destruct (filter _ _) as [|x l] eqn:E; [done|]. apply HW.
  assert (Hx : x ∈ filter (fun x => Hash256 x = p) (elements U)) by (rewrite E; left).
  apply list_elem_of_filter in Hx as [_ Hx]. by apply elem_of_elements.
Qed.

Context (Hcf : collision_free).

Lemma at_path_in W x : x ∈ U -> at_path W (Hash256 x) = W x.
Proof.
  intros Hx. unfold at_path. destruct (filter _ _) as [|y l] eqn:E.
  - exfalso. apply (not_elem_of_nil x). rewrite <-E. apply list_elem_of_filter.
    split; [done|]. by apply elem_of_elements.
  - assert (Hy : y ∈ filter (fun y => Hash256 y = Hash256 x) (elements U)) by (rewrite E; left).
    apply list_elem_of_filter in Hy as [Hh Hy]. apply elem_of_elements in Hy. f_equal. by apply Hcf.
Qed.

Lemma at_path_upd W x v p : x ∈ U -> at_path (upd W x v) p = upd (at_path W) (Hash256 x) v p.
Proof.
  intros Hx. unfold upd at 2. destruct (decide (p = Hash256 x)) as [->|Hp].
  - rewrite at_path_in by done. unfold upd. by rewrite decide_True.
  - unfold at_path. destruct (filter _ _) as [|y l] eqn:E; [done|].
    assert (Hy : y ∈ filter (fun y => Hash256 y = p) (elements U)) by (rewrite E; left).
    apply list_elem_of_filter in Hy as [Hh Hy]. unfold upd. rewrite decide_False; [done|]. by intros ->.
Qed.

Lemma represents_ext (s : bboltNodeStore) V V' : (forall p, V p = V' p) -> represents s V -> represents s V'.
Proof. intros HV Hs d q Hd Hq. unfold node_ok. rewrite (Hs d q Hd Hq). by apply ref_ext. Qed.

(** Buckets other than the tree's are not seen by [trieSetLeaf]. *)
Lemma bGet_trieSetLeaf t d k val n k' :
  n <> StateTrieBucketName -> bGet (trieSetLeaf t d k val) n k' = bGet t n k'.
Proof.
  intros Hn. unfold trieSetLeaf. destruct (Update _ _ _); [|done]. rewrite bGet_setBucket. by rewrite decide_False.
Qed.

Lemma trieSetLeaf_mirrors t W d k o :
  d :: k ∈ U -> represents (newNodeStore t) (at_path W) -> canonical (newNodeStore t) ->
  represents (newNodeStore (trieSetLeaf t d k (default [] o))) (at_path (upd W (d :: k) (leaf_of o)))
  /\ canonical (newNodeStore (trieSetLeaf t d k (default [] o))).
Proof.
  intros Hx Hr Hc. unfold trieSetLeaf. rewrite <-leaf_of_default.
  destruct (bbolt_Update_ok (newNodeStore t) (LeafPath d k) (leaf_of o)) as [s' E]. rewrite E.
  assert (Hs : newNodeStore (setBucket t StateTrieBucketName (ns_bucket s')) = s').
  { unfold newNodeStore. rewrite Bucket_setBucket, decide_True by done. by destruct s'. }
  rewrite Hs. split; [|eapply Update_canonical; [apply length_Hash256|done|exact E]].
  eapply represents_ext; [|eapply Update_represents; [apply length_Hash256|exact Hr|exact E]].
  intros p. symmetry. by apply at_path_upd.
Qed.

(** A write of one committed entry: the bucket and its leaf. *)
Definition cwrite (t : Txn) (d : byte) (n : BucketName) (k : bytes) (o : option bytes) : Txn :=
  trieSetLeaf (bWrite t n k o) d k (default [] o).

Lemma bGet_cwrite t d n k o n' k' :
  n' <> StateTrieBucketName ->
  bGet (cwrite t d n k o) n' k' = if decide (n = n' /\ k = k') then o else bGet t n' k'.
Proof. intros Hn. unfold cwrite. by rewrite bGet_trieSetLeaf, bGet_bWrite. Qed.

Lemma committed_bWrite t d n k o x :
  domain_bucket d = Some n -> committed (bWrite t n k o) x = upd (committed t) (d :: k) (leaf_of o) x.
Proof.
  intros Hd. unfold upd. destruct x as [|d' k']; [done|]. cbn [committed].
  destruct (domain_bucket d') as [n'|] eqn:Hd'.
  - rewrite bGet_bWrite. destruct (decide (n = n' /\ k = k')) as [[<- <-]|Hn].
    + rewrite (domain_bucket_inj _ _ _ Hd' Hd). by rewrite decide_True.
    + rewrite decide_False; [done|]. intros [= -> ->]. apply Hn. split; congruence.
  - rewrite decide_False; [done|]. intros [= -> ->]. congruence.
Qed.

Lemma committed_frame t t' :
  (forall d n k, domain_bucket d = Some n -> bGet t' n k = bGet t n k) -> forall x, committed t' x = committed t x.
Proof. intros Hf [|d k]; [done|]. cbn [committed]. destruct (domain_bucket d) eqn:Hd; [|done]. by erewrite Hf. Qed.

Record ok (t : Txn) : Prop := { ok_wf : wf_txn t; ok_mirrors : mirrors t }.

Lemma ok_cwrite t d n k o :
  ok t -> domain_bucket d = Some n -> d :: k ∈ U -> (forall v, o = Some v -> good n k v) -> ok (cwrite t d n k o).
Proof.
  intros [Hwf [Hr Hc]] Hd Hx Hg. pose proof (domain_bucket_not_trie d) as Hnt.
  assert (Hn : n <> StateTrieBucketName) by congruence. split.
  - intros n' k' v'. destruct (decide (n' = StateTrieBucketName)) as [->|Hn']; [done|].
    rewrite bGet_cwrite by done. destruct (decide _) as [[<- <-]|]; [apply Hg|apply Hwf].
  - unfold cwrite. destruct (trieSetLeaf_mirrors (bWrite t n k o) (committed t) d k o) as [Hr' Hc']; [done| | |].
    + unfold bWrite, bPut, bDelete, newNodeStore in *.
      destruct o; rewrite Bucket_setBucket, decide_False by done; done.
    + unfold bWrite, bPut, bDelete, newNodeStore in *.
      destruct o; rewrite Bucket_setBucket, decide_False by done; done.
    + split; [|done]. eapply represents_ext; [|exact Hr']. intros p. apply at_path_ext. intros x _.
      rewrite <-(committed_bWrite t d n k o x) by done. symmetry. apply committed_frame.
      intros d' n' k' Hd'. apply bGet_trieSetLeaf. intros ->. by apply (domain_bucket_not_trie d').
Qed.

(** Writes to buckets outside the commitment. *)
Definition plain (n : BucketName) : Prop := n <> StateTrieBucketName /\ forall d, domain_bucket d <> Some n.

Lemma ok_plain t n b :
  ok t -> plain n -> (forall k v, b !! k = Some v -> good n k v) -> ok (setBucket t n b).
Proof.
  intros [Hwf [Hr Hc]] [Hn Hd] Hg. split.
  - intros n' k v. rewrite bGet_setBucket. destruct (decide _) as [<-|]; [apply Hg|apply Hwf].
  - split.
    + unfold newNodeStore in *. rewrite Bucket_setBucket, decide_False by done.
      eapply represents_ext; [|exact Hr]. intros p. apply at_path_ext. intros x _. symmetry. apply committed_frame.
      intros d' n' k Hd'. rewrite bGet_setBucket, decide_False; [done|]. intros ->. by eapply Hd.
    + unfold newNodeStore in *. by rewrite Bucket_setBucket, decide_False by done.
Qed.

Lemma ok_bPut t n k v : ok t -> plain n -> good n k v -> ok (bPut t n k v).
Proof.
  intros Ht Hp Hg. unfold bPut. apply ok_plain; [done..|]. intros k' v'. rewrite lookup_insert.
  destruct (decide _) as [<-|]; [congruence|]. apply (ok_wf _ Ht n).
Qed.

Lemma ok_bDelete t n k : ok t -> plain n -> ok (bDelete t n k).
Proof.
  intros Ht Hp. unfold bDelete. apply ok_plain; [done..|]. intros k' v'. rewrite lookup_delete.
  destruct (decide _); [done|]. apply (ok_wf _ Ht n).
Qed.

Ltac plain := split; [done|intros ?d; unfold domain_bucket; by repeat case_bool_decide].

(** *** Each primitive write is a committed write among plain ones *)

Lemma setBalance_cwrite t rec a b :
  setBalance t rec a b = cwrite (recordBal rec t a) DomainBalance Addr2BalBucketName (vec_to_list a) (Some (big_Bytes b)).
Proof.
  unfold setBalance, trieSetBalance, cwrite. cbn [bWrite default]. do 2 f_equal. by destruct (Z.eqb_spec b 0) as [->|].
Qed.

Lemma consumeCommit_cwrite t h hash :
  consumeCommit t h hash = cwrite t DomainCommit CommitBucketName (commitKey h hash) None.
Proof. done. Qed.

Lemma putCommit_cwrite t h hash from :
  putCommit t h hash from = cwrite t DomainCommit CommitBucketName (commitKey h hash) (Some (vec_to_list from)).
Proof. done. Qed.

Lemma drop_csKey h a : drop 8 (csKey h a) = vec_to_list a.
Proof. unfold csKey. apply drop_app_length'. by rewrite length_PackUint64LE. Qed.

Lemma ok_recordBal rec t a : ok t -> DomainBalance :: vec_to_list a ∈ U -> ok (recordBal rec t a).
Proof.
  intros Ht Hx. unfold recordBal. destruct rec as [cs|]; [|done]. destruct (bGet t _ _); [done|].
  apply ok_bPut; [|plain|done]. apply ok_bPut; [done|plain|].
  split; cbn [shape in_use]; [|by rewrite drop_csKey]. rewrite splitPreimage_tagged.
  destruct (bGet t Addr2BalBucketName _) eqn:E; [|done]. by apply (ok_wf _ Ht) in E as [[_ ?] _].
Qed.

Lemma ok_recordContract rec t a : ok t -> DomainContract :: vec_to_list a ∈ U -> ok (recordContract rec t a).
Proof.
  intros Ht Hx. unfold recordContract. destruct rec as [cs|]; [|done]. destruct (bGet t _ _); [done|].
  apply ok_bPut; [|plain|done]. apply ok_bPut; [done|plain|].
  split; cbn [shape in_use]; [|by rewrite drop_csKey]. rewrite splitPreimage_tagged.
  destruct (bGet t ContractBucketName _) eqn:E; [|done]. apply (ok_wf _ Ht) in E as [[_ ?] _]. congruence.
Qed.

Lemma ok_recordKey rec t a : ok t -> DomainKey :: vec_to_list a ∈ U -> ok (recordKey rec t a).
Proof.
  intros Ht Hx. unfold recordKey. destruct rec as [cs|]; [|done]. destruct (bGet t _ _); [done|].
  apply ok_bPut; [done|plain|]. split; [done|]. cbn [in_use]. by rewrite drop_csKey.
Qed.

Lemma ok_recordBeacon rec t : ok t -> DomainBeacon :: BeaconStateKey ∈ U -> ok (recordBeacon rec t).
Proof.
  intros Ht Hx. unfold recordBeacon. destruct rec as [cs|]; [|done]. destruct (bGet t BeaconChangeSetBucketName _); [done|].
  apply ok_bPut; [done|plain|]. split; [|done]. cbn [shape]. rewrite splitPreimage_tagged.
  destruct (bGet t BeaconBucketName _) eqn:E; [|done]. apply (ok_wf _ Ht) in E as [[_ ?] _]. congruence.
Qed.

Lemma ok_setBalance rec t a b :
  ok t -> DomainBalance :: vec_to_list a ∈ U -> ok (setBalance t rec a b).
Proof.
  intros Ht Hx. rewrite setBalance_cwrite. apply ok_cwrite; [by apply ok_recordBal|done|done|].
  intros v [= <-]. split; [|done]. split; [apply length_vec_to_list|apply big_Bytes_be_big].
Qed.

Lemma ok_retainCode t h c t' : ok t -> retainCode t h c = Ok t' -> ok t'.
Proof.
  intros Ht. unfold retainCode. destruct (bGet t _ _); intros E; open_ok E; simplify_eq; by apply ok_bPut; [|plain|].
Qed.

Lemma ok_releaseCode t h keep : ok t -> ok (releaseCode t h keep).
Proof.
  intros Ht. unfold releaseCode. destruct (bGet t _ _); [|done]. destruct (_ <? _)%nat; [done|].
  destruct (_ && _); [apply ok_bDelete; [done|plain]|]. by apply ok_bPut; [|plain|].
Qed.

Lemma ok_reconcileCode t rec a h c t' : ok t -> reconcileCode t rec a h c = Ok t' -> ok t'.
Proof.
  intros Ht. unfold reconcileCode. destruct (bGet t _ _); [|by apply ok_retainCode].
  destruct (dec_storedContract _); [|by apply ok_retainCode].
  case_bool_decide; [congruence|]. by apply ok_retainCode, ok_releaseCode.
Qed.

Lemma ok_setContract rec t acc t' :
  ok t -> DomainContract :: vec_to_list (Owner acc) ∈ U -> setContract t rec acc = Ok t' -> ok t'.
Proof.
  intros Ht Hx. unfold setContract. intros E. open_ok E. injection E as <-.
  apply (ok_cwrite r DomainContract ContractBucketName (vec_to_list (Owner acc)) (Some (rlp_storedContract _)));
    [|done|done|].
  - eapply ok_reconcileCode; [|exact Hr]. by apply ok_recordContract.
  - intros v [= <-]. split; [|done]. split; [apply length_vec_to_list|apply rlp_slot_nonempty].
Qed.

Lemma ok_delContract rec t a : ok t -> DomainContract :: vec_to_list a ∈ U -> ok (delContract t rec a).
Proof.
  intros Ht Hx. unfold delContract.
  match goal with |- ok (trieSetContract (bDelete ?t1 _ _) _ _) => assert (H1 : ok t1) end.
  { pose proof (ok_recordContract rec t a Ht Hx). destruct (bGet _ _ _); [|done].
    destruct (dec_storedContract _); [|done]. by apply ok_releaseCode. }
  by apply (ok_cwrite _ DomainContract ContractBucketName (vec_to_list a) None).
Qed.

(** The address a full envelope reveals the key of. *)
Definition revealedAddr (tx : FullTx) : Address :=
  AddressOfPubKey (EnvelopeScheme tx) (slice (tx_Sign tx) 2 (2 + PubKeySize (EnvelopeScheme tx))).

Lemma ok_registerPubKey rec t tx :
  ok t -> DomainKey :: vec_to_list (revealedAddr tx) ∈ U -> ok (registerPubKey t rec tx).
Proof.
  intros Ht Hx. unfold registerPubKey. destruct (IsCompactEnvelope tx); [done|]. destruct (_ || _); [done|].
  fold (revealedAddr tx). destruct (bGet t _ _); [done|].
  apply (ok_cwrite (recordKey rec t (revealedAddr tx)) DomainKey KeyRegistryBucketName (vec_to_list (revealedAddr tx)) (Some (_ :: _)));
    [by apply ok_recordKey|done|done|]. intros v [= <-]. split; [|done]. split; [apply length_vec_to_list|done].
Qed.

Lemma length_commitKey h hash : length (commitKey h hash) = 40%nat.
Proof. unfold commitKey. by rewrite length_app, length_PackUint64LE, length_vec_to_list. Qed.

Lemma ok_putCommit t h hash from : ok t -> DomainCommit :: commitKey h hash ∈ U -> ok (putCommit t h hash from).
Proof.
  intros Ht Hx. rewrite putCommit_cwrite. apply ok_cwrite; [done..|].
  intros v [= <-]. split; [|done]. split; [apply length_commitKey|apply length_vec_to_list].
Qed.

(** Deleting a live commitment needs no room in the universe. *)
Lemma ok_dropCommit t k : ok t -> DomainCommit :: k ∈ U -> ok (dropCommit t k).
Proof. intros Ht Hx. by apply (ok_cwrite t DomainCommit CommitBucketName k None). Qed.

Lemma ok_consumeCommit t h hash : ok t -> DomainCommit :: commitKey h hash ∈ U -> ok (consumeCommit t h hash).
Proof. intros Ht Hx. rewrite consumeCommit_cwrite. by apply ok_cwrite. Qed.

Lemma to_array_to_array n b : to_array n (vec_to_list (to_array n b)) = to_array n b.
Proof. apply to_array_vec. Qed.

Lemma take8_Pack h b : take 8 (PackUint64LE h ++ b) = PackUint64LE h.
Proof. apply take_app_length'. by rewrite length_PackUint64LE. Qed.

Lemma drop8_Pack h b : drop 8 (PackUint64LE h ++ b) = b.
Proof. apply drop_app_length'. by rewrite length_PackUint64LE. Qed.

Lemma ok_journalConsumed t rh h hash from :
  ok t -> is_u64 h -> DomainCommit :: commitKey h hash ∈ U -> ok (journalConsumed t rh h hash from).
Proof.
  intros Ht Hh Hx. apply ok_bPut; [done|plain|]. split; [apply length_commitKey|]. cbn [in_use].
  unfold spentKey. rewrite take8_Pack, drop8_Pack, Unpack_Pack by done. unfold commitKey in *. by rewrite to_array_to_array.
Qed.

Lemma ok_setBeacon rec t seed :
  ok t -> seed <> [] -> DomainBeacon :: BeaconStateKey ∈ U -> ok (setBeacon t rec seed).
Proof.
  intros Ht Hs Hx. unfold setBeacon.
  apply (ok_cwrite (recordBeacon rec t) DomainBeacon BeaconBucketName BeaconStateKey (Some seed));
    [by apply ok_recordBeacon|done|done|]. by intros v [= <-].
Qed.

Lemma foldl_inv {A B} (P : A -> Prop) (Q : B -> Prop) (f : A -> B -> A) a l :
  (forall a b, P a -> Q b -> P (f a b)) -> P a -> Forall Q l -> P (foldl f a l).
Proof. intros Hf. revert a. induction l as [|b l IH]; intros a Ha Hl; [done|]. inversion Hl; subst. cbn. auto. Qed.

Lemma ok_dropCommits t ks : ok t -> (forall k, k ∈ ks -> DomainCommit :: k ∈ U) -> ok (foldl dropCommit t ks).
Proof.
  intros Ht Hk. apply (foldl_inv ok (fun k => DomainCommit :: k ∈ U)); [intros; by apply ok_dropCommit|done|].
  by apply Forall_forall.
Qed.

Lemma ok_pruneCommits t tip : ok t -> ok (pruneCommits t tip).
Proof.
  intros Ht. unfold pruneCommits. destruct (_ <=? _); [done|]. unfold pruneHeightBucketBelow.
  apply (foldl_inv ok (fun _ => True)); [|apply (ok_dropCommits t _ Ht)|by apply Forall_true].
  - intros t' k Ht' _. apply ok_bDelete; [done|plain].
  - intros k Hk. apply list_elem_of_filter in Hk as [_ Hk]. apply list_elem_of_fmap in Hk as ([k' v] & -> & Hk).
    apply elem_of_cursor in Hk. by apply (ok_wf _ Ht CommitBucketName) in Hk as [_ ?].
Qed.

(** *** The undo *)

Lemma elem_of_prefix_scan b p k v : (k, v) ∈ prefix_scan b p <-> b !! k = Some v /\ has_prefix p k = true.
Proof. unfold prefix_scan. rewrite list_elem_of_filter. fold (cursor b). rewrite elem_of_cursor. naive_solver. Qed.

(** A mirror updates the leaf of the entry just restored. *)
Definition mirror_for (mirror : Txn -> Address -> option bytes -> Txn) (d : byte) (n : BucketName) : Prop :=
  forall t (a : Address) o, (forall v, o = Some v -> shape n (vec_to_list a) v) ->
    mirror t a o = trieSetLeaf t d (vec_to_list a) (default [] o).

Lemma mirrorBalance_for : mirror_for mirrorBalance DomainBalance Addr2BalBucketName.
Proof.
  intros t a [v|] Hv; [|done]. unfold mirrorBalance, trieSetBalance. cbn [fmap option_fmap option_map default].
  destruct (Hv v eq_refl) as [_ E]. f_equal. destruct (Z.eqb_spec (be_Z v) 0) as [E0|]; cbn [negb]; [|done].
  rewrite E0 in E. done.
Qed.

Lemma mirrorContract_for : mirror_for mirrorContract DomainContract ContractBucketName.
Proof. by intros t a o _. Qed.

Lemma mirrorKey_for : mirror_for mirrorKey DomainKey KeyRegistryBucketName.
Proof. by intros t a o _. Qed.

Lemma ok_revertDomain t cs n hist h mirror d :
  ok t -> domain_bucket d = Some n -> plain cs -> (forall hn, hist = Some hn -> plain hn) -> mirror_for mirror d n ->
  (forall k tagged, bGet t cs k = Some tagged -> length k = 40%nat ->
     d :: drop 8 k ∈ U /\ forall v, splitPreimage tagged = Some v -> good n (drop 8 k) v) ->
  ok (revertDomain t cs n hist h mirror).
Proof.
  intros Ht Hd Hcs Hh Hm Hent. unfold revertDomain.
  apply (foldl_inv ok (fun e => d :: vec_to_list e.1 ∈ U
    /\ forall v, splitPreimage e.2 = Some v -> good n (vec_to_list e.1) v)); [|done|].
  - intros t' [a tagged] Ht' [Hx Hg]. cbn [fst snd] in *. unfold revertEntry.
    change (match splitPreimage tagged with Some v => bPut t' n (vec_to_list a) v | None => bDelete t' n (vec_to_list a) end)
      with (bWrite t' n (vec_to_list a) (splitPreimage tagged)).
    rewrite Hm by (intros v Hv; by apply Hg).
    assert (H1 : ok (cwrite t' d n (vec_to_list a) (splitPreimage tagged))) by (by apply ok_cwrite).
    unfold cwrite in H1. apply ok_bDelete; [|done]. destruct hist as [hn|]; [|done]. apply ok_bDelete; [done|by apply Hh].
  - apply Forall_fmap, Forall_forall. intros [k tagged] Hk. apply list_elem_of_filter in Hk as [Hl Hk].
    apply elem_of_prefix_scan in Hk as [Hk _]. cbn [fst snd compose] in *.
    rewrite to_array_list by (rewrite length_drop; lia). by apply Hent.
Qed.

Lemma ok_revertBalances t h :
  ok t -> ok (revertDomain t BalChangeSetBucketName Addr2BalBucketName (Some BalHistBucketName) h mirrorBalance).
Proof.
  intros Ht. apply ok_revertDomain with (d := DomainBalance);
    [exact Ht|reflexivity|plain|intros ? [= <-]; plain|exact mirrorBalance_for|].
  intros k tagged Hk Hl. destruct (ok_wf _ Ht _ _ _ Hk) as [Hs Hu]. split; [exact Hu|].
  intros v Hv. cbn [shape] in Hs. rewrite Hv in Hs. split; [|exact Hu]. split; [rewrite length_drop; lia|exact Hs].
Qed.

Lemma ok_revertContracts t h :
  ok t -> ok (revertDomain t ContractChangeSetBucketName ContractBucketName (Some ContractHistBucketName) h mirrorContract).
Proof.
  intros Ht. apply ok_revertDomain with (d := DomainContract);
    [exact Ht|reflexivity|plain|intros ? [= <-]; plain|exact mirrorContract_for|].
  intros k tagged Hk Hl. destruct (ok_wf _ Ht _ _ _ Hk) as [Hs Hu]. split; [exact Hu|].
  intros v Hv. cbn [shape] in Hs. split; [|exact Hu]. split; [rewrite length_drop; lia|congruence].
Qed.

Lemma ok_revertKeys t h :
  ok t -> ok (revertDomain t KeyChangeSetBucketName KeyRegistryBucketName None h mirrorKey).
Proof.
  intros Ht. apply ok_revertDomain with (d := DomainKey);
    [exact Ht|reflexivity|plain|by intros ? [=]|exact mirrorKey_for|].
  intros k tagged Hk Hl. destruct (ok_wf _ Ht _ _ _ Hk) as [Hs Hu]. split; [exact Hu|].
  intros v Hv. cbn [shape] in Hs. congruence.
Qed.

Lemma ok_deleteCommits t h : ok t -> ok (deleteCommitsAtHeight t h).
Proof.
  intros Ht. unfold deleteCommitsAtHeight. apply ok_dropCommits; [done|]. intros k Hk.
  apply list_elem_of_fmap in Hk as ([k' v] & -> & Hk). apply elem_of_prefix_scan in Hk as [Hk _].
  by apply (ok_wf _ Ht CommitBucketName) in Hk as [_ ?].
Qed.

Lemma ok_restoreConsumed t h : ok t -> ok (restoreConsumedAtHeight t h).
Proof.
  intros Ht. unfold restoreConsumedAtHeight.
  apply (foldl_inv ok (fun kv => DomainCommit :: commitKey (UnpackUint64LE (take 8 kv.2)) (drop 8 kv.1) ∈ U)); [|done|].
  - intros t' kv Ht' Hx. unfold restoreEntry. apply ok_bDelete; [|plain]. by apply ok_putCommit.
  - apply Forall_forall. intros [k v] Hk. apply elem_of_prefix_scan in Hk as [Hk _].
    by apply (ok_wf _ Ht CommitSpentBucketName) in Hk as [_ ?].
Qed.

Lemma ok_revertBeacon t h : ok t -> ok (revertBeacon t h).
Proof.
  intros Ht. unfold revertBeacon. destruct (bGet t _ _) as [tagged|] eqn:E; [|done].
  apply (ok_wf _ Ht) in E as [Hs Hu]. cbn [shape in_use] in *. apply ok_bDelete; [|plain].
  destruct (splitPreimage tagged) as [v|].
  - apply (ok_cwrite t DomainBeacon BeaconBucketName BeaconStateKey (Some v)); [done..|].
    intros v' [= <-]. split; [|done]. split; [done|congruence].
  - by apply (ok_cwrite t DomainBeacon BeaconBucketName BeaconStateKey None).
Qed.

Lemma ok_unwindHeight t h : ok t -> ok (unwindHeightTxn t h).
Proof.
  intros Ht. unfold unwindHeightTxn.
  by apply ok_revertBeacon, ok_restoreConsumed, ok_deleteCommits, ok_revertKeys, ok_revertContracts, ok_revertBalances.
Qed.

(** *** Rebuilding *)

(** The view after inserting the non-empty entries of one bucket. *)
Definition insert_entry (d : byte) (W : bytes -> bytes) (kv : bytes * bytes) : bytes -> bytes :=
  match kv.2 with [] => W | _ => upd W (d :: kv.1) (ValueHash kv.2) end.

Lemma insert_entries_other d l W x :
  (forall kv, kv ∈ l -> x <> d :: kv.1) -> foldl (insert_entry d) W l x = W x.
Proof.
  revert W. induction l as [|[k v] l IH]; intros W Hx; [done|]. cbn. rewrite IH by (intros; apply Hx; by right).
  unfold insert_entry. cbn. destruct v as [|y v]; [done|]. unfold upd. rewrite decide_False; [done|].
  apply (Hx (k, y :: v)). left.
Qed.

Lemma insert_entries_in d l W k v :
  NoDup l.*1 -> (k, v) ∈ l -> W (d :: k) = ZeroHash -> foldl (insert_entry d) W l (d :: k) = leaf_of (Some v).
Proof.
  revert W. induction l as [|[k' v'] l IH]; intros W Hnd Hin HW; [by apply not_elem_of_nil in Hin|].
  cbn in Hnd. apply NoDup_cons in Hnd as [Hk Hnd]. cbn. apply elem_of_cons in Hin as [[= -> ->]|Hin].
  - rewrite insert_entries_other.
    + unfold insert_entry. cbn. destruct v'; [done|]. unfold upd. by rewrite decide_True.
    + intros [k2 v2] Hin [= ->]. apply Hk, list_elem_of_fmap. by exists (k2, v2).
  - apply IH; [done..|]. unfold insert_entry. cbn. destruct v'; [done|]. unfold upd.
    destruct (decide _) as [[= ->]|]; [|done]. exfalso. apply Hk, list_elem_of_fmap. by exists (k', v).
Qed.

Lemma insert_bucket d b W x :
  (forall k, W (d :: k) = ZeroHash) ->
  foldl (insert_entry d) W (cursor b) x
  = match x with d' :: k => if decide (d' = d) then leaf_of (b !! k) else W x | [] => W x end.
Proof.
  intros HW. destruct x as [|d' k]; [by apply insert_entries_other|]. destruct (decide (d' = d)) as [->|Hd].
  - destruct (b !! k) as [v|] eqn:E.
    + apply insert_entries_in; [apply NoDup_cursor_keys|by apply elem_of_cursor|done].
    + rewrite insert_entries_other; [done|]. intros [k' v'] Hin%elem_of_cursor [= ->]. congruence.
  - apply insert_entries_other. intros kv _ [= ? ?]. done.
Qed.

Lemma rebuild_fold (f : bboltNodeStore -> bytes * bytes -> res bboltNodeStore) d s W l :
  (forall s kv, kv ∈ l -> d :: kv.1 ∈ U
     /\ f s kv = match kv.2 with [] => Ok s | _ => Update s (Hash256 (d :: kv.1)) (ValueHash kv.2) end) ->
  represents s (at_path W) -> canonical s ->
  exists s', res_fold f s l = Ok s' /\ represents s' (at_path (foldl (insert_entry d) W l)) /\ canonical s'.
Proof.
  revert s W. induction l as [|[k v] l IH]; intros s W Hf Hr Hc; [by exists s|].
  destruct (Hf s (k, v)) as [Hx E]; [left|]. cbn [fst snd res_fold foldl] in *. rewrite E. unfold insert_entry at 2. cbn [snd fst].
  assert (Hf' : forall s kv, kv ∈ l -> d :: kv.1 ∈ U
     /\ f s kv = match kv.2 with [] => Ok s | _ => Update s (Hash256 (d :: kv.1)) (ValueHash kv.2) end).
  { intros. apply Hf. by right. }
  destruct v as [|x v]; [by apply IH|].
  destruct (bbolt_Update_ok s (Hash256 (d :: k)) (ValueHash (x :: v))) as [s1 E1]. rewrite E1. cbn [res_bind].
  apply IH; [done| |eapply Update_canonical; [apply length_Hash256|done|exact E1]].
  eapply represents_ext; [|eapply Update_represents; [apply length_Hash256|exact Hr|exact E1]].
  intros p. symmetry. by apply at_path_upd.
Qed.

Lemma Update_store s W d k v :
  d :: k ∈ U -> represents s (at_path W) -> canonical s ->
  exists s', Update s (LeafPath d k) v = Ok s' /\ represents s' (at_path (upd W (d :: k) v)) /\ canonical s'.
Proof.
  intros Hx Hr Hc. destruct (bbolt_Update_ok s (LeafPath d k) v) as [s' E]. exists s'. split; [done|].
  split; [|eapply Update_canonical; [apply length_Hash256|done|exact E]].
  eapply represents_ext; [|eapply Update_represents; [apply length_Hash256|exact Hr|exact E]].
  intros p. symmetry. by apply at_path_upd.
Qed.

(** What the five passes insert. *)
Definition rebuilt_view (t : Txn) : bytes -> bytes :=
  let pass d n W := foldl (insert_entry d) W (cursor (Bucket t n)) in
  let W := pass DomainCommit CommitBucketName (pass DomainContract ContractBucketName
             (pass DomainKey KeyRegistryBucketName (pass DomainBalance Addr2BalBucketName (fun _ => ZeroHash)))) in
  match bGet t BeaconBucketName BeaconStateKey with
  | Some v => upd W (DomainBeacon :: BeaconStateKey) (ValueHash v)
  | None => W
  end.

Lemma rebuilt_view_committed t x : wf_txn t -> rebuilt_view t x = committed t x.
Proof.
  intros Ht. unfold rebuilt_view. cbv zeta.
  set (W := foldl _ _ (cursor (Bucket t CommitBucketName))).
  assert (HW : forall y, W y = match y with d :: k =>
      if decide (d = DomainBeacon) then ZeroHash else committed t y | [] => ZeroHash end).
  { intros y. unfold W. rewrite !insert_bucket; [|done|intros k; by rewrite insert_bucket|
      intros k; by rewrite !insert_bucket by (done || intros; by rewrite insert_bucket)|
      intros k; by rewrite !insert_bucket by (done || intros; by rewrite !insert_bucket by (done || intros; by rewrite insert_bucket))].
    destruct y as [|d k]; [done|]. cbn [committed]. unfold domain_bucket, bGet.
    repeat case_bool_decide; subst; repeat (destruct (decide _); try done). }
  assert (Hb : forall k, k <> BeaconStateKey -> bGet t BeaconBucketName k = None).
  { intros k Hk. destruct (bGet t BeaconBucketName k) eqn:E; [|done]. by apply Ht in E as [[? _] _]. }
  destruct (bGet t BeaconBucketName BeaconStateKey) as [v|] eqn:E.
  - unfold upd. destruct (decide (x = _)) as [->|Hn].
    + apply Ht in E as Hg. destruct Hg as [[_ Hv] _]. cbn [committed]. change (domain_bucket DomainBeacon) with (Some BeaconBucketName). cbv iota. rewrite E. by destruct v.
    + rewrite HW. destruct x as [|d k]; [done|]. destruct (decide (d = DomainBeacon)) as [->|]; [|done].
      cbn [committed]. change (domain_bucket DomainBeacon) with (Some BeaconBucketName). cbv iota. by rewrite Hb by congruence.
  - rewrite HW. destruct x as [|d k]; [done|]. destruct (decide (d = DomainBeacon)) as [->|]; [|done].
    cbn [committed]. change (domain_bucket DomainBeacon) with (Some BeaconBucketName). cbv iota. destruct (decide (k = BeaconStateKey)) as [->|]; [by rewrite E|by rewrite Hb].
Qed.

(** One pass of the rebuild, from a store that represents [W]. *)
Definition pass_ok (f : bboltNodeStore -> bytes * bytes -> res bboltNodeStore) (d : byte) (b : bucket) : Prop :=
  forall s W, represents s (at_path W) -> canonical s ->
  exists s', res_fold f s (cursor b) = Ok s'
    /\ represents s' (at_path (foldl (insert_entry d) W (cursor b))) /\ canonical s'.

Lemma pass_balances t : wf_txn t -> pass_ok rebuildBalances DomainBalance (Bucket t Addr2BalBucketName).
Proof.
  intros Ht s W. apply rebuild_fold. intros s' [k v] Hin%elem_of_cursor. apply Ht in Hin as [[Hl Hv] Hu]. split; [done|].
  unfold rebuildBalances. cbn [fst snd]. rewrite Hv, to_array_list by done. destruct v as [|x v]; [done|].
  destruct (Z.eqb_spec (be_Z (x :: v)) 0) as [E|]; [|done]. by rewrite E in Hv.
Qed.

Lemma pass_addr t d n :
  wf_txn t -> domain_bucket d = Some n -> n = KeyRegistryBucketName \/ n = ContractBucketName ->
  pass_ok (rebuildAddr d) d (Bucket t n).
Proof.
  intros Ht Hd Hn s W. apply rebuild_fold. intros s' [k v] Hin%elem_of_cursor. apply Ht in Hin as [Hs Hu].
  assert (length k = 32%nat /\ v <> []) as [Hl Hv] by (by destruct Hn; subst n).
  split; [by eapply in_use_domain|]. unfold rebuildAddr. cbn [fst snd]. rewrite to_array_list by done. by destruct v.
Qed.

Lemma pass_commits t : wf_txn t -> pass_ok rebuildCommit DomainCommit (Bucket t CommitBucketName).
Proof.
  intros Ht s W. apply rebuild_fold. intros s' [k v] Hin%elem_of_cursor.
  apply Ht in Hin as [[Hl Hv] Hu]. split; [done|]. by destruct v.
Qed.

Lemma RebuildTrie_ok t : wf_txn t ->
  exists s, RebuildTrie t = Ok (setBucket (setBucket t StateTrieBucketName ∅) StateTrieBucketName (ns_bucket s))
    /\ represents s (at_path (committed t)) /\ canonical s.
Proof.
  intros Ht. unfold RebuildTrie. cbv zeta. set (t0 := setBucket t StateTrieBucketName ∅).
  assert (Hb : forall n, n <> StateTrieBucketName -> Bucket t0 n = Bucket t n).
  { intros n Hn. unfold t0. by rewrite Bucket_setBucket, decide_False. }
  assert (H0 : empty_store (newNodeStore t0)).
  { intros k. cbn. unfold bbolt_Get, newNodeStore, t0. cbn. by rewrite Bucket_setBucket, decide_True. }
  assert (R0 : represents (newNodeStore t0) (at_path (fun _ => ZeroHash))).
  { eapply represents_ext; [|by apply empty_represents]. intros p. unfold at_path. by destruct (filter _ _). }
  assert (C0 : canonical (newNodeStore t0)) by (intros k x Hk; by rewrite H0 in Hk).
  destruct (pass_balances t Ht _ _ R0 C0) as (s1 & E1 & R1 & C1).
  destruct (pass_addr t DomainKey _ Ht eq_refl (or_introl eq_refl) _ _ R1 C1) as (s2 & E2 & R2 & C2).
  destruct (pass_addr t DomainContract _ Ht eq_refl (or_intror eq_refl) _ _ R2 C2) as (s3 & E3 & R3 & C3).
  destruct (pass_commits t Ht _ _ R3 C3) as (s4 & E4 & R4 & C4).
  unfold bGet. rewrite !Hb, E1 by done. cbn [res_bind]. rewrite E2. cbn [res_bind]. rewrite E3. cbn [res_bind].
  rewrite E4. cbn [res_bind]. fold (bGet t BeaconBucketName BeaconStateKey).
  assert (exists s5, match bGet t BeaconBucketName BeaconStateKey with
             | Some v => Update s4 (LeafPath DomainBeacon BeaconStateKey) (ValueHash v) | None => Ok s4 end = Ok s5
    /\ represents s5 (at_path (rebuilt_view t)) /\ canonical s5) as (s5 & E5 & R5 & C5).
  { unfold rebuilt_view. cbv zeta. destruct (bGet t BeaconBucketName BeaconStateKey) as [v|] eqn:E; [|by exists s4].
    apply Ht in E as [_ Hu]. by apply Update_store. }
  rewrite E5. cbn [res_bind]. exists s5. split; [done|]. split; [|done].
  eapply represents_ext; [|exact R5]. intros p. apply at_path_ext. intros x _. by apply rebuilt_view_committed.
Qed.

(** The tree is a function of the committed entries. *)
Lemma ok_trie_unique t t' :
  ok t -> ok t' -> (forall x, committed t x = committed t' x) ->
  Bucket t StateTrieBucketName = Bucket t' StateTrieBucketName.
Proof.
  intros [_ [Hr Hc]] [_ [Hr' Hc']] HV. apply map_eq. intros k.
  change (ns_Get (newNodeStore t) k = ns_Get (newNodeStore t') k).
  apply (canonical_unique (newNodeStore t) (newNodeStore t') (at_path (committed t))); [done..|].
  eapply represents_ext; [|exact Hr']. intros p. by apply at_path_ext.
Qed.

(** *** Sequences of writes *)

(** One call of a function that writes the state, with the tagged keys it
    touches inside the universe. *)
Inductive wstep (rec : option changeset) : Txn -> Txn -> Prop :=
  | ws_balance t a b :
      DomainBalance :: vec_to_list a ∈ U -> wstep rec t (setBalance t rec a b)
  | ws_contract t acc t' :
      DomainContract :: vec_to_list (Owner acc) ∈ U -> setContract t rec acc = Ok t' -> wstep rec t t'
  | ws_delContract t a :
      DomainContract :: vec_to_list a ∈ U -> wstep rec t (delContract t rec a)
  | ws_key t tx :
      DomainKey :: vec_to_list (revealedAddr tx) ∈ U -> wstep rec t (registerPubKey t rec tx)
  | ws_commit t h hash from :
      DomainCommit :: commitKey h hash ∈ U -> wstep rec t (putCommit t h hash from)
  | ws_reveal t rh h hash from :
      is_u64 h -> DomainCommit :: commitKey h hash ∈ U ->
      wstep rec t (consumeCommit (journalConsumed t rh h hash from) h hash)
  | ws_beacon t seed :
      seed <> [] -> DomainBeacon :: BeaconStateKey ∈ U -> wstep rec t (setBeacon t rec seed)
  | ws_prune t tip : wstep rec t (pruneCommits t tip)
  | ws_unwind t h : wstep rec t (unwindHeightTxn t h)
  | ws_receipts t b : wstep rec t (setBucket t ReceiptBucketName b).

Lemma ok_wstep rec t t' : ok t -> wstep rec t t' -> ok t'.
Proof.
  intros Ht Hs. revert Ht. destruct Hs; intros Ht.
  - by apply ok_setBalance.
  - eauto using ok_setContract.
  - by apply ok_delContract.
  - by apply ok_registerPubKey.
  - by apply ok_putCommit.
  - by apply ok_consumeCommit; [apply ok_journalConsumed|].
  - by apply ok_setBeacon.
  - by apply ok_pruneCommits.
  - by apply ok_unwindHeight.
  - apply ok_plain; [done|plain|done].
Qed.

(** Writes of successive blocks, each with its own recorder. *)
Definition writes : Txn -> Txn -> Prop := rtc (fun t t' => exists rec, wstep rec t t').

Lemma ok_writes t t' : ok t -> writes t t' -> ok t'.
Proof. intros Ht Hw. induction Hw as [|t t1 t' [rec Hs] _ IH]; [done|]. apply IH. by eapply ok_wstep. Qed.

Lemma ok_empty : ok ∅.
Proof.
  assert (He : forall n k, bGet ∅ n k = None) by done. split; [|split].
  - intros n k v. by rewrite He.
  - eapply represents_ext; [|by apply empty_represents]. intros p. unfold at_path.
    destruct (filter _ _) as [|[|d x] l]; [done..|]. cbn [committed]. destruct (domain_bucket d); [|done]. by rewrite He.
  - intros k x Hk. done.
Qed.

(** A leaf of the commitment, as [StateProof] serves it. *)
Lemma StateProof_verifies t domain tag n rawKey :
  ok t -> stateDomain domain = Ok (tag, n) -> tag :: rawKey ∈ U ->
  exists pr, StateProof t domain rawKey = Ok pr
    /\ pr_root pr = StateRoot t /\ pr_value pr = default [] (bGet t n rawKey)
    /\ StateTrie.Verify (pr_root pr) (pr_path pr) (pr_valueHash pr) (pr_proof pr) = true.
Proof.
  intros [Hwf [Hr Hc]] Hd Hx. unfold StateProof. rewrite Hd. cbn [res_bind]. eexists. split; [done|]. cbn [pr_root pr_value pr_path pr_valueHash pr_proof].
  split; [done|]. split; [done|]. rewrite <-leaf_of_default.
  assert (Hn : domain_bucket tag = Some n).
  { unfold stateDomain in Hd. repeat (case_bool_decide; [simplify_eq; done|]). done. }
  assert (E : leaf_of (bGet t n rawKey) = at_path (committed t) (LeafPath tag rawKey)).
  { unfold LeafPath. rewrite at_path_in by done. cbn [committed]. by rewrite Hn. }
  rewrite E. apply Prove_Verify; [done|apply length_Hash256|]. rewrite <-E.
  destruct (bGet t n rawKey) as [[|x v]|]; [apply length_zeros|apply length_Hash256|apply length_zeros].
Qed.

End Universe.

(** C3 - The state commitment tracks the state.  Start from an empty
    database and perform any sequence of the writes the node performs, with
    any recorders: balance, contract-slot and key-registry writes,
    commitments, reveals, beacon updates, pruning and per-height undo.  If
    the hash does not collide on the (finitely many) tagged keys in use,
    then rebuilding the tree from the plain buckets changes nothing, so the
    incremental root is the from-scratch root; the proof served for any key
    of any domain carries the stored value and verifies against the root;
    and two databases with the same committed entries have the same root. *)
Theorem state_commitment_tracks_state U t t' domain tag n rawKey :
  collision_free U -> writes U ∅ t -> writes U ∅ t' ->
  (exists r, RebuildTrie t = Ok r /\ StateRoot r = StateRoot t /\ forall m, Bucket r m = Bucket t m)
  /\ (stateDomain domain = Ok (tag, n) -> tag :: rawKey ∈ U ->
      exists pr, StateProof t domain rawKey = Ok pr
        /\ pr_root pr = StateRoot t /\ pr_value pr = default [] (bGet t n rawKey)
        /\ StateTrie.Verify (pr_root pr) (pr_path pr) (pr_valueHash pr) (pr_proof pr) = true)
  /\ ((forall d m, domain_bucket d = Some m -> Bucket t m = Bucket t' m) -> StateRoot t = StateRoot t').
Proof.
  intros Hcf Hw Hw'. pose proof (ok_writes U Hcf _ _ (ok_empty U) Hw) as Ht.
  pose proof (ok_writes U Hcf _ _ (ok_empty U) Hw') as Ht'. split_and!.
  - destruct (RebuildTrie_ok U Hcf t (ok_wf _ _ Ht)) as (s & E & Hr & Hc).
    eexists. split; [exact E|].
    assert (Hs : ns_bucket s = Bucket t StateTrieBucketName).
    { apply map_eq. intros k. change (ns_Get s k = ns_Get (newNodeStore t) k).
      destruct (ok_mirrors _ _ Ht) as [Hr' Hc']. by apply (canonical_unique s (newNodeStore t) (at_path U (committed t))). }
    assert (Hb : forall m, Bucket (setBucket (setBucket t StateTrieBucketName ∅) StateTrieBucketName (ns_bucket s)) m = Bucket t m).
    { intros m. rewrite !Bucket_setBucket. by destruct (decide _) as [<-|]. }
    split; [|done]. unfold StateRoot, newNodeStore. by rewrite Hb.
  - by apply StateProof_verifies.
  - intros Hm. unfold StateRoot, newNodeStore. rewrite (ok_trie_unique U t t' Ht Ht'); [done|].
    apply committed_frame. intros d m k Hd. unfold bGet. by rewrite (Hm _ _ Hd).
Qed.

End Commit.

(** ** Witnesses *)

(** Whether the hash separates the keys of a list. *)
Definition no_collisions `{HH : Hasher} (keys : list bytes) : bool :=
  forallb (fun x => forallb (fun y => negb (bool_decide (Hash256 x = Hash256 y)) || bool_decide (x = y)) keys) keys.

Lemma no_collisions_ok `{HH : Hasher} keys : no_collisions keys = true -> collision_free (list_to_set keys).
Proof.
  intros Hall x y Hx Hy E. apply elem_of_list_to_set in Hx, Hy. unfold no_collisions in Hall. rewrite forallb_forall in Hall.
  specialize (Hall x). rewrite <-list_elem_of_In in Hall. specialize (Hall Hx). rewrite forallb_forall in Hall.
  specialize (Hall y). rewrite <-list_elem_of_In in Hall. specialize (Hall Hy).
  rewrite bool_decide_eq_true_2 in Hall by done. by apply bool_decide_eq_true in Hall.
Qed.

Definition toy_slot (sc : storedContract) : bytes :=
  enc_fields [vec_to_list (sc_Owner sc); sc_CodeHash sc;
    match sc_Context sc with
    | None => []
    | Some ctx => enc_fields [enc_fields (ctx_Keys ctx); enc_fields (ctx_Values ctx)]
    end].

Definition toy_dec_slot (b : bytes) : option storedContract :=
  match fields_of b with
  | [o; h; c] => Some {| sc_Owner := to_array 32 o; sc_CodeHash := h;
      sc_Context := match fields_of c with
                    | [ks; vs] => Some {| ctx_Keys := fields_of ks; ctx_Values := fields_of vs; ctx_valMap := None |}
                    | _ => None
                    end |}
  | _ => None
  end.

Definition toy_slot_codec : SlotCodec := {| rlp_storedContract := toy_slot; dec_storedContract := toy_dec_slot |}.

Lemma toy_slot_laws : @SlotCodecLaws toy_slot_codec.
Proof.
  split; cbn [rlp_storedContract dec_storedContract toy_slot_codec].
  - intros sc E. apply (f_equal length) in E. unfold toy_slot, enc_fields in E. cbn [mbind list_bind] in E.
    rewrite length_app, length_enc_field in E. simpl in E. lia.
  - intros sc ctx Hc. unfold toy_dec_slot, toy_slot. rewrite fields_of_enc, Hc. cbv beta iota.
    rewrite fields_of_enc. cbv beta iota. by rewrite !fields_of_enc, to_array_vec.
Qed.

Module CommitWitness.

#[local] Existing Instance toy_hasher.
#[local] Existing Instance toy_libs.
#[local] Existing Instance toy_codec.
#[local] Existing Instance toy_slot_codec.
#[local] Existing Instance toy_slot_laws.

Definition alice : Address := to_array 32 [Zbyte 9].
Definition blind : bytes := replicate 32 (Zbyte 4).
Definition keys : list bytes := [DomainBalance :: vec_to_list alice; DomainCommit :: commitKey 5 blind].
Definition U : gset bytes := list_to_set keys.

Lemma U_collision_free : collision_free U.
Proof. apply (no_collisions_ok keys). vm_compute. reflexivity. Qed.

Definition pay_then_commit : Txn := putCommit (setBalance ∅ None alice 7) 5 blind alice.
Definition commit_then_pay : Txn := setBalance (putCommit ∅ 5 blind alice) None alice 7.

Lemma in_U_alice : DomainBalance :: vec_to_list alice ∈ U.
Proof. apply elem_of_list_to_set. left. Qed.

Lemma in_U_blind : DomainCommit :: commitKey 5 blind ∈ U.
Proof. apply elem_of_list_to_set. right. left. Qed.

Lemma pay_then_commit_writes : writes U ∅ pay_then_commit.
Proof.
  eapply rtc_l; [exists None; apply ws_balance, in_U_alice|]. apply rtc_once. exists None. apply ws_commit, in_U_blind.
Qed.

Lemma commit_then_pay_writes : writes U ∅ commit_then_pay.
Proof.
  eapply rtc_l; [exists None; apply ws_commit, in_U_blind|]. apply rtc_once. exists None. apply ws_balance, in_U_alice.
Qed.

Lemma same_buckets m : m <> StateTrieBucketName -> Bucket pay_then_commit m = Bucket commit_then_pay m.
Proof.
  intros Hm. apply Bucket_ext. intros k. unfold pay_then_commit, commit_then_pay.
  rewrite !setBalance_cwrite, !putCommit_cwrite. cbn [recordBal]. rewrite !bGet_cwrite by done.
  destruct (decide (CommitBucketName = m /\ _)) as [[E1 _]|_], (decide (Addr2BalBucketName = m /\ _)) as [[E2 _]|_];
    [congruence|reflexivity..].
Qed.

Lemma state_commitment_tracks_state_witness :
  (exists r, RebuildTrie pay_then_commit = Ok r /\ StateRoot r = StateRoot pay_then_commit)
  /\ (exists pr, StateProof pay_then_commit "balance" (vec_to_list alice) = Ok pr
       /\ pr_value pr = [Zbyte 7] /\ StateTrie.Verify (pr_root pr) (pr_path pr) (pr_valueHash pr) (pr_proof pr) = true)
  /\ StateRoot pay_then_commit = StateRoot commit_then_pay.
Proof.
  destruct (state_commitment_tracks_state U pay_then_commit commit_then_pay "balance" DomainBalance Addr2BalBucketName (vec_to_list alice))
    as (H1 & H2 & H3); [exact U_collision_free|exact pay_then_commit_writes|exact commit_then_pay_writes|].
  split; [destruct H1 as (r & E & Er & _); exists r; split; [exact E|exact Er]|]. split.
  - destruct H2 as (pr & E & _ & Ev & Hv); [reflexivity|exact in_U_alice|].
    exists pr. split; [exact E|]. split; [|exact Hv]. rewrite Ev. unfold pay_then_commit.
    rewrite putCommit_cwrite, setBalance_cwrite, !bGet_cwrite by discriminate. reflexivity.
  - apply H3. intros d m Hd. apply same_buckets. intros ->. exact (domain_bucket_not_trie d Hd).
Defined.

End CommitWitness.
