(* ===== verification/StateUndo.v ===== *)
(** * Undoing a block

    The archive change sets of changeset.go and the consumption journal of
    commit.go let a reorganisation revert one height at a time.  The
    theorems compare the database after applying a block's writes and
    unwinding its height with the database before. *)

From S2P Require Import Prelude Params StateTrie Keys Contract Types Instances Tx BlockStore State StateCommit.

(** ** Loops of writes

    [wr e] is what one turn writes at a fixed bucket and key. *)

Section Loops.
Context {E : Type} (f : Txn -> E -> Txn) (n : BucketName) (k : bytes) (wr : E -> option (option bytes)).

Definition writes_as (l : list E) : Prop :=
  forall t e, e ∈ l -> bGet (f t e) n k = default (bGet t n k) (wr e).

Lemma foldl_wr_none t l : writes_as l -> (forall e, e ∈ l -> wr e = None) -> bGet (foldl f t l) n k = bGet t n k.
Proof.
  revert t. induction l as [|e l IH]; intros t Hf Hn; [done|]. cbn. rewrite IH.
  - rewrite Hf by left. by rewrite Hn by left.
  - intros t' e' He'. apply Hf. by right.
  - intros e' He'. apply Hn. by right.
Qed.

Lemma foldl_wr_some t l e o :
  writes_as l -> e ∈ l -> wr e = Some o -> (forall e' o', e' ∈ l -> wr e' = Some o' -> o' = o) ->
  bGet (foldl f t l) n k = o.
Proof.
  intros Hf He Ho Hc. revert t. induction l as [|e' l IH] using rev_ind; intros t; [by apply not_elem_of_nil in He|].
  rewrite foldl_app. cbn. rewrite Hf by (apply elem_of_app; right; left).
  destruct (wr e') as [o'|] eqn:E'; cbn.
  - eapply Hc; [|exact E']. apply elem_of_app. right. left.
  - apply elem_of_app in He as [He|He]; [|apply list_elem_of_singleton in He as ->; congruence].
    apply IH; [|done|].
    + intros t' e2 He2. apply Hf, elem_of_app. by left.
    + intros e2 o2 He2. apply Hc, elem_of_app. by left.
Qed.

End Loops.

(** The height at the head of a key. *)
Definition at_height (h : Z) (k : bytes) : Prop := has_prefix (PackUint64LE h) k = true.

#[export] Instance at_height_dec h k : Decision (at_height h k).
Proof. unfold at_height. apply _. Defined.

Lemma at_height_app h k : at_height h (PackUint64LE h ++ k).
Proof. unfold at_height, has_prefix. apply bool_decide_eq_true. by rewrite length_PackUint64LE, take8_Pack. Qed.

Lemma at_height_inv h k : at_height h k -> k = PackUint64LE h ++ drop 8 k.
Proof.
  unfold at_height, has_prefix. intros E%bool_decide_eq_true. rewrite length_PackUint64LE in E.
  rewrite <-(take_drop 8 k) at 1. by rewrite E.
Qed.

Lemma at_height_other h r k : is_u64 h -> is_u64 r -> at_height h (PackUint64LE r ++ k) -> r = h.
Proof.
  intros Hh Hr E%at_height_inv. rewrite drop8_Pack in E. apply app_inv_tail in E. by apply PackUint64LE_inj.
Qed.

Lemma below_app cutoff h k : is_u64 h -> below cutoff (PackUint64LE h ++ k) = (h <? cutoff).
Proof.
  intros Hh. unfold below. rewrite length_app, length_PackUint64LE, Unpack_Pack_app by done. done.
Qed.

Lemma csKey_inj h a b : csKey h a = csKey h b -> a = b.
Proof. unfold csKey. intros E. apply app_inv_head in E. by apply vec_to_list_inj2. Qed.

Lemma histKey_inj h a b : histKey a h = histKey b h -> a = b.
Proof. unfold histKey. intros E. apply app_inv_tail in E. by apply vec_to_list_inj2. Qed.

Section Undo.
Context `{HH : Hasher} `{SL : SigLibs} `{CD : Codec} `{SC : SlotCodec} `{!SlotCodecLaws}.

(** ** What each function leaves in the buckets (the tree apart) *)

Lemma bGet_dropCommit t k0 n k : n <> StateTrieBucketName ->
  bGet (dropCommit t k0) n k = if decide (CommitBucketName = n /\ k0 = k) then None else bGet t n k.
Proof. intros Hn. unfold dropCommit, trieSetCommit. by rewrite bGet_trieSetLeaf, bGet_bDelete. Qed.

Lemma bGet_dropCommits ks t n k : n <> StateTrieBucketName ->
  bGet (foldl dropCommit t ks) n k = if decide (CommitBucketName = n /\ k ∈ ks) then None else bGet t n k.
Proof.
  intros Hn. assert (Hw : writes_as dropCommit n k (fun k0 => if decide (CommitBucketName = n /\ k0 = k) then Some None else None) ks).
  { intros t' k0 _. rewrite bGet_dropCommit by done. by destruct (decide _). }
  destruct (decide (CommitBucketName = n /\ k ∈ ks)) as [[Hc Hk]|Hk].
  - eapply foldl_wr_some; [exact Hw|exact Hk|cbv beta; by rewrite decide_True|]. intros k0 o' _. cbv beta. destruct (decide _); naive_solver.
  - eapply foldl_wr_none; [exact Hw|]. intros k0 Hk0. cbv beta. rewrite decide_False; [done|]. intros [<- <-]. by apply Hk.
Qed.

Lemma bGet_deleteCommits t h n k : n <> StateTrieBucketName ->
  bGet (deleteCommitsAtHeight t h) n k
  = if decide (CommitBucketName = n /\ at_height h k) then None else bGet t n k.
Proof.
  intros Hn. unfold deleteCommitsAtHeight. rewrite bGet_dropCommits by done.
  destruct (decide (CommitBucketName = n)) as [<-|Hc]; [|by rewrite !decide_False by tauto].
  assert (Hin : k ∈ (prefix_scan (Bucket t CommitBucketName) (PackUint64LE h)).*1
                <-> is_Some (bGet t CommitBucketName k) /\ at_height h k).
  { rewrite list_elem_of_fmap. split.
    - intros ([k' v] & -> & [Hb Hp]%elem_of_prefix_scan). split; [by eexists|done].
    - intros [[v Hv] Hp]. exists (k, v). split; [done|]. by apply elem_of_prefix_scan. }
  destruct (decide (at_height h k)) as [Hp|Hp].
  - rewrite (decide_True (P := CommitBucketName = CommitBucketName /\ at_height h k)) by done.
    destruct (decide _) as [|Hno]; [done|]. rewrite Hin in Hno. destruct (bGet t CommitBucketName k); [|done]. naive_solver.
  - rewrite !decide_False by (rewrite ?Hin; tauto). done.
Qed.

Lemma bGet_pruneBelow t name cutoff inTrie n k : n <> StateTrieBucketName ->
  bGet (pruneHeightBucketBelow t name cutoff inTrie) n k
  = if decide (name = n /\ below cutoff k = true) then None else bGet t n k.
Proof.
  intros Hn. unfold pruneHeightBucketBelow. set (ks := filter _ _).
  assert (Hw : writes_as (pruneEntry name inTrie) n k (fun k0 => if decide (name = n /\ k0 = k) then Some None else None) ks).
  { intros t' k0 _. unfold pruneEntry. destruct inTrie; unfold trieSetCommit; rewrite ?bGet_trieSetLeaf, bGet_bDelete by done;
      by destruct (decide _). }
  assert (Hin : k ∈ ks <-> is_Some (bGet t name k) /\ below cutoff k = true).
  { unfold ks. rewrite list_elem_of_filter, list_elem_of_fmap. split.
    - intros [Hb ([k' v] & -> & Hc%elem_of_cursor)]. split; [by eexists|done].
    - intros [[v Hv] Hb]. split; [done|]. exists (k, v). split; [done|]. by apply elem_of_cursor. }
  destruct (decide (name = n /\ k ∈ ks)) as [[<- Hk]|Hk].
  - rewrite decide_True by (split; [done|]; by apply Hin).
    eapply foldl_wr_some; [exact Hw|exact Hk|cbv beta; by rewrite decide_True|]. intros k0 o' _. cbv beta. destruct (decide _); naive_solver.
  - erewrite foldl_wr_none; [|exact Hw|].
    + destruct (decide (name = n /\ _)) as [[<- Hb]|]; [|done]. destruct (bGet t name k) eqn:E; [|done].
      exfalso. apply Hk. split; [done|]. apply Hin. by split; [eexists|].
    + intros k0 Hk0. cbv beta. rewrite decide_False; [done|]. intros [<- <-]. by apply Hk.
Qed.

Definition prunable (n : BucketName) : Prop := n = CommitBucketName \/ n = CommitSpentBucketName.

#[global] Instance prunable_dec n : Decision (prunable n).
Proof. unfold prunable. apply _. Defined.

Lemma bGet_pruneCommits t tip n k : n <> StateTrieBucketName ->
  bGet (pruneCommits t tip) n k
  = if decide (CommitWindow < tip /\ prunable n /\ below (tip - CommitWindow) k = true) then None else bGet t n k.
Proof.
  intros Hn. unfold pruneCommits. destruct (Z.leb_spec tip CommitWindow).
  { by rewrite decide_False by lia. }
  rewrite !bGet_pruneBelow by done. unfold prunable. repeat destruct (decide _); naive_solver.
Qed.

(** ** Reverting one domain *)

Definition revert_entries (t : Txn) (cs : BucketName) (h : Z) : list (Address * bytes) :=
  (fun kv => (to_array 32 (drop 8 kv.1), kv.2))
    <$> filter (fun kv => length kv.1 = 40%nat) (prefix_scan (Bucket t cs) (PackUint64LE h)).

Lemma elem_of_revert_entries t cs h a tg :
  (a, tg) ∈ revert_entries t cs h <-> bGet t cs (csKey h a) = Some tg.
Proof.
  unfold revert_entries. rewrite list_elem_of_fmap. split.
  - intros ([k v] & Heq & Hin). apply pair_eq in Heq as [-> ->]. apply list_elem_of_filter in Hin as [Hl Hin].
    apply elem_of_prefix_scan in Hin as [Hb Hp]. cbn [fst snd] in *. unfold csKey.
    rewrite to_array_list by (rewrite length_drop; lia). by rewrite <-(at_height_inv _ _ Hp).
  - intros Hb. exists (csKey h a, tg). cbn [fst snd]. rewrite drop_csKey, to_array_vec. split; [done|].
    apply list_elem_of_filter. split.
    + cbn [fst]. unfold csKey. by rewrite length_app, length_PackUint64LE, length_vec_to_list.
    + apply elem_of_prefix_scan. split; [done|]. apply at_height_app.
Qed.

Definition quiet (mirror : Txn -> Address -> option bytes -> Txn) : Prop :=
  forall t a o n k, n <> StateTrieBucketName -> bGet (mirror t a o) n k = bGet t n k.

Lemma mirrorBalance_quiet : quiet mirrorBalance.
Proof. intros t a o n k Hn. by apply bGet_trieSetLeaf. Qed.
Lemma mirrorContract_quiet : quiet mirrorContract.
Proof. intros t a o n k Hn. by apply bGet_trieSetLeaf. Qed.
Lemma mirrorKey_quiet : quiet mirrorKey.
Proof. intros t a o n k Hn. by apply bGet_trieSetLeaf. Qed.

Section Domain.
Context (cs st : BucketName) (hist : option BucketName) (h : Z) (mirror : Txn -> Address -> option bytes -> Txn).
Context (Hq : quiet mirror) (Hcs : cs <> st) (Hh1 : hist <> Some cs) (Hh2 : hist <> Some st).

(** What one entry of the undo writes at [(n, k)]. *)
Definition revert_wr (n : BucketName) (k : bytes) (e : Address * bytes) : option (option bytes) :=
  if decide (n = cs /\ k = csKey h e.1) then Some None
  else if decide (hist = Some n /\ k = histKey e.1 h) then Some None
  else if decide (n = st /\ k = vec_to_list e.1) then Some (splitPreimage e.2)
  else None.

Lemma revert_writes n k l : n <> StateTrieBucketName -> writes_as (revertEntry cs st hist h mirror) n k (revert_wr n k) l.
Proof.
  intros Hn t [a tg] _. unfold revertEntry, revert_wr. cbn [fst snd].
  change (match splitPreimage tg with Some v => bPut t st (vec_to_list a) v | None => bDelete t st (vec_to_list a) end)
    with (bWrite t st (vec_to_list a) (splitPreimage tg)).
  rewrite bGet_bDelete. destruct (decide (n = cs /\ _)) as [[-> ->]|Hn1]; [by rewrite decide_True|].
  rewrite decide_False by (intros [<- <-]; tauto).
  assert (Hw : bGet (mirror (bWrite t st (vec_to_list a) (splitPreimage tg)) a (splitPreimage tg)) n k
    = default (bGet t n k) (if decide (n = st /\ k = vec_to_list a) then Some (splitPreimage tg) else None)).
  { rewrite Hq, bGet_bWrite by done. destruct (decide (n = st /\ _)) as [[-> ->]|Hn2]; [by rewrite decide_True|].
    by rewrite decide_False by (intros [<- <-]; tauto). }
  destruct hist as [hn|].
  - rewrite bGet_bDelete. destruct (decide (Some hn = Some n /\ _)) as [[[= ->] ->]|Hn2]; [by rewrite decide_True|].
    rewrite decide_False by (intros [<- <-]; tauto). exact Hw.
  - rewrite decide_False by (intros [? ?]; done). exact Hw.
Qed.

Lemma revertDomain_foldl t : revertDomain t cs st hist h mirror = foldl (revertEntry cs st hist h mirror) t (revert_entries t cs h).
Proof. done. Qed.

(** Buckets the domain does not own are left alone. *)
Lemma revertDomain_frame t n k :
  n <> StateTrieBucketName -> n <> cs -> n <> st -> hist <> Some n -> bGet (revertDomain t cs st hist h mirror) n k = bGet t n k.
Proof.
  intros Hn H1 H2 H3. rewrite revertDomain_foldl. apply (foldl_wr_none _ _ _ (revert_wr n k)); [by apply revert_writes|].
  intros e _. unfold revert_wr. by rewrite !decide_False by tauto.
Qed.

(** The state of a domain while a block is applied on [t0]. *)
Record dom_inv (t0 t : Txn) : Prop := {
  di_pre : forall a : Address, match bGet t cs (csKey h a) with
    | None => bGet t st (vec_to_list a) = bGet t0 st (vec_to_list a)
    | Some tg => splitPreimage tg = bGet t0 st (vec_to_list a)
    end;
  di_cs : forall k, ~ (length k = 40%nat /\ at_height h k) -> bGet t cs k = bGet t0 cs k;
  di_st : forall k, length k <> 32%nat -> bGet t st k = bGet t0 st k;
  di_hist : forall hn k, hist = Some hn -> bGet t hn k = bGet t0 hn k
      \/ exists a, k = histKey a h /\ is_Some (bGet t cs (csKey h a))
}.

(** No record of the height yet. *)
Record dom_fresh (t0 : Txn) : Prop := {
  df_cs : forall k, at_height h k -> bGet t0 cs k = None;
  df_hist : forall hn a, hist = Some hn -> bGet t0 hn (histKey a h) = None
}.

Lemma dom_inv_start t0 : dom_fresh t0 -> dom_inv t0 t0.
Proof.
  intros [Hf _]. split; try done; [|by left]. intros a. by rewrite Hf by apply at_height_app.
Qed.

Lemma dom_inv_frame t0 t t' :
  dom_inv t0 t -> (forall n k, n = cs \/ n = st \/ hist = Some n -> bGet t' n k = bGet t n k) -> dom_inv t0 t'.
Proof.
  intros [H1 H2 H3 H4] Hf. split.
  - intros a. rewrite !Hf by tauto. apply H1.
  - intros k Hk. rewrite Hf by tauto. by apply H2.
  - intros k Hk. rewrite Hf by tauto. by apply H3.
  - intros hn k Hhn. rewrite Hf by tauto. destruct (H4 hn k Hhn) as [E|(a & -> & Ha)]; [by left|].
    right. exists a. by rewrite Hf by tauto.
Qed.

Context (Hn1 : cs <> StateTrieBucketName) (Hn2 : st <> StateTrieBucketName) (Hn3 : hist <> Some StateTrieBucketName).

Lemma revert_cs t0 t k :
  dom_fresh t0 -> dom_inv t0 t -> bGet (revertDomain t cs st hist h mirror) cs k = bGet t0 cs k.
Proof.
  intros [Hf1 Hf2] [H1 H2 H3 H4]. rewrite revertDomain_foldl. set (l := revert_entries t cs h).
  pose proof (revert_writes cs k l Hn1) as Hw.
  destruct (decide (length k = 40%nat /\ at_height h k)) as [[Hl Ha]|Hno].
  + rewrite Hf1 by done. destruct (bGet t cs k) as [tg|] eqn:E.
    * assert (Ek : k = csKey h (to_array 32 (drop 8 k))).
      { unfold csKey. rewrite to_array_list by (rewrite length_drop; lia). by apply at_height_inv. }
      apply (foldl_wr_some _ _ _ _ t l (to_array 32 (drop 8 k), tg) None Hw).
      { apply elem_of_revert_entries. by rewrite <-Ek. }
      { unfold revert_wr. by rewrite decide_True. }
      intros e' o'. unfold revert_wr. repeat destruct (decide _); naive_solver.
    * rewrite (foldl_wr_none _ _ _ _ t l Hw); [done|]. intros [a tg] Hin%elem_of_revert_entries.
      unfold revert_wr. cbn [fst snd]. by rewrite !decide_False by (intros [? ->]; congruence).
  + rewrite (foldl_wr_none _ _ _ _ t l Hw); [by apply H2|]. intros [a tg] Hin%elem_of_revert_entries.
    unfold revert_wr. cbn [fst snd]. rewrite !decide_False; [done|tauto|tauto|]. intros [_ ->]. apply Hno.
    split; [unfold csKey; by rewrite length_app, length_PackUint64LE, length_vec_to_list|apply at_height_app].
Qed.

Lemma revert_st t0 t k : dom_inv t0 t -> bGet (revertDomain t cs st hist h mirror) st k = bGet t0 st k.
Proof.
  intros [H1 H2 H3 H4]. rewrite revertDomain_foldl. set (l := revert_entries t cs h).
  pose proof (not_eq_sym Hcs) as Hsc. pose proof (revert_writes st k l Hn2) as Hw.
  destruct (decide (length k = 32%nat)) as [Hl|Hl].
  + assert (Ek : k = vec_to_list (to_array 32 k)) by (by rewrite to_array_list).
    specialize (H1 (to_array 32 k)). rewrite <-Ek in H1. destruct (bGet t cs _) as [tg|] eqn:E.
    * apply (foldl_wr_some _ _ _ _ t l (to_array 32 k, tg) _ Hw).
      { by apply elem_of_revert_entries. }
      { unfold revert_wr. cbn [fst snd]. rewrite 2!decide_False by tauto. rewrite decide_True by done. by f_equal. }
      intros [a tg'] o' Hin%elem_of_revert_entries. unfold revert_wr. cbn [fst snd]. rewrite 2!decide_False by tauto.
      destruct (decide _) as [[_ Ea]|]; [|done]. rewrite Ek in Ea. apply vec_to_list_inj2 in Ea as <-. naive_solver.
    * rewrite (foldl_wr_none _ _ _ _ t l Hw); [done|]. intros [a tg] Hin%elem_of_revert_entries.
      unfold revert_wr. cbn [fst snd]. rewrite !decide_False; [done| |tauto|tauto]. intros [_ Ea].
      rewrite Ek in Ea. apply vec_to_list_inj2 in Ea as <-. congruence.
  + rewrite (foldl_wr_none _ _ _ _ t l Hw); [by apply H3|]. intros [a tg] _. unfold revert_wr. cbn [fst snd].
    rewrite !decide_False; [done| |tauto|tauto]. intros [_ ->]. by rewrite length_vec_to_list in Hl.
Qed.

Lemma revert_hist t0 t n k :
  dom_fresh t0 -> dom_inv t0 t -> hist = Some n -> bGet (revertDomain t cs st hist h mirror) n k = bGet t0 n k.
Proof.
  intros [Hf1 Hf2] [H1 H2 H3 H4] Hhn. rewrite revertDomain_foldl. set (l := revert_entries t cs h).
  assert (Hnt : n <> StateTrieBucketName) by congruence. pose proof (revert_writes n k l Hnt) as Hw.
  assert (Hns : n <> cs /\ n <> st) by (split; congruence).
  destruct (H4 n k Hhn) as [E|(a & -> & [tg Ha])].
  + rewrite <-E. destruct (list_find (fun e => k = histKey e.1 h) l) as [[i [a tg]]|] eqn:Hfind.
    * apply list_find_Some in Hfind as (Hi & -> & _). cbn [fst] in *. rewrite E, Hf2 by done.
      apply (foldl_wr_some _ _ _ _ t l (a, tg) None Hw); [by eapply list_elem_of_lookup_2| |].
      { unfold revert_wr. cbn [fst snd]. rewrite decide_False by tauto. by rewrite decide_True. }
      intros e' o'. unfold revert_wr. repeat destruct (decide _); naive_solver.
    * apply list_find_None in Hfind. rewrite Forall_forall in Hfind.
      apply (foldl_wr_none _ _ _ _ t l Hw). intros e He. unfold revert_wr.
      by rewrite !decide_False by (intros [? Ek]; first [by apply (Hfind e He)|tauto]).
  + rewrite Hf2 by done. apply (foldl_wr_some _ _ _ _ t l (a, tg) None Hw); [by apply elem_of_revert_entries| |].
    { unfold revert_wr. cbn [fst snd]. rewrite decide_False by tauto. by rewrite decide_True. }
    intros e' o'. unfold revert_wr. repeat destruct (decide _); naive_solver.
Qed.

(** A recorded write at one address keeps the invariant. *)
Lemma dom_inv_write t0 t t' (a : Address) :
  dom_inv t0 t ->
  match bGet t cs (csKey h a) with
  | Some tg => bGet t' cs (csKey h a) = Some tg
  | None => exists tg, bGet t' cs (csKey h a) = Some tg /\ splitPreimage tg = bGet t st (vec_to_list a)
  end ->
  (forall k, k <> csKey h a -> bGet t' cs k = bGet t cs k) ->
  (forall k, k <> vec_to_list a -> bGet t' st k = bGet t st k) ->
  (forall hn k, hist = Some hn -> k <> histKey a h -> bGet t' hn k = bGet t hn k) ->
  dom_inv t0 t'.
Proof.
  intros [H1 H2 H3 H4] Ha Hc Hs Hi. pose proof (H1 a) as Ha0.
  assert (Hsome : is_Some (bGet t' cs (csKey h a))).
  { destruct (bGet t cs (csKey h a)); [by eexists|]. destruct Ha as (? & ? & _). by eexists. }
  split.
  - intros b. destruct (decide (b = a)) as [->|Hb].
    + destruct (bGet t cs (csKey h a)) as [tg|]; [by rewrite Ha|]. destruct Ha as (tg & -> & ->). done.
    + rewrite Hc by (intros ?%csKey_inj; done). rewrite Hs by (intros ?%vec_to_list_inj2; done). apply H1.
  - intros k Hk. rewrite Hc; [by apply H2|]. intros ->. apply Hk. split; [|apply at_height_app].
    unfold csKey. by rewrite length_app, length_PackUint64LE, length_vec_to_list.
  - intros k Hk. rewrite Hs; [by apply H3|]. intros ->. by rewrite length_vec_to_list in Hk.
  - intros hn k Hhn. destruct (decide (k = histKey a h)) as [->|Hk]; [right; by exists a|].
    rewrite (Hi hn k Hhn Hk). destruct (H4 hn k Hhn) as [E|(b & -> & Hb)]; [by left|]. right. exists b. split; [done|].
    destruct (decide (b = a)) as [->|Hba]; [done|]. rewrite Hc; [done|]. by intros ?%csKey_inj.
Qed.

(** Unwinding restores the domain, its records and its index. *)
Lemma revertDomain_restores t0 t n k :
  dom_fresh t0 -> dom_inv t0 t -> n = cs \/ n = st \/ hist = Some n ->
  bGet (revertDomain t cs st hist h mirror) n k = bGet t0 n k.
Proof. intros Hf Hi [->|[->|Hn]]; [by apply revert_cs|by apply revert_st|by apply revert_hist]. Qed.

End Domain.

(** ** Commitments and their journal *)

(** A journal entry of height [h] that stands for the commitment [k]. *)
Definition restores (k : bytes) (kv : bytes * bytes) : Prop :=
  commitKey (UnpackUint64LE (take 8 kv.2)) (drop 8 kv.1) = k.

#[global] Instance restores_dec k kv : Decision (restores k kv).
Proof. unfold restores. apply _. Defined.

Definition consumed (t : Txn) (h : Z) (k : bytes) : Prop :=
  exists kk v, bGet t CommitSpentBucketName kk = Some v /\ at_height h kk /\ restores k (kk, v).

Record com_inv (h : Z) (t0 t : Txn) : Prop := {
  ci_commit : forall k, ~ at_height h k ->
    bGet t CommitBucketName k = bGet t0 CommitBucketName k \/ consumed t h k;
  ci_spent : forall kk v, bGet t CommitSpentBucketName kk = Some v -> at_height h kk ->
    length kk = 40%nat /\ exists r, is_u64 r /\ r <> h /\ h - CommitWindow <= r /\ UnpackUint64LE (take 8 v) = r
      /\ bGet t0 CommitBucketName (commitKey r (drop 8 kk)) = Some (vec_to_list (to_array 32 (drop 8 v)));
  ci_old : forall kk, ~ at_height h kk -> bGet t CommitSpentBucketName kk = bGet t0 CommitSpentBucketName kk
}.

Record com_fresh (h : Z) (t0 : Txn) : Prop := {
  cf_commit : forall k, at_height h k -> bGet t0 CommitBucketName k = None;
  cf_spent : forall k, at_height h k -> bGet t0 CommitSpentBucketName k = None
}.

Lemma com_inv_start h t0 : com_fresh h t0 -> com_inv h t0 t0.
Proof. intros [_ Hf]. split; try done; [by left|]. intros kk v E Ha. by rewrite Hf in E. Qed.

Lemma com_inv_frame h t0 t t' :
  com_inv h t0 t -> (forall n k, prunable n -> bGet t' n k = bGet t n k) -> com_inv h t0 t'.
Proof.
  intros [H1 H2 H3] Hf. unfold prunable in Hf. split.
  - intros k Hk. rewrite Hf by tauto. destruct (H1 k Hk) as [E|(kk & v & E & Hr)]; [by left|].
    right. exists kk, v. by rewrite Hf by tauto.
  - intros kk v. rewrite Hf by tauto. apply H2.
  - intros kk. rewrite Hf by tauto. apply H3.
Qed.

Definition restore_wr (h : Z) (n : BucketName) (k : bytes) (kv : bytes * bytes) : option (option bytes) :=
  if decide (n = CommitSpentBucketName /\ k = spentKey h (drop 8 kv.1)) then Some None
  else if decide (n = CommitBucketName /\ restores k kv) then Some (Some (vec_to_list (to_array 32 (drop 8 kv.2))))
  else None.

Lemma restore_writes h n k l : n <> StateTrieBucketName -> writes_as (restoreEntry h) n k (restore_wr h n k) l.
Proof.
  intros Hn t kv _. unfold restoreEntry, restore_wr, restores. rewrite bGet_bDelete, putCommit_cwrite, bGet_cwrite by done.
  repeat destruct (decide _); naive_solver.
Qed.

Lemma spentKey_self h kk : length kk = 40%nat -> at_height h kk -> spentKey h (drop 8 kk) = kk.
Proof.
  intros Hl Ha. unfold spentKey. rewrite to_array_list by (rewrite length_drop; lia). by rewrite <-(at_height_inv _ _ Ha).
Qed.

Section Restore.
Context (h : Z) (t0 t : Txn) (Hi : forall kk v, bGet t CommitSpentBucketName kk = Some v -> at_height h kk ->
    length kk = 40%nat /\ exists r, is_u64 r /\ r <> h /\ h - CommitWindow <= r /\ UnpackUint64LE (take 8 v) = r
      /\ bGet t0 CommitBucketName (commitKey r (drop 8 kk)) = Some (vec_to_list (to_array 32 (drop 8 v)))).

Let scan := prefix_scan (Bucket t CommitSpentBucketName) (PackUint64LE h).

Lemma restore_other n k : n <> StateTrieBucketName -> ~ prunable n -> bGet (restoreConsumedAtHeight t h) n k = bGet t n k.
Proof.
  intros Hn Hp. unfold prunable in Hp. apply (foldl_wr_none _ _ _ (restore_wr h n k)); [by apply restore_writes|].
  intros kv _. unfold restore_wr. by rewrite !decide_False by tauto.
Qed.

Lemma restore_spent kk :
  bGet (restoreConsumedAtHeight t h) CommitSpentBucketName kk
  = if decide (at_height h kk) then None else bGet t CommitSpentBucketName kk.
Proof.
  pose proof (restore_writes h CommitSpentBucketName kk scan ltac:(done)) as Hw. unfold restoreConsumedAtHeight. fold scan.
  destruct (decide (at_height h kk)) as [Ha|Ha].
  - destruct (bGet t CommitSpentBucketName kk) as [v|] eqn:E.
    + apply (foldl_wr_some _ _ _ _ t scan (kk, v) None Hw).
      * by apply elem_of_prefix_scan.
      * unfold restore_wr. cbn [fst]. destruct (Hi _ _ E Ha) as [Hl _]. by rewrite spentKey_self, decide_True.
      * intros e' o' _. unfold restore_wr. repeat destruct (decide _); naive_solver.
    + rewrite (foldl_wr_none _ _ _ _ t scan Hw); [done|]. intros [k' v'] Hin%elem_of_prefix_scan. destruct Hin as [E' Ha'].
      destruct (Hi _ _ E' Ha') as [Hl _]. unfold restore_wr. cbn [fst]. rewrite spentKey_self by done.
      unfold bGet in E. rewrite !decide_False; [done|naive_solver|naive_solver].
  - rewrite (foldl_wr_none _ _ _ _ t scan Hw); [done|]. intros [k' v'] Hin%elem_of_prefix_scan. destruct Hin as [E' Ha'].
    destruct (Hi _ _ E' Ha') as [Hl _]. unfold restore_wr. cbn [fst]. rewrite spentKey_self by done.
    rewrite !decide_False; [done|naive_solver|naive_solver].
Qed.

Lemma restore_consumed k : consumed t h k -> bGet (restoreConsumedAtHeight t h) CommitBucketName k = bGet t0 CommitBucketName k.
Proof.
  intros (kk & v & E & Ha & Hr). unfold restoreConsumedAtHeight. fold scan.
  assert (Hval : forall kk v, bGet t CommitSpentBucketName kk = Some v -> at_height h kk -> restores k (kk, v) ->
            Some (vec_to_list (to_array 32 (drop 8 v))) = bGet t0 CommitBucketName k).
  { intros kk' v' E' Ha' Hr'. destruct (Hi _ _ E' Ha') as (_ & r & _ & _ & _ & Hu & Hc). unfold restores in Hr'. cbn [fst snd] in Hr'.
    rewrite Hu in Hr'. by rewrite <-Hr', Hc. }
  apply (foldl_wr_some _ _ _ (restore_wr h CommitBucketName k) t scan (kk, v)).
  - by apply restore_writes.
  - by apply elem_of_prefix_scan.
  - unfold restore_wr. rewrite decide_False by naive_solver. rewrite decide_True by done. f_equal. by eapply Hval.
  - intros [k' v'] o' Hin%elem_of_prefix_scan. unfold restore_wr. rewrite decide_False by naive_solver.
    destruct (decide _) as [[_ Hr']|]; [|done]. intros [= <-]. destruct Hin. by eapply Hval.
Qed.

End Restore.

Lemma restore_unconsumed h t k : ~ consumed t h k -> bGet (restoreConsumedAtHeight t h) CommitBucketName k = bGet t CommitBucketName k.
Proof.
  intros Hn. apply (foldl_wr_none _ _ _ (restore_wr h CommitBucketName k)); [by apply restore_writes|].
  intros [k' v'] Hin%elem_of_prefix_scan. unfold restore_wr. rewrite decide_False by naive_solver.
  rewrite decide_False; [done|]. intros [_ Hr]. apply Hn. exists k', v'. naive_solver.
Qed.

Lemma consumed_scan t h k :
  consumed t h k <-> Exists (restores k) (prefix_scan (Bucket t CommitSpentBucketName) (PackUint64LE h)).
Proof.
  rewrite Exists_exists. split.
  - intros (kk & v & E & Ha & Hr). exists (kk, v). split; [|done]. by apply elem_of_prefix_scan.
  - intros ([kk v] & Hin%elem_of_prefix_scan & Hr). exists kk, v. naive_solver.
Qed.

#[global] Instance consumed_dec t h k : Decision (consumed t h k).
Proof.
  destruct (decide (Exists (restores k) (prefix_scan (Bucket t CommitSpentBucketName) (PackUint64LE h)))) as [He|He];
    [left|right]; by rewrite consumed_scan.
Defined.

(** ** The beacon *)

Record bea_inv (h : Z) (t0 t : Txn) : Prop := {
  bi_pre : match bGet t BeaconChangeSetBucketName (PackUint64LE h) with
    | None => bGet t BeaconBucketName BeaconStateKey = bGet t0 BeaconBucketName BeaconStateKey
    | Some tg => splitPreimage tg = bGet t0 BeaconBucketName BeaconStateKey
    end;
  bi_cs : forall k, k <> PackUint64LE h -> bGet t BeaconChangeSetBucketName k = bGet t0 BeaconChangeSetBucketName k;
  bi_st : forall k, k <> BeaconStateKey -> bGet t BeaconBucketName k = bGet t0 BeaconBucketName k
}.

Definition beacon_bucket (n : BucketName) : Prop := n = BeaconBucketName \/ n = BeaconChangeSetBucketName.

Lemma bGet_revertBeacon_other t h n k :
  n <> StateTrieBucketName -> ~ beacon_bucket n -> bGet (revertBeacon t h) n k = bGet t n k.
Proof.
  intros Hn Hb. unfold beacon_bucket in Hb. unfold revertBeacon. destruct (bGet t _ _); [|done].
  rewrite bGet_bDelete, decide_False by naive_solver.
  destruct (splitPreimage _); unfold trieSetBeacon; rewrite bGet_trieSetLeaf, ?bGet_bPut, ?bGet_bDelete by done;
    by rewrite decide_False by naive_solver.
Qed.

Lemma revertBeacon_restores h t0 t n k :
  bGet t0 BeaconChangeSetBucketName (PackUint64LE h) = None -> bea_inv h t0 t -> beacon_bucket n ->
  bGet (revertBeacon t h) n k = bGet t0 n k.
Proof.
  intros Hf [H1 H2 H3] Hn. unfold revertBeacon. destruct (bGet t BeaconChangeSetBucketName _) as [tg|] eqn:E.
  - rewrite bGet_bDelete. destruct (decide _) as [[<- <-]|Hne]; [done|].
    assert (Hw : bGet match splitPreimage tg with
        | Some val => trieSetBeacon (bPut t BeaconBucketName BeaconStateKey val) val
        | None => trieSetBeacon (bDelete t BeaconBucketName BeaconStateKey) [] end n k
      = bGet (bWrite t BeaconBucketName BeaconStateKey (splitPreimage tg)) n k).
    { assert (n <> StateTrieBucketName) by (by destruct Hn as [->| ->]).
      destruct (splitPreimage tg); unfold trieSetBeacon; by rewrite bGet_trieSetLeaf. }
    rewrite Hw, bGet_bWrite. destruct (decide _) as [[<- <-]|Hne2]; [done|].
    destruct Hn as [->| ->]; [apply H3|apply H2]; naive_solver.
  - destruct Hn as [->| ->].
    + destruct (decide (k = BeaconStateKey)) as [->|]; [done|by apply H3].
    + destruct (decide (k = PackUint64LE h)) as [->|]; [congruence|by apply H2].
Qed.

(** ** A block's writes *)

Section Block.
Context (h : Z) (Hh : is_u64 h).

Let rec : option changeset := Some (newChangeset h).

(** The writes of one block at height [h] with recording on.  A reveal
    consumes a commitment of the window, once per hash. *)
Inductive bstep : Txn -> Txn -> Prop :=
  | bs_balance t a b : bstep t (setBalance t rec a b)
  | bs_contract t acc t' : setContract t rec acc = Ok t' -> bstep t t'
  | bs_delContract t a : bstep t (delContract t rec a)
  | bs_key t tx : bstep t (registerPubKey t rec tx)
  | bs_commit t hash from : bstep t (putCommit t h hash from)
  | bs_reveal t r hash from :
      is_u64 r -> h - CommitWindow <= r < h ->
      bGet t CommitBucketName (commitKey r hash) = Some (vec_to_list from) ->
      bGet t CommitSpentBucketName (spentKey h hash) = None ->
      bstep t (consumeCommit (journalConsumed t h r hash from) r hash)
  | bs_beacon t seed : bstep t (setBeacon t rec seed)
  | bs_receipts t b : bstep t (setBucket t ReceiptBucketName b).

Abbreviation bal_inv := (dom_inv BalChangeSetBucketName Addr2BalBucketName (Some BalHistBucketName) h).
Abbreviation con_inv := (dom_inv ContractChangeSetBucketName ContractBucketName (Some ContractHistBucketName) h).
Abbreviation key_inv := (dom_inv KeyChangeSetBucketName KeyRegistryBucketName None h).

Record block_inv (t0 t : Txn) : Prop := {
  bk_bal : bal_inv t0 t; bk_con : con_inv t0 t; bk_key : key_inv t0 t;
  bk_com : com_inv h t0 t; bk_bea : bea_inv h t0 t
}.

(** Nothing of the height is in the database yet. *)
Record fresh (t0 : Txn) : Prop := {
  fr_bal : dom_fresh BalChangeSetBucketName (Some BalHistBucketName) h t0;
  fr_con : dom_fresh ContractChangeSetBucketName (Some ContractHistBucketName) h t0;
  fr_key : dom_fresh KeyChangeSetBucketName None h t0;
  fr_com : com_fresh h t0;
  fr_bea : bGet t0 BeaconChangeSetBucketName (PackUint64LE h) = None
}.

Lemma block_inv_start t0 : fresh t0 -> block_inv t0 t0.
Proof.
  intros [H1 H2 H3 H4 H5]. split; [by apply dom_inv_start..|by apply com_inv_start|]. split; [by rewrite H5|done..].
Qed.

(** Which buckets a group of functions owns. *)
Definition owned_bal (n : BucketName) : Prop := n = BalChangeSetBucketName \/ n = Addr2BalBucketName \/ n = BalHistBucketName.
Definition owned_con (n : BucketName) : Prop :=
  n = ContractChangeSetBucketName \/ n = ContractBucketName \/ n = ContractHistBucketName \/ n = CodeBucketName.
Definition owned_key (n : BucketName) : Prop := n = KeyChangeSetBucketName \/ n = KeyRegistryBucketName.

Lemma bea_inv_frame t0 t t' :
  bea_inv h t0 t -> (forall n k, beacon_bucket n -> bGet t' n k = bGet t n k) -> bea_inv h t0 t'.
Proof.
  intros [H1 H2 H3] Hf. unfold beacon_bucket in Hf. split; intros; rewrite !Hf by tauto; auto.
Qed.

(** A step that only writes buckets outside [P] keeps the invariants over
    buckets in [P]. *)
Lemma block_inv_frame t0 t t' (P : BucketName -> Prop) :
  block_inv t0 t -> (forall n k, n <> StateTrieBucketName -> ~ P n -> bGet t' n k = bGet t n k) ->
  ((forall n, P n -> owned_bal n) -> bal_inv t0 t' -> block_inv t0 t')
  /\ ((forall n, P n -> owned_con n) -> con_inv t0 t' -> block_inv t0 t')
  /\ ((forall n, P n -> owned_key n) -> key_inv t0 t' -> block_inv t0 t')
  /\ ((forall n, P n -> prunable n) -> com_inv h t0 t' -> block_inv t0 t')
  /\ ((forall n, P n -> beacon_bucket n) -> bea_inv h t0 t' -> block_inv t0 t')
  /\ ((forall n, P n -> n = ReceiptBucketName) -> block_inv t0 t').
Proof.
  intros [H1 H2 H3 H4 H5] Hf. unfold owned_bal, owned_con, owned_key, prunable, beacon_bucket.
  split_and!; intros HP; intros; split; try done;
    first [eapply dom_inv_frame; [eassumption|]|eapply com_inv_frame; [eassumption|]|eapply bea_inv_frame; [eassumption|]];
    unfold prunable, beacon_bucket; intros n k Hn; apply Hf; naive_solver.
Qed.

Lemma step_balance t0 t a b : block_inv t0 t -> block_inv t0 (setBalance t rec a b).
Proof.
  intros Hi. rewrite setBalance_cwrite. destruct (block_inv_frame t0 t
    (cwrite (recordBal rec t a) DomainBalance Addr2BalBucketName (vec_to_list a) (Some (big_Bytes b))) owned_bal) as [Hfr _]; [done| |].
  - intros n k Hn HP. unfold owned_bal in HP. rewrite bGet_cwrite, decide_False by naive_solver. unfold recordBal. cbn [rec height newChangeset].
    destruct (bGet t BalChangeSetBucketName _); [done|]. by rewrite !bGet_bPut, !decide_False by naive_solver.
  - apply Hfr; [done|]. apply dom_inv_write with (t := t) (a := a); [apply Hi|..]; unfold recordBal; cbn [rec height newChangeset].
    + rewrite bGet_cwrite, decide_False by naive_solver. destruct (bGet t BalChangeSetBucketName (csKey h a)) eqn:E; [done|].
      rewrite !bGet_bPut, decide_False, decide_True by naive_solver. eexists. split; [done|]. apply splitPreimage_tagged.
    + intros k Hk. rewrite bGet_cwrite, decide_False by naive_solver. destruct (bGet t BalChangeSetBucketName (csKey h a)); [done|].
      by rewrite !bGet_bPut, !decide_False by naive_solver.
    + intros k Hk. rewrite bGet_cwrite, decide_False by naive_solver. destruct (bGet t BalChangeSetBucketName (csKey h a)); [done|].
      by rewrite !bGet_bPut, !decide_False by naive_solver.
    + intros hn k [= <-] Hk. rewrite bGet_cwrite, decide_False by naive_solver. destruct (bGet t BalChangeSetBucketName (csKey h a)); [done|].
      by rewrite !bGet_bPut, !decide_False by naive_solver.
Qed.

(** Writes of the code store do not show in the other buckets. *)
Lemma bGet_releaseCode t hash keep n k : n <> CodeBucketName -> bGet (releaseCode t hash keep) n k = bGet t n k.
Proof.
  intros Hn. unfold releaseCode. destruct (bGet t CodeBucketName hash); [|done]. destruct (_ <? _)%nat; [done|].
  destruct (_ && _); rewrite ?bGet_bDelete, ?bGet_bPut; by rewrite decide_False by naive_solver.
Qed.

Lemma bGet_retainCode t hash c t' n k : n <> CodeBucketName -> retainCode t hash c = Ok t' -> bGet t' n k = bGet t n k.
Proof.
  intros Hn. unfold retainCode. destruct (bGet t CodeBucketName hash); intros E; open_ok E; simplify_eq;
    by rewrite bGet_bPut, decide_False by naive_solver.
Qed.

Lemma bGet_reconcileCode t r0 a hash c t' n k :
  n <> CodeBucketName -> reconcileCode t r0 a hash c = Ok t' -> bGet t' n k = bGet t n k.
Proof.
  intros Hn. unfold reconcileCode. destruct (bGet t ContractBucketName _); [|by apply bGet_retainCode].
  destruct (dec_storedContract _); [|by apply bGet_retainCode]. case_bool_decide; [congruence|].
  intros E. rewrite (bGet_retainCode _ _ _ _ _ _ Hn E). by apply bGet_releaseCode.
Qed.

(** A recorded slot write, seen from outside the code store. *)
Lemma contract_write t0 t t' (a : Address) o :
  block_inv t0 t ->
  (forall n k, n <> StateTrieBucketName -> n <> CodeBucketName ->
     bGet t' n k = if decide (ContractBucketName = n /\ vec_to_list a = k) then o else bGet (recordContract rec t a) n k) ->
  block_inv t0 t'.
Proof.
  intros Hi Hw. destruct (block_inv_frame t0 t t' owned_con) as (_ & Hfr & _); [done| |].
  - intros n k Hn HP. unfold owned_con in HP. rewrite Hw, decide_False by naive_solver. unfold recordContract. cbn [rec height newChangeset].
    destruct (bGet t ContractChangeSetBucketName _); [done|]. by rewrite !bGet_bPut, !decide_False by naive_solver.
  - apply Hfr; [done|]. apply dom_inv_write with (t := t) (a := a); [apply Hi|..]; unfold recordContract in Hw; cbn [rec height newChangeset] in Hw.
    + rewrite Hw, decide_False by naive_solver. destruct (bGet t ContractChangeSetBucketName (csKey h a)) eqn:E; [done|].
      rewrite !bGet_bPut, decide_False, decide_True by naive_solver. eexists. split; [done|]. apply splitPreimage_tagged.
    + intros k Hk. rewrite Hw, decide_False by naive_solver. destruct (bGet t ContractChangeSetBucketName (csKey h a)); [done|].
      by rewrite !bGet_bPut, !decide_False by naive_solver.
    + intros k Hk. rewrite Hw, decide_False by naive_solver. destruct (bGet t ContractChangeSetBucketName (csKey h a)); [done|].
      by rewrite !bGet_bPut, !decide_False by naive_solver.
    + intros hn k [= <-] Hk. rewrite Hw, decide_False by naive_solver. destruct (bGet t ContractChangeSetBucketName (csKey h a)); [done|].
      by rewrite !bGet_bPut, !decide_False by naive_solver.
Qed.

Lemma step_contract t0 t acc t' : block_inv t0 t -> setContract t rec acc = Ok t' -> block_inv t0 t'.
Proof.
  intros Hi E. unfold setContract in E. open_ok E. injection E as <-.
  eapply (contract_write t0 t _ (Owner acc)); [exact Hi|]. intros n k Hn Hc. unfold trieSetContract.
  rewrite bGet_trieSetLeaf, bGet_bPut by done. by rewrite (bGet_reconcileCode _ _ _ _ _ _ n k Hc Hr).
Qed.

Lemma step_delContract t0 t a : block_inv t0 t -> block_inv t0 (delContract t rec a).
Proof.
  intros Hi. apply (contract_write t0 t _ a None Hi). intros n k Hn Hc. unfold delContract, trieSetContract.
  rewrite bGet_trieSetLeaf, bGet_bDelete by done. destruct (bGet (recordContract rec t a) _ _); [|done].
  destruct (dec_storedContract _); [|done]. by rewrite bGet_releaseCode.
Qed.

Lemma step_key t0 t tx : block_inv t0 t -> block_inv t0 (registerPubKey t rec tx).
Proof.
  intros Hi. unfold registerPubKey. destruct (IsCompactEnvelope tx); [done|]. destruct (_ || _); [done|].
  fold (revealedAddr tx). set (a := revealedAddr tx). destruct (bGet t KeyRegistryBucketName (vec_to_list a)) eqn:Ek; [done|].
  match goal with |- block_inv t0 (trieSetKey (bPut _ _ _ ?v) _ _) =>
    set (t' := cwrite (recordKey rec t a) DomainKey KeyRegistryBucketName (vec_to_list a) (Some v)) end.
  change (block_inv t0 t').
  destruct (block_inv_frame t0 t t' owned_key) as (_ & _ & Hfr & _); [done| |].
  - intros n k Hn HP. unfold owned_key in HP. unfold t'. rewrite bGet_cwrite, decide_False by naive_solver. unfold recordKey. cbn [rec height newChangeset].
    destruct (bGet t KeyChangeSetBucketName _); [done|]. by rewrite bGet_bPut, decide_False by naive_solver.
  - apply Hfr; [done|]. apply dom_inv_write with (t := t) (a := a); [apply Hi|..]; unfold t', recordKey; cbn [rec height newChangeset].
    + rewrite bGet_cwrite, decide_False by naive_solver. destruct (bGet t KeyChangeSetBucketName (csKey h a)) eqn:E; [done|].
      rewrite bGet_bPut, decide_True by naive_solver. eexists. split; [done|]. by rewrite Ek.
    + intros k Hk. rewrite bGet_cwrite, decide_False by naive_solver. destruct (bGet t KeyChangeSetBucketName (csKey h a)); [done|].
      by rewrite bGet_bPut, decide_False by naive_solver.
    + intros k Hk. rewrite bGet_cwrite, decide_False by naive_solver. destruct (bGet t KeyChangeSetBucketName (csKey h a)); [done|].
      by rewrite bGet_bPut, decide_False by naive_solver.
    + intros hn k [=].
Qed.

Lemma commitKey_at_height r hash : is_u64 r -> at_height h (commitKey r hash) -> r = h.
Proof. intros Hr. by apply at_height_other. Qed.

Lemma step_commit t0 t hash from : block_inv t0 t -> block_inv t0 (putCommit t h hash from).
Proof.
  intros Hi. rewrite putCommit_cwrite.
  destruct (block_inv_frame t0 t (cwrite t DomainCommit CommitBucketName (commitKey h hash) (Some (vec_to_list from))) prunable)
    as (_ & _ & _ & Hfr & _); [done| |].
  - intros n k Hn HP. unfold prunable in HP. by rewrite bGet_cwrite, decide_False by naive_solver.
  - apply Hfr; [done|]. destruct (bk_com _ _ Hi) as [H1 H2 H3].
    assert (Hs : forall kk, bGet (cwrite t DomainCommit CommitBucketName (commitKey h hash) (Some (vec_to_list from))) CommitSpentBucketName kk
                 = bGet t CommitSpentBucketName kk) by (intros; by rewrite bGet_cwrite, decide_False by naive_solver).
    split.
    + intros k Hk. rewrite bGet_cwrite, decide_False by (done || intros [_ <-]; apply Hk, at_height_app).
      destruct (H1 k Hk) as [E|(kk & v & E & Hr)]; [by left|]. right. exists kk, v. by rewrite Hs.
    + intros kk v. rewrite Hs. apply H2.
    + intros kk. rewrite Hs. apply H3.
Qed.

(** A journal entry that stands for a commitment of hash [hash] has that
    hash in its own key. *)
Lemma restores_spentKey r hash kk v :
  length kk = 40%nat -> at_height h kk -> restores (commitKey r hash) (kk, v) -> kk = spentKey h hash.
Proof.
  intros Hl Ha Hr. unfold restores in Hr. cbn [fst snd] in Hr. unfold commitKey in Hr.
  apply app_inj_1 in Hr as [_ E]; [|by rewrite !length_PackUint64LE]. apply vec_to_list_inj2 in E.
  rewrite <-(spentKey_self h kk Hl Ha). unfold spentKey. by rewrite E.
Qed.

Lemma step_reveal t0 t r hash from :
  is_u64 r -> h - CommitWindow <= r < h ->
  bGet t CommitBucketName (commitKey r hash) = Some (vec_to_list from) ->
  bGet t CommitSpentBucketName (spentKey h hash) = None ->
  block_inv t0 t -> block_inv t0 (consumeCommit (journalConsumed t h r hash from) r hash).
Proof.
  intros Hr Hw Hc Hs Hi. rewrite consumeCommit_cwrite. set (t' := cwrite _ _ _ _ _).
  assert (Hspent : forall kk, bGet t' CommitSpentBucketName kk
    = if decide (kk = spentKey h hash) then Some (PackUint64LE r ++ vec_to_list from) else bGet t CommitSpentBucketName kk).
  { intros kk. unfold t', journalConsumed. rewrite bGet_cwrite, decide_False, bGet_bPut by naive_solver.
    repeat destruct (decide _); naive_solver. }
  assert (Hcom : forall k, bGet t' CommitBucketName k = if decide (k = commitKey r hash) then None else bGet t CommitBucketName k).
  { intros k. unfold t', journalConsumed. rewrite bGet_cwrite, bGet_bPut by done. repeat destruct (decide _); naive_solver. }
  destruct (block_inv_frame t0 t t' prunable) as (_ & _ & _ & Hfr & _); [done| |].
  - intros n k Hn HP. unfold prunable in HP. unfold t', journalConsumed.
    by rewrite bGet_cwrite, decide_False, bGet_bPut, decide_False by naive_solver.
  - apply Hfr; [done|]. destruct (bk_com _ _ Hi) as [H1 H2 H3]. split.
    + intros k Hk. rewrite Hcom. destruct (decide (k = commitKey r hash)) as [->|Hne].
      * right. exists (spentKey h hash), (PackUint64LE r ++ vec_to_list from). rewrite Hspent, decide_True by done.
        split; [done|]. split; [apply at_height_app|]. unfold restores, spentKey. cbn [fst snd].
        rewrite take8_Pack, drop8_Pack, Unpack_Pack by done. unfold commitKey. by rewrite to_array_to_array.
      * destruct (H1 k Hk) as [E|(kk & v & E & Hr')]; [by left|]. right. exists kk, v. rewrite Hspent, decide_False; [done|congruence].
    + intros kk v. rewrite Hspent. destruct (decide _) as [->|]; [|apply H2]. intros Ev%(inj Some) _. subst v. split; [apply length_commitKey|].
      exists r. split; [done|]. split; [lia|]. split; [lia|]. rewrite take8_Pack, drop8_Pack, Unpack_Pack by done. split; [done|].
      unfold spentKey. rewrite drop8_Pack. unfold commitKey. rewrite to_array_to_array, to_array_vec. fold (commitKey r hash).
      rewrite <-Hc. symmetry. destruct (H1 (commitKey r hash)) as [E|(kk & v & E & Ha & Hre)]; [|done|].
      * intros Ha%commitKey_at_height; [lia|done].
      * exfalso. destruct (H2 _ _ E Ha) as [Hl _]. rewrite (restores_spentKey _ _ _ _ Hl Ha Hre) in E. congruence.
    + intros kk Hk. rewrite Hspent, decide_False; [by apply H3|]. intros ->. apply Hk, at_height_app.
Qed.

Lemma step_beacon t0 t seed : block_inv t0 t -> block_inv t0 (setBeacon t rec seed).
Proof.
  intros Hi. set (t' := cwrite (recordBeacon rec t) DomainBeacon BeaconBucketName BeaconStateKey (Some seed)).
  change (block_inv t0 t').
  destruct (block_inv_frame t0 t t' beacon_bucket) as (_ & _ & _ & _ & Hfr & _); [done| |].
  - intros n k Hn HP. unfold beacon_bucket in HP. unfold t', recordBeacon. cbn [rec height newChangeset].
    rewrite bGet_cwrite, decide_False by naive_solver.
    destruct (bGet t BeaconChangeSetBucketName _); [done|]. by rewrite bGet_bPut, decide_False by naive_solver.
  - apply Hfr; [done|]. destruct (bk_bea _ _ Hi) as [H1 H2 H3]. unfold t', recordBeacon. cbn [rec height newChangeset].
    destruct (bGet t BeaconChangeSetBucketName (PackUint64LE h)) as [tg|] eqn:E; split.
    + by rewrite bGet_cwrite, decide_False, E by naive_solver.
    + intros k Hk. rewrite bGet_cwrite, decide_False by naive_solver. by apply H2.
    + intros k Hk. rewrite bGet_cwrite, decide_False by naive_solver. by apply H3.
    + rewrite bGet_cwrite, decide_False, bGet_bPut, decide_True by naive_solver. by rewrite splitPreimage_tagged.
    + intros k Hk. rewrite bGet_cwrite, decide_False, bGet_bPut, decide_False by naive_solver. by apply H2.
    + intros k Hk. rewrite bGet_cwrite, decide_False, bGet_bPut, decide_False by naive_solver. by apply H3.
Qed.

Lemma block_inv_step t0 t t' : bstep t t' -> block_inv t0 t -> block_inv t0 t'.
Proof.
  intros Hs Hi. revert Hi. destruct Hs; intros Hi.
  - by apply step_balance.
  - by eapply step_contract.
  - by apply step_delContract.
  - by apply step_key.
  - by apply step_commit.
  - by apply step_reveal.
  - by apply step_beacon.
  - assert (Hb : forall n k, n <> ReceiptBucketName -> bGet (setBucket t ReceiptBucketName b) n k = bGet t n k).
    { intros n k Hn. by rewrite bGet_setBucket, decide_False by congruence. }
    destruct (block_inv_frame t0 t (setBucket t ReceiptBucketName b) (fun n => n = ReceiptBucketName)) as (_ & _ & _ & _ & _ & Hfr).
    + done.
    + intros n k _. apply Hb.
    + by apply Hfr.
Qed.

Lemma block_inv_steps t0 t : rtc bstep t0 t -> fresh t0 -> block_inv t0 t.
Proof.
  intros Hs Hf. assert (G : forall t1, rtc bstep t1 t -> block_inv t0 t1 -> block_inv t0 t).
  { clear Hs Hf. intros t1 H1. induction H1 as [|t1 t2 t3 Ha _ IH]; [done|]. intros Hi1. eauto using block_inv_step. }
  apply (G t0); [done|by apply block_inv_start].
Qed.

(** *** Unwinding *)

Lemma frame_bal t n k :
  n <> StateTrieBucketName -> n <> BalChangeSetBucketName -> n <> Addr2BalBucketName -> n <> BalHistBucketName ->
  bGet (revertDomain t BalChangeSetBucketName Addr2BalBucketName (Some BalHistBucketName) h mirrorBalance) n k = bGet t n k.
Proof. intros. apply revertDomain_frame; [exact mirrorBalance_quiet|congruence..]. Qed.

Lemma frame_con t n k :
  n <> StateTrieBucketName -> n <> ContractChangeSetBucketName -> n <> ContractBucketName -> n <> ContractHistBucketName ->
  bGet (revertDomain t ContractChangeSetBucketName ContractBucketName (Some ContractHistBucketName) h mirrorContract) n k = bGet t n k.
Proof. intros. apply revertDomain_frame; [exact mirrorContract_quiet|congruence..]. Qed.

Lemma frame_key t n k :
  n <> StateTrieBucketName -> n <> KeyChangeSetBucketName -> n <> KeyRegistryBucketName ->
  bGet (revertDomain t KeyChangeSetBucketName KeyRegistryBucketName None h mirrorKey) n k = bGet t n k.
Proof. intros. apply revertDomain_frame; [exact mirrorKey_quiet|congruence..]. Qed.

(** The commitment and beacon parts of the undo, seen from elsewhere. *)
Lemma frame_tail t n k :
  n <> StateTrieBucketName -> ~ prunable n -> ~ beacon_bucket n ->
  bGet (revertBeacon (restoreConsumedAtHeight (deleteCommitsAtHeight t h) h) h) n k = bGet t n k.
Proof.
  intros Hn Hp Hb. rewrite bGet_revertBeacon_other, restore_other, bGet_deleteCommits, decide_False; [done|..]; try done.
  intros [<- _]. apply Hp. by left.
Qed.

Lemma unwind_bal t0 t n k :
  fresh t0 -> bal_inv t0 t -> owned_bal n -> bGet (unwindHeightTxn t h) n k = bGet t0 n k.
Proof.
  intros Hf Hi Hn. unfold unwindHeightTxn. rewrite frame_tail, frame_key, frame_con;
    try (unfold owned_bal, prunable, beacon_bucket in *; intuition congruence).
  apply revertDomain_restores; [exact mirrorBalance_quiet|done..|apply Hf|apply Hi|].
  unfold owned_bal in Hn. intuition congruence.
Qed.

Lemma unwind_con t0 t n k :
  fresh t0 -> con_inv t0 t -> owned_con n -> n <> CodeBucketName -> bGet (unwindHeightTxn t h) n k = bGet t0 n k.
Proof.
  intros Hf Hi Hn Hc. unfold unwindHeightTxn. rewrite frame_tail, frame_key;
    try (unfold owned_con, prunable, beacon_bucket in *; intuition congruence).
  apply revertDomain_restores; [exact mirrorContract_quiet|done..|apply Hf| |unfold owned_con in Hn; intuition congruence].
  eapply dom_inv_frame; [apply Hi|]. intros n' k' Hn'. apply frame_bal; intuition congruence.
Qed.

Lemma unwind_key t0 t n k :
  fresh t0 -> key_inv t0 t -> owned_key n -> bGet (unwindHeightTxn t h) n k = bGet t0 n k.
Proof.
  intros Hf Hi Hn. unfold unwindHeightTxn. rewrite frame_tail;
    try (unfold owned_key, prunable, beacon_bucket in *; intuition congruence).
  apply revertDomain_restores; [exact mirrorKey_quiet|done..|apply Hf| |unfold owned_key in Hn; intuition congruence].
  eapply dom_inv_frame; [apply Hi|]. intros n' k' Hn'. rewrite frame_con, frame_bal; intuition congruence.
Qed.

(** The three address domains do not touch the other buckets. *)
Definition reverted (t : Txn) : Txn :=
  revertDomain (revertDomain (revertDomain t BalChangeSetBucketName Addr2BalBucketName (Some BalHistBucketName) h mirrorBalance)
    ContractChangeSetBucketName ContractBucketName (Some ContractHistBucketName) h mirrorContract)
    KeyChangeSetBucketName KeyRegistryBucketName None h mirrorKey.

Lemma bGet_reverted t n k : prunable n \/ beacon_bucket n -> bGet (reverted t) n k = bGet t n k.
Proof.
  unfold prunable, beacon_bucket, reverted. intros Hn. rewrite frame_key, frame_con, frame_bal; intuition congruence.
Qed.

Lemma unwind_beacon t0 t n k :
  fresh t0 -> bea_inv h t0 t -> beacon_bucket n -> bGet (unwindHeightTxn t h) n k = bGet t0 n k.
Proof.
  intros Hf Hi Hn. unfold unwindHeightTxn. fold (reverted t). apply revertBeacon_restores; [apply Hf| |done].
  eapply bea_inv_frame; [exact Hi|]. intros n' k' Hn'. pose proof Hn' as Hb. unfold beacon_bucket in Hb.
  rewrite restore_other, bGet_deleteCommits, decide_False, bGet_reverted; unfold prunable; intuition congruence.
Qed.

(** Commitments, after the block's own pruning. *)
Lemma consumed_frame t t' k :
  (forall kk, at_height h kk -> bGet t' CommitSpentBucketName kk = bGet t CommitSpentBucketName kk) ->
  consumed t' h k <-> consumed t h k.
Proof. intros Hf. split; intros (kk & v & E & Ha & Hr); exists kk, v; [rewrite <-Hf|rewrite Hf]; done. Qed.

Lemma prune_keeps_height t kk :
  at_height h kk -> bGet (pruneCommits t h) CommitSpentBucketName kk = bGet t CommitSpentBucketName kk.
Proof.
  intros Ha. rewrite bGet_pruneCommits by done. rewrite decide_False; [done|]. intros (Hw & _ & Hb).
  rewrite (at_height_inv _ _ Ha), below_app in Hb by done. apply Z.ltb_lt in Hb. unfold CommitWindow in *. lia.
Qed.

Lemma unwind_commits t0 t n k :
  fresh t0 -> block_inv t0 t -> prunable n ->
  bGet (unwindHeightTxn (pruneCommits t h) h) n k = bGet (pruneCommits t0 h) n k.
Proof.
  intros Hf Hi Hn. unfold unwindHeightTxn. fold (reverted (pruneCommits t h)).
  set (u := deleteCommitsAtHeight (reverted (pruneCommits t h)) h).
  assert (Hnt : n <> StateTrieBucketName /\ ~ beacon_bucket n) by (unfold prunable, beacon_bucket in *; naive_solver).
  rewrite bGet_revertBeacon_other by tauto. destruct (bk_com _ _ Hi) as [H1 H2 H3], (fr_com _ Hf) as [F1 F2].
  assert (Hus : forall kk, bGet u CommitSpentBucketName kk = bGet (pruneCommits t h) CommitSpentBucketName kk).
  { intros kk. unfold u. rewrite bGet_deleteCommits, decide_False, bGet_reverted by (unfold prunable; naive_solver). done. }
  assert (Hi' : forall kk v, bGet u CommitSpentBucketName kk = Some v -> at_height h kk ->
    length kk = 40%nat /\ exists r, is_u64 r /\ r <> h /\ h - CommitWindow <= r /\ UnpackUint64LE (take 8 v) = r
      /\ bGet t0 CommitBucketName (commitKey r (drop 8 kk)) = Some (vec_to_list (to_array 32 (drop 8 v)))).
  { intros kk v E Ha. rewrite Hus, prune_keeps_height in E by done. by apply H2. }
  destruct Hn as [->| ->].
  - assert (Hcu : consumed u h k <-> consumed t h k).
    { apply consumed_frame. intros kk Ha. by rewrite Hus, prune_keeps_height. }
    destruct (decide (consumed u h k)) as [Hc|Hc].
    + rewrite (restore_consumed h t0 u Hi' k Hc). rewrite bGet_pruneCommits by done. rewrite decide_False; [done|].
      intros (Hw & _ & Hb). destruct Hc as (kk & v & E & Ha & Hr). destruct (Hi' _ _ E Ha) as (_ & r & Hr1 & _ & Hr3 & Hr4 & _).
      unfold restores in Hr. cbn [fst snd] in Hr. rewrite Hr4 in Hr. subst k. unfold commitKey in Hb.
      rewrite below_app in Hb by done. apply Z.ltb_lt in Hb. lia.
    + rewrite (restore_unconsumed h u k Hc). unfold u. rewrite bGet_deleteCommits by done.
      destruct (decide (at_height h k)) as [Ha|Ha].
      * rewrite decide_True by done. rewrite bGet_pruneCommits by done. destruct (decide _); [done|]. by rewrite F1.
      * rewrite decide_False, bGet_reverted, !bGet_pruneCommits by (unfold prunable; naive_solver).
        destruct (decide _); [done|]. destruct (H1 k Ha) as [E|E]; [done|]. by apply Hcu in E.
  - rewrite (restore_spent h t0 u Hi' k), Hus. destruct (decide (at_height h k)) as [Ha|Ha].
    + rewrite bGet_pruneCommits by done. destruct (decide _); [done|]. by rewrite F2.
    + rewrite !bGet_pruneCommits by done. destruct (decide _); [done|]. by apply H3.
Qed.

(** The buckets the undo restores; code and receipts are kept. *)
Definition restored (n : BucketName) : Prop :=
  owned_bal n \/ (owned_con n /\ n <> CodeBucketName) \/ owned_key n \/ prunable n \/ beacon_bucket n.

Lemma prune_frame t n k : n <> StateTrieBucketName -> ~ prunable n -> bGet (pruneCommits t h) n k = bGet t n k.
Proof. intros Hn Hp. rewrite bGet_pruneCommits by done. by rewrite decide_False by tauto. Qed.

Lemma unwind_restored t0 t n k :
  fresh t0 -> block_inv t0 t -> restored n ->
  bGet (unwindHeightTxn (pruneCommits t h) h) n k = bGet (pruneCommits t0 h) n k.
Proof.
  intros Hf [H1 H2 H3 H4 H5] Hn. destruct (decide (prunable n)) as [Hp|Hp]; [by apply unwind_commits|].
  assert (Hnt : n <> StateTrieBucketName).
  { unfold restored, owned_bal, owned_con, owned_key, prunable, beacon_bucket in *. intuition congruence. }
  rewrite (prune_frame t0) by done. destruct Hn as [Hn|[[Hn Hc]|[Hn|[Hn|Hn]]]]; [| | |done|].
  - apply unwind_bal; [done| |done]. eapply dom_inv_frame; [exact H1|]. intros. apply prune_frame; unfold prunable; intuition congruence.
  - apply unwind_con; [done| |done|done]. eapply dom_inv_frame; [exact H2|]. intros. apply prune_frame; unfold prunable; intuition congruence.
  - apply unwind_key; [done| |done]. eapply dom_inv_frame; [exact H3|]. intros. apply prune_frame; unfold prunable; intuition congruence.
  - apply unwind_beacon; [done| |done]. eapply bea_inv_frame; [exact H5|]. unfold beacon_bucket.
    intros. apply prune_frame; unfold prunable; intuition congruence.
Qed.

End Block.

Lemma domain_restored d n : domain_bucket d = Some n -> restored n.
Proof.
  unfold domain_bucket, restored, owned_bal, owned_con, owned_key, prunable, beacon_bucket.
  repeat case_bool_decide; intros [= <-]; intuition congruence.
Qed.

Lemma prune_nothing t tip k n :
  (forall m k v, prunable m -> bGet t m k = Some v -> below (tip - CommitWindow) k = false) ->
  n <> StateTrieBucketName -> bGet (pruneCommits t tip) n k = bGet t n k.
Proof.
  intros Hb Hn. rewrite bGet_pruneCommits by done. destruct (decide _) as [(_ & Hp & Hk)|]; [|done].
  destruct (bGet t n k) eqn:E; [|done]. apply Hb in E; congruence.
Qed.

(** The undo of a block's writes, whatever they were, up to what the block
    pruned. *)
Lemma unwind_buckets h t0 t1 : is_u64 h -> fresh h t0 -> rtc (bstep h) t0 t1 ->
  forall n, restored n -> Bucket (unwindHeightTxn (pruneCommits t1 h) h) n = Bucket (pruneCommits t0 h) n.
Proof.
  intros Hh Hf Hs n Hn. apply Bucket_ext. intros k. apply unwind_restored; [done|done| |done]. by apply block_inv_steps.
Qed.

Lemma prune_nothing_bucket t tip n : restored n ->
  (forall m k v, prunable m -> bGet t m k = Some v -> below (tip - CommitWindow) k = false) -> Bucket (pruneCommits t tip) n = Bucket t n.
Proof.
  intros Hn Hno. apply Bucket_ext. intros k. apply prune_nothing; [done|].
  unfold restored, owned_bal, owned_con, owned_key, prunable, beacon_bucket in Hn. intuition congruence.
Qed.

(** The commitment is a function of the restored buckets. *)
Lemma same_buckets_same_root U t t' : collision_free U -> ok U t -> ok U t' -> (forall n, restored n -> Bucket t n = Bucket t' n) ->
  StateRoot t = StateRoot t'.
Proof.
  intros Hcf Ht Ht' Hb. unfold StateRoot, newNodeStore. rewrite (ok_trie_unique U t t'); [done..|].
  apply committed_frame. intros d n k Hd. unfold bGet. by rewrite (Hb n (domain_restored d n Hd)).
Qed.

(** Without a journal entry of the height, commitments of other heights
    survive the undo as they are. *)
Lemma unwind_commit_plain h t k :
  (forall kk, at_height h kk -> bGet t CommitSpentBucketName kk = None) -> ~ at_height h k ->
  bGet (unwindHeightTxn t h) CommitBucketName k = bGet t CommitBucketName k.
Proof.
  intros Hs Hk. unfold unwindHeightTxn. fold (reverted h t).
  rewrite bGet_revertBeacon_other by (unfold beacon_bucket; intuition congruence).
  rewrite restore_unconsumed.
  - rewrite bGet_deleteCommits by done. rewrite decide_False by tauto. apply bGet_reverted. left. by left.
  - intros (kk & v & E & Ha & _). rewrite bGet_deleteCommits in E by done. rewrite decide_False in E by (intros [? ?]; congruence).
    rewrite bGet_reverted in E by (left; by right). by rewrite Hs in E.
Qed.

Lemma unwind_spent_plain h t kk :
  (forall kk, at_height h kk -> bGet t CommitSpentBucketName kk = None) -> 
  bGet (unwindHeightTxn t h) CommitSpentBucketName kk = bGet t CommitSpentBucketName kk.
Proof.
  intros Hs. unfold unwindHeightTxn. fold (reverted h t).
  rewrite bGet_revertBeacon_other by (unfold beacon_bucket; intuition congruence).
  assert (Hu : forall kk, bGet (deleteCommitsAtHeight (reverted h t) h) CommitSpentBucketName kk = bGet t CommitSpentBucketName kk).
  { intros k. rewrite bGet_deleteCommits by done. rewrite decide_False by (intros [? ?]; congruence).
    apply bGet_reverted. left. by right. }
  rewrite (restore_spent h t); [|intros k v E Ha; rewrite Hu, Hs in E by done; congruence].
  rewrite Hu. destruct (decide _); [by rewrite Hs|done].
Qed.

Lemma findCommit_None t from hash rh :
  (forall r, (if CommitWindow <? rh then rh - CommitWindow else 0) <= r < rh -> commit_at t from hash r = false) ->
  findCommit t from hash rh = None.
Proof.
  intros Hr. unfold findCommit. cbv zeta. destruct (filter _ _) as [|r l] eqn:E; [done|]. exfalso.
  assert (Hin : r ∈ filter (fun h => commit_at t from hash h = true)
                  (scan_heights (if CommitWindow <? rh then rh - CommitWindow else 0) rh)) by (rewrite E; left).
  apply list_elem_of_filter in Hin as [Hc Hin]. unfold scan_heights in Hin. apply elem_of_seqZ in Hin.
  rewrite Hr in Hc; [done|]. lia.
Qed.

(** C35 - Undoing two blocks loses commitments that are still revealable.
    Let the only matching commitment of a reveal at height [h] be the oldest
    of its window, and let two blocks without writes at heights [h] and
    [h + 1] be applied and undone, as a two-block reorganisation does.  The
    reveal finds its commitment in the database before, and not after: the
    pruning of block [h + 1] removed it and the undo does not bring it
    back, so the replacement block at height [h] cannot carry the reveal. *)
Theorem undo_two_blocks_loses_commitment h t0 from hash :
  CommitWindow < h -> is_u64 (h + 1) ->
  (forall kk, at_height h kk \/ at_height (h + 1) kk -> bGet t0 CommitSpentBucketName kk = None) ->
  findCommit t0 from hash h = Some (h - CommitWindow) ->
  (forall r, h - CommitWindow < r < h -> commit_at t0 from hash r = false) ->
  let applied := pruneCommits (pruneCommits t0 h) (h + 1) in
  findCommit (unwindHeightTxn (unwindHeightTxn applied (h + 1)) h) from hash h = None.
Proof.
  intros Hw Hh Hs Hfind Honly applied.
  assert (Hsa : forall kk, at_height h kk \/ at_height (h + 1) kk -> bGet applied CommitSpentBucketName kk = None).
  { intros kk Hk. unfold applied. rewrite !bGet_pruneCommits by done. destruct (decide _); [done|].
    destruct (decide _); [done|]. by apply Hs. }
  assert (Hc : forall r, is_u64 r -> r < h -> commit_at (unwindHeightTxn (unwindHeightTxn applied (h + 1)) h) from hash r
                         = commit_at applied from hash r).
  { intros r Hr Hrh. unfold commit_at. f_equal. rewrite !unwind_commit_plain; [done|..].
    - intros kk Ha. apply Hsa. by right.
    - intros Ha%at_height_other; [lia|unfold is_u64 in *; lia|done].
    - intros kk Ha. rewrite unwind_spent_plain; [apply Hsa; by left|]. intros k' Ha'. apply Hsa. by right.
    - intros Ha%at_height_other; [lia|unfold is_u64, CommitWindow in *; lia|done]. }
  apply findCommit_None. rewrite (proj2 (Z.ltb_lt _ _) Hw). intros r Hr.
  assert (Hru : is_u64 r) by (unfold is_u64, CommitWindow in *; lia). rewrite Hc by (done || lia).
  unfold commit_at, applied. apply bool_decide_eq_false. rewrite bGet_pruneCommits by done. destruct (decide _) as [|Hkeep]; [done|].
  destruct (decide (r = h - CommitWindow)) as [->|Hne].
  - exfalso. apply Hkeep. split; [lia|]. split; [by left|]. unfold commitKey. rewrite below_app by done. apply Z.ltb_lt. lia.
  - rewrite bGet_pruneCommits by done. destruct (decide _); [done|]. specialize (Honly r ltac:(lia)).
    unfold commit_at in Honly. by apply bool_decide_eq_false in Honly.
Qed.

End Undo.

(** ** Witnesses *)

Module UndoWitness.
Import CommitWitness.

#[local] Existing Instance toy_hasher.
#[local] Existing Instance toy_libs.
#[local] Existing Instance toy_codec.
#[local] Existing Instance toy_slot_codec.
#[local] Existing Instance toy_slot_laws.

(** Alice's commitment of height 2 is revealable at height 5. *)
Definition old : Txn := putCommit ∅ 2 blind alice.

Lemma bGet_old n k : n <> StateTrieBucketName ->
  bGet old n k = if decide (CommitBucketName = n /\ commitKey 2 blind = k) then Some (vec_to_list alice) else None.
Proof. intros Hn. unfold old. rewrite putCommit_cwrite, bGet_cwrite by done. reflexivity. Qed.

Lemma old_commit_at r : is_u64 r -> commit_at old alice blind r = bool_decide (r = 2).
Proof.
  intros Hr. unfold commit_at. rewrite bGet_old by discriminate. destruct (decide _) as [[_ E]|Hn].
  - unfold commitKey in E. apply app_inv_tail, PackUint64LE_inj in E; [|unfold is_u64, two64; lia|done].
    subst r. by rewrite !bool_decide_eq_true_2.
  - rewrite !bool_decide_eq_false_2; [done| |done]. intros ->. apply Hn. done.
Qed.

Lemma undo_two_blocks_loses_commitment_witness :
  findCommit old alice blind 5 = Some 2
  /\ findCommit (unwindHeightTxn (unwindHeightTxn (pruneCommits (pruneCommits old 5) 6) 6) 5) alice blind 5 = None.
Proof.
  assert (Hf : findCommit old alice blind 5 = Some 2).
  { unfold findCommit. change (CommitWindow <? 5) with true. cbv iota zeta.
    change (scan_heights (5 - CommitWindow) 5) with [2; 3; 4]. rewrite !filter_cons, filter_nil.
    rewrite !old_commit_at by (unfold is_u64, two64; lia). reflexivity. }
  split; [exact Hf|].
  apply (undo_two_blocks_loses_commitment 5 old alice blind);
    [unfold CommitWindow; lia|unfold is_u64, two64; lia| |exact Hf|].
  - intros kk _. rewrite bGet_old by discriminate. rewrite decide_False by (intros [E _]; discriminate E). reflexivity.
  - intros r Hr. unfold CommitWindow in Hr. rewrite old_commit_at by (unfold is_u64, two64; lia).
    apply bool_decide_eq_false. lia.
Defined.

End UndoWitness.
