(* ===== verification/Journal.v ===== *)
(** * Contract runs, seen from the state layer

    journal.go (the write buffer of one contract execution), rent.go (the
    storage deposit), receipt.go (the local run records) and the interface
    of the virtual machine: what a run hands back to the state layer and
    what the layer relies on. *)

From S2P Require Import Prelude Params StateTrie Keys Contract Types Instances Tx BlockStore State StateCommit.

(** The contexts are private clones, so an account of the journal is a
    value of its own. *)
Record vmJournal := {
  accounts : gmap Address Contract;
  balances : gmap Address Z
}.

(** Cloning a nil context dereferences it. *)
Definition clone_context (acc : Contract) : res Contract :=
  match Context' acc with
  | None => Err GoPanic
  | Some ctx => Ok {| Owner := Owner acc; Source := Source acc; Context' := Some (Clone ctx).1 |}
  end.

Definition newVMJournal (self : Contract) : res vmJournal :=
  let! selfCopy := clone_context self in
  Ok {| accounts := {[ Owner self := selfCopy ]}; balances := ∅ |}.

Section Journal.
Context `{HH : Hasher} `{SL : SigLibs} `{CD : Codec} `{SC : SlotCodec}.

Definition contractOf (j : vmJournal) (txn : Txn) (addr : Address) : res (Contract * vmJournal) :=
  match accounts j !! addr with
  | Some acc => Ok (acc, j)
  | None =>
      let! loaded := getContract txn addr in
      let! copied := clone_context loaded in
      Ok (copied, {| accounts := <[addr := copied]> (accounts j); balances := balances j |})
  end.

Definition contextOf (j : vmJournal) (txn : Txn) (addr : Address) : res (option ContractContext * vmJournal) :=
  let! (acc, j) := contractOf j txn addr in
  Ok (Context' acc, j).

(** A write through the context pointer a journal account holds. *)
Definition setContext (j : vmJournal) (addr : Address) (ctx : ContractContext) : vmJournal :=
  {| accounts := alter (fun acc => {| Owner := Owner acc; Source := Source acc; Context' := Some ctx |}) addr (accounts j);
     balances := balances j |}.

Definition balanceOf (j : vmJournal) (txn : Txn) (addr : Address) : Z :=
  match balances j !! addr with
  | Some pending => pending
  | None => getBalance txn addr
  end.

Definition setPending (j : vmJournal) (addr : Address) (b : Z) : vmJournal :=
  {| accounts := accounts j; balances := <[addr := b]> (balances j) |}.

Definition transfer (j : vmJournal) (txn : Txn) (from to : Address) (value : Z) : res vmJournal :=
  reject value <? 0 with ErrTxValueInvalid ;
  let fromBalance := balanceOf j txn from in
  reject fromBalance <? value with ErrTxrBalanceInsufficient ;
  let j := setPending j from (fromBalance - value) in
  Ok (setPending j to (balanceOf j txn to + value)).

(** The loops of [flush]; a Go map is visited in an arbitrary order. *)
Definition flushBalances (rec : option changeset) (txn : Txn) (bs : list (Address * Z)) : Txn :=
  foldl (fun txn kv => setBalance txn rec kv.1 kv.2) txn bs.

Definition flushAccounts (rec : option changeset) (txn : Txn) (accs : list (Address * Contract)) : res Txn :=
  res_fold (fun txn kv => setContract txn rec kv.2) txn accs.

Definition flush (j : vmJournal) (txn : Txn) (rec : option changeset) : res Txn :=
  flushAccounts rec (flushBalances rec txn (map_to_list (balances j))) (map_to_list (accounts j)).

Lemma getBalance_nonneg t a : 0 <= getBalance t a.
Proof. unfold getBalance. destruct (bGet t _ _); [apply be_Z_nonneg|done]. Qed.

(** The balances a run leaves in its journal: none negative, none made or
    lost. *)
Definition net_change (t : Txn) (bs : list (Address * Z)) : Z := sumZ (fun kv => kv.2 - getBalance t kv.1) bs.

Definition conserves (t : Txn) (j : vmJournal) : Prop :=
  map_Forall (fun _ b => 0 <= b) (balances j) /\ net_change t (map_to_list (balances j)) = 0.

Lemma net_change_cons t a b bs : net_change t ((a, b) :: bs) = b - getBalance t a + net_change t bs.
Proof. done. Qed.

Lemma net_change_setPending t j a b :
  net_change t (map_to_list (balances (setPending j a b))) = net_change t (map_to_list (balances j)) + b - balanceOf j t a.
Proof.
  unfold net_change, balanceOf. cbn [setPending balances]. rewrite sumZ_map_insert. cbn.
  destruct (balances j !! a); cbn; lia.
Qed.

Lemma balanceOf_nonneg t j a : map_Forall (fun _ b => 0 <= b) (balances j) -> 0 <= balanceOf j t a.
Proof. intros Hj. unfold balanceOf. destruct (balances j !! a) eqn:E; [by apply (Hj a)|apply getBalance_nonneg]. Qed.

Lemma balanceOf_setPending t j a b a' :
  balanceOf (setPending j a b) t a' = if decide (a = a') then b else balanceOf j t a'.
Proof.
  unfold balanceOf. cbn [setPending balances]. destruct (decide (a = a')) as [->|Hn];
    [by rewrite lookup_insert_eq|by rewrite lookup_insert_ne].
Qed.

Lemma setPending_nonneg j a b : 0 <= b -> map_Forall (fun _ b => 0 <= b) (balances j) ->
  map_Forall (fun _ b => 0 <= b) (balances (setPending j a b)).
Proof. intros Hb Hj. by apply map_Forall_insert_2. Qed.

(** A transfer moves its value and nothing else. *)
Lemma transfer_Ok j t from to value j' :
  transfer j t from to value = Ok j' ->
  0 <= value <= balanceOf j t from /\ accounts j' = accounts j
  /\ (forall a, balanceOf j' t a = balanceOf j t a - (if decide (from = a) then value else 0) + (if decide (to = a) then value else 0)).
Proof.
  unfold transfer. intros E. open_ok E. bools. injection E as <-. split_and!; [done|done|done|]. intros a.
  rewrite !balanceOf_setPending. repeat case_decide; subst; try done; lia.
Qed.

Lemma transfer_conserves j t from to value j' : transfer j t from to value = Ok j' -> conserves t j -> conserves t j'.
Proof.
  intros E [Hp Hn]. pose proof (transfer_Ok _ _ _ _ _ _ E) as (Hv & _ & _). unfold transfer in E. open_ok E. injection E as <-.
  assert (Hp' : map_Forall (fun _ b => 0 <= b) (balances (setPending j from (balanceOf j t from - value))))
    by (apply setPending_nonneg; [lia|done]).
  pose proof (balanceOf_nonneg t _ to Hp'). split; [apply setPending_nonneg; [lia|done]|].
  rewrite !net_change_setPending. lia.
Qed.

(** ** rent.go *)

Definition contextKeyRent : bytes := str "_rent".

Definition lockedDeposit (ctx : ContractContext) : Z :=
  let raw := (Get ctx contextKeyRent).1 in
  if zlen raw =? 0 then 0 else be_Z raw.

Definition setLockedDeposit (ctx : ContractContext) (amount : Z) : ContractContext :=
  if amount <=? 0 then Del ctx contextKeyRent else Set' ctx contextKeyRent (big_Bytes amount).

Definition depositFor (n : Z) : Z := DepositPerByte * n.

(** ngtypes/staterent.go: 32 bytes 0x01. *)
Definition StorageDepositEscrow : Address := to_array 32 (replicate 32 (Zbyte 1)).

(** The executing contract is [from]; its journaled context is read and
    written through the journal.  A frame's context is always loaded. *)
Definition lockDeposit (j : vmJournal) (txn : Txn) (from : Address) (amount : Z) : res vmJournal :=
  if amount <=? 0 then Ok j
  else
    match transfer j txn from StorageDepositEscrow amount with
    | Err _ => Err ErrStorageDeposit
    | Ok j =>
        let! (ctx, j) := contextOf j txn from in
        match ctx with
        | None => Err GoPanic
        | Some ctx => Ok (setContext j from (setLockedDeposit ctx (lockedDeposit ctx + amount)))
        end
    end.

Definition refundDeposit (j : vmJournal) (txn : Txn) (self : Address) (amount : Z) : res vmJournal :=
  if amount <=? 0 then Ok j
  else
    let! (ctx, j) := contextOf j txn self in
    match ctx with
    | None => Err GoPanic
    | Some ctx =>
        let locked := lockedDeposit ctx in
        let pay := if locked <? amount then locked else amount in
        let escrowBal := balanceOf j txn StorageDepositEscrow in
        let pay := if escrowBal <? pay then escrowBal else pay in
        if pay <=? 0 then Ok j
        else match transfer j txn StorageDepositEscrow self pay with
             | Err _ => Ok j
             | Ok j => Ok (setContext j self (setLockedDeposit ctx (locked - pay)))
             end
    end.

(** A deposit move is a transfer with the escrow and the same change of the
    contract's running total. *)
Lemma lockDeposit_Ok j t a amount j' :
  lockDeposit j t a amount = Ok j' ->
  (amount <= 0 /\ j' = j) \/
  exists j1 j2 acc ctx, transfer j t a StorageDepositEscrow amount = Ok j1 /\ contractOf j1 t a = Ok (acc, j2)
    /\ Context' acc = Some ctx /\ j' = setContext j2 a (setLockedDeposit ctx (lockedDeposit ctx + amount)).
Proof.
  unfold lockDeposit. destruct (Z.leb_spec amount 0); [intros [= <-]; by left|]. intros E. right.
  destruct (transfer j t a StorageDepositEscrow amount) as [j1|]; [|done]. unfold contextOf in E. open_ok E.
  destruct r as [c j2]. open_ok Hr. destruct r as [acc j3]. injection Hr as <- <-.
  destruct (Context' acc) as [ctx|] eqn:Ec; [|done]. injection E as <-. eauto 10.
Qed.

Lemma refundDeposit_Ok j t a amount j' :
  refundDeposit j t a amount = Ok j' ->
  j' = j \/ exists j1 acc ctx, contractOf j t a = Ok (acc, j1) /\ Context' acc = Some ctx
    /\ (j' = j1 \/ exists pay j2, transfer j1 t StorageDepositEscrow a pay = Ok j2 /\ 0 < pay <= lockedDeposit ctx
                    /\ j' = setContext j2 a (setLockedDeposit ctx (lockedDeposit ctx - pay))).
Proof.
  unfold refundDeposit. destruct (amount <=? 0); [intros [= <-]; by left|]. intros E. right. unfold contextOf in E. open_ok E.
  destruct r as [c j2]. open_ok Hr. destruct r as [acc j3]. injection Hr as <- <-. exists j3, acc.
  destruct (Context' acc) as [ctx|] eqn:Ec; [|done]. exists ctx. split_and!; [done|done|]. cbv zeta in E.
  set (pay := if balanceOf j3 t StorageDepositEscrow <? _ then _ else _) in E.
  destruct (Z.leb_spec pay 0) as [Hp|Hp]; [injection E as <-; by left|].
  destruct (transfer j3 t StorageDepositEscrow a pay) as [j4|] eqn:Et; [|injection E as <-; by left]. injection E as <-.
  right. exists pay, j4. split_and!; [done|done| |done]. unfold pay.
  destruct (Z.ltb_spec (lockedDeposit ctx) amount); case_match eqn:Eb; bools; lia.
Qed.

Definition refundContractDeposit (txn : Txn) (cs : option changeset) (addr : Address) (ctx : ContractContext) : Txn :=
  let owed := lockedDeposit ctx in
  if owed <=? 0 then txn
  else
    let escrowBal := getBalance txn StorageDepositEscrow in
    let pay := if escrowBal <? owed then escrowBal else owed in
    if pay <=? 0 then txn
    else
      let txn := setBalance txn cs StorageDepositEscrow (escrowBal - pay) in
      setBalance txn cs addr (getBalance txn addr + pay).

End Journal.

(** ** receipt.go *)

Record Event := { ev_Contract : bytes; ev_Topic : bytes; ev_Data : bytes }.

Record TraceCall := {
  tc_Type : bytes; tc_Depth : Z; tc_From : bytes; tc_To : bytes; tc_Method : bytes;
  tc_Value : bytes; tc_Input : bytes; tc_Ok : bool
}.

Record ContractRun := {
  run_Contract : bytes; run_Entry : bytes; run_Ok : bool; run_Error : bytes; run_GasUsed : Z;
  run_Events : list Event; run_Trace : list TraceCall
}.

Record txReceipt := { rc_Height : Z; rc_Runs : list ContractRun }.

Class ReceiptCodec := {
  rlp_txReceipt : txReceipt -> bytes;
  dec_txReceipt : bytes -> option txReceipt
}.

Definition maxRunErrorLen : nat := 512.
Definition receiptRetention : Z := 16 * BlockCheckRound.

Definition truncate_error (run : ContractRun) : ContractRun :=
  {| run_Contract := run_Contract run; run_Entry := run_Entry run; run_Ok := run_Ok run;
     run_Error := take maxRunErrorLen (run_Error run);
     run_GasUsed := run_GasUsed run; run_Events := run_Events run; run_Trace := run_Trace run |}.

Definition appendContractRun `{ReceiptCodec} (txn : Txn) (txHash : bytes) (h : Z) (run : ContractRun) : res Txn :=
  let! runs := match bGet txn ReceiptBucketName txHash with
               | None => Ok []
               | Some raw => match dec_txReceipt raw with
                             | None => Err ErrDecode
                             | Some record => Ok (rc_Runs record)
                             end
               end in
  Ok (bPut txn ReceiptBucketName txHash (rlp_txReceipt {| rc_Height := h; rc_Runs := runs ++ [truncate_error run] |})).

(** The cursor loops delete while they walk. *)
Definition deleteReceiptsAboveTxn `{ReceiptCodec} (txn : Txn) (h : Z) : Txn :=
  foldl (fun txn kv => match dec_txReceipt kv.2 with
                       | None => txn
                       | Some record => if h <? rc_Height record then bDelete txn ReceiptBucketName kv.1 else txn
                       end) txn (cursor (Bucket txn ReceiptBucketName)).

Definition ReceiptFloor (tip : Z) : Z := if receiptRetention <? tip then tip - receiptRetention else 0.

Definition PruneReceiptsTxn `{ReceiptCodec} (txn : Txn) (tipHeight : Z) : Txn :=
  if tipHeight <=? receiptRetention then txn
  else
    let floor := tipHeight - receiptRetention in
    foldl (fun txn kv => match dec_txReceipt kv.2 with
                         | None => bDelete txn ReceiptBucketName kv.1
                         | Some record => if rc_Height record <? floor then bDelete txn ReceiptBucketName kv.1 else txn
                         end) txn (cursor (Bucket txn ReceiptBucketName)).

Definition GetTxRuns `{ReceiptCodec} (txn : Txn) (txHash : bytes) : res (list ContractRun) :=
  match bGet txn ReceiptBucketName txHash with
  | None => Ok []
  | Some raw => match dec_txReceipt raw with
                | None => Err ErrDecode
                | Some record => Ok (rc_Runs record)
                end
  end.

(** ** The virtual machine, as the state layer sees it

    What wasm.go offers.  [vm_call] is the part of [Run] before the flush: it
    instantiates the module and calls the entry, and yields the error's
    text, if any, with whether the entry is a missing export.  An [Err] is a
    Go panic that nobody recovers. *)
Class ContractVM := {
  VM : Type;
  LoadContractWasm : bytes -> res bytes;
  contractHasExport : bytes -> bytes -> res bool;
  extractContractDeps : bytes -> res (list Address);
  NewVM : Txn -> Contract -> FullTx -> Z -> res (bytes + VM);
  EntryFor : VM -> bytes -> res (bytes * VM);
  LimitToll : VM -> Z -> VM;
  vm_call : VM -> bytes -> res (option (bytes * bool) * VM);
  GasUsed : VM -> Z;
  Events : VM -> list Event;
  Trace : VM -> list TraceCall;
  journal : VM -> vmJournal
}.

Definition vmMaxToll : Z := Z.shiftl 1 24.
