(* ===== verification/VM.v ===== *)
(** * The contract virtual machine

    wasm.go, service.go, introspect.go, the import parsing of deps.go and the
    host modules imports*.go.  The WebAssembly engine (wasman) is a
    parameter: a call into it is a tree of the tolls it burns and the host
    functions it calls, so what is proved of the host side holds of every
    engine.  The host side is a state monad that keeps the machine on a
    panic. *)

From S2P Require Import Prelude Params Keys Contract Types Tx BlockStore State Journal.

(** ** The engine *)

(** A panic value raised by a host function. *)
Inductive vmpanic (E : Type) :=
  | PGas
  | PReservedKey (key : bytes)
  | PDeposit
  | PGo (e : error)
  | PReentry (addr : Address)
  | PServiceFailed (addr : Address) (export : bytes) (err : E)
  | PBadExport (addr : Address) (export : bytes)
  | PDepLimit
  | PEngine.
Arguments PGas {E}.
Arguments PReservedKey {E} _.
Arguments PDeposit {E}.
Arguments PGo {E} _.
Arguments PReentry {E} _.
Arguments PServiceFailed {E} _ _ _.
Arguments PBadExport {E} _ _.
Arguments PDepLimit {E}.
Arguments PEngine {E}.

(** A computation of the engine: it returns, panics, burns toll (and is told
    whether the station allowed it), or calls a host function with the
    memory of the calling instance and goes on with its results and the
    memory it left, or with its panic. *)
Inductive exec (E A : Type) :=
  | ERet (a : A)
  | EPanic
  | EToll (n : N) (k : bool -> exec E A)
  | EHost (m f : bytes) (args : list Z) (mem : option bytes) (k : vmpanic E + (list Z * option bytes) -> exec E A).
Arguments ERet {E A} _.
Arguments EPanic {E A}.
Arguments EToll {E A} _ _.
Arguments EHost {E A} _ _ _ _ _.

Record FuncType := { InputTypes : list Z; ReturnTypes : list Z }.
Record Desc := { Kind : Z; Index : Z }.
Record Import := { imp_Module : bytes; imp_Kind : Z }.

Inductive made (E M : Type) := MadeModule (m : M) | MadeErr (e : E) | MadePanic.
Arguments MadeModule {E M} _.
Arguments MadeErr {E M} _.
Arguments MadePanic {E M}.

(** wasman: decoding under the plain ([false]) or the vm's configuration,
    the decoded sections, linking, and calls.  [linkable] is whether
    [DefineAdvancedFunc] accepts a function of that type. *)
Class Wasman := {
  werr : Type;
  WModule : Type;
  WInstance : Type;
  NewModule : bool -> bytes -> made werr WModule;
  ImportSection : WModule -> list Import;
  ExportSection : WModule -> gmap bytes Desc;
  FunctionSection : WModule -> list Z;
  TypeSection : WModule -> list FuncType;
  linkable : FuncType -> bool;
  is_missing : werr -> bool;
  Instantiate : gset (bytes * bytes) -> WModule -> exec werr (werr + WInstance);
  CallExportedFunc : WInstance -> bytes -> list Z -> exec werr ((werr + list Z) * WInstance)
}.

(** wasman/tollstation. *)
Class TollStation := {
  station : Type;
  NewSimpleTollStation : Z -> station;
  AddToll : station -> Z -> bool * station;
  GetToll : station -> Z
}.

(** ** Constants *)

Definition vmBufSlots : Z := 8.
Definition vmBufMaxLen : Z := 4096.
Definition gasKVSetBase : Z := 1000.
Definition gasKVSetPerByte : Z := 10.
Definition gasKVDel : Z := 500.
Definition gasKVRead : Z := 100.
Definition gasCoinTransfer : Z := 2000.
Definition gasEventBase : Z := 500.
Definition gasEventPerByte : Z := 5.
Definition gasServiceCall : Z := 2000.
Definition gasHashBase : Z := 100.
Definition gasHashPerByte : Z := 1.
Definition gasSigVerify : Z := 3000.
Definition gasRandom : Z := 200.
Definition maxDepsPerContract : Z := 32.
Definition maxDepChainDepth : Z := 8.
Definition maxTraceCalls : Z := 1024.
Definition maxEventsPerRun : Z := 128.
Definition maxEventTopicLen : Z := 64.
Definition maxEventDataLen : Z := 4096.
Definition EventTopicPrefix : bytes := str "ng.".
Definition EventTopicTransfer : bytes := str "ng.transfer".
Definition wasmMagic : bytes := Zbyte <$> [0; 97; 115; 109].

Definition u32 (z : Z) : Z := z mod 4294967296.

(** ** Linear memory (utils.go) *)

Definition readMem (mem : option bytes) (ptr size : Z) : option bytes :=
  match mem with
  | None => None
  | Some m => if zlen m <? ptr + size then None else Some (slice m (Z.to_nat ptr) (Z.to_nat (ptr + size)))
  end.

Definition cp (mem : option bytes) (ptr : Z) (data : bytes) : option (Z * option bytes) :=
  match mem with
  | None => None
  | Some m => if zlen m <? ptr + zlen data then None
              else Some (u32 (zlen data), Some (copy_range m (Z.to_nat ptr) (length m) data))
  end.

(** ** Money on the wire (imports_coin.go) *)

Definition bigToLE32 (v : Z) : bytes := vec_to_list (to_array 32 (reverse (big_Bytes v))).

Definition readAddr (mem : option bytes) (ptr : Z) : option Address := to_array 32 <$> readMem mem ptr 32.

Definition readBigLE (mem : option bytes) (ptr : Z) : option Z := (fun raw => be_Z (reverse raw)) <$> readMem mem ptr 32.

Definition writeBigLE (mem : option bytes) (ptr v : Z) : option (Z * option bytes) :=
  let be := big_Bytes v in
  if 32 <? zlen be then None else cp mem ptr (bigToLE32 v).

(** imports_kv.go *)
Definition isReservedKey (key : bytes) : bool := has_prefix (str "_") key && negb (zlen key =? AddressSize).

(** ** The machine *)

(** An export of a linked service dependency. *)
Record service := { sv_addr : Address; sv_ins : nat; sv_sig : FuncType }.

(** The error of [LoadContractWasm], and the errors a [VM] method returns. *)
Inductive wasm_error (E : Type) := WNoMagic | WInvalid (e : E) | WPanic.
Arguments WNoMagic {E}.
Arguments WInvalid {E} _.
Arguments WPanic {E}.

Inductive vm_error (E : Type) :=
  | VWasm (e : wasm_error E)
  | VLoad (e : E)
  | VGo (e : error)
  | VDepWasm (addr : Address) (e : wasm_error E)
  | VDepLoad (addr : Address) (e : E)
  | VDepInstantiate (addr : Address) (e : E)
  | VDepExport (name export : bytes)
  | VInstantiate (e : E)
  | VCall (entry : bytes) (e : E).
Arguments VWasm {E} _.
Arguments VLoad {E} _.
Arguments VGo {E} _.
Arguments VDepWasm {E} _ _.
Arguments VDepLoad {E} _ _.
Arguments VDepInstantiate {E} _ _.
Arguments VDepExport {E} _ _.
Arguments VInstantiate {E} _.
Arguments VCall {E} _ _.

Section Machine.
Context `{HH : Hasher} `{SL : SigLibs} `{CD : Codec} `{SC : SlotCodec} `{WM : Wasman} `{TS : TollStation}.

(** The fields that never change during a run. *)
Record vmEnv := {
  caller : FullTx;
  self : Contract;
  txn : Txn;
  blockTime : Z;
  module : WModule
}.

(** [instances] is the heap of engine instances the linked services and the
    running calls point into. *)
Record machine := mkMachine {
  env : vmEnv;
  journal' : vmJournal;
  linker : gmap bytes (gmap bytes service);
  instances : list WInstance;
  frames : list Address;
  callArgs : bytes;
  events : list Event;
  trace : list TraceCall;
  tollPreburn : Z;
  tollStation : station;
  bufs : list bytes
}.

Definition set_journal (v : machine) j :=
  mkMachine (env v) j (linker v) (instances v) (frames v) (callArgs v) (events v) (trace v) (tollPreburn v) (tollStation v) (bufs v).
Definition set_linker (v : machine) l :=
  mkMachine (env v) (journal' v) l (instances v) (frames v) (callArgs v) (events v) (trace v) (tollPreburn v) (tollStation v) (bufs v).
Definition set_instances (v : machine) i :=
  mkMachine (env v) (journal' v) (linker v) i (frames v) (callArgs v) (events v) (trace v) (tollPreburn v) (tollStation v) (bufs v).
Definition set_frames (v : machine) f :=
  mkMachine (env v) (journal' v) (linker v) (instances v) f (callArgs v) (events v) (trace v) (tollPreburn v) (tollStation v) (bufs v).
Definition set_callArgs (v : machine) a :=
  mkMachine (env v) (journal' v) (linker v) (instances v) (frames v) a (events v) (trace v) (tollPreburn v) (tollStation v) (bufs v).
Definition set_events (v : machine) e :=
  mkMachine (env v) (journal' v) (linker v) (instances v) (frames v) (callArgs v) e (trace v) (tollPreburn v) (tollStation v) (bufs v).
Definition set_trace (v : machine) t :=
  mkMachine (env v) (journal' v) (linker v) (instances v) (frames v) (callArgs v) (events v) t (tollPreburn v) (tollStation v) (bufs v).
Definition set_toll (v : machine) p s :=
  mkMachine (env v) (journal' v) (linker v) (instances v) (frames v) (callArgs v) (events v) (trace v) p s (bufs v).
Definition set_bufs (v : machine) b :=
  mkMachine (env v) (journal' v) (linker v) (instances v) (frames v) (callArgs v) (events v) (trace v) (tollPreburn v) (tollStation v) b.

(** ** The monad of host code *)

Inductive outcome (A : Type) := Ret (a : A) | Panic (p : vmpanic werr) | Fuel.
Arguments Ret {A} _.
Arguments Panic {A} _.
Arguments Fuel {A}.

Definition M (A : Type) : Type := machine -> outcome A * machine.

Definition mret' {A} (a : A) : M A := fun v => (Ret a, v).
Definition mpanic {A} (p : vmpanic werr) : M A := fun v => (Panic p, v).
Definition mbind' {A B} (m : M A) (f : A -> M B) : M B := fun v =>
  match m v with
  | (Ret a, v) => f a v
  | (Panic p, v) => (Panic p, v)
  | (Fuel, v) => (Fuel, v)
  end.
Definition mget {A} (f : machine -> A) : M A := fun v => (Ret (f v), v).
Definition mset (f : machine -> machine) : M unit := fun v => (Ret tt, f v).

Notation "'v!' x := m 'in' k" := (mbind' m (fun x => k)) (at level 10, x pattern, m at level 100, k at level 200).
Notation "'vdo!' m ';' k" := (mbind' m (fun _ => k)) (at level 10, m at level 100, k at level 200).

(** Go code that may dereference nil or index out of range. *)
Definition lift {A} (m : res A) : M A := match m with Ok a => mret' a | Err e => mpanic (PGo e) end.

Fixpoint mfold {A S} (f : S -> A -> M S) (s : S) (l : list A) : M S :=
  match l with
  | [] => mret' s
  | x :: l' => v! s' := f s x in mfold f s' l'
  end.

(** ** wasm.go: tolls, traces, frames *)

Definition charge (cost : Z) : M unit := fun v =>
  let '(ok, st) := AddToll (tollStation v) cost in
  (if ok then Ret tt else Panic PGas, set_toll v (tollPreburn v) st).

(** The top frame; an empty stack indexes out of range. *)
Definition currentAddress : M Address := fun v =>
  match last (frames v) with Some a => (Ret a, v) | None => (Panic (PGo GoPanic), v) end.

Definition callerAddress (v : machine) : Address :=
  if (length (frames v) <? 2)%nat then zeroAddress else default zeroAddress (frames v !! (length (frames v) - 2)%nat).

Definition onStack (addr : Address) (v : machine) : bool := bool_decide (addr ∈ frames v).

Definition push_frame (addr : Address) (v : machine) : machine := set_frames v (frames v ++ [addr]).
Definition pop_frame (v : machine) : machine := set_frames v (take (length (frames v) - 1) (frames v)).

Definition trace_call (ty from to method value input : bytes) : TraceCall :=
  {| tc_Type := ty; tc_Depth := 0; tc_From := from; tc_To := to; tc_Method := method; tc_Value := value;
     tc_Input := input; tc_Ok := false |}.

Definition tc_set_Depth (c : TraceCall) (d : Z) : TraceCall :=
  {| tc_Type := tc_Type c; tc_Depth := d; tc_From := tc_From c; tc_To := tc_To c; tc_Method := tc_Method c;
     tc_Value := tc_Value c; tc_Input := tc_Input c; tc_Ok := tc_Ok c |}.

Definition tc_set_Ok (c : TraceCall) : TraceCall :=
  {| tc_Type := tc_Type c; tc_Depth := tc_Depth c; tc_From := tc_From c; tc_To := tc_To c; tc_Method := tc_Method c;
     tc_Value := tc_Value c; tc_Input := tc_Input c; tc_Ok := true |}.

(** An index of -1 is [None]. *)
Definition traceStart (c : TraceCall) : M (option nat) := fun v =>
  if maxTraceCalls <=? zlen (trace v) then (Ret None, v)
  else (Ret (Some (length (trace v))), set_trace v (trace v ++ [tc_set_Depth c (u32 (zlen (frames v) - 1))])).

Definition traceOk (idx : option nat) : M unit :=
  match idx with
  | None => mret' tt
  | Some i => mset (fun v => set_trace v (alter tc_set_Ok i (trace v)))
  end.

Definition LimitToll (v : machine) (budget : Z) : machine :=
  if vmMaxToll <=? budget then v
  else set_toll v (vmMaxToll - budget) (AddToll (tollStation v) (vmMaxToll - budget)).2.

Definition GasUsed (v : machine) : Z :=
  let total := GetToll (tollStation v) in
  if total <=? tollPreburn v then 0 else total - tollPreburn v.

(** ** Modules *)

Definition LoadContractWasm_ (source : bytes) : wasm_error werr + bytes :=
  if (length source <? 4)%nat || negb (bool_decide (take 4 source = wasmMagic)) then inl WNoMagic
  else match NewModule false source with
       | MadeModule _ => inr source
       | MadeErr e => inl (WInvalid e)
       | MadePanic => inl WPanic
       end.

Definition LoadContractWasm (source : bytes) : res bytes :=
  match LoadContractWasm_ source with inr bin => Ok bin | inl _ => Err ErrWasmInvalid end.

(** What [templateFor] answers: the decoding under the plain configuration,
    which its cache only remembers. *)
Definition template (source : bytes) : res (werr + WModule) :=
  match NewModule false source with
  | MadeModule m => Ok (inr m)
  | MadeErr e => Ok (inl e)
  | MadePanic => Err GoPanic
  end.

(** [templateFor] with its cache, a [sync.Map] keyed by the sha256 of the
    source. *)
Definition templateFor (sha256 : bytes -> vec byte 32) (cache : gmap bytes WModule) (source : bytes)
    : made werr WModule * gmap bytes WModule :=
  let key := vec_to_list (sha256 source) in
  match cache !! key with
  | Some m => (MadeModule m, cache)
  | None =>
      match NewModule false source with
      | MadeModule m => (MadeModule m, <[key := m]> cache)
      | r => (r, cache)
      end
  end.

(** The function types a module's exports resolve to. *)
Definition exportFuncSig (m : WModule) (exportName : bytes) : res (option FuncType) :=
  match ExportSection m !! exportName with
  | None => Ok None
  | Some d =>
      if negb (Kind d =? 0) then Ok None
      else
        let numImportedFuncs := zlen (filter (fun imp => imp_Kind imp = 0) (ImportSection m)) in
        if Index d <? numImportedFuncs then Ok None
        else match FunctionSection m !! Z.to_nat (Index d - numImportedFuncs) with
             | None => Err GoPanic
             | Some typeIdx => Ok (TypeSection m !! Z.to_nat typeIdx)
             end
  end.

Definition contractHasExport (source name : bytes) : res bool :=
  if zlen source =? 0 then Ok false
  else match NewModule false source with
       | MadePanic => Err GoPanic
       | MadeErr _ => Ok false
       | MadeModule m =>
           let! sig := exportFuncSig m name in
           Ok (match sig with Some sig => zlen (InputTypes sig) =? 0 | None => false end)
       end.

Record ContractExport := { ex_Name : bytes; ex_Params : Z; ex_Results : Z; ex_Callable : bool }.

Definition describeExport (m : WModule) (name : bytes) : res ContractExport :=
  let! sig := exportFuncSig m name in
  Ok (match sig with
      | None => {| ex_Name := name; ex_Params := 0; ex_Results := 0; ex_Callable := false |}
      | Some sig =>
          {| ex_Name := name; ex_Params := zlen (InputTypes sig); ex_Results := zlen (ReturnTypes sig);
             ex_Callable := (zlen (InputTypes sig) =? 0) && negb (bool_decide (name = EntryOnActivate))
                            && negb (bool_decide (name = EntryOnUpgrade)) && negb (bool_decide (name = EntryOnValidate)) |}
      end).

(** The exports in some order of the Go map. *)
Definition ContractExports (source : bytes) : res (werr + list ContractExport) :=
  if zlen source =? 0 then Ok (inr [])
  else match NewModule false source with
       | MadePanic => Err GoPanic
       | MadeErr e => Ok (inl e)
       | MadeModule m =>
           let! l := res_fold (fun acc kv => if negb (Kind kv.2 =? 0) then Ok acc
                                            else let! e := describeExport m kv.1 in Ok (acc ++ [e]))
                              [] (map_to_list (ExportSection m)) in
           Ok (inr l)
       end.

(** deps.go *)
Definition bs58_addr (name : bytes) : res Address := NewAddressFromBS58 (String.string_of_list_byte name).

Definition resolveDepAddr (raw : bytes) : res Address :=
  match bs58_addr raw with Ok addr => Ok addr | Err _ => Err ErrDepInvalidImport end.

Definition addDep (deps : list bytes) (imp : Import) : list bytes :=
  if is_ok (bs58_addr (imp_Module imp)) && negb (bool_decide (imp_Module imp ∈ deps)) then deps ++ [imp_Module imp] else deps.

Definition parseContractDeps (m : WModule) : res (list bytes) :=
  let deps := foldl addDep [] (ImportSection m) in
  reject maxDepsPerContract <? zlen deps with ErrDepLimit ;
  Ok deps.

Definition resolveDepAddrs (deps : list bytes) : res (list Address) :=
  res_fold (fun addrs raw => let! addr := resolveDepAddr raw in
                             Ok (if bool_decide (addr ∈ addrs) then addrs else addrs ++ [addr])) [] deps.

Definition extractContractDeps (contractText : bytes) : res (list Address) :=
  if zlen contractText =? 0 then Ok []
  else
    let! bin := LoadContractWasm contractText in
    let! m := template bin in
    match m with
    | inl _ => Err ErrWasmInvalid
    | inr m => let! deps := parseContractDeps m in resolveDepAddrs deps
    end.

(** ** Entries *)

Definition is_reserved_entry (method : bytes) : bool :=
  bool_decide (method = []) || bool_decide (method = EntryOnTx) || bool_decide (method = EntryOnActivate)
  || bool_decide (method = EntryOnUpgrade) || bool_decide (method = EntryOnValidate).

(** The method to run, when it is a zero-argument export. *)
Definition dispatch (m : WModule) (method : bytes) : res bytes :=
  if is_reserved_entry method then Ok EntryOnTx
  else
    let! sig := exportFuncSig m method in
    Ok (match sig with
        | Some sig => if negb (zlen (InputTypes sig) =? 0) then EntryOnTx else method
        | None => EntryOnTx
        end).

Definition EntryFor (v : machine) (defaultEntry : bytes) : res (bytes * machine) :=
  if negb (bool_decide (defaultEntry = EntryOnTx)) || (zlen (tx_Extra (caller (env v))) =? 0) then Ok (defaultEntry, v)
  else
    match DecodeCallData (tx_Extra (caller (env v))) with
    | Err _ => Ok (defaultEntry, v)
    | Ok (method, args) =>
        let v := set_callArgs v args in
        let! entry := dispatch (module (env v)) method in
        Ok (entry, v)
    end.

Definition resolveDynEntry (m : WModule) (calldata : bytes) : res (bytes * bytes) :=
  match DecodeCallData calldata with
  | Err _ => Ok (EntryOnTx, calldata)
  | Ok (method, a) => let! entry := dispatch m method in Ok (entry, a)
  end.

(** ** Running engine code *)

Definition HostHandler : Type := bytes -> bytes -> list Z -> option bytes -> M (list Z * option bytes).

Fixpoint runExec {A} (host : HostHandler) (e : exec werr A) : M A :=
  match e with
  | ERet a => mret' a
  | EPanic => mpanic PEngine
  | EToll n k => fun v =>
      let '(ok, st) := AddToll (tollStation v) (Z.of_N n) in
      runExec host (k ok) (set_toll v (tollPreburn v) st)
  | EHost m f args mem k => fun v =>
      match host m f args mem v with
      | (Ret r, v) => runExec host (k (inr r)) v
      | (Panic p, v) => runExec host (k (inl p)) v
      | (Fuel, v) => (Fuel, v)
      end
  end.

(** The names the linker knows. *)
Definition builtin_names : list (bytes * bytes) :=
  (fun p => (str p.1, str p.2)) <$>
  [("log", "debug"); ("log", "error"); ("log", "emit");
   ("env", "get_gas"); ("env", "buf_set"); ("env", "buf_size"); ("env", "buf_get");
   ("address", "get_size"); ("address", "get_host"); ("address", "get_caller");
   ("coin", "get_balance"); ("coin", "transfer");
   ("kv", "get_size"); ("kv", "get"); ("kv", "set"); ("kv", "count"); ("kv", "key_size_at"); ("kv", "key_at"); ("kv", "del");
   ("tx", "get_hash_size"); ("tx", "get_hash"); ("tx", "get_network"); ("tx", "get_height"); ("tx", "get_timestamp");
   ("tx", "get_paid"); ("tx", "get_from"); ("tx", "get_to"); ("tx", "get_fee_size"); ("tx", "get_fee");
   ("tx", "get_extra_size"); ("tx", "get_extra");
   ("crypto", "blake3"); ("crypto", "verify"); ("crypto", "addr_of"); ("crypto", "random");
   ("contract", "call"); ("contract", "is_active"); ("contract", "get_code_size"); ("contract", "get_code");
   ("contract", "code_hash")]%string.

Definition linked_names (l : gmap bytes (gmap bytes service)) : gset (bytes * bytes) :=
  list_to_set (builtin_names ++ (map_to_list l ≫= fun kv => (fun e => (kv.1, e)) <$> (map_to_list kv.2).*1)).

(** An instance joins the heap; its index is the pointer. *)
Definition instantiate (host : HostHandler) (m : WModule) : M (werr + nat) := fun v =>
  mbind' (runExec host (Instantiate (linked_names (linker v)) m))
    (fun r => match r with
              | inl e => mret' (inl e)
              | inr ins => fun v => (Ret (inr (length (instances v))), set_instances v (instances v ++ [ins]))
              end) v.

Definition callExported (host : HostHandler) (i : nat) (name : bytes) (args : list Z) : M (werr + list Z) := fun v =>
  match instances v !! i with
  | None => (Panic (PGo GoPanic), v)
  | Some ins =>
      mbind' (runExec host (CallExportedFunc ins name args))
        (fun r => fun v => (Ret r.1, set_instances v (<[i := r.2]> (instances v)))) v
  end.

(** ** service.go and the linking of wasm.go *)

Definition define (linkName exportName : bytes) (s : service) (v : machine) : machine :=
  set_linker v (<[linkName := <[exportName := s]> (default ∅ (linker v !! linkName))]> (linker v)).

Definition linkExport (linkName : bytes) (addr : Address) (ins : nat) (m : WModule) (err : option (vm_error werr))
    (exportName : bytes) : M (option (vm_error werr)) :=
  match err with
  | Some e => mret' (Some e)
  | None =>
      v! sig := lift (exportFuncSig m exportName) in
      match sig with
      | None => mret' None
      | Some sig =>
          if linkable sig then
            vdo! mset (define linkName exportName {| sv_addr := addr; sv_ins := ins; sv_sig := sig |}) ;
            mret' None
          else mret' (Some (VDepExport linkName exportName))
      end
  end.

Definition linkServiceDep (host : HostHandler) (load : WModule -> M (option (vm_error werr))) (linkName : bytes)
    (depAcc : Contract) : M (option (vm_error werr)) :=
  let addr := Owner depAcc in
  match LoadContractWasm_ (Source depAcc) with
  | inl e => mret' (Some (VDepWasm addr e))
  | inr depBin =>
      v! m := lift (template depBin) in
      match m with
      | inl e => mret' (Some (VDepLoad addr e))
      | inr depModule =>
          v! err := load depModule in
          match err with
          | Some e => mret' (Some e)
          | None =>
              v! ins := instantiate host depModule in
              match ins with
              | inl e => mret' (Some (VDepInstantiate addr e))
              | inr ins => mfold (linkExport linkName addr ins depModule) None (map_to_list (ExportSection depModule)).*1
              end
          end
      end
  end.

Definition linkDep (host : HostHandler) (load : WModule -> M (option (vm_error werr))) (err : option (vm_error werr))
    (name : bytes) : M (option (vm_error werr)) :=
  match err with
  | Some e => mret' (Some e)
  | None =>
      v! v := mget id in
      if bool_decide (is_Some (linker v !! name)) then mret' None
      else
        match resolveDepAddr name with
        | Err e => mret' (Some (VGo e))
        | Ok addr =>
            if Address_Equals addr (Owner (self (env v))) then mret' (Some (VGo ErrDepSelf))
            else
              match getContract (txn (env v)) addr with
              | Err e => mret' (Some (VGo e))
              | Ok depAcc =>
                  if negb (IsActive depAcc) || (zlen (Source depAcc) =? 0) then mret' (Some (VGo ErrDepNotActive))
                  else linkServiceDep host load name depAcc
              end
        end
  end.

(** [levels] is [maxDepChainDepth - depth]. *)
Fixpoint loadContractDeps (host : HostHandler) (levels : nat) (m : WModule) : M (option (vm_error werr)) :=
  match parseContractDeps m with
  | Err e => mret' (Some (VGo e))
  | Ok deps =>
      match levels with
      | O => mret' (if negb (zlen deps =? 0) then Some (VGo ErrDepLimit) else None)
      | S levels' => mfold (linkDep host (loadContractDeps host levels')) None deps
      end
  end.

(** The value types of the wasm binary format. *)
Definition ValueTypeI32 : Z := 127.
Definition ValueTypeI64 : Z := 126.
Definition is_integer (t : Z) : bool := (t =? ValueTypeI32) || (t =? ValueTypeI64).

Definition fromRaw (raw t : Z) : Z := if t =? ValueTypeI32 then u32 raw else raw.

Definition addr_bytes (a : Address) : bytes := vec_to_list a.

(** The body [makeServiceWrapper] fabricates. *)
Definition serviceWrapper (host : HostHandler) (s : service) (exportName : bytes) (args : list Z) : M (list Z) :=
  let addr := sv_addr s in
  v! from := currentAddress in
  v! reentered := mget (onStack addr) in
  if (reentered : bool) then
    vdo! traceStart (trace_call (str "call") (addr_bytes from) (addr_bytes addr) exportName [] []) ;
    mpanic (PReentry addr)
  else
    vdo! charge gasServiceCall ;
    if negb (forallb is_integer (InputTypes (sv_sig s))) then mpanic (PBadExport addr exportName)
    else
      v! idx := traceStart (trace_call (str "call") (addr_bytes from) (addr_bytes addr) exportName [] []) in
      vdo! mset (push_frame addr) ;
      v! r := callExported host (sv_ins s) exportName args in
      vdo! mset pop_frame ;
      match r with
      | inl e => mpanic (PServiceFailed addr exportName e)
      | inr rets =>
          vdo! traceOk idx ;
          if negb (length rets =? length (ReturnTypes (sv_sig s)))%nat then mpanic (PBadExport addr exportName)
          else if negb (forallb is_integer (ReturnTypes (sv_sig s))) then mpanic (PBadExport addr exportName)
          else mret' (zip_with fromRaw rets (ReturnTypes (sv_sig s)))
      end.

Definition serviceCall (host : HostHandler) (addrPtr argsPtr argsLen : Z) (mem : option bytes) : M Z :=
  vdo! charge gasServiceCall ;
  v! v := mget id in
  if maxDepChainDepth <=? zlen (frames v) then mpanic PDepLimit
  else
    match readAddr mem addrPtr, readMem mem argsPtr argsLen with
    | Some target, Some calldata =>
        if onStack target v then
          v! from := currentAddress in
          vdo! traceStart (trace_call (str "call") (addr_bytes from) (addr_bytes target) [] [] []) ;
          mpanic (PReentry target)
        else
          match getContract (txn (env v)) target with
          | Err _ => mret' 0
          | Ok acc =>
              if negb (IsActive acc) || (zlen (Source acc) =? 0) then mret' 0
              else
                match LoadContractWasm_ (Source acc) with
                | inl _ => mret' 0
                | inr bin =>
                    match NewModule true bin with
                    | MadePanic => mpanic PEngine
                    | MadeErr _ => mret' 0
                    | MadeModule md =>
                        v! err := loadContractDeps host (Z.to_nat (maxDepChainDepth - zlen (frames v))) md in
                        match err with
                        | Some _ => mret' 0
                        | None =>
                            v! inst := instantiate host md in
                            match inst with
                            | inl _ => mret' 0
                            | inr inst =>
                                v! (entry, args) := lift (resolveDynEntry md calldata) in
                                v! from := currentAddress in
                                v! idx := traceStart (trace_call (str "call") (addr_bytes from) (addr_bytes target) entry [] args) in
                                v! savedArgs := mget callArgs in
                                vdo! mset (fun v => push_frame target (set_callArgs v args)) ;
                                v! r := callExported host inst entry [] in
                                vdo! mset (fun v => set_callArgs (pop_frame v) savedArgs) ;
                                match r with
                                | inl e => mpanic (PServiceFailed target entry e)
                                | inr _ => vdo! traceOk idx ; mret' 1
                                end
                            end
                        end
                    end
                end
          end
    | _, _ => mret' 0
    end.

(** ** The host modules *)

(** A host function that answers one number, after copying into memory. *)
Definition answer (mem : option bytes) (z : Z) : M (list Z * option bytes) := mret' ([z], mem).

Definition copy_out (mem : option bytes) (ptr : Z) (data : bytes) : M (list Z * option bytes) :=
  match cp mem ptr data with
  | Some (l, mem') => mret' ([l], mem')
  | None => answer mem 0
  end.

Definition vmContext : M ContractContext :=
  v! addr := currentAddress in
  fun v => match contextOf (journal' v) (txn (env v)) addr with
           | Ok (Some ctx, j) => (Ret ctx, set_journal v j)
           | Ok (None, j) => (Panic (PGo GoPanic), set_journal v j)
           | Err e => (Panic (PGo e), v)
           end.

(** imports.go *)
Definition log_emit (topicPtr topicLen dataPtr dataLen : Z) (mem : option bytes) : M (list Z * option bytes) :=
  vdo! charge (gasEventBase + gasEventPerByte * u32 (topicLen + dataLen)) ;
  v! v := mget id in
  if (maxEventsPerRun <=? zlen (events v)) || (maxEventTopicLen <? topicLen) || (maxEventDataLen <? dataLen) then answer mem 0
  else
    match readMem mem topicPtr topicLen with
    | None => answer mem 0
    | Some topic =>
        if has_prefix EventTopicPrefix topic then answer mem 0
        else
          match readMem mem dataPtr dataLen with
          | None => answer mem 0
          | Some data =>
              v! addr := currentAddress in
              vdo! mset (fun v => set_events v (events v ++ [{| ev_Contract := addr_bytes addr; ev_Topic := topic; ev_Data := data |}])) ;
              answer mem 1
          end
    end.

Definition env_get_gas (mem : option bytes) : M (list Z * option bytes) :=
  v! spent := mget (fun v => GetToll (tollStation v)) in
  answer mem (if vmMaxToll <=? spent then 0 else vmMaxToll - spent).

Definition buf (v : machine) (slot : Z) : bytes := default [] (bufs v !! Z.to_nat slot).

Definition env_buf_set (slot ptr size : Z) (mem : option bytes) : M (list Z * option bytes) :=
  if (vmBufSlots <=? slot) || (vmBufMaxLen <? size) then answer mem 0
  else
    match readMem mem ptr size with
    | None => answer mem 0
    | Some data =>
        vdo! mset (fun v => set_bufs v (<[Z.to_nat slot := data]> (bufs v))) ;
        answer mem 1
    end.

Definition env_buf_size (slot : Z) (mem : option bytes) : M (list Z * option bytes) :=
  if vmBufSlots <=? slot then answer mem 0
  else v! v := mget id in answer mem (u32 (zlen (buf v slot))).

Definition env_buf_get (slot ptr : Z) (mem : option bytes) : M (list Z * option bytes) :=
  if vmBufSlots <=? slot then answer mem 0
  else v! v := mget id in copy_out mem ptr (buf v slot).

(** imports_address.go *)
Definition address_get_host (ptr : Z) (mem : option bytes) : M (list Z * option bytes) :=
  v! addr := currentAddress in copy_out mem ptr (addr_bytes addr).

Definition address_get_caller (ptr : Z) (mem : option bytes) : M (list Z * option bytes) :=
  v! addr := mget callerAddress in copy_out mem ptr (addr_bytes addr).

(** imports_coin.go *)
Definition coin_get_balance (addrPtr ptr : Z) (mem : option bytes) : M (list Z * option bytes) :=
  vdo! charge gasKVRead ;
  match readAddr mem addrPtr with
  | None => answer mem 0
  | Some addr =>
      v! bal := mget (fun v => balanceOf (journal' v) (txn (env v)) addr) in
      match writeBigLE mem ptr bal with
      | Some (l, mem') => mret' ([l], mem')
      | None => answer mem 0
      end
  end.

Definition transfer_event (from to : Address) (value : Z) : Event :=
  {| ev_Contract := addr_bytes from; ev_Topic := EventTopicTransfer; ev_Data := addr_bytes to ++ bigToLE32 value |}.

(** The trace leaf and the system event of a transfer made. *)
Definition noteTransfer (from to : Address) (value : Z) : M unit :=
  v! idx := traceStart (trace_call (str "transfer") (addr_bytes from) (addr_bytes to) [] (bigToLE32 value) []) in
  vdo! traceOk idx ;
  mset (fun v => if zlen (events v) <? maxEventsPerRun then set_events v (events v ++ [transfer_event from to value]) else v).

Definition coin_transfer (toPtr valuePtr : Z) (mem : option bytes) : M (list Z * option bytes) :=
  vdo! charge gasCoinTransfer ;
  match readAddr mem toPtr, readBigLE mem valuePtr with
  | Some to, Some value =>
      v! from := currentAddress in
      v! v := mget id in
      match transfer (journal' v) (txn (env v)) from to value with
      | Err _ => answer mem 0
      | Ok j =>
          vdo! mset (fun v => set_journal v j) ;
          vdo! noteTransfer from to value ;
          answer mem 1
      end
  | _, _ => answer mem 0
  end.

(** imports_kv.go; reads of a reserved key see nothing. *)
Definition kv_get_size (keyPtr keyLen : Z) (mem : option bytes) : M (list Z * option bytes) :=
  vdo! charge gasKVRead ;
  match readMem mem keyPtr keyLen with
  | None => answer mem 0
  | Some key =>
      if isReservedKey key then answer mem 0
      else v! ctx := vmContext in answer mem (u32 (zlen (Get ctx key).1))
  end.

Definition kv_get (keyPtr keyLen valPtr : Z) (mem : option bytes) : M (list Z * option bytes) :=
  vdo! charge gasKVRead ;
  match readMem mem keyPtr keyLen with
  | None => answer mem 0
  | Some key =>
      if isReservedKey key then answer mem 0
      else v! ctx := vmContext in copy_out mem valPtr (Get ctx key).1
  end.

(** The journal after a fallible deposit move. *)
Definition with_journal (f : vmJournal -> Txn -> Address -> res vmJournal) (p : error -> vmpanic werr) : M unit :=
  v! addr := currentAddress in
  fun v => match f (journal' v) (txn (env v)) addr with
           | Ok j => (Ret tt, set_journal v j)
           | Err e => (Panic (p e), v)
           end.

Definition rentActive (v : machine) : bool :=
  IsForkActive (tx_Network (caller (env v))) ForkStateRent (tx_Height (caller (env v))).

(** What an entry owes: its key and value, when it is there at all. *)
Definition stored_size (ctx : ContractContext) (key : bytes) : Z :=
  if (Has ctx key).1 then zlen key + zlen (Get ctx key).1 else 0.

Definition writeContext (f : ContractContext -> ContractContext) : M unit :=
  v! ctx := vmContext in
  v! addr := currentAddress in
  mset (fun v => set_journal v (setContext (journal' v) addr (f ctx))).

Definition settleDeposit (delta : Z) : M unit :=
  if 0 <? delta then with_journal (fun j t a => lockDeposit j t a (depositFor delta)) (fun _ => PDeposit)
  else if delta <? 0 then with_journal (fun j t a => refundDeposit j t a (depositFor (- delta))) PGo
  else mret' tt.

Definition kv_set (keyPtr keyLen valPtr valLen : Z) (mem : option bytes) : M (list Z * option bytes) :=
  vdo! charge (gasKVSetBase + gasKVSetPerByte * u32 (keyLen + valLen)) ;
  match readMem mem keyPtr keyLen with
  | None => answer mem 0
  | Some key =>
      if isReservedKey key then mpanic (PReservedKey key)
      else
        match readMem mem valPtr valLen with
        | None => answer mem 0
        | Some value =>
            v! rent := mget rentActive in
            vdo! (if (rent : bool) then
                    v! ctx := vmContext in
                    settleDeposit (zlen key + zlen value - stored_size ctx key)
                  else mret' tt) ;
            vdo! writeContext (fun ctx => Set' ctx key value) ;
            answer mem 1
        end
  end.

Definition kv_del (keyPtr keyLen : Z) (mem : option bytes) : M (list Z * option bytes) :=
  vdo! charge gasKVDel ;
  match readMem mem keyPtr keyLen with
  | None => answer mem 0
  | Some key =>
      if isReservedKey key then mpanic (PReservedKey key)
      else
        v! rent := mget rentActive in
        vdo! (if (rent : bool) then
                v! ctx := vmContext in
                if (Has ctx key).1 then with_journal (fun j t a => refundDeposit j t a (depositFor (stored_size ctx key))) PGo
                else mret' tt
              else mret' tt) ;
        vdo! writeContext (fun ctx => Del ctx key) ;
        answer mem 1
  end.

Definition matchingKeys (prefix : bytes) : M (list bytes) :=
  v! ctx := vmContext in
  mret' (filter (fun k => isReservedKey k = false /\ has_prefix prefix k = true) (ctx_Keys ctx)).

Definition kv_count (prefixPtr prefixLen : Z) (mem : option bytes) : M (list Z * option bytes) :=
  vdo! charge gasKVRead ;
  match readMem mem prefixPtr prefixLen with
  | None => answer mem 0
  | Some prefix => v! keys := matchingKeys prefix in answer mem (u32 (zlen keys))
  end.

(** Both indexed reads; an index past the end answers 0. *)
Definition kv_at (prefixPtr prefixLen index : Z) (mem : option bytes) (k : bytes -> M (list Z * option bytes))
    : M (list Z * option bytes) :=
  vdo! charge gasKVRead ;
  match readMem mem prefixPtr prefixLen with
  | None => answer mem 0
  | Some prefix =>
      v! keys := matchingKeys prefix in
      if u32 (zlen keys) <=? index then answer mem 0
      else match keys !! Z.to_nat index with Some key => k key | None => mpanic (PGo GoPanic) end
  end.

Definition kv_key_size_at (prefixPtr prefixLen index : Z) (mem : option bytes) : M (list Z * option bytes) :=
  kv_at prefixPtr prefixLen index mem (fun key => answer mem (u32 (zlen key))).

Definition kv_key_at (prefixPtr prefixLen index outPtr : Z) (mem : option bytes) : M (list Z * option bytes) :=
  kv_at prefixPtr prefixLen index mem (fun key => copy_out mem outPtr key).

(** imports_tx.go *)
Definition the_tx : M FullTx := mget (fun v => caller (env v)).

Definition tx_get_paid (ptr : Z) (mem : option bytes) : M (list Z * option bytes) :=
  v! tx := the_tx in
  v! addr := currentAddress in
  match writeBigLE mem ptr (if bool_decide (tx_To tx = addr) then tx_Value tx else 0) with
  | Some (l, mem') => mret' ([l], mem')
  | None => answer mem 0
  end.

Definition tx_get_from (ptr : Z) (mem : option bytes) : M (list Z * option bytes) :=
  v! tx := the_tx in
  match From tx with
  | Err _ => answer mem 0
  | Ok from => copy_out mem ptr (addr_bytes from)
  end.

(** imports_crypto.go *)
Definition crypto_blake3 (ptr size out : Z) (mem : option bytes) : M (list Z * option bytes) :=
  vdo! charge (gasHashBase + gasHashPerByte * size) ;
  match readMem mem ptr size with
  | None => answer mem 0
  | Some data => copy_out mem out (Hash256 data)
  end.

(** [SigScheme(scheme)] keeps the low byte. *)
Definition crypto_verify (scheme pkPtr pkLen hashPtr sigPtr sigLen : Z) (mem : option bytes) : M (list Z * option bytes) :=
  vdo! charge gasSigVerify ;
  match readMem mem pkPtr pkLen, readMem mem hashPtr 32, readMem mem sigPtr sigLen with
  | Some pubKey, Some hash, Some sig => answer mem (if VerifyContractSig (Zbyte scheme) pubKey hash sig then 1 else 0)
  | _, _, _ => answer mem 0
  end.

Definition crypto_addr_of (scheme pkPtr pkLen out : Z) (mem : option bytes) : M (list Z * option bytes) :=
  vdo! charge (gasHashBase + gasHashPerByte * pkLen) ;
  match readMem mem pkPtr pkLen with
  | None => answer mem 0
  | Some pubKey => copy_out mem out (addr_bytes (AddressOfPubKey (Zbyte scheme) pubKey))
  end.

Definition crypto_random (out : Z) (mem : option bytes) : M (list Z * option bytes) :=
  vdo! charge gasRandom ;
  v! seed := mget (fun v => getBeacon (txn (env v))) in
  copy_out mem out seed.

(** imports_contract.go *)
Definition contract_is_active (addrPtr : Z) (mem : option bytes) : M (list Z * option bytes) :=
  vdo! charge gasKVRead ;
  match readAddr mem addrPtr with
  | None => answer mem 0
  | Some addr =>
      v! acc := mget (fun v => getContract (txn (env v)) addr) in
      answer mem (match acc with Ok acc => if IsActive acc then 1 else 0 | Err _ => 0 end)
  end.

Definition contract_get_code_size (addrPtr : Z) (mem : option bytes) : M (list Z * option bytes) :=
  vdo! charge gasKVRead ;
  match readAddr mem addrPtr with
  | None => answer mem 0
  | Some addr =>
      v! acc := mget (fun v => getContract (txn (env v)) addr) in
      answer mem (match acc with Ok acc => u32 (zlen (Source acc)) | Err _ => 0 end)
  end.

Definition contract_get_code (addrPtr ptr : Z) (mem : option bytes) : M (list Z * option bytes) :=
  match readAddr mem addrPtr with
  | None => answer mem 0
  | Some addr =>
      v! acc := mget (fun v => getContract (txn (env v)) addr) in
      match acc with
      | Err _ => answer mem 0
      | Ok acc =>
          vdo! charge (gasKVRead + zlen (Source acc) / 8) ;
          copy_out mem ptr (Source acc)
      end
  end.

Definition contract_code_hash (addrPtr ptr : Z) (mem : option bytes) : M (list Z * option bytes) :=
  match readAddr mem addrPtr with
  | None => answer mem 0
  | Some addr =>
      v! acc := mget (fun v => getContract (txn (env v)) addr) in
      match acc with
      | Err _ => answer mem 0
      | Ok acc =>
          if zlen (Source acc) =? 0 then answer mem 0
          else
            vdo! charge (gasKVRead + zlen (Source acc) / 8) ;
            copy_out mem ptr (Hash256 (Source acc))
      end
  end.

(** ** The linker table *)

Definition HostFn : Type := list Z -> option bytes -> M (list Z * option bytes).

(** The linker checks the wasm signature against the Go one, so a call has
    the arity of the function; the parameters are all [uint32]. *)
Definition fn0 (f : option bytes -> M (list Z * option bytes)) : HostFn := fun args mem =>
  match args with [] => f mem | _ => mpanic (PGo GoPanic) end.
Definition fn1 (f : Z -> option bytes -> M (list Z * option bytes)) : HostFn := fun args mem =>
  match args with [a] => f (u32 a) mem | _ => mpanic (PGo GoPanic) end.
Definition fn2 (f : Z -> Z -> option bytes -> M (list Z * option bytes)) : HostFn := fun args mem =>
  match args with [a; b] => f (u32 a) (u32 b) mem | _ => mpanic (PGo GoPanic) end.
Definition fn3 (f : Z -> Z -> Z -> option bytes -> M (list Z * option bytes)) : HostFn := fun args mem =>
  match args with [a; b; c] => f (u32 a) (u32 b) (u32 c) mem | _ => mpanic (PGo GoPanic) end.
Definition fn4 (f : Z -> Z -> Z -> Z -> option bytes -> M (list Z * option bytes)) : HostFn := fun args mem =>
  match args with [a; b; c; d] => f (u32 a) (u32 b) (u32 c) (u32 d) mem | _ => mpanic (PGo GoPanic) end.
Definition fn6 (f : Z -> Z -> Z -> Z -> Z -> Z -> option bytes -> M (list Z * option bytes)) : HostFn := fun args mem =>
  match args with [a; b; c; d; e; g] => f (u32 a) (u32 b) (u32 c) (u32 d) (u32 e) (u32 g) mem | _ => mpanic (PGo GoPanic) end.

(** A log call reads memory and writes only to the node's log. *)
Definition log_line (_ _ : Z) (mem : option bytes) : M (list Z * option bytes) := mret' ([], mem).

(** A number read off the calling transaction, and a byte string. *)
Definition of_tx (f : FullTx -> Z) (mem : option bytes) : M (list Z * option bytes) := v! tx := the_tx in answer mem (f tx).
Definition tx_bytes (f : FullTx -> bytes) (ptr : Z) (mem : option bytes) : M (list Z * option bytes) :=
  v! tx := the_tx in copy_out mem ptr (f tx).

Definition contract_call (host : HostHandler) (addrPtr argsPtr argsLen : Z) (mem : option bytes) : M (list Z * option bytes) :=
  v! r := serviceCall host addrPtr argsPtr argsLen mem in answer mem r.

Definition initBuiltInImports (host : HostHandler) : list (string * string * HostFn) :=
  [("log", "debug", fn2 log_line);
   ("log", "error", fn2 log_line);
   ("log", "emit", fn4 log_emit);
   ("env", "get_gas", fn0 env_get_gas);
   ("env", "buf_set", fn3 env_buf_set);
   ("env", "buf_size", fn1 env_buf_size);
   ("env", "buf_get", fn2 env_buf_get);
   ("address", "get_size", fn0 (fun mem => answer mem AddressSize));
   ("address", "get_host", fn1 address_get_host);
   ("address", "get_caller", fn1 address_get_caller);
   ("coin", "get_balance", fn2 coin_get_balance);
   ("coin", "transfer", fn2 coin_transfer);
   ("kv", "get_size", fn2 kv_get_size);
   ("kv", "get", fn3 kv_get);
   ("kv", "set", fn4 kv_set);
   ("kv", "count", fn2 kv_count);
   ("kv", "key_size_at", fn3 kv_key_size_at);
   ("kv", "key_at", fn4 kv_key_at);
   ("kv", "del", fn2 kv_del);
   ("tx", "get_hash_size", fn0 (fun mem => answer mem HashSize));
   ("tx", "get_hash", fn1 (tx_bytes GetHash));
   ("tx", "get_network", fn0 (of_tx tx_Network));
   ("tx", "get_height", fn0 (of_tx tx_Height));
   ("tx", "get_timestamp", fn0 (fun mem => v! t := mget (fun v => blockTime (env v)) in answer mem (t / 1000)));
   ("tx", "get_paid", fn1 tx_get_paid);
   ("tx", "get_from", fn1 tx_get_from);
   ("tx", "get_to", fn1 (tx_bytes (fun tx => addr_bytes (tx_To tx))));
   ("tx", "get_fee_size", fn0 (of_tx (fun tx => u32 (zlen (big_Bytes (tx_Fee tx))))));
   ("tx", "get_fee", fn1 (tx_bytes (fun tx => big_Bytes (tx_Fee tx))));
   ("tx", "get_extra_size", fn0 (fun mem => v! a := mget callArgs in answer mem (u32 (zlen a))));
   ("tx", "get_extra", fn1 (fun ptr mem => v! a := mget callArgs in copy_out mem ptr a));
   ("crypto", "blake3", fn3 crypto_blake3);
   ("crypto", "verify", fn6 crypto_verify);
   ("crypto", "addr_of", fn4 crypto_addr_of);
   ("crypto", "random", fn1 crypto_random);
   ("contract", "call", fn3 (contract_call host));
   ("contract", "is_active", fn1 contract_is_active);
   ("contract", "get_code_size", fn1 contract_get_code_size);
   ("contract", "get_code", fn2 contract_get_code);
   ("contract", "code_hash", fn2 contract_code_hash)]%string.

Fixpoint list_find_first {A} (p : A -> bool) (l : list A) : option A :=
  match l with [] => None | x :: l' => if p x then Some x else list_find_first p l' end.

Definition findFn (l : list (string * string * HostFn)) (m f : bytes) : option HostFn :=
  snd <$> list_find_first (fun e => bool_decide (str e.1.1 = m) && bool_decide (str e.1.2 = f)) l.

(** A call leaves the engine under a name it was linked with.  The fuel
    counts nested calls between contracts. *)
Fixpoint hostCall (fuel : nat) : HostHandler := fun m f args mem =>
  match fuel with
  | O => fun v => (Fuel, v)
  | S fuel' =>
      match findFn (initBuiltInImports (hostCall fuel')) m f with
      | Some fn => fn args mem
      | None => fun v =>
          match linker v !! m ≫= (fun exports => exports !! f) with
          | Some s => mbind' (serviceWrapper (hostCall fuel') s f args) (fun rets => mret' (rets, mem)) v
          | None => (Panic (PGo GoPanic), v)
          end
      end
  end.

(** Every level charges [gasServiceCall] before the next. *)
Definition vmFuel : nat := Z.to_nat (vmMaxToll / gasServiceCall + 2).

(** ** wasm.go: building and running a machine *)

Definition fresh_machine (t : Txn) (account : Contract) (tx : FullTx) (blockTime : Z) (md : WModule) (j : vmJournal) : machine :=
  mkMachine {| caller := tx; self := account; txn := t; blockTime := blockTime; module := md |}
    j ∅ [] [Owner account] (tx_Extra tx) [] [] 0 (NewSimpleTollStation vmMaxToll) (replicate 8 []).

(** A panic out of [Instantiate] while linking is nobody's to recover. *)
Definition NewVM (t : Txn) (account : Contract) (tx : FullTx) (blockTime : Z) : res (vm_error werr + machine) :=
  match LoadContractWasm_ (Source account) with
  | inl e => Ok (inl (VWasm e))
  | inr bin =>
      let! md := template bin in
      match md with
      | inl e => Ok (inl (VLoad e))
      | inr md =>
          let! j := newVMJournal account in
          match loadContractDeps (hostCall vmFuel) (Z.to_nat maxDepChainDepth) md (fresh_machine t account tx blockTime md j) with
          | (Ret None, v) => Ok (inr v)
          | (Ret (Some e), _) => Ok (inl e)
          | (Panic _, _) => Err GoPanic
          | (Fuel, _) => Err ErrOutOfFuel
          end
      end
  end.

(** [Run] up to the flush of the journal; [DryRun] is the same without it. *)
Definition runEntry (entry : bytes) : M (option (vm_error werr)) :=
  v! ins := (fun v => instantiate (hostCall vmFuel) (module (env v)) v) in
  match ins with
  | inl e => mret' (Some (VInstantiate e))
  | inr ins =>
      v! r := callExported (hostCall vmFuel) ins entry [] in
      mret' (match r with inl e => Some (VCall entry e) | inr _ => None end)
  end.

Definition finish {A} (r : outcome A * machine) : res (A * machine) :=
  match r with
  | (Ret a, v) => Ok (a, v)
  | (Panic _, _) => Err GoPanic
  | (Fuel, _) => Err ErrOutOfFuel
  end.

Definition IsExportMissing (e : vm_error werr) : bool :=
  match e with
  | VCall _ e | VInstantiate e | VLoad e | VDepLoad _ e | VDepInstantiate _ e => is_missing e
  | VWasm (WInvalid e) | VDepWasm _ (WInvalid e) => is_missing e
  | _ => false
  end.

Definition Run (v : machine) (entry : bytes) (rec : option changeset) : res (option (vm_error werr) * machine * Txn) :=
  let! (err, v) := finish (runEntry entry v) in
  match err with
  | Some e => Ok (Some e, v, txn (env v))
  | None =>
      let! t := flush (journal' v) (txn (env v)) rec in
      Ok (None, v, t)
  end.

Definition DryRun (v : machine) (entry : bytes) : res (Z * option (vm_error werr) * machine) :=
  let! (err, v) := finish (runEntry entry v) in
  Ok (GetToll (tollStation v), err, v).

End Machine.

Arguments Ret {_ _} _.
Arguments Panic {_ _} _.
Arguments Fuel {_ _}.

(** The text of an error, for the receipts (github.com/pkg/errors). *)
Class ErrorText `{Wasman} := error_text : vm_error werr -> bytes.

(** ** The interface of the state layer *)

#[export] Instance wasman_vm `{Hasher} `{SigLibs} `{Codec} `{SlotCodec} `{WM : Wasman} `{TS : TollStation}
    `{ET : !ErrorText} : ContractVM := {|
  Journal.VM := machine;
  Journal.LoadContractWasm := LoadContractWasm;
  Journal.contractHasExport := contractHasExport;
  Journal.extractContractDeps := extractContractDeps;
  Journal.NewVM t account tx bt :=
    let! r := NewVM t account tx bt in
    Ok (match r with inl e => inl (error_text e) | inr v => inr v end);
  Journal.EntryFor := EntryFor;
  Journal.LimitToll := LimitToll;
  Journal.vm_call v entry :=
    let! (err, v) := finish (runEntry entry v) in
    Ok ((fun e => (error_text e, IsExportMissing e)) <$> err, v);
  Journal.GasUsed := GasUsed;
  Journal.Events := events;
  Journal.Trace := trace;
  Journal.journal := journal'
|}.
