(* ===== verification/VMSteps.v ===== *)
(** * What a contract run can do

    Every computation of the machine of VM.v is a sequence of the steps of
    [vstep], whatever the engine does between its host calls.  The
    guarantees of the machine are invariants of the steps, by rule
    induction. *)

From S2P Require Import Prelude Params Keys Contract Types Tx BlockStore State Journal VM.

Section Steps.
Context `{HH : Hasher} `{SL : SigLibs} `{CD : Codec} `{SC : SlotCodec} `{WM : Wasman} `{TS : TollStation}.

Abbreviation top v := (last (frames v)).

(** The account a journal holds for an address, with its context. *)
Definition loaded (j : vmJournal) (a : Address) (ctx : ContractContext) : Prop :=
  exists acc, accounts j !! a = Some acc /\ Context' acc = Some ctx.

Definition is_write (f : ContractContext -> ContractContext) : Prop :=
  exists key, isReservedKey key = false /\ ((exists val, f = fun ctx => Set' ctx key val) \/ f = fun ctx => Del ctx key).

Inductive vstep : machine -> machine -> Prop :=
  | s_toll v n : 0 <= n -> vstep v (set_toll v (tollPreburn v) (AddToll (tollStation v) n).2)
  | s_limit v budget : vstep v (VM.LimitToll v budget)
  | s_load v a acc j : contractOf (journal' v) (txn (env v)) a = Ok (acc, j) -> vstep v (set_journal v j)
  | s_transfer v from to value j :
      top v = Some from -> transfer (journal' v) (txn (env v)) from to value = Ok j -> vstep v (set_journal v j)
  | s_noted v from to value :
      zlen (events v) < maxEventsPerRun -> vstep v (set_events v (events v ++ [transfer_event from to value]))
  | s_lock v a amount j :
      top v = Some a -> lockDeposit (journal' v) (txn (env v)) a amount = Ok j -> vstep v (set_journal v j)
  | s_refund v a amount j :
      top v = Some a -> refundDeposit (journal' v) (txn (env v)) a amount = Ok j -> vstep v (set_journal v j)
  | s_write v a ctx f :
      top v = Some a -> loaded (journal' v) a ctx -> is_write f ->
      vstep v (set_journal v (setContext (journal' v) a (f ctx)))
  | s_event v a topic data :
      top v = Some a -> zlen (events v) < maxEventsPerRun -> has_prefix EventTopicPrefix topic = false ->
      vstep v (set_events v (events v ++ [{| ev_Contract := addr_bytes a; ev_Topic := topic; ev_Data := data |}]))
  | s_trace v t : zlen t <= maxTraceCalls \/ length t = length (trace v) -> vstep v (set_trace v t)
  | s_call v target acc : getContract (txn (env v)) target = Ok acc -> vstep v (push_frame target v)
  | s_service v m f s : linker v !! m ≫= (fun e => e !! f) = Some s -> vstep v (push_frame (sv_addr s) v)
  | s_pop v : vstep v (pop_frame v)
  | s_define v m f s x acc : getContract (txn (env v)) x = Ok acc -> sv_addr s = Owner acc -> vstep v (define m f s v)
  | s_args v a : vstep v (set_callArgs v a)
  | s_bufs v b : length b = length (bufs v) -> vstep v (set_bufs v b)
  | s_instances v i : vstep v (set_instances v i).

(** ** Computations made of steps *)

Lemma vstep_env v v' : vstep v v' -> env v' = env v.
Proof. destruct 1; try done. unfold VM.LimitToll. by destruct (_ <=? _). Qed.

Lemma vsteps_env v v' : rtc vstep v v' -> env v' = env v.
Proof. induction 1 as [|v v1 v' H _ IH]; [done|]. by rewrite IH, (vstep_env v v1). Qed.

(** The environment of the run. *)
Context (e0 : vmEnv).

Definition safe {A} (m : M A) : Prop := forall v, env v = e0 -> rtc vstep v (m v).2.

Lemma safe_ret {A} (a : A) : safe (mret' a).
Proof. intros v _. apply rtc_refl. Qed.

Lemma safe_panic {A} p : safe (mpanic (A := A) p).
Proof. intros v _. apply rtc_refl. Qed.

Lemma safe_get {A} (f : machine -> A) : safe (mget f).
Proof. intros v _. apply rtc_refl. Qed.

Lemma safe_lift {A} (m : res A) : safe (lift m).
Proof. destruct m; [apply safe_ret|apply safe_panic]. Qed.

Lemma safe_bind {A B} (m : M A) (f : A -> M B) : safe m -> (forall a, safe (f a)) -> safe (mbind' m f).
Proof.
  intros Hm Hf v Hv. unfold mbind'. specialize (Hm v Hv). destruct (m v) as [[a|p|] v1]; [|exact Hm|exact Hm].
  pose proof (vsteps_env _ _ Hm) as He. cbn in He. etrans; [exact Hm|apply Hf]. congruence.
Qed.

Lemma safe_set f : (forall v, vstep v (f v)) -> safe (mset f).
Proof. intros Hf v _. by apply rtc_once. Qed.

Lemma safe_charge cost : 0 <= cost -> safe (charge cost).
Proof.
  intros Hc v _. unfold charge. pose proof (s_toll v cost Hc) as Hs. destruct (AddToll (tollStation v) cost) as [ok st].
  by apply rtc_once.
Qed.

Lemma safe_currentAddress : safe currentAddress.
Proof. intros v _. unfold currentAddress. destruct (top v); apply rtc_refl. Qed.

Lemma safe_traceStart c : safe (traceStart c).
Proof.
  intros v _. unfold traceStart. destruct (Z.leb_spec maxTraceCalls (zlen (trace v))); [apply rtc_refl|].
  apply rtc_once, s_trace. left. unfold zlen in *. rewrite length_app. cbn. lia.
Qed.

Lemma safe_traceOk i : safe (traceOk i).
Proof.
  destruct i as [i|]; [|apply safe_ret]. apply safe_set. intros v. apply s_trace. right. apply length_alter.
Qed.

Lemma safe_mfold {A S} (f : S -> A -> M S) l : (forall s x, safe (f s x)) -> forall s, safe (mfold f s l).
Proof. intros Hf. induction l as [|x l IH]; intros s; cbn; [apply safe_ret|]. by apply safe_bind. Qed.

Lemma safe_vmContext : safe vmContext.
Proof.
  apply safe_bind; [apply safe_currentAddress|]. intros a v _. unfold contextOf.
  destruct (contractOf _ _ a) as [[acc j]|] eqn:E; cbn; [|apply rtc_refl].
  pose proof (s_load v a acc j E). destruct (Context' acc); by apply rtc_once.
Qed.

Lemma safe_copy_out mem ptr data : safe (copy_out mem ptr data).
Proof. unfold copy_out. destruct (cp mem ptr data) as [[]|]; apply safe_ret. Qed.

Lemma safe_answer mem z : safe (answer mem z).
Proof. apply safe_ret. Qed.

Create HintDb vm.
#[local] Hint Resolve safe_ret safe_panic safe_get safe_lift safe_currentAddress safe_traceStart safe_traceOk safe_vmContext
  safe_copy_out safe_answer : vm.

(** Splits a computation at its binds and matches. *)
Ltac safely :=
  repeat first
    [ progress cbv zeta
    | match goal with |- safe (mbind' _ _) => apply safe_bind; [|intros ?] end
    | match goal with |- safe (match ?x with _ => _ end) => destruct x end
    | solve [auto with vm] ].

Lemma u32_nonneg z : 0 <= u32 z.
Proof. apply Z.mod_pos_bound. lia. Qed.

Lemma zlen_nonneg {A} (l : list A) : 0 <= zlen l.
Proof. unfold zlen. lia. Qed.

#[local] Hint Resolve u32_nonneg zlen_nonneg : vm.

(** A charge of a cost that is not negative. *)
Ltac charges := lazymatch goal with |- safe (charge _) => apply safe_charge end; repeat match goal with |- context [u32 ?z] => generalize (u32_nonneg z); generalize (u32 z); intros end;
  unfold gasEventBase, gasEventPerByte, gasKVSetBase, gasKVSetPerByte, gasKVDel, gasKVRead, gasCoinTransfer, gasServiceCall,
    gasHashBase, gasHashPerByte, gasSigVerify, gasRandom in *; try lia.

Lemma safe_log_emit a b c d mem : safe (log_emit a b c d mem).
Proof.
  unfold log_emit. apply safe_bind; [charges|intros _]. intros v Hv. cbn [mget mbind' id].
  destruct (Z.leb_spec maxEventsPerRun (zlen (events v))); cbn [orb]; [by apply safe_answer|].
  destruct (_ || _); [by apply safe_answer|]. destruct (readMem mem a b) as [topic|]; [|by apply safe_answer].
  destruct (has_prefix _ topic) eqn:Et; [by apply safe_answer|]. destruct (readMem mem c d) as [data|]; [|by apply safe_answer].
  unfold currentAddress, mbind'. destruct (top v) as [x|] eqn:Ex; [|apply rtc_refl]. cbn. apply rtc_once. by apply s_event.
Qed.

Lemma safe_env_get_gas mem : safe (env_get_gas mem).
Proof. unfold env_get_gas. safely. Qed.

Lemma safe_env_buf_set a b c mem : safe (env_buf_set a b c mem).
Proof.
  unfold env_buf_set. safely. apply safe_set. intros v. apply s_bufs. by rewrite length_insert.
Qed.

Lemma safe_coin_get_balance a b mem : safe (coin_get_balance a b mem).
Proof. unfold coin_get_balance. safely; charges. Qed.

Lemma safe_noteTransfer from to value : safe (noteTransfer from to value).
Proof.
  unfold noteTransfer. safely. intros v _. unfold mset. cbn [snd].
  destruct (Z.ltb_spec (zlen (events v)) maxEventsPerRun); [by apply rtc_once, s_noted|apply rtc_refl].
Qed.

Lemma safe_coin_transfer a b mem : safe (coin_transfer a b mem).
Proof.
  unfold coin_transfer. apply safe_bind; [charges|intros _]. destruct (readAddr mem a) as [to|]; [|apply safe_answer].
  destruct (readBigLE mem b) as [value|]; [|apply safe_answer]. intros v Hv.
  unfold currentAddress. unfold mbind' at 1. destruct (top v) as [from|] eqn:Ef; [|apply rtc_refl].
  unfold mget. unfold mbind' at 1. unfold id. destruct (transfer _ _ from to value) as [j|] eqn:Et; [|apply rtc_refl].
  eapply rtc_l; [by eapply s_transfer|]. unfold mset. unfold mbind' at 1.
  apply safe_bind; [apply safe_noteTransfer|intros _; apply safe_answer|done].
Qed.

Lemma safe_kv_get_size a b mem : safe (kv_get_size a b mem).
Proof. unfold kv_get_size. safely; charges. Qed.

Lemma safe_kv_get a b c mem : safe (kv_get a b c mem).
Proof. unfold kv_get. safely; charges. Qed.

Lemma safe_writeContext f : is_write f -> safe (writeContext f).
Proof.
  intros Hf v Hv. unfold writeContext. unfold mbind' at 1. unfold vmContext, currentAddress. unfold mbind' at 1.
  destruct (top v) as [a|] eqn:Ea; [|apply rtc_refl]. unfold contextOf.
  destruct (contractOf _ _ a) as [[acc j]|] eqn:E; cbn; [|apply rtc_refl].
  pose proof (s_load v a acc j E) as Hs. destruct (Context' acc) as [ctx|] eqn:Ec; [|by apply rtc_once].
  unfold mbind'. cbn [set_journal frames]. rewrite Ea. cbn. eapply rtc_l; [exact Hs|]. apply rtc_once.
  apply (s_write (set_journal v j) a ctx f); [done| |done]. exists acc. split; [|done]. cbn.
  unfold contractOf in E. destruct (accounts (journal' v) !! a) as [acc'|] eqn:El; [by injection E as <- <-|].
  open_ok E. injection E as <- <-. cbn. by rewrite lookup_insert_eq.
Qed.

Lemma safe_lock amount p : safe (with_journal (fun j t a => lockDeposit j t a amount) p).
Proof.
  intros v _. unfold with_journal, currentAddress. unfold mbind'. destruct (top v) as [a|] eqn:Ea; [|apply rtc_refl].
  destruct (lockDeposit _ _ a amount) as [j|] eqn:E; [|apply rtc_refl]. apply rtc_once. by eapply s_lock.
Qed.

Lemma safe_refund amount p : safe (with_journal (fun j t a => refundDeposit j t a amount) p).
Proof.
  intros v _. unfold with_journal, currentAddress. unfold mbind'. destruct (top v) as [a|] eqn:Ea; [|apply rtc_refl].
  destruct (refundDeposit _ _ a amount) as [j|] eqn:E; [|apply rtc_refl]. apply rtc_once. by eapply s_refund.
Qed.

#[local] Hint Resolve safe_lock safe_refund : vm.

Lemma safe_settleDeposit d : safe (settleDeposit d).
Proof. unfold settleDeposit. safely. Qed.

#[local] Hint Resolve safe_settleDeposit : vm.

Lemma safe_kv_set a b c d mem : safe (kv_set a b c d mem).
Proof.
  unfold kv_set. apply safe_bind; [charges|intros _]. destruct (readMem mem a b) as [key|]; [|apply safe_answer].
  destruct (isReservedKey key) eqn:Ek; [apply safe_panic|]. safely.
  apply safe_writeContext. exists key. eauto.
Qed.

Lemma safe_kv_del a b mem : safe (kv_del a b mem).
Proof.
  unfold kv_del. apply safe_bind; [charges|intros _]. destruct (readMem mem a b) as [key|]; [|apply safe_answer].
  destruct (isReservedKey key) eqn:Ek; [apply safe_panic|]. safely.
  apply safe_writeContext. exists key. eauto.
Qed.

Lemma safe_matchingKeys prefix : safe (matchingKeys prefix).
Proof. unfold matchingKeys. safely. Qed.

#[local] Hint Resolve safe_matchingKeys : vm.

Lemma safe_kv_at a b c mem k : (forall key, safe (k key)) -> safe (kv_at a b c mem k).
Proof. intros Hk. unfold kv_at. safely; first [apply Hk|charges]. Qed.

Lemma safe_crypto_blake3 a b c mem : 0 <= b -> safe (crypto_blake3 a b c mem).
Proof. intros Hb. unfold crypto_blake3. safely; charges. Qed.

Lemma safe_crypto_addr_of a b c d mem : 0 <= c -> safe (crypto_addr_of a b c d mem).
Proof. intros Hc. unfold crypto_addr_of. safely; charges. Qed.

Lemma code_charge (acc : Contract) : 0 <= gasKVRead + zlen (Source acc) / 8.
Proof. unfold gasKVRead. assert (0 <= zlen (Source acc) / 8) by (apply Z.div_pos; [apply zlen_nonneg|lia]). lia. Qed.

Lemma safe_contract_get_code a b mem : safe (contract_get_code a b mem).
Proof. unfold contract_get_code. safely. apply safe_charge, code_charge. Qed.

Lemma safe_contract_code_hash a b mem : safe (contract_code_hash a b mem).
Proof. unfold contract_code_hash. safely. apply safe_charge, code_charge. Qed.

(** ** Engine runs, linking and calls between contracts *)

Definition safe_host (host : HostHandler) : Prop := forall m f args mem, safe (host m f args mem).

Lemma safe_runExec {A} host (e : exec werr A) : safe_host host -> safe (runExec host e).
Proof.
  intros Hh. induction e as [a| |n k IH|m f args mem k IH]; cbn [runExec]; [apply safe_ret|apply safe_panic| |]; intros v Hv.
  - pose proof (s_toll v (Z.of_N n) ltac:(lia)) as Hs. destruct (AddToll (tollStation v) (Z.of_N n)) as [ok st].
    eapply rtc_l; [exact Hs|by apply IH].
  - specialize (Hh m f args mem v Hv). pose proof (vsteps_env _ _ Hh) as He.
    destruct (host m f args mem v) as [[r|p|] w]; cbn in *; [etrans; [exact Hh|apply IH; congruence] ..|exact Hh].
Qed.

Lemma safe_instantiate host m : safe_host host -> safe (instantiate host m).
Proof.
  intros Hh v Hv. unfold instantiate. apply safe_bind; [by apply safe_runExec| |done]. intros [e|ins]; [apply safe_ret|].
  intros w _. by apply rtc_once, s_instances.
Qed.

Lemma safe_callExported host i name args : safe_host host -> safe (callExported host i name args).
Proof.
  intros Hh v Hv. unfold callExported. destruct (instances v !! i) as [ins|]; [|apply rtc_refl].
  apply safe_bind; [by apply safe_runExec| |done]. intros r w _. by apply rtc_once, s_instances.
Qed.

#[local] Hint Resolve safe_instantiate safe_callExported : vm.

Lemma safe_linkExport name x acc ins m e export :
  getContract (txn e0) x = Ok acc -> safe (linkExport name (Owner acc) ins m e export).
Proof.
  intros Hx. unfold linkExport. safely. intros v Hv. apply rtc_once. eapply s_define; [by rewrite Hv|done].
Qed.

Lemma safe_linkServiceDep host load name x acc :
  safe_host host -> (forall m, safe (load m)) -> getContract (txn e0) x = Ok acc -> safe (linkServiceDep host load name acc).
Proof.
  intros Hh Hl Hx. unfold linkServiceDep. safely. apply safe_mfold. intros. by eapply safe_linkExport.
Qed.

Lemma safe_linkDep host load e name :
  safe_host host -> (forall m, safe (load m)) -> safe (linkDep host load e name).
Proof.
  intros Hh Hl. unfold linkDep. destruct e; [apply safe_ret|]. intros v Hv. cbn [mget mbind' id]. rewrite Hv.
  destruct (bool_decide _); [apply rtc_refl|]. destruct (resolveDepAddr name) as [x|]; [|apply rtc_refl].
  destruct (Address_Equals _ _); [apply rtc_refl|]. destruct (getContract _ x) as [acc|] eqn:Ex; [|apply rtc_refl].
  destruct (_ || _); [apply rtc_refl|]. by eapply safe_linkServiceDep.
Qed.

Lemma safe_loadContractDeps host levels : safe_host host -> forall m, safe (loadContractDeps host levels m).
Proof.
  intros Hh. induction levels as [|n IH]; intros m; cbn [loadContractDeps]; destruct (parseContractDeps m); try apply safe_ret.
  apply safe_mfold. intros. by apply safe_linkDep.
Qed.

#[local] Hint Resolve safe_loadContractDeps : vm.

Lemma safe_pop_args g : safe (mset (fun v => set_callArgs (pop_frame v) g)).
Proof. intros v _. eapply rtc_l; [apply s_pop|]. apply rtc_once, s_args. Qed.

Lemma safe_pop : safe (mset pop_frame).
Proof. apply safe_set. apply s_pop. Qed.

Lemma safe_push_args target acc a : getContract (txn e0) target = Ok acc ->
  safe (mset (fun v => push_frame target (set_callArgs v a))).
Proof.
  intros Hx v Hv. eapply rtc_l; [apply s_args|]. apply rtc_once. eapply s_call. cbn. by rewrite Hv.
Qed.

#[local] Hint Resolve safe_pop safe_pop_args : vm.

(** From a state back to the computation. *)
Ltac lower := lazymatch goal with |- rtc vstep ?v (?m ?v).2 => cut (safe m); [intros Hlow; by apply Hlow|] end.

Lemma safe_serviceCall host a b c mem : safe_host host -> safe (serviceCall host a b c mem).
Proof.
  intros Hh. unfold serviceCall. apply safe_bind; [charges|intros _]. intros v Hv. unfold mget at 1. unfold mbind' at 1. unfold id. rewrite Hv.
  lower. destruct (_ <=? _); [apply safe_panic|]. destruct (readAddr mem a) as [target|]; [|apply safe_ret].
  destruct (readMem mem b c) as [calldata|]; [|apply safe_ret]. destruct (onStack target v); [safely|].
  destruct (getContract _ target) as [acc|] eqn:Ex; [|apply safe_ret]. safely.
  by eapply safe_push_args.
Qed.

Lemma safe_serviceWrapper host s f args m v :
  safe_host host -> env v = e0 -> linker v !! m ≫= (fun e => e !! f) = Some s ->
  rtc vstep v (serviceWrapper host s f args v).2.
Proof.
  intros Hh Hv Hs. unfold serviceWrapper, currentAddress. unfold mbind' at 1. destruct (top v) as [from|]; [|apply rtc_refl].
  unfold mget. unfold mbind' at 1. destruct (onStack (sv_addr s) v).
  { lower. safely. }
  unfold mbind' at 1. pose proof (safe_charge gasServiceCall ltac:(done) v Hv) as Hc.
  assert (Hl : linker (charge gasServiceCall v).2 = linker v /\ env (charge gasServiceCall v).2 = e0).
  { unfold charge. by destruct (AddToll _ _) as [[] ?]. }
  destruct (charge gasServiceCall v) as [[[]|p|] w]; [|exact Hc ..]. cbn in Hc, Hl. destruct Hl as [Hl Hw].
  etrans; [exact Hc|]. clear Hc Hv. rewrite <-Hl in Hs. clear v Hl. destruct (negb _); [apply rtc_refl|].
  match goal with |- context [traceStart ?tc] => set (c := tc) end.
  unfold mbind' at 1. pose proof (safe_traceStart c w Hw) as Hc.
  assert (Hl : linker (traceStart c w).2 = linker w /\ env (traceStart c w).2 = e0).
  { unfold traceStart. by destruct (_ <=? _). }
  destruct (traceStart c w) as [[idx|p|] v]; [|exact Hc ..]. cbn in Hc, Hl. destruct Hl as [Hl Hv].
  etrans; [exact Hc|]. clear Hc Hw. rewrite <-Hl in Hs. clear w Hl.
  unfold mset. unfold mbind' at 1. eapply rtc_l; [by eapply s_service|]. lower. safely.
Qed.

Lemma fn_safe host m f fn : safe_host host -> findFn (initBuiltInImports host) m f = Some fn ->
  forall args mem, safe (fn args mem).
Proof.
  intros Hh E args mem.
  assert (Hf : Forall (fun e : string * string * HostFn => forall args mem, safe (e.2 args mem)) (initBuiltInImports host)).
  { unfold initBuiltInImports. clear E args mem. repeat match goal with
      | |- Forall _ (_ :: _) => apply Forall_cons; split
      | |- Forall _ [] => apply Forall_nil_2
      end; intros args mem; cbn [snd]; unfold fn0, fn1, fn2, fn3, fn4, fn6;
      repeat match goal with |- safe (match ?l with _ => _ end) => destruct l end; try apply safe_panic.
    all: first [apply safe_log_emit|apply safe_env_get_gas|apply safe_env_buf_set|apply safe_coin_get_balance
      |apply safe_coin_transfer|apply safe_kv_get_size|apply safe_kv_get|apply safe_kv_set|apply safe_kv_del
      |apply safe_kv_at; intros; auto with vm|apply safe_crypto_blake3, u32_nonneg|apply safe_crypto_addr_of, u32_nonneg
      |apply safe_contract_get_code|apply safe_contract_code_hash|idtac].
    all: unfold log_line, env_buf_size, env_buf_get, address_get_host, address_get_caller, of_tx, tx_bytes, the_tx, kv_count,
      tx_get_paid, tx_get_from, crypto_verify, crypto_random, contract_is_active, contract_get_code_size, contract_call;
      safely; try charges.
    all: first [apply safe_get|by apply safe_serviceCall]. }
  unfold findFn in E. revert E. induction Hf as [|e l He _ IH]; cbn; [done|].
  destruct (_ && _); cbn; [intros [= <-]; apply He|exact IH].
Qed.

Lemma safe_hostCall fuel : safe_host (hostCall fuel).
Proof.
  induction fuel as [|n IH]; intros m f args mem v Hv; cbn [hostCall]; [apply rtc_refl|].
  destruct (findFn _ m f) as [fn|] eqn:E; [by eapply fn_safe|].
  destruct (_ ≫= _) as [s|] eqn:Es; [|apply rtc_refl]. unfold mbind'.
  pose proof (safe_serviceWrapper (hostCall n) s f args m v IH Hv Es) as Hs.
  by destruct (serviceWrapper _ _ _ _ v) as [[r|p|] w].
Qed.

Lemma safe_runEntry entry : safe (runEntry entry).
Proof.
  unfold runEntry. pose proof (safe_hostCall vmFuel). apply safe_bind; [|intros r; safely].
  intros v Hv. by apply safe_instantiate.
Qed.

End Steps.
