(* ===== verification/VMRuns.v ===== *)
(** * Guarantees of a contract run

    The invariants of the steps of VMSteps.v: money, the reserved storage
    keys, the storage deposit, the caps on events, traces and buffers; and
    that the nesting of calls is bounded by the toll. *)

From S2P Require Import Prelude Params Keys Contract Types Tx BlockStore State Journal VM VMSteps.

Section Runs.
Context `{HH : Hasher} `{SL : SigLibs} `{CD : Codec} `{SC : SlotCodec} `{WM : Wasman} `{TS : TollStation}.

(** The machines a run of [account] can be in. *)
Definition running (t : Txn) (account : Contract) (tx : FullTx) (bt : Z) (v : machine) : Prop :=
  exists md j, newVMJournal account = Ok j /\ rtc vstep (fresh_machine t account tx bt md j) v.

Lemma running_steps t acc tx bt v v' : running t acc tx bt v -> rtc vstep v v' -> running t acc tx bt v'.
Proof. intros (md & j & Hj & H1) H2. exists md, j. split; [done|]. by etrans. Qed.

Lemma running_env t acc tx bt v : running t acc tx bt v -> txn (env v) = t /\ self (env v) = acc /\ caller (env v) = tx.
Proof. intros (md & j & _ & Hs). by rewrite (vsteps_env _ _ Hs). Qed.

Lemma NewVM_running t acc tx bt v : VM.NewVM t acc tx bt = Ok (inr v) -> running t acc tx bt v.
Proof.
  unfold VM.NewVM. destruct (LoadContractWasm_ _) as [|bin]; [done|]. intros E. open_ok E. destruct r as [|md]; [done|].
  open_ok E. exists md, r. split; [done|].
  pose proof (safe_loadContractDeps _ (hostCall vmFuel) (Z.to_nat maxDepChainDepth) (safe_hostCall _ vmFuel) md
    (fresh_machine t acc tx bt md r) eq_refl) as Hs.
  destruct (loadContractDeps _ _ _ _) as [[[e|]|p|] w]; try done. injection E as <-. exact Hs.
Qed.

Lemma EntryFor_steps v e e' v' : VM.EntryFor v e = Ok (e', v') -> rtc vstep v v'.
Proof.
  unfold VM.EntryFor. destruct (_ || _); [intros [= <- <-]; apply rtc_refl|].
  destruct (DecodeCallData _) as [[method args]|]; [|intros [= <- <-]; apply rtc_refl]. intros E. open_ok E.
  injection E as <- <-. apply rtc_once, s_args.
Qed.

(** What [runContract] does with a machine stays in the steps. *)
Lemma run_steps t acc tx bt v e e' v1 v2 o v3 :
  VM.NewVM t acc tx bt = Ok (inr v) -> VM.EntryFor v e = Ok (e', v1) -> v2 = v1 \/ (exists g, v2 = VM.LimitToll v1 g) ->
  runEntry e' v2 = (o, v3) -> running t acc tx bt v3.
Proof.
  intros HN HE HL HR. apply NewVM_running in HN. eapply running_steps; [exact HN|]. apply EntryFor_steps in HE.
  etrans; [exact HE|]. assert (Hl : rtc vstep v1 v2).
  { destruct HL as [->|[g ->]]; [apply rtc_refl|apply rtc_once, s_limit]. }
  etrans; [exact Hl|]. pose proof (safe_runEntry (env v2) e' v2 eq_refl) as Hs. by rewrite HR in Hs.
Qed.

(** A property of fresh machines that the steps keep holds in every run. *)
Lemma running_ind t acc tx bt (P : machine -> Prop) :
  (forall md j, newVMJournal acc = Ok j -> P (fresh_machine t acc tx bt md j)) ->
  (forall v v', txn (env v) = t -> self (env v) = acc -> P v -> vstep v v' -> P v') ->
  forall v, running t acc tx bt v -> P v.
Proof.
  intros H0 Hs v (md & j & Hj & Hr). specialize (H0 md j Hj).
  assert (He : txn (env (fresh_machine t acc tx bt md j)) = t /\ self (env (fresh_machine t acc tx bt md j)) = acc) by done.
  induction Hr as [|v v1 v2 H1 _ IH]; [done|]. destruct He as [Ht Ha].
  apply IH; [by eapply Hs|]. by rewrite (vstep_env _ _ H1).
Qed.

(** ** What the steps do to the journal *)

Lemma contractOf_Ok j t a acc j' : contractOf j t a = Ok (acc, j') ->
  balances j' = balances j /\ accounts j' !! a = Some acc
  /\ ((accounts j !! a = Some acc /\ j' = j)
      \/ accounts j !! a = None /\ accounts j' = <[a := acc]> (accounts j)
         /\ exists slot, getContract t a = Ok slot /\ clone_context slot = Ok acc).
Proof.
  unfold contractOf. destruct (accounts j !! a) as [acc'|] eqn:El; intros E; [injection E as <- <-; eauto|].
  open_ok E. injection E as <- <-. cbn. rewrite lookup_insert_eq. split_and!; [done|done|]. right. eauto.
Qed.

Lemma vstep_conserves v v' :
  vstep v v' -> conserves (txn (env v)) (journal' v) -> conserves (txn (env v)) (journal' v').
Proof.
  destruct 1; try done; cbn.
  - unfold VM.LimitToll. by destruct (_ <=? _).
  - apply contractOf_Ok in H as (Hb & _). unfold conserves. by rewrite Hb.
  - by eapply transfer_conserves.
  - apply lockDeposit_Ok in H0 as [[_ ->]|(j1 & j2 & acc & ctx & Ht & Hc & _ & ->)]; [done|]. intros Hv.
    apply (transfer_conserves _ _ _ _ _ _ Ht) in Hv. apply contractOf_Ok in Hc as (Hb & _). unfold conserves in *. cbn.
    by rewrite Hb.
  - intros Hv. apply refundDeposit_Ok in H0 as [->|(j1 & acc & ctx & Hc & _ & Hj)]; [done|].
    apply contractOf_Ok in Hc as (Hb & _). assert (Hv1 : conserves (txn (env v)) j1) by (unfold conserves; by rewrite Hb).
    destruct Hj as [->|(pay & j2 & Ht & _ & ->)]; [done|]. by apply (transfer_conserves _ _ _ _ _ _ Ht) in Hv1.
Qed.

Lemma newVMJournal_balances acc j : newVMJournal acc = Ok j -> balances j = ∅.
Proof. unfold newVMJournal. intros E. open_ok E. by injection E as <-. Qed.

Lemma running_conserves t acc tx bt v : running t acc tx bt v -> conserves t (journal' v).
Proof.
  apply (running_ind t acc tx bt (fun v => conserves t (journal' v))).
  - intros md j Hj. cbn. unfold conserves. rewrite (newVMJournal_balances _ _ Hj), map_to_list_empty. split; [|done].
    apply map_Forall_empty.
  - intros u u' Ht _ Hu Hs. subst t. by eapply vstep_conserves.
Qed.

(** ** Contexts *)

Lemma abs_Set ctx k v : abs (Set' ctx k v) = <[k := v]> (abs ctx).
Proof. apply (abs_splitMap (ensureInit ctx)). Qed.

Lemma abs_Del ctx k : abs (Del ctx k) = delete k (abs ctx).
Proof. apply (abs_splitMap (ensureInit ctx)). Qed.

Lemma abs_Clone ctx : abs (Clone ctx).1 = abs ctx.
Proof. apply (abs_splitMap NewContractContext). Qed.

Lemma Get_abs ctx k : (Get ctx k).1 = default [] (abs ctx !! k).
Proof. done. Qed.

(** The slot an account of the journal was copied from. *)
Definition slot_of (t : Txn) (account : Contract) (a : Address) : res Contract :=
  if decide (a = Owner account) then Ok account else getContract t a.

(** An account still is its slot, up to a relation on the contexts. *)
Definition account_of (R : ContractContext -> ContractContext -> Prop) (slot acc : Contract) : Prop :=
  Owner acc = Owner slot /\ Source acc = Source slot
  /\ exists base ctx, Context' slot = Some base /\ Context' acc = Some ctx /\ R base ctx.

Lemma clone_account_of (R : ContractContext -> ContractContext -> Prop) slot acc :
  (forall base, R base (Clone base).1) -> clone_context slot = Ok acc -> account_of R slot acc.
Proof.
  intros HR E. unfold clone_context in E. destruct (Context' slot) as [base|] eqn:Eb; [|done]. injection E as <-.
  split_and!; [done|done|]. eauto 10.
Qed.

Section Accounts.
Context (R : ContractContext -> ContractContext -> Prop).
Context (R_clone : forall base, R base (Clone base).1).
Context (R_write : forall base ctx f, R base ctx -> is_write f -> R base (f ctx)).
Context (R_rent : forall base ctx x, R base ctx -> R base (setLockedDeposit ctx x)).

Definition accounts_of (t : Txn) (account : Contract) (j : vmJournal) : Prop :=
  is_Some (accounts j !! Owner account)
  /\ forall a acc, accounts j !! a = Some acc -> exists slot, slot_of t account a = Ok slot /\ account_of R slot acc.

Lemma accounts_contractOf t account j a acc j' :
  accounts_of t account j -> contractOf j t a = Ok (acc, j') -> accounts_of t account j'.
Proof.
  intros [Hs Ha] E. apply contractOf_Ok in E as (_ & _ & [[_ ->]|(Hn & He & slot & Hg & Hc)]); [done|].
  assert (a <> Owner account) by (intros ->; rewrite Hn in Hs; by destruct Hs). unfold accounts_of. rewrite He. split.
  - by rewrite lookup_insert_ne.
  - intros a' acc'. destruct (decide (a = a')) as [<-|Hd].
    + rewrite lookup_insert_eq. intros [= <-]. exists slot. unfold slot_of. rewrite decide_False by done.
      split; [done|]. by apply clone_account_of.
    + rewrite lookup_insert_ne by done. apply Ha.
Qed.

Lemma accounts_setContext t account j a ctx ctx' acc :
  accounts_of t account j -> accounts j !! a = Some acc -> Context' acc = Some ctx ->
  (forall base, R base ctx -> R base ctx') -> accounts_of t account (setContext j a ctx').
Proof.
  intros [Hs Ha] El Ec HR. split; cbn.
  - destruct (decide (a = Owner account)) as [->|Hd]; [|by rewrite lookup_alter_ne].
    rewrite lookup_alter_eq, El. eauto.
  - intros a' acc'. destruct (decide (a = a')) as [<-|Hd]; [|rewrite lookup_alter_ne by done; apply Ha].
    rewrite lookup_alter_eq, El. intros [= <-]. destruct (Ha a acc El) as (slot & Hsl & Ho & Hsrc & base & c & Eb & Ec' & Hr).
    exists slot. split; [done|]. split_and!; [done|done|]. exists base, ctx'. split_and!; [done|done|].
    apply HR. congruence.
Qed.

Lemma accounts_transfer t account j from to value j' :
  accounts_of t account j -> transfer j t from to value = Ok j' -> accounts_of t account j'.
Proof. intros Ha E. apply transfer_Ok in E as (_ & E & _). unfold accounts_of. by rewrite E. Qed.

Lemma vstep_accounts v v' : vstep v v' -> accounts_of (txn (env v)) (self (env v)) (journal' v) ->
  accounts_of (txn (env v)) (self (env v)) (journal' v').
Proof.
  intros H Ha. destruct H; try done; cbn.
  - unfold VM.LimitToll. by destruct (_ <=? _).
  - by eapply accounts_contractOf.
  - by eapply accounts_transfer.
  - apply lockDeposit_Ok in H0 as [[_ ->]|(j1 & j2 & acc & ctx & Ht & Hc & Ec & ->)]; [done|].
    apply (accounts_transfer _ _ _ _ _ _ _ Ha) in Ht. pose proof (accounts_contractOf _ _ _ _ _ _ Ht Hc).
    apply contractOf_Ok in Hc as (_ & El & _). eapply accounts_setContext; [done|exact El|done|]. intros base. apply R_rent.
  - apply refundDeposit_Ok in H0 as [->|(j1 & acc & ctx & Hc & Ec & Hj)]; [done|].
    pose proof (accounts_contractOf _ _ _ _ _ _ Ha Hc) as Ha1. apply contractOf_Ok in Hc as (_ & El & _).
    destruct Hj as [->|(pay & j2 & Ht & _ & ->)]; [done|]. pose proof (accounts_transfer _ _ _ _ _ _ _ Ha1 Ht) as Ha2.
    apply transfer_Ok in Ht as (_ & Eq & _). rewrite <-Eq in El. eapply accounts_setContext; [done|exact El|done|].
    intros base. apply R_rent.
  - destruct H0 as (acc & El & Ec). eapply accounts_setContext; [done|exact El|done|]. intros base Hb. by apply R_write.
Qed.

Lemma running_accounts t account tx bt v : running t account tx bt v -> accounts_of t account (journal' v).
Proof.
  apply (running_ind t account tx bt (fun v => accounts_of t account (journal' v))).
  - intros md j Hj. unfold newVMJournal in Hj. open_ok Hj. injection Hj as <-. split; cbn [fresh_machine journal' accounts]; [rewrite lookup_singleton_eq; eauto|].
    intros a acc [<- <-]%lookup_singleton_Some. exists account. unfold slot_of. rewrite decide_True by done.
    split; [done|]. by apply clone_account_of.
  - intros u u' Ht Ha Hu Hs. subst t account. by eapply vstep_accounts.
Qed.

End Accounts.

(** ** The reserved keys *)

(** The two contexts agree on the protocol's own keys. *)
Definition same_reserved (base ctx : ContractContext) : Prop :=
  forall k, isReservedKey k = true -> k <> contextKeyRent -> abs ctx !! k = abs base !! k.

Lemma setLockedDeposit_other ctx x k : k <> contextKeyRent -> abs (setLockedDeposit ctx x) !! k = abs ctx !! k.
Proof.
  intros Hk. unfold setLockedDeposit. destruct (x <=? 0); [rewrite abs_Del, lookup_delete_ne|rewrite abs_Set, lookup_insert_ne]; done.
Qed.

Lemma write_reserved f ctx k : is_write f -> isReservedKey k = true -> abs (f ctx) !! k = abs ctx !! k.
Proof.
  intros (key & Hk & Hf) Hr. assert (key <> k) by congruence.
  destruct Hf as [[val ->]| ->]; [rewrite abs_Set, lookup_insert_ne|rewrite abs_Del, lookup_delete_ne]; done.
Qed.

Lemma running_reserved t account tx bt v : running t account tx bt v -> accounts_of same_reserved t account (journal' v).
Proof.
  apply running_accounts.
  - intros base k _ _. by rewrite abs_Clone.
  - intros base ctx f Hb Hf k Hk Hr. rewrite write_reserved by done. by apply Hb.
  - intros base ctx x Hb k Hk Hr. rewrite setLockedDeposit_other by done. by apply Hb.
Qed.

(** ** The storage deposit *)

Lemma lockedDeposit_nonneg ctx : 0 <= lockedDeposit ctx.
Proof. unfold lockedDeposit. destruct (_ =? 0); [done|apply be_Z_nonneg]. Qed.

Lemma lockedDeposit_abs c c' : abs c !! contextKeyRent = abs c' !! contextKeyRent -> lockedDeposit c = lockedDeposit c'.
Proof. intros E. unfold lockedDeposit. by rewrite !Get_abs, E. Qed.

Lemma lockedDeposit_set ctx x : 0 <= x -> lockedDeposit (setLockedDeposit ctx x) = x.
Proof.
  intros Hx. unfold lockedDeposit, setLockedDeposit. rewrite Get_abs. destruct (Z.leb_spec x 0).
  - rewrite abs_Del, lookup_delete_eq. by assert (x = 0) as -> by lia.
  - rewrite abs_Set, lookup_insert_eq. cbn [default from_option id]. rewrite be_Z_big_Bytes by done.
    destruct (Z.eqb_spec (zlen (big_Bytes x)) 0) as [E|]; [|done]. unfold zlen in E.
    assert (big_Bytes x = []) as H0%big_Bytes_nil by (apply nil_length_inv; lia). lia.
Qed.

Lemma lockedDeposit_write f ctx : is_write f -> lockedDeposit (f ctx) = lockedDeposit ctx.
Proof. intros Hf. apply lockedDeposit_abs. by apply write_reserved. Qed.

Definition rent_of (acc : Contract) : Z := match Context' acc with Some ctx => lockedDeposit ctx | None => 0 end.

Definition base_rent (t : Txn) (account : Contract) (a : Address) : Z :=
  match slot_of t account a with Ok slot => rent_of slot | Err _ => 0 end.

(** How much the running totals of the journal's contracts have grown. *)
Definition rent_growth (t : Txn) (account : Contract) (j : vmJournal) : Z :=
  sumZ (fun kv => rent_of kv.2 - base_rent t account kv.1) (map_to_list (accounts j)).

(** How much the escrow has. *)
Definition escrow_growth (t : Txn) (j : vmJournal) : Z :=
  balanceOf j t StorageDepositEscrow - getBalance t StorageDepositEscrow.

(** No contract lives at the escrow address. *)
Definition no_contract_at_escrow (t : Txn) : Prop :=
  is_ok (getContract t StorageDepositEscrow) = false
  /\ forall x acc, getContract t x = Ok acc -> Owner acc <> StorageDepositEscrow.

Lemma rent_clone slot acc : clone_context slot = Ok acc -> rent_of acc = rent_of slot.
Proof.
  unfold clone_context, rent_of. destruct (Context' slot) as [c|]; [|done]. intros [= <-].
  apply (lockedDeposit_abs (Clone c).1 c). by rewrite abs_Clone.
Qed.

Lemma rent_growth_contractOf t account j a acc j' :
  is_Some (accounts j !! Owner account) -> contractOf j t a = Ok (acc, j') -> rent_growth t account j' = rent_growth t account j.
Proof.
  intros Hs E. apply contractOf_Ok in E as (_ & _ & [[_ ->]|(Hn & He & slot & Hg & Hc)]); [done|].
  assert (a <> Owner account) by (intros ->; rewrite Hn in Hs; by destruct Hs).
  unfold rent_growth. rewrite He, sumZ_map_insert, Hn. cbn. unfold base_rent, slot_of. rewrite decide_False, Hg by done.
  rewrite (rent_clone _ _ Hc). lia.
Qed.

Lemma rent_growth_setContext t account j a acc ctx :
  accounts j !! a = Some acc ->
  rent_growth t account (setContext j a ctx) = rent_growth t account j + lockedDeposit ctx - rent_of acc.
Proof.
  intros El. unfold rent_growth. cbn [setContext accounts].
  set (acc' := {| Owner := Owner acc; Source := Source acc; Context' := Some ctx |}).
  assert (He : alter (fun acc => {| Owner := Owner acc; Source := Source acc; Context' := Some ctx |}) a (accounts j)
               = <[a := acc']> (accounts j)).
  { apply map_eq. intros k. destruct (decide (a = k)) as [<-|Hd]; [by rewrite lookup_alter_eq, El, lookup_insert_eq|].
    by rewrite lookup_alter_ne, lookup_insert_ne. }
  rewrite He, sumZ_map_insert, El. cbn. lia.
Qed.

(** The invariant: the escrow never pays, and holds at least what the
    running totals say was added. *)
Record deposit_inv (t : Txn) (account : Contract) (v : machine) : Prop := {
  di_frames : StorageDepositEscrow ∉ frames v;
  di_linker : forall m f s, linker v !! m ≫= (fun e => e !! f) = Some s -> sv_addr s <> StorageDepositEscrow;
  di_self : is_Some (accounts (journal' v) !! Owner account);
  di_cover : rent_growth t account (journal' v) <= escrow_growth t (journal' v)
}.

Lemma last_in_frames v a : last (frames v) = Some a -> StorageDepositEscrow ∉ frames v -> a <> StorageDepositEscrow.
Proof. intros Hl Hn ->. apply Hn. by apply last_Some_elem_of. Qed.

Lemma define_lookup m f s v m' f' s' :
  linker (define m f s v) !! m' ≫= (fun e => e !! f') = Some s' -> s' = s \/ linker v !! m' ≫= (fun e => e !! f') = Some s'.
Proof.
  cbn. destruct (decide (m = m')) as [<-|Hd]; [rewrite lookup_insert_eq|rewrite lookup_insert_ne by done; by right].
  cbn. destruct (decide (f = f')) as [<-|Hf]; [rewrite lookup_insert_eq; intros [= <-]; by left|].
  rewrite lookup_insert_ne by done. intros E. right. destruct (linker v !! m) as [e|]; [done|].
  change ((∅ : gmap bytes service) !! f' = Some s') in E. by rewrite lookup_empty in E.
Qed.

Lemma deposit_frame t account v v' :
  deposit_inv t account v -> frames v' = frames v -> linker v' = linker v -> journal' v' = journal' v -> deposit_inv t account v'.
Proof. intros [H1 H2 H3 H4] E1 E2 E3. split; rewrite ?E1, ?E2, ?E3; done. Qed.

Lemma deposit_journal t account v j :
  deposit_inv t account v -> is_Some (accounts j !! Owner account) ->
  rent_growth t account j - rent_growth t account (journal' v) <= escrow_growth t j - escrow_growth t (journal' v) ->
  deposit_inv t account (set_journal v j).
Proof. intros [H1 H2 H3 H4] Hs Hd. split; cbn; [done|done|done|lia]. Qed.

Lemma self_loaded account j t a acc j' :
  is_Some (accounts j !! Owner account) -> contractOf j t a = Ok (acc, j') -> is_Some (accounts j' !! Owner account).
Proof.
  intros Hs E. apply contractOf_Ok in E as (_ & _ & [[_ ->]|(Hn & He & _)]); [done|]. rewrite He.
  destruct (decide (a = Owner account)) as [->|]; [rewrite lookup_insert_eq; eauto|by rewrite lookup_insert_ne].
Qed.

Lemma escrow_growth_balances t j j' : balances j' = balances j -> escrow_growth t j' = escrow_growth t j.
Proof. intros E. unfold escrow_growth, balanceOf. by rewrite E. Qed.

Lemma self_setContext account j a ctx : is_Some (accounts j !! Owner account) -> is_Some (accounts (setContext j a ctx) !! Owner account).
Proof. intros Hs. cbn. destruct (decide (a = Owner account)) as [->|]; [by rewrite lookup_alter_eq, fmap_is_Some|by rewrite lookup_alter_ne]. Qed.

Lemma deposit_lock t account v a amount j :
  deposit_inv t account v -> a <> StorageDepositEscrow -> lockDeposit (journal' v) t a amount = Ok j ->
  deposit_inv t account (set_journal v j).
Proof.
  intros Hi Ha E. apply lockDeposit_Ok in E as [[_ ->]|(j1 & j2 & acc & ctx & Ht & Hc & Ec & ->)]; [by apply (deposit_frame t account v)|].
  pose proof Ht as (Hv & Hacc & Hb)%transfer_Ok. pose proof (di_self _ _ _ Hi) as Hs. rewrite <-Hacc in Hs.
  pose proof (self_loaded _ _ _ _ _ _ Hs Hc) as Hs2. apply deposit_journal; [done|by apply self_setContext|].
  pose proof Hc as (Hb2 & El & _)%contractOf_Ok. rewrite (rent_growth_setContext _ _ _ _ _ _ El).
  rewrite (rent_growth_contractOf _ _ _ _ _ _ Hs Hc). unfold rent_of. rewrite Ec.
  pose proof (lockedDeposit_nonneg ctx). rewrite lockedDeposit_set by lia.
  rewrite (escrow_growth_balances t j1) by (cbn; done). unfold rent_growth, escrow_growth. rewrite Hacc, Hb.
  rewrite decide_False, decide_True by done. lia.
Qed.

Lemma deposit_refund t account v a amount j :
  deposit_inv t account v -> a <> StorageDepositEscrow -> refundDeposit (journal' v) t a amount = Ok j ->
  deposit_inv t account (set_journal v j).
Proof.
  intros Hi Ha E. apply refundDeposit_Ok in E as [->|(j1 & acc & ctx & Hc & Ec & Hj)]; [by apply (deposit_frame t account v)|].
  pose proof (di_self _ _ _ Hi) as Hs. pose proof (self_loaded _ _ _ _ _ _ Hs Hc) as Hs1.
  pose proof (rent_growth_contractOf _ _ _ _ _ _ Hs Hc) as Hg. pose proof Hc as (Hb & El & _)%contractOf_Ok.
  destruct Hj as [->|(pay & j2 & Ht & Hp & ->)].
  - apply deposit_journal; [done|done|]. rewrite Hg, (escrow_growth_balances _ _ _ Hb). lia.
  - pose proof Ht as (Hv & Hacc & Hb2)%transfer_Ok. rewrite <-Hacc in Hs1, El.
    apply deposit_journal; [done|by apply self_setContext|]. rewrite (rent_growth_setContext _ _ _ _ _ _ El).
    unfold rent_of. rewrite Ec, lockedDeposit_set by lia. rewrite (escrow_growth_balances t j2) by done.
    unfold rent_growth in *. rewrite Hacc, Hg. unfold escrow_growth. rewrite Hb2, decide_True, decide_False by done.
    assert (Hbe : balanceOf j1 t StorageDepositEscrow = balanceOf (journal' v) t StorageDepositEscrow)
      by (unfold balanceOf; by rewrite Hb). lia.
Qed.

Lemma vstep_deposit v v' :
  no_contract_at_escrow (txn (env v)) -> deposit_inv (txn (env v)) (self (env v)) v -> vstep v v' ->
  deposit_inv (txn (env v)) (self (env v)) v'.
Proof.
  intros [Hn Ho] Hi H. destruct H; try (by apply (deposit_frame _ _ _ _ Hi)).
  - unfold VM.LimitToll. destruct (_ <=? _); [done|by apply (deposit_frame _ _ _ _ Hi)].
  - pose proof (di_self _ _ _ Hi) as Hs. apply deposit_journal; [done|by eapply self_loaded|].
    rewrite (rent_growth_contractOf _ _ _ _ _ _ Hs H). apply contractOf_Ok in H as (Hb & _).
    rewrite (escrow_growth_balances _ _ _ Hb). lia.
  - pose proof (last_in_frames _ _ H (di_frames _ _ _ Hi)) as Hf. pose proof H0 as (Hv & Hacc & Hb)%transfer_Ok.
    apply deposit_journal; [done|rewrite Hacc; apply Hi|]. unfold rent_growth, escrow_growth. rewrite Hacc, Hb.
    rewrite decide_False by done. case_decide; lia.
  - pose proof (last_in_frames _ _ H (di_frames _ _ _ Hi)). by eapply deposit_lock.
  - pose proof (last_in_frames _ _ H (di_frames _ _ _ Hi)). by eapply deposit_refund.
  - destruct H0 as (acc & El & Ec). apply deposit_journal; [done|apply self_setContext, Hi|].
    rewrite (rent_growth_setContext _ _ _ _ _ _ El), lockedDeposit_write by done. unfold rent_of. rewrite Ec.
    rewrite (escrow_growth_balances _ (journal' v)) by done. lia.
  - destruct Hi as [H1 H2 H3 H4]. split; cbn [push_frame pop_frame set_frames frames linker journal']; [|done|done|done]. rewrite elem_of_app, list_elem_of_singleton.
    intros [?|<-]; [done|]. by rewrite H in Hn.
  - destruct Hi as [H1 H2 H3 H4]. split; cbn [push_frame pop_frame set_frames frames linker journal']; [|done|done|done]. rewrite elem_of_app, list_elem_of_singleton.
    intros [?|He]; [done|]. by apply (H2 m f s).
  - destruct Hi as [H1 H2 H3 H4]. split; cbn [push_frame pop_frame set_frames frames linker journal']; [|done|done|done]. intros (i & Hl & _)%elem_of_take. apply H1. by eapply list_elem_of_lookup_2.
  - destruct Hi as [H1 H2 H3 H4]. split; [done| |done|done]. intros m' f' s' [->|E]%define_lookup; [|by eapply H2].
    rewrite H0. by eapply Ho.
Qed.

Lemma running_deposit t account tx bt v :
  no_contract_at_escrow t -> Owner account <> StorageDepositEscrow -> running t account tx bt v -> deposit_inv t account v.
Proof.
  intros Hn Ho. apply (running_ind t account tx bt (deposit_inv t account)).
  - intros md j Hj. unfold newVMJournal in Hj. open_ok Hj. injection Hj as <-. split; cbn [fresh_machine frames linker journal' accounts].
    + by rewrite list_elem_of_singleton.
    + intros m f s. by rewrite lookup_empty.
    + rewrite lookup_singleton_eq. eauto.
    + unfold rent_growth, escrow_growth, balanceOf. cbn [accounts balances]. rewrite map_to_list_singleton, lookup_empty, sumZ_cons.
      cbn [fst snd]. unfold base_rent, slot_of. rewrite decide_True, (rent_clone _ _ Hr) by done.
      change (sumZ _ []) with 0. lia.
  - intros u u' Ht Ha Hu Hs. subst t account. by eapply vstep_deposit.
Qed.

(** ** Events, traces and buffers *)

(** Only the node writes events under the reserved topic prefix. *)
Definition genuine (e : Event) : Prop :=
  has_prefix EventTopicPrefix (ev_Topic e) = true -> exists from to value, e = transfer_event from to value.

Record caps (v : machine) : Prop := {
  cap_events : zlen (events v) <= maxEventsPerRun;
  cap_trace : zlen (trace v) <= maxTraceCalls;
  cap_bufs : zlen (bufs v) = vmBufSlots;
  cap_genuine : Forall genuine (events v)
}.

Lemma vstep_caps v v' : vstep v v' -> caps v -> caps v'.
Proof.
  intros H [H1 H2 H3 H4]. destruct H; try (by split).
  - unfold VM.LimitToll. destruct (_ <=? _); by split.
  - split; cbn; try done; [unfold zlen in *; rewrite length_app; cbn; lia|]. apply Forall_app. split; [done|]. apply Forall_singleton.
    intros _. eauto.
  - split; cbn; try done; [unfold zlen in *; rewrite length_app; cbn; lia|]. apply Forall_app. split; [done|]. apply Forall_singleton.
    intros Hp. change (has_prefix EventTopicPrefix topic = true) in Hp. congruence.
  - split; cbn; try done. unfold zlen in *. lia.
  - split; cbn; try done. unfold zlen in *. lia.
Qed.

Lemma running_caps t account tx bt v : running t account tx bt v -> caps v.
Proof.
  apply running_ind.
  - intros md j _. by split.
  - intros u u' _ _ Hu Hs. by eapply vstep_caps.
Qed.

End Runs.
