(* ===== verification/VMFuel.v ===== *)
(** * The nesting of contract calls is bounded

    The fuel of [hostCall] counts contracts calling contracts.  Each level
    pays [gasServiceCall] out of one toll station before the next, so the
    fuel [vmFuel] is never used up. *)

From S2P Require Import Prelude Params Keys Contract Types Tx BlockStore State Journal VM VMSteps VMRuns.

(** What the toll station does: it counts up, and a toll it accepts is
    counted in full and stays within the bound it was made with. *)
Class TollLaws `{TollStation} := {
  toll_max : station -> Z;
  toll_max_new : forall m, toll_max (NewSimpleTollStation m) = m;
  toll_new : forall m, GetToll (NewSimpleTollStation m) = 0;
  toll_max_add : forall st n, toll_max (AddToll st n).2 = toll_max st;
  toll_mono : forall st n, 0 <= n -> GetToll st <= GetToll (AddToll st n).2;
  toll_add : forall st n, 0 <= n -> (AddToll st n).1 = true ->
    GetToll (AddToll st n).2 = GetToll st + n /\ GetToll (AddToll st n).2 <= toll_max st
}.

Section Fuel.
Context `{HH : Hasher} `{SL : SigLibs} `{CD : Codec} `{SC : SlotCodec} `{WM : Wasman} `{TS : TollStation} `{TL : !TollLaws}.

(** What the station can still sell. *)
Definition remaining (v : machine) : Z := Z.max 0 (toll_max (tollStation v) - GetToll (tollStation v)).

(** Enough fuel for what is left. *)
Definition enough (n : nat) (v : machine) : Prop := remaining v < gasServiceCall * Z.of_nat n.

Lemma remaining_step v v' : vstep v v' -> remaining v' <= remaining v.
Proof.
  destruct 1; try done; unfold remaining; cbn.
  - pose proof (toll_mono (tollStation v) n H). rewrite toll_max_add. lia.
  - unfold VM.LimitToll. destruct (Z.leb_spec vmMaxToll budget); [done|]. cbn.
    pose proof (toll_mono (tollStation v) (vmMaxToll - budget) ltac:(lia)). rewrite toll_max_add. lia.
Qed.

Lemma remaining_steps v v' : rtc vstep v v' -> remaining v' <= remaining v.
Proof. induction 1 as [|? ? ? H _ IH]; [lia|]. apply remaining_step in H. lia. Qed.

Lemma enough_steps n v v' : rtc vstep v v' -> enough n v -> enough n v'.
Proof. intros H%remaining_steps. unfold enough. lia. Qed.

(** ** Computations that do not run out *)

Definition tame {A} (n : nat) (m : M A) : Prop := (forall e, safe e m) /\ forall v, enough n v -> (m v).1 <> Fuel.

(** A computation that makes no call. *)
Definition flat {A} (m : M A) : Prop := forall v, (m v).1 <> Fuel.

Lemma flat_tame {A} n (m : M A) : (forall e, safe e m) -> flat m -> tame n m.
Proof. intros Hs Hf. split; [done|]. intros v _. apply Hf. Qed.

Lemma tame_bind {A B} n (m : M A) (f : A -> M B) : tame n m -> (forall a, tame n (f a)) -> tame n (mbind' m f).
Proof.
  intros [Hs Hm] Hf. split.
  - intros e. apply safe_bind; [apply Hs|]. intros a. apply Hf.
  - intros v Hv. unfold mbind'. specialize (Hm v Hv). pose proof (enough_steps _ _ _ (Hs (env v) v eq_refl) Hv) as Hv'.
    destruct (m v) as [[a|p|] w]; [|done|done]. by apply Hf.
Qed.

Lemma flat_ret {A} (a : A) : flat (mret' a).
Proof. done. Qed.

Lemma flat_panic {A} p : flat (mpanic (A := A) p).
Proof. done. Qed.

Lemma flat_get {A} (f : machine -> A) : flat (mget f).
Proof. done. Qed.

Lemma flat_set f : flat (mset f).
Proof. done. Qed.

Lemma flat_lift {A} (m : res A) : flat (lift m).
Proof. by destruct m. Qed.

Lemma flat_bind {A B} (m : M A) (f : A -> M B) : flat m -> (forall a, flat (f a)) -> flat (mbind' m f).
Proof. intros Hm Hf v. unfold mbind'. specialize (Hm v). destruct (m v) as [[a|p|] w]; [apply Hf|done|done]. Qed.

Lemma flat_charge c : flat (charge c).
Proof. intros v. unfold charge. by destruct (AddToll _ _) as [[] ?]. Qed.

Lemma flat_currentAddress : flat currentAddress.
Proof. intros v. unfold currentAddress. by destruct (last _). Qed.

Lemma flat_traceStart c : flat (traceStart c).
Proof. intros v. unfold traceStart. by destruct (_ <=? _). Qed.

Lemma flat_traceOk i : flat (traceOk i).
Proof. by destruct i. Qed.

Lemma flat_vmContext : flat vmContext.
Proof. apply flat_bind; [apply flat_currentAddress|]. intros a v. by destruct (contextOf _ _ a) as [[[]]|]. Qed.

Lemma flat_with_journal f p : flat (with_journal f p).
Proof. apply flat_bind; [apply flat_currentAddress|]. intros a v. by destruct (f _ _ a). Qed.

Create HintDb flat.
#[local] Hint Resolve flat_ret flat_panic flat_get flat_set flat_lift flat_charge flat_currentAddress flat_traceStart
  flat_traceOk flat_vmContext flat_with_journal : flat.

Ltac flatten :=
  repeat first
    [ progress cbv zeta
    | match goal with |- flat (mbind' _ _) => apply flat_bind; [|intros ?] end
    | match goal with |- flat (match ?x with _ => _ end) => destruct x end
    | solve [auto with flat] ].

Lemma fn_flat host m f fn args mem :
  findFn (initBuiltInImports host) m f = Some fn ->
  flat (fn args mem) \/ exists a b c, fn args mem = contract_call host (u32 a) (u32 b) (u32 c) mem.
Proof.
  intros E.
  assert (Hf : Forall (fun e : string * string * HostFn => forall args mem, flat (e.2 args mem)
     \/ exists a b c, e.2 args mem = contract_call host (u32 a) (u32 b) (u32 c) mem) (initBuiltInImports host)).
  { unfold initBuiltInImports. clear E args mem. repeat match goal with
      | |- Forall _ (_ :: _) => apply Forall_cons; split
      | |- Forall _ [] => apply Forall_nil_2
      end; intros args mem; cbn [snd]; unfold fn0, fn1, fn2, fn3, fn4, fn6;
      repeat match goal with |- flat (match ?l with _ => _ end) \/ _ => destruct l end; try (left; apply flat_panic).
    all: try (right; eauto; fail). all: left.
    all: unfold log_line, log_emit, env_get_gas, env_buf_set, env_buf_size, env_buf_get, address_get_host, address_get_caller,
      coin_get_balance, coin_transfer, noteTransfer, kv_get_size, kv_get, kv_set, kv_del, kv_count, kv_key_size_at, kv_key_at, kv_at,
      matchingKeys, settleDeposit, writeContext, of_tx, tx_bytes, the_tx, tx_get_paid, tx_get_from, crypto_blake3, crypto_verify,
      crypto_addr_of, crypto_random, contract_is_active, contract_get_code_size, contract_get_code, contract_code_hash,
      copy_out, answer; flatten.
    all: apply flat_get. }
  unfold findFn in E. revert E. induction Hf as [|e l He _ IH]; cbn; [done|].
  destruct (_ && _); cbn; [intros [= <-]; apply He|exact IH].
Qed.

(** ** Engine runs and calls *)

Definition tame_host (n : nat) (host : HostHandler) : Prop := forall m f args mem, tame n (host m f args mem).

Lemma tame_host_safe n host : tame_host n host -> forall e, safe_host e host.
Proof. intros Hh e m f args mem. by apply Hh. Qed.

Lemma tame_runExec {A} n host (x : exec werr A) : tame_host n host -> tame n (runExec host x).
Proof.
  intros Hh. split; [intros e; apply safe_runExec; by eapply tame_host_safe|].
  induction x as [a| |k0 k IH|m f args mem k IH]; intros v Hv; cbn [runExec]; [done|done| |].
  - pose proof (s_toll v (Z.of_N k0) ltac:(lia)) as Hs. destruct (AddToll (tollStation v) (Z.of_N k0)) as [ok st].
    apply IH. eapply enough_steps; [by apply rtc_once|done].
  - destruct (Hh m f args mem) as [Hs Hf]. specialize (Hf v Hv).
    pose proof (enough_steps _ _ _ (Hs (env v) v eq_refl) Hv) as Hv'.
    destruct (host m f args mem v) as [[r|p|] w]; [by apply IH|by apply IH|done].
Qed.

Lemma tame_instantiate n host m : tame_host n host -> tame n (instantiate host m).
Proof.
  intros Hh. split; [intros e; apply safe_instantiate; by eapply tame_host_safe|]. intros v Hv. unfold instantiate.
  pose proof (proj2 (tame_runExec n host (Instantiate (linked_names (linker v)) m) Hh) v Hv) as Hr. unfold mbind'.
  by destruct (runExec host _ v) as [[[]| |] w].
Qed.

Lemma tame_callExported n host i name args : tame_host n host -> tame n (callExported host i name args).
Proof.
  intros Hh. split; [intros e; apply safe_callExported; by eapply tame_host_safe|]. intros v Hv. unfold callExported.
  destruct (instances v !! i) as [ins|]; [|done].
  pose proof (proj2 (tame_runExec n host (CallExportedFunc ins name args) Hh) v Hv) as Hr. unfold mbind'.
  by destruct (runExec host _ v) as [[[]| |] w].
Qed.

Lemma calm_mfold {A S} n (f : S -> A -> M S) l :
  (forall s x e, safe e (f s x)) -> (forall s x v, enough n v -> (f s x v).1 <> Fuel) ->
  forall s v, enough n v -> (mfold f s l v).1 <> Fuel.
Proof.
  intros Hs Hf. induction l as [|x l IH]; intros s v Hv; cbn [mfold]; [done|]. unfold mbind'.
  specialize (Hf s x v Hv). pose proof (enough_steps _ _ _ (Hs s x (env v) v eq_refl) Hv).
  destruct (f s x v) as [[r|p|] w]; [by apply IH|done|done].
Qed.

Definition calm {A} (n : nat) (m : M A) : Prop := forall v, enough n v -> (m v).1 <> Fuel.

(** A computation that gives no toll back. *)
Definition meek {A} (m : M A) : Prop := forall v, remaining (m v).2 <= remaining v.

Lemma safe_meek {A} (m : M A) : (forall e, safe e m) -> meek m.
Proof. intros Hs v. by apply remaining_steps, (Hs (env v)). Qed.

Lemma meek_set f : (forall v, tollStation (f v) = tollStation v) -> meek (mset f).
Proof. intros Hf v. unfold remaining. cbn. by rewrite Hf. Qed.

Lemma calm_bind {A B} n (m : M A) (f : A -> M B) :
  meek m -> calm n m -> (forall a, calm n (f a)) -> calm n (mbind' m f).
Proof.
  intros Hs Hm Hf v Hv. unfold mbind'. specialize (Hm v Hv). specialize (Hs v).
  destruct (m v) as [[a|p|] w]; [|done|done]. apply Hf. unfold enough in *. cbn in Hs. lia.
Qed.

Lemma flat_calm {A} n (m : M A) : flat m -> calm n m.
Proof. intros Hm v _. apply Hm. Qed.

Lemma flat_linkExport name addr ins m e export : flat (linkExport name addr ins m e export).
Proof. unfold linkExport. flatten. Qed.

Lemma flat_mfold {A S} (f : S -> A -> M S) l : (forall s x, flat (f s x)) -> forall s, flat (mfold f s l).
Proof. intros Hf. induction l; intros s; cbn; [apply flat_ret|]. by apply flat_bind. Qed.

Lemma calm_linkServiceDep n host load name acc :
  tame_host n host -> (forall m, tame n (load m)) -> calm n (linkServiceDep host load name acc).
Proof.
  intros Hh Hl. unfold linkServiceDep. destruct (LoadContractWasm_ _) as [|bin]; [by apply flat_calm|].
  apply calm_bind; [apply safe_meek; intros e; apply safe_lift|apply flat_calm, flat_lift|]. intros [|m]; [by apply flat_calm|].
  apply calm_bind; [apply safe_meek, (Hl m)|exact (proj2 (Hl m))|]. intros [|]; [by apply flat_calm|].
  pose proof (tame_instantiate n host m Hh) as [Hi1 Hi2]. apply calm_bind; [by apply safe_meek|done|].
  intros [|ins]; [by apply flat_calm|]. apply flat_calm, flat_mfold. intros. apply flat_linkExport.
Qed.

Lemma calm_linkDep n host load e name :
  tame_host n host -> (forall m, tame n (load m)) -> calm n (linkDep host load e name).
Proof.
  intros Hh Hl. unfold linkDep. destruct e; [by apply flat_calm|].
  apply calm_bind; [apply safe_meek; intros; apply safe_get|by apply flat_calm|]. intros v.
  repeat match goal with |- calm n (match ?x with _ => _ end) => destruct x end; try by apply flat_calm.
  by apply calm_linkServiceDep.
Qed.

Lemma tame_loadContractDeps n host levels : tame_host n host -> forall m, tame n (loadContractDeps host levels m).
Proof.
  intros Hh. induction levels as [|k IH]; intros m;
    (split; [intros e; apply safe_loadContractDeps; by eapply tame_host_safe|]); cbn [loadContractDeps];
    destruct (parseContractDeps m) as [deps|]; try done.
  intros v. apply calm_mfold.
  - intros s x e. apply safe_linkDep; [by eapply tame_host_safe|]. intros m'. by apply IH.
  - intros s x. by apply calm_linkDep.
Qed.

(** Paying for a call leaves enough for one level less. *)
Lemma charge_call n v : enough (S n) v -> (charge gasServiceCall v).1 = Ret tt -> enough n (charge gasServiceCall v).2.
Proof.
  unfold enough, remaining, charge. pose proof (toll_add (tollStation v) gasServiceCall ltac:(done)) as Ha.
  pose proof (toll_max_add (tollStation v) gasServiceCall) as Hm.
  destruct (AddToll (tollStation v) gasServiceCall) as [[] st]; cbn in *; [|done]. destruct Ha as [H1 H2]; [done|].
  unfold gasServiceCall in *. lia.
Qed.

(** The continuation of a paid call. *)
Lemma calm_charged {B} n (k : M B) : calm n k -> calm (S n) (mbind' (charge gasServiceCall) (fun _ => k)).
Proof.
  intros Hk v Hv. pose proof (charge_call n v Hv) as Hc. unfold mbind'.
  destruct (charge gasServiceCall v) as [[[]|p|] w] eqn:E; cbn in Hc; [by apply Hk, Hc|done|].
  by pose proof (flat_charge gasServiceCall v) as Hf; rewrite E in Hf.
Qed.

#[local] Hint Resolve flat_calm : flat.

(** Splits a computation into its parts; a flat or linear part is closed. *)
Ltac calmly :=
  repeat first
    [ progress cbv zeta
    | match goal with |- calm _ (mbind' _ _) => apply calm_bind; [| |intros ?] end
    | match goal with |- calm _ (match ?x with _ => _ end) => destruct x end
    | solve [apply flat_calm; flatten]
    | solve [apply safe_meek; intros; first [apply safe_lift|apply safe_get|apply safe_currentAddress|apply safe_traceStart
        |apply safe_traceOk|apply safe_ret|apply safe_charge; done]]
    | solve [apply meek_set; done] ].

Lemma calm_serviceCall n host a b c mem : tame_host n host -> calm (S n) (serviceCall host a b c mem).
Proof.
  intros Hh. unfold serviceCall. apply calm_charged.
  pose proof (tame_loadContractDeps n host) as Hl. pose proof (fun m => tame_instantiate n host m Hh) as Hi.
  pose proof (fun i x args => tame_callExported n host i x args Hh) as Hc.
  calmly; first [by apply safe_meek, Hl|exact (proj2 (Hl _ Hh _))|by apply safe_meek, Hi|exact (proj2 (Hi _))|by apply safe_meek, Hc
    |exact (proj2 (Hc _ _ _))].
Qed.

Lemma calm_serviceWrapper n host s f args : tame_host n host -> calm (S n) (serviceWrapper host s f args).
Proof.
  intros Hh. unfold serviceWrapper. pose proof (fun i x args => tame_callExported n host i x args Hh) as Hc.
  apply calm_bind; [apply safe_meek; intros; apply safe_currentAddress|apply flat_calm, flat_currentAddress|]. intros from.
  apply calm_bind; [apply safe_meek; intros; apply safe_get|by apply flat_calm|]. intros [].
  - apply flat_calm. flatten.
  - apply calm_charged. calmly; first [by apply safe_meek, Hc|exact (proj2 (Hc _ _ _))].
Qed.

Lemma tame_hostCall n : tame_host n (hostCall n).
Proof.
  induction n as [|n IH]; intros m f args mem.
  - split; [intros e; apply safe_hostCall|]. intros v Hv. unfold enough, remaining, gasServiceCall in Hv. lia.
  - split; [intros e; apply safe_hostCall|]. intros v Hv. cbn [hostCall].
    destruct (findFn _ m f) as [fn|] eqn:E.
    + destruct (fn_flat _ _ _ _ args mem E) as [Hf|(a & b & c & ->)]; [apply Hf|].
      unfold contract_call, mbind'. pose proof (calm_serviceCall n (hostCall n) (u32 a) (u32 b) (u32 c) mem IH v Hv) as Hc.
      by destruct (serviceCall _ _ _ _ _ v) as [[]].
    + destruct (_ ≫= _) as [s|]; [|done]. unfold mbind'.
      pose proof (calm_serviceWrapper n (hostCall n) s f args IH v Hv) as Hc.
      by destruct (serviceWrapper _ _ _ _ v) as [[]].
Qed.

(** The fuel of a machine covers its whole budget. *)
Lemma enough_vmFuel v : remaining v <= vmMaxToll -> enough vmFuel v.
Proof.
  intros H. unfold enough, vmFuel. rewrite Z2Nat.id by done. change (vmMaxToll / gasServiceCall + 2) with 8390.
  change vmMaxToll with 16777216 in H. unfold gasServiceCall. lia.
Qed.

Lemma running_remaining t acc tx bt v : running t acc tx bt v -> remaining v <= vmMaxToll.
Proof.
  intros (md & j & _ & Hs%remaining_steps). unfold remaining at 2 in Hs. cbn in Hs.
  rewrite toll_max_new, toll_new in Hs. change vmMaxToll with 16777216 in *. lia.
Qed.

End Fuel.
