(* ===== verification/VMToy.v ===== *)
(** * A small engine

    An instance of the engine of VM.v on which concrete runs evaluate: a
    module is a table of exports, each a list of host calls made one after
    the other from a fresh memory; a panic of a host call fails the export. *)

From S2P Require Import Prelude Params Keys Contract Types Instances Tx BlockStore State StateCommit Journal VM VMFuel.

Record toy_call := { tc_module : string; tc_fn : string; tc_args : list Z; tc_mem : bytes }.

Record toy_module := { tm_start : list toy_call; tm_exports : list (string * list toy_call) }.

Definition toy_run (calls : list toy_call) : exec bool (bool + list Z) :=
  foldr (fun c k => EHost (str (tc_module c)) (str (tc_fn c)) (tc_args c) (Some (tc_mem c))
           (fun r => match r with inl _ => ERet (inl false) | inr _ => k end))
        (ERet (inr [])) calls.

Fixpoint exec_map {E A B} (f : A -> B) (e : exec E A) : exec E B :=
  match e with
  | ERet a => ERet (f a)
  | EPanic => EPanic
  | EToll n k => EToll n (fun b => exec_map f (k b))
  | EHost m fn args mem k => EHost m fn args mem (fun r => exec_map f (k r))
  end.

Definition toy_find (m : toy_module) (name : bytes) : option (list toy_call) :=
  snd <$> list_find_first (fun e => bool_decide (str e.1 = name)) (tm_exports m).

Section Toy.
Context (table : Z -> option toy_module).

(** The byte after the magic picks the module. *)
Definition toy_decode (source : bytes) : made bool toy_module :=
  match drop 4 source with
  | [b] => match table (byteZ b) with Some m => MadeModule m | None => MadeErr false end
  | _ => MadeErr false
  end.

Definition toy_wasman : Wasman := {|
  werr := bool;
  WModule := toy_module;
  WInstance := toy_module;
  NewModule := fun _ source => toy_decode source;
  ImportSection := fun _ => [];
  ExportSection := fun m => list_to_map ((fun e => (str e.1, {| Kind := 0; Index := 0 |})) <$> tm_exports m);
  FunctionSection := fun _ => [0];
  TypeSection := fun _ => [{| InputTypes := []; ReturnTypes := [] |}];
  linkable := fun _ => true;
  is_missing := fun e => e;
  Instantiate := fun _ m => exec_map (fun r => match r with inl e => inl e | inr _ => inr m end) (toy_run (tm_start m));
  CallExportedFunc := fun m name _ =>
    match toy_find m name with
    | None => ERet (inl true, m)
    | Some calls => exec_map (fun r => (r, m)) (toy_run calls)
    end
|}.

End Toy.

(** A digest that is cheap to evaluate: the first 32 bytes. *)
Definition prefix_hasher : Hasher := fun b => to_array 32 b.

(** A station is its bound and its total. *)
Definition toy_toll : TollStation := {|
  station := Z * Z;
  NewSimpleTollStation := fun m => (m, 0);
  AddToll := fun st n => if st.1 <? st.2 + n then (false, st) else (true, (st.1, st.2 + n));
  GetToll := snd
|}.

Definition toy_toll_laws : @TollLaws toy_toll.
Proof.
  refine {| toll_max := (fst : @station toy_toll -> Z) |}; cbn; intros; try done.
  - by destruct (_ <? _).
  - destruct (_ <? _); cbn; lia.
  - revert H0. destruct (Z.ltb_spec st.1 (st.2 + n)); cbn; [done|]. intros _. lia.
Defined.

(** ** A storage contract *)

Definition contract_source (n : Z) : bytes := wasmMagic ++ [Zbyte n].

(** Module 1 stores under "k" when called and clears it in its upgrade
    hook; module 2 pays 5 to the address its memory starts with; module 3
    writes a reserved key; module 4 calls the contract at that address. *)
Definition bob : Address := to_array 32 (replicate 32 (Zbyte 66)).

Definition toy_table (n : Z) : option toy_module :=
  if n =? 1 then Some {| tm_start := []; tm_exports :=
    [("ng:main", [{| tc_module := "kv"; tc_fn := "set"; tc_args := [0; 1; 1; 3]; tc_mem := str "kabc" |}]);
     ("ng:upgrade", [{| tc_module := "kv"; tc_fn := "del"; tc_args := [0; 1]; tc_mem := str "k" |}])]%string |}
  else if n =? 2 then Some {| tm_start := []; tm_exports :=
    [("ng:main", [{| tc_module := "coin"; tc_fn := "transfer"; tc_args := [0; 32];
                     tc_mem := vec_to_list bob ++ bigToLE32 5 |}])]%string |}
  else if n =? 3 then Some {| tm_start := []; tm_exports :=
    [("ng:main", [{| tc_module := "kv"; tc_fn := "set"; tc_args := [0; 5; 0; 1]; tc_mem := str "_rent" |}])]%string |}
  else if n =? 4 then Some {| tm_start := []; tm_exports :=
    [("ng:main", [{| tc_module := "contract"; tc_fn := "call"; tc_args := [0; 0; 0]; tc_mem := vec_to_list bob |}])]%string |}
  else if n =? 5 then Some {| tm_start :=
    [{| tc_module := "coin"; tc_fn := "transfer"; tc_args := [0; 32]; tc_mem := vec_to_list bob ++ bigToLE32 5 |}]%string;
    tm_exports := [("ng:main", [])]%string |}
  else None.
