(* ===== verification/VMProps.v ===== *)
(** * What a contract run guarantees: the theorems

    The guarantees of VMRuns.v and VMFuel.v for the runs the state layer
    makes, and the reentrancy guard of service.go, with concrete runs on the
    engine of VMToy.v. *)

From S2P Require Import Prelude Params StateTrie Keys Contract Types Instances Tx BlockStore State StateCommit Journal VM VMSteps VMRuns VMFuel VMToy.

Section Props.
Context `{HH : Hasher} `{SL : SigLibs} `{CD : Codec} `{SC : SlotCodec} `{WM : Wasman} `{TS : TollStation}.

(** A run as [runContract] makes it: build the machine, resolve the entry,
    clamp the budget, call. *)
Definition execute (t : Txn) (account : Contract) (tx : FullTx) (bt : Z) (entry : bytes) (limit : option Z)
    : res (option (vm_error werr) * machine) :=
  let! made := VM.NewVM t account tx bt in
  match made with
  | inl _ => Err ErrWasmInvalid
  | inr v =>
      let! (entry, v) := VM.EntryFor v entry in
      finish (runEntry entry (match limit with Some g => VM.LimitToll v g | None => v end))
  end.

Lemma execute_running t account tx bt entry limit err v :
  execute t account tx bt entry limit = Ok (err, v) -> running t account tx bt v.
Proof.
  unfold execute. intros E. open_ok E. destruct r as [|v0]; [done|]. open_ok E. destruct r as [e' v1].
  set (v2 := match limit with Some g => _ | None => _ end) in E.
  destruct (runEntry e' v2) as [o v3] eqn:ER. unfold finish in E. destruct o; try done. injection E as <- <-.
  eapply (run_steps _ _ _ _ v0 entry e' v1 v2); [done|done| |done]. unfold v2. destruct limit; eauto.
Qed.

(** C13 - Whatever the engine does between its host calls, a contract run is a
    sequence of the elementary steps of [vstep] from the fresh machine of the
    account: tolls, loads of slots, transfers and deposit moves out of the
    executing address, writes of unreserved keys into its own storage,
    events, trace entries, and calls into stored contracts. *)
Theorem run_refines_steps t account tx bt entry limit err v :
  execute t account tx bt entry limit = Ok (err, v) ->
  exists md j, newVMJournal account = Ok j /\ rtc vstep (fresh_machine t account tx bt md j) v.
Proof. apply execute_running. Qed.

(** Contract code cannot touch the protocol's storage keys.  In the
    journal of any run every account is a copy of its slot with the same
    owner and code whose context agrees with the slot's on every reserved
    key (a short key starting with an underscore), the deposit total
    [_rent] apart; so [_active], [_deps] and [_refs] are out of reach of
    [kv.set] and [kv.del] of any contract of the call tree. *)
Theorem run_protects_reserved_keys t account tx bt entry limit err v a acc :
  execute t account tx bt entry limit = Ok (err, v) -> accounts (journal' v) !! a = Some acc ->
  exists slot base ctx,
    (if decide (a = Owner account) then Ok account else getContract t a) = Ok slot
    /\ Owner acc = Owner slot /\ Source acc = Source slot
    /\ Context' slot = Some base /\ Context' acc = Some ctx
    /\ forall k, isReservedKey k = true -> k <> contextKeyRent -> abs ctx !! k = abs base !! k.
Proof.
  intros E Ha. apply execute_running, running_reserved in E as [_ E].
  destruct (E a acc Ha) as (slot & Hs & Ho & Hsrc & base & ctx & Hb & Hc & Hr). exists slot, base, ctx. split_and!; done.
Qed.

(** C28 - The storage-deposit escrow stays solvent during a run: when no
    contract lives at the escrow address, the escrow's pending balance has
    grown by at least as much as the deposit totals recorded in the
    contexts of all the contracts of the run, and no pending balance is
    negative.  So a refund never pays out another contract's bond. *)
Theorem run_escrow_covers_deposits t account tx bt entry limit err v :
  no_contract_at_escrow t -> Owner account <> StorageDepositEscrow ->
  execute t account tx bt entry limit = Ok (err, v) ->
  sumZ (fun kv => rent_of kv.2 - base_rent t account kv.1) (map_to_list (accounts (journal' v)))
    <= balanceOf (journal' v) t StorageDepositEscrow - getBalance t StorageDepositEscrow
  /\ map_Forall (fun _ b => 0 <= b) (balances (journal' v)).
Proof.
  intros Hn Ho E. apply execute_running in E. split; [|by apply (running_conserves _ _ _ _ _ E)].
  by apply (di_cover _ _ _ (running_deposit _ _ _ _ _ Hn Ho E)).
Qed.

(** The local records of a run are bounded and system events cannot be
    forged: at most 128 events and 1024 trace entries, exactly eight buffer
    slots, and every event whose topic starts with "ng." is one the node
    wrote for a transfer. *)
Theorem run_output_bounded t account tx bt entry limit err v :
  execute t account tx bt entry limit = Ok (err, v) ->
  zlen (events v) <= maxEventsPerRun /\ zlen (trace v) <= maxTraceCalls /\ zlen (bufs v) = vmBufSlots
  /\ Forall (fun e => has_prefix EventTopicPrefix (ev_Topic e) = true ->
       exists from to value, e = transfer_event from to value) (events v).
Proof. intros E. apply execute_running, running_caps in E as []. done. Qed.

Lemma dispatch_err md method e : dispatch md method = Err e -> e = GoPanic.
Proof.
  unfold dispatch. destruct (is_reserved_entry method); [done|]. unfold exportFuncSig.
  destruct (ExportSection md !! method) as [d|]; [|done]. destruct (negb _); [done|]. destruct (_ <? _); [done|].
  destruct (FunctionSection md !! _); [done|]. cbn. congruence.
Qed.

Lemma EntryFor_err v entry e : VM.EntryFor v entry = Err e -> e = GoPanic.
Proof.
  unfold VM.EntryFor. destruct (_ || _); [done|]. destruct (DecodeCallData _) as [[method args]|]; [|done]. cbv zeta.
  destruct (dispatch _ method) eqn:Ed; [done|]. cbn. intros [= <-]. by eapply dispatch_err.
Qed.

(** C29 - Calls between contracts cannot nest without bound: the fuel given to
    the interpreter of the machine, [2^24 / 2000 + 2] levels, is never used
    up, neither while a machine is linked nor while it runs, because every
    level buys its call from the one toll station of the run.  A run ends
    with a result, an error, or a Go panic. *)
Theorem run_never_out_of_fuel `{TL : !TollLaws} t account tx bt entry limit :
  VM.NewVM t account tx bt <> Err ErrOutOfFuel /\ execute t account tx bt entry limit <> Err ErrOutOfFuel.
Proof.
  assert (HN : VM.NewVM t account tx bt <> Err ErrOutOfFuel).
  { unfold VM.NewVM. destruct (LoadContractWasm_ _) as [|bin]; [done|]. unfold template.
    destruct (NewModule false bin) as [md| |]; [|done|done]. cbn [res_bind].
    unfold newVMJournal, clone_context. destruct (Context' account) as [ctx|]; [|done]. cbn [res_bind].
    set (v0 := fresh_machine _ _ _ _ _ _).
    assert (He : enough vmFuel v0).
    { apply enough_vmFuel. unfold remaining. cbn. rewrite toll_max_new, toll_new. change vmMaxToll with 16777216. lia. }
    pose proof (proj2 (tame_loadContractDeps vmFuel (hostCall vmFuel) (Z.to_nat maxDepChainDepth) (tame_hostCall vmFuel) md) v0 He).
    by destruct (loadContractDeps _ _ md v0) as [[[]| |] w]. }
  split; [done|]. unfold execute. destruct (VM.NewVM t account tx bt) as [[|v]|] eqn:EN; [done| |by intros [= ->]]. cbn [res_bind].
  destruct (VM.EntryFor v entry) as [[e' v1]|e] eqn:EE; [|apply EntryFor_err in EE as ->; done]. cbn [res_bind].
  set (v2 := match limit with Some g => _ | None => _ end).
  assert (Hr : running t account tx bt v2).
  { eapply running_steps; [by eapply NewVM_running|]. etrans; [by eapply EntryFor_steps|].
    unfold v2. destruct limit; [apply rtc_once, s_limit|apply rtc_refl]. }
  apply running_remaining, enough_vmFuel in Hr.
  assert (Hc : calm vmFuel (runEntry e')).
  { unfold runEntry. apply calm_bind.
    - apply safe_meek. intros e u Hu. exact (safe_instantiate e _ _ (safe_hostCall e vmFuel) u Hu).
    - intros u Hu. exact (proj2 (tame_instantiate _ _ _ (tame_hostCall vmFuel)) u Hu).
    - intros [|i]; [by apply flat_calm|]. apply calm_bind.
      + apply safe_meek. intros e. apply safe_callExported, safe_hostCall.
      + exact (proj2 (tame_callExported _ _ _ _ _ (tame_hostCall vmFuel))).
      + intros r. by apply flat_calm. }
  specialize (Hc v2 Hr). unfold finish. by destruct (runEntry e' v2) as [[]].
Qed.

Lemma onStack_true a v : a ∈ frames v -> onStack a v = true.
Proof. apply bool_decide_eq_true_2. Qed.

Lemma frames_top v a : a ∈ frames v -> exists b, last (frames v) = Some b.
Proof. intros Ha. destruct (last (frames v)) eqn:E; [eauto|]. apply last_None in E. rewrite E in Ha. by apply not_elem_of_nil in Ha. Qed.

Lemma traceStart_journal c v : exists i w, traceStart c v = (Ret i, w) /\ journal' w = journal' v /\ frames w = frames v.
Proof. unfold traceStart. destruct (_ <=? _); eauto 10. Qed.

Lemma charge_journal n v : exists o w, charge n v = (o, w) /\ journal' w = journal' v /\ frames w = frames v
  /\ env w = env v /\ (o = Ret tt \/ o = Panic PGas).
Proof. unfold charge. destruct (AddToll _ _) as [[] st]; eauto 10. Qed.

(** A contract that is still executing cannot be entered again, neither
    through a linked dependency nor through [contract.call]: the host call
    panics, whatever the engine behind it, and leaves the journal and the
    call stack as they were. *)
Theorem reentry_refused host v s export args a b c mem target calldata :
  sv_addr s ∈ frames v -> target ∈ frames v ->
  readAddr mem a = Some target -> readMem mem b c = Some calldata ->
  (exists w, serviceWrapper host s export args v = (Panic (PReentry (sv_addr s)), w)
     /\ journal' w = journal' v /\ frames w = frames v)
  /\ exists p w, serviceCall host a b c mem v = (Panic p, w) /\ journal' w = journal' v /\ frames w = frames v.
Proof.
  intros Hs Ht Ha Hb. split.
  - destruct (frames_top v _ Hs) as [top Htop]. unfold serviceWrapper, currentAddress. unfold mbind' at 1. rewrite Htop.
    unfold mget. unfold mbind' at 1. rewrite onStack_true by done. unfold mbind'.
    match goal with |- context [traceStart ?tc v] => destruct (traceStart_journal tc v) as (i & w & -> & Hj & Hf) end.
    exists w. done.
  - unfold serviceCall. destruct (charge_journal gasServiceCall v) as (o & w & Hc & Hj & Hf & He & Ho). unfold mbind' at 1.
    rewrite Hc. destruct Ho as [-> | ->]; [|eauto 10]. unfold mget. unfold mbind' at 1. unfold id.
    destruct (_ <=? _); [eexists _, w; done|]. rewrite Ha, Hb. rewrite <-Hf in Ht. rewrite onStack_true by done.
    destruct (frames_top w _ Ht) as [top Htop]. unfold currentAddress. unfold mbind' at 1. rewrite Htop. unfold mbind'.
    match goal with |- context [traceStart ?tc w] => destruct (traceStart_journal tc w) as (i & w' & -> & Hj' & Hf') end.
    eexists _, w'. split; [done|]. split; congruence.
Qed.

(** ** The module cache *)

(** What the cache holds: decodings of sources it has seen. *)
Definition cache_ok (sha256 : bytes -> vec byte 32) (cache : gmap bytes WModule) : Prop :=
  forall k m, cache !! k = Some m -> exists src, vec_to_list (sha256 src) = k /\ NewModule false src = MadeModule m.

(** The cache of decoded modules is transparent: [templateFor] answers
    what a fresh decoding of the source answers, and keeps the cache sound,
    unless two different sources have the same sha256. *)
Theorem templateFor_transparent sha256 cache source :
  cache_ok sha256 cache ->
  cache_ok sha256 (templateFor sha256 cache source).2
  /\ ((templateFor sha256 cache source).1 = NewModule false source
      \/ exists other, other <> source /\ sha256 other = sha256 source).
Proof.
  intros Hc. unfold templateFor. destruct (cache !! _) as [m|] eqn:El.
  - split; [done|]. destruct (Hc _ _ El) as (src & Hk & Hm). cbn [fst].
    destruct (decide (src = source)) as [<-|Hn]; [left; congruence|]. right. exists src. split; [done|].
    by apply vec_to_list_inj2.
  - destruct (NewModule false source) as [m| |] eqn:Em; cbn [fst snd]; (split; [|by left]); [|done|done].
    intros k m'. destruct (decide (vec_to_list (sha256 source) = k)) as [<-|Hn].
    + rewrite lookup_insert_eq. intros [= <-]. eauto.
    + rewrite lookup_insert_ne by done. apply Hc.
Qed.

End Props.

(** ** Witnesses *)

Module RunWitness.

#[local] Existing Instance prefix_hasher.
#[local] Existing Instance toy_libs.
#[local] Existing Instance toy_codec.
#[local] Existing Instance toy_slot_codec.
#[local] Existing Instance toy_toll.
#[local] Existing Instance toy_toll_laws.

Definition engine : Wasman := toy_wasman toy_table.
#[local] Existing Instance engine.

Definition alice : Address := to_array 32 [Zbyte 9].

Definition contract (a : Address) (n : Z) : Contract := SetActive (NewContract a (contract_source n) None) true.

Definition ok_or {A} (d : A) (m : res A) : A := match m with Ok a => a | Err _ => d end.

(** alice runs the storage contract, bob the paying one. *)
Definition world : Txn :=
  let t := ok_or ∅ (setContract ∅ None (contract alice 1)) in
  let t := ok_or t (setContract t None (contract bob 2)) in
  setBalance (setBalance t None alice (10 ^ 18)) None bob 40.

Definition call_tx : FullTx := NewTx ZERONET TransactTx 7 alice (Some 0) (Some 1) [] [].

Abbreviation stores := (execute world (contract alice 1) call_tx 0 EntryOnTx (Some 100000)).

Lemma stores_ok : is_ok stores = true.
Proof. vm_compute. reflexivity. Qed.

Lemma run_refines_steps_witness :
  exists err v md j, stores = Ok (err, v) /\ newVMJournal (contract alice 1) = Ok j
    /\ rtc vstep (fresh_machine world (contract alice 1) call_tx 0 md j) v.
Proof.
  destruct (is_ok_Ok stores stores_ok) as [[err v] E].
  destruct (run_refines_steps world (contract alice 1) call_tx 0 EntryOnTx (Some 100000) err v E) as (md & j & Hj & Hs).
  exists err, v, md, j. split; [exact E|]. split; [exact Hj|exact Hs].
Defined.

(** The account whose storage the run wrote. *)
Definition stored_account : option Contract := match stores with Ok (_, v) => accounts (journal' v) !! alice | Err _ => None end.

Lemma run_protects_reserved_keys_witness :
  exists err v acc slot base ctx, stores = Ok (err, v) /\ accounts (journal' v) !! alice = Some acc
    /\ Context' slot = Some base /\ Context' acc = Some ctx
    /\ isReservedKey ContextKeyActive = true /\ abs ctx !! ContextKeyActive = abs base !! ContextKeyActive.
Proof.
  destruct (is_ok_Ok stores stores_ok) as [[err v] E].
  assert (Hs : is_Some stored_account) by (vm_compute; eauto).
  unfold stored_account in Hs. rewrite E in Hs. destruct Hs as [acc Ha].
  destruct (run_protects_reserved_keys world (contract alice 1) call_tx 0 EntryOnTx (Some 100000) err v alice acc E Ha)
    as (slot & base & ctx & _ & _ & _ & Hb & Hc & Hr).
  exists err, v, acc, slot, base, ctx. split; [exact E|]. split; [exact Ha|]. split; [exact Hb|]. split; [exact Hc|].
  split; [reflexivity|]. apply Hr; [reflexivity|discriminate].
Defined.

Lemma world_escrow_free : no_contract_at_escrow world.
Proof.
  assert (Hall : forallb (fun kv => match dec_storedContract kv.2 with
                                     | Some sc => negb (bool_decide (sc_Owner sc = StorageDepositEscrow))
                                     | None => true end) (map_to_list (Bucket world ContractBucketName)) = true)
    by (vm_compute; reflexivity).
  split; [vm_compute; reflexivity|]. intros x acc E. unfold getContract in E.
  destruct (bGet world ContractBucketName (vec_to_list x)) as [raw|] eqn:Er; [|discriminate E].
  unfold decodeStoredContract in E. rewrite forallb_forall in Hall. unfold bGet in Er. apply elem_of_map_to_list in Er.
  specialize (Hall (vec_to_list x, raw)). rewrite <-list_elem_of_In in Hall. specialize (Hall Er). cbn [snd] in Hall.
  destruct (dec_storedContract raw) as [sc|]; [|discriminate E]. injection E as <-. cbn [Owner].
  apply negb_true_iff in Hall. by apply bool_decide_eq_false in Hall.
Qed.

Lemma alice_not_escrow : Owner (contract alice 1) <> StorageDepositEscrow.
Proof. intros E. apply (f_equal vec_to_list) in E. vm_compute in E. discriminate E. Qed.

Lemma run_escrow_covers_deposits_witness :
  exists err v, stores = Ok (err, v)
    /\ sumZ (fun kv => rent_of kv.2 - base_rent world (contract alice 1) kv.1) (map_to_list (accounts (journal' v)))
       <= balanceOf (journal' v) world StorageDepositEscrow - getBalance world StorageDepositEscrow
    /\ map_Forall (fun _ b => 0 <= b) (balances (journal' v)).
Proof.
  destruct (is_ok_Ok stores stores_ok) as [[err v] E]. exists err, v. split; [exact E|].
  exact (run_escrow_covers_deposits world (contract alice 1) call_tx 0 EntryOnTx (Some 100000) err v
    world_escrow_free alice_not_escrow E).
Defined.

Abbreviation pays := (execute world (contract bob 2) call_tx 0 EntryOnTx None).

Lemma pays_ok : is_ok pays = true.
Proof. vm_compute. reflexivity. Qed.

Lemma run_output_bounded_witness :
  exists err v, pays = Ok (err, v) /\ zlen (events v) <= maxEventsPerRun /\ zlen (trace v) <= maxTraceCalls
    /\ zlen (bufs v) = vmBufSlots
    /\ Forall (fun e => has_prefix EventTopicPrefix (ev_Topic e) = true ->
         exists from to value, e = transfer_event from to value) (events v).
Proof.
  destruct (is_ok_Ok pays pays_ok) as [[err v] E]. exists err, v. split; [exact E|].
  exact (run_output_bounded world (contract bob 2) call_tx 0 EntryOnTx None err v E).
Defined.

Lemma run_never_out_of_fuel_witness :
  VM.NewVM world (contract bob 2) call_tx 0 <> Err ErrOutOfFuel
  /\ execute world (contract bob 2) call_tx 0 EntryOnTx None <> Err ErrOutOfFuel.
Proof. exact (run_never_out_of_fuel (TL := toy_toll_laws) world (contract bob 2) call_tx 0 EntryOnTx None). Defined.

(** bob's machine, while bob executes. *)
Definition busy : machine :=
  fresh_machine world (contract bob 2) call_tx 0 {| tm_start := []; tm_exports := [] |} {| accounts := ∅; balances := ∅ |}.

Lemma reentry_refused_witness :
  (exists w, serviceWrapper (hostCall 3) {| sv_addr := bob; sv_ins := 0; sv_sig := {| InputTypes := []; ReturnTypes := [] |} |}
       (str "f") [] busy = (Panic (PReentry bob), w) /\ journal' w = journal' busy /\ frames w = frames busy)
  /\ exists p w, serviceCall (hostCall 3) 0 0 0 (Some (vec_to_list bob)) busy = (Panic p, w)
       /\ journal' w = journal' busy /\ frames w = frames busy.
Proof.
  apply (reentry_refused (hostCall 3) busy {| sv_addr := bob; sv_ins := 0; sv_sig := {| InputTypes := []; ReturnTypes := [] |} |}
    (str "f") [] 0 0 0 (Some (vec_to_list bob)) bob []).
  - left.
  - left.
  - vm_compute. reflexivity.
  - vm_compute. reflexivity.
Defined.

Lemma templateFor_transparent_witness :
  cache_ok blake3_Sum256 (templateFor blake3_Sum256 ∅ (contract_source 1)).2
  /\ ((templateFor blake3_Sum256 ∅ (contract_source 1)).1 = NewModule false (contract_source 1)
      \/ exists other, other <> contract_source 1 /\ blake3_Sum256 other = blake3_Sum256 (contract_source 1)).
Proof. apply (templateFor_transparent blake3_Sum256 ∅ (contract_source 1)). intros k m E. by rewrite lookup_empty in E. Defined.

End RunWitness.
