(* ===== verification/Ledger.v ===== *)
(** * Applying blocks

    state_check.go, state_handle.go, deps.go and the block-apply half of
    state.go: the transaction checks, the handlers, and [Upgrade].  The
    virtual machine is used through the class [ContractVM] of Journal.v. *)

From stdpp Require Import pretty.
From S2P Require Import Prelude Params StateTrie Keys Contract Types Instances Tx Block BlockStore State StateCommit Journal.

(** RLP of a dependency list. *)
Class DepsCodec := {
  rlp_deps : list bytes -> bytes;
  dec_deps : bytes -> option (list bytes)
}.

(** compress/flate's reader, as in [DecodeCommitCode]. *)
Class Inflate := inflate_reader : bytes -> bytes * bool.

(** State: the fields the block apply reads. *)
Record State := { st_Network : Network; st_Archive : bool }.

Section Ledger.
Context `{HH : Hasher} `{SL : SigLibs} `{CD : Codec} `{SC : SlotCodec} `{RC : ReceiptCodec}
  `{DC : DepsCodec} `{IF : Inflate} `{ML : MerkleLib} `{VM_ : ContractVM}.

(** ** deps.go: the dependency ledger *)

Definition contextKeyDeps : bytes := str "_deps".
Definition contextKeyRefs : bytes := str "_refs".

(** A nil context panics at its first method call. *)
Definition with_context {A} (acc : Contract) (f : ContractContext -> res A) : res A :=
  match Context' acc with Some ctx => f ctx | None => Err GoPanic end.

Definition set_context (acc : Contract) (ctx : ContractContext) : Contract :=
  {| Owner := Owner acc; Source := Source acc; Context' := Some ctx |}.

Definition getRefCount (acc : Contract) : res Z :=
  with_context acc (fun ctx =>
    let raw := (Get ctx contextKeyRefs).1 in
    Ok (if negb (length raw =? 8)%nat then 0 else UnpackUint64LE raw)).

Definition setRefCount (acc : Contract) (refs : Z) : res Contract :=
  with_context acc (fun ctx =>
    Ok (set_context acc (if refs =? 0 then Del ctx contextKeyRefs else Set' ctx contextKeyRefs (PackUint64LE refs)))).

Definition depAddr (raw : bytes) : res Address :=
  reject negb (zlen raw =? AddressSize) with ErrDepInvalidImport ;
  Ok (to_array 32 raw).

Definition mapM_res {A B} (f : A -> res B) : list A -> res (list B) :=
  fix go l := match l with
              | [] => Ok []
              | x :: l' => let! y := f x in let! ys := go l' in Ok (y :: ys)
              end.

Definition getContractDeps (acc : Contract) : res (list Address) :=
  with_context acc (fun ctx =>
    let raw := (Get ctx contextKeyDeps).1 in
    if zlen raw =? 0 then Ok []
    else match dec_deps raw with
         | None => Err ErrDecode
         | Some rawDeps => mapM_res depAddr rawDeps
         end).

Definition setContractDeps (acc : Contract) (deps : list Address) : res Contract :=
  with_context acc (fun ctx =>
    Ok (set_context acc (if zlen deps =? 0 then Del ctx contextKeyDeps
                         else Set' ctx contextKeyDeps (rlp_deps (vec_to_list <$> deps))))).

(** ** state_check.go *)

Definition revealHash (tx : FullTx) : bytes := Hash256 (UnheightedHash tx ++ tx_Salt tx).

Definition checkReveal (txn : Txn) (tx : FullTx) : res unit :=
  if tx_Height tx =? 0 then Ok tt
  else
    reject zlen (tx_Salt tx) =? 0 with ErrTxNotCommitted ;
    reject zlen (tx_Salt tx) <? MinSaltSize with ErrSaltTooShort ;
    let! from := From tx in
    match findCommit txn from (revealHash tx) (tx_Height tx) with
    | None => Err ErrTxNotCommitted
    | Some _ => Ok tt
    end.

Definition fromWithBalance (txn : Txn) (tx : FullTx) (expense : Z) : res Address :=
  let! from := From tx in
  reject getBalance txn from <? expense with ErrTxrBalanceInsufficient ;
  Ok from.

Definition checkTransaction (txn : Txn) (tx : FullTx) : res unit :=
  do! CheckTransaction tx (keyResolver txn) ;
  do! fromWithBalance txn tx (TotalExpenditure tx) ;
  Ok tt.

(** A slot is live when it is active and has code. *)
Definition is_live (slot : res Contract) : bool :=
  match slot with Ok acc => IsActive acc && negb (zlen (Source acc) =? 0) | Err _ => false end.

Definition checkDep (txn : Txn) (from : Address) (dep : Address) : res unit :=
  reject Address_Equals dep from with ErrDepSelf ;
  let! acc := getContract txn dep in
  reject negb (IsActive acc) || (zlen (Source acc) =? 0) with ErrDepNotActive ;
  Ok tt.

Definition checkDeps (txn : Txn) (from : Address) (deps : list Address) : res unit :=
  res_fold (fun _ dep => checkDep txn from dep) tt deps.

Definition checkDeploy (txn : Txn) (deployTx : FullTx) : res unit :=
  do! CheckDeploy deployTx (keyResolver txn) ;
  let! from := fromWithBalance txn deployTx (TotalExpenditure deployTx) in
  let! newSource := DecodeCommitCode inflate_reader (tx_Extra deployTx) in
  reject MaxContractSourceSize <? zlen newSource with ErrSourceTooLarge ;
  let slot := getContract txn from in
  let isLive := is_live slot in
  if zlen newSource =? 0 then
    match slot with
    | Ok acc =>
        reject negb isLive with ErrNothingToDestroy ;
        let! upgradable := contractHasExport (Source acc) EntryOnUpgrade in
        reject negb upgradable with ErrImmutable ;
        let! refs := getRefCount acc in
        reject 0 <? refs with ErrContractRefdBy ;
        Ok tt
    | Err _ => Err ErrNothingToDestroy
    end
  else
    do! LoadContractWasm newSource ;
    let! deps := extractContractDeps newSource in
    do! checkDeps txn from deps ;
    match slot with
    | Ok acc =>
        if isLive then
          let! upgradable := contractHasExport (Source acc) EntryOnUpgrade in
          reject negb upgradable with ErrImmutable ;
          Ok tt
        else Ok tt
    | Err _ => Ok tt
    end.

Definition CheckTx (txn : Txn) (tx : FullTx) : res unit :=
  reject negb (IsSigned tx) with ErrTxSignInvalid ;
  reject TxMaxExtraSize <? zlen (tx_Extra tx) with ErrTxExtraExcess ;
  if tx_Type tx =? GenerateTx then Err ErrTxTypeInvalid
  else if tx_Type tx =? TransactTx then do! checkReveal txn tx ; checkTransaction txn tx
  else if tx_Type tx =? DeployTx then do! checkReveal txn tx ; checkDeploy txn tx
  else Err ErrTxTypeInvalid.

Definition CheckRevealExceptCommitment (txn : Txn) (tx : FullTx) : res unit :=
  reject negb (IsSigned tx) with ErrTxSignInvalid ;
  reject TxMaxExtraSize <? zlen (tx_Extra tx) with ErrTxExtraExcess ;
  if tx_Type tx =? TransactTx then checkTransaction txn tx
  else if tx_Type tx =? DeployTx then checkDeploy txn tx
  else Err ErrTxTypeInvalid.

Definition checkTxBaseFee (block : FullBlock) (tx : FullTx) : res unit :=
  if negb (IsForkActive (h_Network (b_Header block)) ForkFeeMarket (blockHeight block)) then Ok tt
  else
    let minFee := be_Z (h_BaseFee (b_Header block)) * zlen (rlp_FullTx tx) in
    reject tx_Fee tx <? minFee with ErrTxFeeBelowBaseFee ;
    Ok tt.

(** The decimal text of a [*big.Int]. *)
Definition big_String (z : Z) : bytes := str (pretty z).

(** The first loop: the signed generate and the unsigned ones. *)
Fixpoint splitGenerates (txs : list FullTx) (primary : option FullTx) (uncleGens : list FullTx)
    : res (option FullTx * list FullTx) :=
  match txs with
  | [] => Ok (primary, uncleGens)
  | tx :: rest =>
      if negb (tx_Type tx =? GenerateTx) then splitGenerates rest primary uncleGens
      else if IsSigned tx then
        match primary with
        | Some _ => Err ErrRewardInvalid
        | None => splitGenerates rest (Some tx) uncleGens
        end
      else splitGenerates rest primary (uncleGens ++ [tx])
  end.

(** The expected multiset, and its consumption by the generates. *)
Definition want_key (coinbase : bytes) (amount : Z) : bytes := coinbase ++ big_String amount.

Definition addWant (h : Z) (want : gmap bytes Z) (u : BlockHeader) : gmap bytes Z :=
  let key := want_key (h_Coinbase u) (UncleReward (h_Height u) h) in
  <[key := default 0 (want !! key) + 1]> want.

Definition wantMap (h : Z) (uncles : list BlockHeader) : gmap bytes Z := foldl (addWant h) ∅ uncles.

Definition takeGenerate (h : Z) (want : gmap bytes Z) (g : FullTx) : res (gmap bytes Z) :=
  reject negb (tx_Fee g =? 0) with ErrTxFeeInvalid ;
  reject negb (tx_Height g =? h) with ErrRewardInvalid ;
  let key := want_key (vec_to_list (tx_To g)) (tx_Value g) in
  reject default 0 (want !! key) =? 0 with ErrRewardInvalid ;
  Ok (<[key := default 0 (want !! key) - 1]> want).

Definition checkBlockGenerates (txn : Txn) (block : FullBlock) : res unit :=
  let h := blockHeight block in
  let! (primary, uncleGens) := splitGenerates (b_Txs block) None [] in
  match primary with
  | None => Err ErrRewardInvalid
  | Some primary =>
      reject negb (bool_decide (vec_to_list (tx_To primary) = h_Coinbase (b_Header block))) with ErrRewardInvalid ;
      do! CheckGenerate primary h (keyResolver txn) ;
      reject negb (zlen uncleGens =? zlen (b_Uncles block)) with ErrRewardInvalid ;
      do! res_fold (takeGenerate h) (wantMap h (b_Uncles block)) uncleGens ;
      Ok tt
  end.

Definition checkBlockTx (txn : Txn) (block : FullBlock) (tx : FullTx) : res unit :=
  if tx_Type tx =? GenerateTx then Ok tt
  else
    reject negb (IsSigned tx) with ErrTxUnsigned ;
    reject TxMaxExtraSize <? zlen (tx_Extra tx) with ErrTxExtraExcess ;
    do! CheckTx txn tx ;
    checkTxBaseFee block tx.

Definition CheckBlockTxs (txn : Txn) (block : FullBlock) : res unit :=
  do! checkBlockGenerates txn block ;
  res_fold (fun _ tx => checkBlockTx txn block tx) tt (b_Txs block).

(** ** state_handle.go *)

Definition consumeReveal (txn : Txn) (tx : FullTx) : res Txn :=
  if tx_Height tx =? 0 then Ok txn
  else
    reject zlen (tx_Salt tx) <? MinSaltSize with ErrSaltTooShort ;
    let! from := From tx in
    let hash := revealHash tx in
    match findCommit txn from hash (tx_Height tx) with
    | None => Err ErrTxNotCommitted
    | Some h => Ok (consumeCommit (journalConsumed txn (tx_Height tx) h hash from) h hash)
    end.

(** A failed receipt write only logs. *)
Definition recordRun (txn : Txn) (tx : FullTx) (run : ContractRun) : Txn :=
  match appendContractRun txn (GetHash tx) (tx_Height tx) run with Ok txn => txn | Err _ => txn end.

(** [blockGas], the remaining budget; a nil gas is [None]. *)
Definition spend (gas : option Z) (used : Z) : option Z :=
  match gas with
  | None => None
  | Some remaining => Some (if remaining <=? used then 0 else remaining - used)
  end.

Definition run_record (addr : Address) (entry : bytes) (ok : bool) (err : bytes) (gasUsed : Z)
    (events : list Event) (trace : list TraceCall) : ContractRun :=
  {| run_Contract := vec_to_list addr; run_Entry := entry; run_Ok := ok; run_Error := err; run_GasUsed := gasUsed;
     run_Events := events; run_Trace := trace |}.

Definition runContract (cs : option changeset) (txn : Txn) (addr : Address) (tx : FullTx) (entry : bytes)
    (blockTime : Z) (gas : option Z) : res (bool * Txn * option Z) :=
  match getContract txn addr with
  | Err _ => Ok (false, txn, gas)
  | Ok account =>
      if negb (IsActive account) || (zlen (Source account) =? 0) then Ok (false, txn, gas)
      else if bool_decide (gas = Some 0) then
        Ok (false, recordRun txn tx (run_record addr entry false (str "block gas budget exhausted") 0 [] []), gas)
      else
        let! made := NewVM txn account tx blockTime in
        match made with
        | inl err => Ok (false, recordRun txn tx (run_record addr entry false err 0 [] []), gas)
        | inr vm =>
            let! (entry, vm) := EntryFor vm entry in
            let vm := match gas with
                      | Some remaining => if remaining <? vmMaxToll then LimitToll vm remaining else vm
                      | None => vm
                      end in
            let! (err, vm) := vm_call vm entry in
            let gas := spend gas (GasUsed vm) in
            match err with
            | Some (text, missing) =>
                if missing && negb (bool_decide (entry = EntryOnTx)) then Ok (false, txn, gas)
                else Ok (false, recordRun txn tx (run_record addr entry false text (GasUsed vm) [] (Trace vm)), gas)
            | None =>
                let! txn := flush (journal vm) txn cs in
                Ok (true, recordRun txn tx (run_record addr entry true [] (GasUsed vm) (Events vm) (Trace vm)), gas)
            end
        end
  end.

Definition runValidate (cs : option changeset) (txn : Txn) (tx : FullTx) (blockTime : Z) (gas : option Z)
    : res (Txn * option Z) :=
  let! from := From tx in
  match getContract txn from with
  | Err _ => Ok (txn, gas)
  | Ok account =>
      if negb (IsActive account) || (zlen (Source account) =? 0) then Ok (txn, gas)
      else
        let! validates := contractHasExport (Source account) EntryOnValidate in
        if negb validates then Ok (txn, gas)
        else
        let! (ok, txn, gas) := runContract cs txn from tx EntryOnValidate blockTime gas in
        reject negb ok with ErrTxUnauthorized ;
        Ok (txn, gas)
  end.

Definition handleGenerate (cs : option changeset) (txn : Txn) (tx : FullTx) : res Txn :=
  let! txn := if negb (zlen (tx_Sign tx) =? 0) then
                do! Verify tx (keyResolver txn) ;
                Ok (registerPubKey txn cs tx)
              else Ok txn in
  Ok (setBalance txn cs (tx_To tx) (getBalance txn (tx_To tx) + tx_Value tx)).

Definition chargeFrom (txn : Txn) (rec : option changeset) (tx : FullTx) (expense : Z) : res (Address * Txn) :=
  do! Verify tx (keyResolver txn) ;
  let txn := registerPubKey txn rec tx in
  let! from := From tx in
  let balance := getBalance txn from in
  reject balance <? expense with ErrTxrBalanceInsufficient ;
  Ok (from, setBalance txn rec from (balance - expense)).

Definition handleTransaction (cs : option changeset) (txn : Txn) (tx : FullTx) (blockTime : Z) (gas : option Z)
    : res (Txn * option Z) :=
  let! (_, txn) := chargeFrom txn cs tx (TotalExpenditure tx) in
  let txn := setBalance txn cs (tx_To tx) (getBalance txn (tx_To tx) + tx_Value tx) in
  if contractExists txn (tx_To tx) then
    let! (_, txn, gas) := runContract cs txn (tx_To tx) tx EntryOnTx blockTime gas in
    Ok (txn, gas)
  else Ok (txn, gas).

Definition validateDeps (txn : Txn) (from : Address) (source : bytes) : res (list Address) :=
  let! deps := extractContractDeps source in
  do! checkDeps txn from deps ;
  Ok deps.

Definition pinDep (cs : option changeset) (txn : Txn) (dep : Address) : res Txn :=
  let! acc := getContract txn dep in
  let! refs := getRefCount acc in
  let! acc := setRefCount acc (u64 (refs + 1)) in
  setContract txn cs acc.

Definition pinDeps (txn : Txn) (cs : option changeset) (deps : list Address) : res Txn :=
  res_fold (pinDep cs) txn deps.

Definition releaseDep (cs : option changeset) (txn : Txn) (dep : Address) : res Txn :=
  let! acc := getContract txn dep in
  let! refs := getRefCount acc in
  if 0 <? refs then
    let! acc := setRefCount acc (refs - 1) in
    setContract txn cs acc
  else Ok txn.

Definition releaseContractDeps (txn : Txn) (cs : option changeset) (slot : Contract) : res Txn :=
  let! deps := getContractDeps slot in
  res_fold (releaseDep cs) txn deps.

(** The empty-code branch of [handleDeploy]. *)
Definition handleDestroy (state : State) (cs : option changeset) (txn : Txn) (tx : FullTx) (from : Address)
    (slot : res Contract) (blockTime : Z) (gas : option Z) : res (Txn * option Z) :=
  match slot with
  | Err _ => Err ErrNothingToDestroy
  | Ok acc =>
      reject negb (is_live slot) with ErrNothingToDestroy ;
      let! refs := getRefCount acc in
      reject 0 <? refs with ErrContractRefdBy ;
      let! (ok, txn, gas) := runContract cs txn from tx EntryOnUpgrade blockTime gas in
      if negb ok then Ok (txn, gas)
      else
        let! txn := releaseContractDeps txn cs acc in
        let! txn := if IsForkActive (st_Network state) ForkStateRent (tx_Height tx) then
                      with_context acc (fun ctx => Ok (refundContractDeposit txn cs from ctx))
                    else Ok txn in
        Ok (delContract txn cs from, gas)
  end.

(** The slot an upgrade rewrites, or a new one. *)
Definition upgradeSlot (cs : option changeset) (txn : Txn) (tx : FullTx) (from : Address) (slot : res Contract)
    (blockTime : Z) (gas : option Z) : res (option Contract * Txn * option Z) :=
  match slot with
  | Ok acc =>
      if is_live slot then
        let! (ok, txn, gas) := runContract cs txn from tx EntryOnUpgrade blockTime gas in
        if negb ok then Ok (None, txn, gas)
        else
          let! txn := releaseContractDeps txn cs acc in
          Ok (Some acc, txn, gas)
      else Ok (Some (NewContract from [] None), txn, gas)
  | Err _ => Ok (Some (NewContract from [] None), txn, gas)
  end.

Definition handleDeploy (state : State) (cs : option changeset) (txn : Txn) (tx : FullTx) (blockTime : Z) (gas : option Z)
    : res (Txn * option Z) :=
  do! CheckDeploy tx (keyResolver txn) ;
  let! (from, txn) := chargeFrom txn cs tx (TotalExpenditure tx) in
  let! newSource := DecodeCommitCode inflate_reader (tx_Extra tx) in
  reject MaxContractSourceSize <? zlen newSource with ErrSourceTooLarge ;
  let slot := getContract txn from in
  if zlen newSource =? 0 then handleDestroy state cs txn tx from slot blockTime gas
  else
    do! LoadContractWasm newSource ;
    let! newDeps := validateDeps txn from newSource in
    let! (slot, txn, gas) := upgradeSlot cs txn tx from slot blockTime gas in
    match slot with
    | None => Ok (txn, gas)
    | Some slot =>
        let! txn := pinDeps txn cs newDeps in
        let slot := SetActive {| Owner := Owner slot; Source := newSource; Context' := Context' slot |} true in
        let! slot := setContractDeps slot newDeps in
        let! txn := setContract txn cs slot in
        let! (_, txn, gas) := runContract cs txn from tx EntryOnActivate blockTime gas in
        Ok (txn, gas)
    end.

Definition handleTx (state : State) (cs : option changeset) (blockTime : Z) (s : Txn * option Z) (tx : FullTx)
    : res (Txn * option Z) :=
  let '(txn, gas) := s in
  if tx_Type tx =? GenerateTx then let! txn := handleGenerate cs txn tx in Ok (txn, gas)
  else if tx_Type tx =? TransactTx then
    let! txn := consumeReveal txn tx in
    let! (txn, gas) := runValidate cs txn tx blockTime gas in
    handleTransaction cs txn tx blockTime gas
  else if tx_Type tx =? DeployTx then
    let! txn := consumeReveal txn tx in
    let! (txn, gas) := runValidate cs txn tx blockTime gas in
    handleDeploy state cs txn tx blockTime gas
  else Err ErrTxTypeInvalid.

Definition HandleTxs (state : State) (cs : option changeset) (txn : Txn) (blockTime : Z) (txs : list FullTx)
    : res (Txn * option Z) :=
  res_fold (handleTx state cs blockTime) (txn, Some MaxBlockGas) txs.

(** ** state.go *)

(** A nil fee panics in the comparison. *)
Definition handleCommit (cs : option changeset) (txn : Txn) (commit : Commitment) : res Txn :=
  do! Commitment_Verify commit (keyResolver txn) ;
  let! from := Commitment_From commit in
  reject commitFromPending txn from (c_Hash commit) (c_Height commit) with ErrCommitDuplicate ;
  match c_Fee commit with
  | None => Err GoPanic
  | Some fee =>
      let balance := getBalance txn from in
      reject balance <? fee with ErrCommitUnaffordable ;
      let txn := setBalance txn cs from (balance - fee) in
      Ok (putCommit txn (c_Height commit) (c_Hash commit) from)
  end.

Definition handleCommits (cs : option changeset) (txn : Txn) (block : FullBlock) : res Txn :=
  res_fold (handleCommit cs) txn (b_Commits block).

Definition Upgrade (state : State) (txn : Txn) (block : FullBlock) : res Txn :=
  let cs := if st_Archive state then Some (newChangeset (blockHeight block)) else None in
  let! txn := handleCommits cs txn block in
  let! (txn, _) := HandleTxs state cs txn (h_Timestamp (b_Header block)) (b_Txs block) in
  let txn := updateBeacon txn cs block in
  Ok (pruneCommits txn (blockHeight block)).

(** [DryApplyRoot]: the write transaction is always rolled back. *)
Definition DryApplyRoot (state : State) (txn : Txn) (block : FullBlock) : res bytes :=
  let! txn := Upgrade state txn block in
  Ok (StateRoot txn).

Definition applyBlock (state : State) (txn : Txn) (b : FullBlock) : res Txn :=
  let! genesis := IsGenesis b in
  do! (if (genesis : bool) then Ok tt else CheckBlockTxs txn b) ;
  let! txn := Upgrade state txn b in
  do! CheckStateRoot txn (h_StateRoot (b_Header b)) ;
  Ok txn.

Definition ApplyBlocksTxn (state : State) (txn : Txn) (blocks : list FullBlock) : res Txn :=
  res_fold (applyBlock state) txn blocks.

(** The loop [for h := tip; h > target; h--]. *)
Definition UnwindToTxn (state : State) (txn : Txn) (target : Z) : res (bool * Txn) :=
  if negb (st_Archive state) then Ok (false, txn)
  else
    let! tip := GetLatestHeight (Bucket txn BlockBucketName) in
    if tip <=? target then Ok (true, txn)
    else if negb (changesetCovers txn (u64 (target + 1))) then Ok (false, txn)
    else
      let txn := foldl unwindHeightTxn txn (reverse (heights (target + 1) tip)) in
      Ok (true, deleteReceiptsAboveTxn txn target).

End Ledger.
