(* ===== verification/BlockSteps.v ===== *)
(** * A block as a sequence of writes

    [Upgrade] of Ledger.v, whatever the contracts of the block do, is a
    sequence of the elementary writes of State.v under the block's change
    set, followed by pruning.  What holds of every such sequence holds of
    the application of blocks. *)

From S2P Require Import Prelude Params StateTrie Keys Contract Types Instances Tx Block BlockStore State StateCommit Journal Ledger.

Section Steps.
Context `{HH : Hasher} `{SL : SigLibs} `{CD : Codec} `{SC : SlotCodec} `{RC : ReceiptCodec}
  `{DC : DepsCodec} `{IF : Inflate} `{ML : MerkleLib} `{VM_ : ContractVM}.

(** The writes of a block [b] recorded in [cs].  Commitments and reveals are
    the block's own. *)
Inductive ustep (cs : option changeset) (b : FullBlock) : Txn -> Txn -> Prop :=
  | us_balance t a v : ustep cs b t (setBalance t cs a v)
  | us_contract t acc t' : setContract t cs acc = Ok t' -> ustep cs b t t'
  | us_delContract t a : ustep cs b t (delContract t cs a)
  | us_key t tx : ustep cs b t (registerPubKey t cs tx)
  | us_commit t c from : c ∈ b_Commits b -> ustep cs b t (putCommit t (c_Height c) (c_Hash c) from)
  | us_reveal t tx from h : tx ∈ b_Txs b -> tx_Height tx <> 0 -> findCommit t from (revealHash tx) (tx_Height tx) = Some h ->
      ustep cs b t (consumeCommit (journalConsumed t (tx_Height tx) h (revealHash tx) from) h (revealHash tx))
  | us_beacon t seed : seed <> [] -> ustep cs b t (setBeacon t cs seed)
  | us_receipts t r : ustep cs b t (setBucket t ReceiptBucketName r).

Section Handlers.
Context (cs : option changeset) (b : FullBlock).

Abbreviation steps := (rtc (ustep cs b)).

Lemma steps_fold {A} (f : Txn -> A -> res Txn) l :
  (forall t x t', f t x = Ok t' -> steps t t') -> forall t t', res_fold f t l = Ok t' -> steps t t'.
Proof.
  intros Hf. induction l as [|x l IH]; intros t t' E; cbn in E; [by simplify_eq|]. open_ok E.
  etrans; [by eapply Hf|by apply IH].
Qed.

Lemma steps_setContract t acc t' : setContract t cs acc = Ok t' -> steps t t'.
Proof. intros E. apply rtc_once. by eapply us_contract. Qed.

Lemma steps_flush j t t' : flush j t cs = Ok t' -> steps t t'.
Proof.
  unfold flush, flushAccounts. intros E. transitivity (flushBalances cs t (map_to_list (balances j))).
  - unfold flushBalances. generalize (map_to_list (balances j)). intros l. clear E. revert t.
    induction l as [|[a v] l IH]; intros t; cbn [foldl]; [done|]. eapply rtc_l; [apply us_balance|apply IH].
  - revert E. apply steps_fold. intros u kv u'. apply steps_setContract.
Qed.

Lemma steps_recordRun t tx run : steps t (recordRun t tx run).
Proof.
  unfold recordRun. destruct (appendContractRun _ _ _ _) eqn:E; [|done]. unfold appendContractRun in E. open_ok E.
  injection E as <-. apply rtc_once. apply us_receipts.
Qed.

Lemma steps_runContract t a tx e bt g ok t' g' : runContract cs t a tx e bt g = Ok (ok, t', g') -> steps t t'.
Proof.
  unfold runContract. destruct (getContract t a) as [acc|]; [|by intros [= <- <- <-]].
  destruct (_ || _); [by intros [= <- <- <-]|]. case_bool_decide; [intros [= <- <- <-]; apply steps_recordRun|].
  intros E. apply res_bind_Ok in E as ([|vm] & EV & E); [injection E as <- <- <-; apply steps_recordRun|].
  apply res_bind_Ok in E as ([e' vm1] & EE & E). cbv zeta in E. apply res_bind_Ok in E as ([err vm3] & EC & E).
  destruct err as [[text missing]|].
  - destruct (_ && _); injection E as <- <- <-; [done|apply steps_recordRun].
  - open_ok E. injection E as <- <- <-. etrans; [by eapply steps_flush|apply steps_recordRun].
Qed.

Lemma steps_runValidate t tx bt g t' g' : runValidate cs t tx bt g = Ok (t', g') -> steps t t'.
Proof.
  unfold runValidate. intros E. open_ok E. destruct (getContract t r) as [acc|]; [|by simplify_eq].
  destruct (_ || _); [by simplify_eq|]. open_ok E. destruct (negb _); [by simplify_eq|]. open_ok E.
  destruct r1 as [[ok u] gu]. open_ok E. injection E as -> ->. by eapply steps_runContract.
Qed.

Lemma steps_chargeFrom t tx expense from t' : chargeFrom t cs tx expense = Ok (from, t') -> steps t t'.
Proof.
  unfold chargeFrom. intros E. open_ok E. injection E as <- <-. eapply rtc_l; [apply us_key|]. apply rtc_once, us_balance.
Qed.

Lemma steps_handleTransaction t tx bt g t' g' : handleTransaction cs t tx bt g = Ok (t', g') -> steps t t'.
Proof.
  unfold handleTransaction. intros E. open_ok E. destruct r as [from u]. etrans; [by eapply steps_chargeFrom|].
  eapply rtc_l; [apply us_balance|]. destruct (contractExists _ _); [|by injection E as <- <-].
  open_ok E. destruct r as [[ok v] gv]. injection E as <- <-. by eapply steps_runContract.
Qed.

Lemma steps_pinDep t dep t' : pinDep cs t dep = Ok t' -> steps t t'.
Proof. unfold pinDep. intros E. open_ok E. by eapply steps_setContract. Qed.

Lemma steps_releaseDep t dep t' : releaseDep cs t dep = Ok t' -> steps t t'.
Proof.
  unfold releaseDep. intros E. open_ok E. destruct (0 <? _); [|by injection E as <-]. open_ok E. by eapply steps_setContract.
Qed.

Lemma steps_releaseContractDeps t slot t' : releaseContractDeps t cs slot = Ok t' -> steps t t'.
Proof. unfold releaseContractDeps. intros E. open_ok E. revert E. apply steps_fold, steps_releaseDep. Qed.

Lemma steps_refund t a ctx : steps t (refundContractDeposit t cs a ctx).
Proof.
  unfold refundContractDeposit. destruct (_ <=? _); [done|]. cbv zeta. destruct (_ <=? 0); [done|].
  eapply rtc_l; [apply us_balance|]. apply rtc_once, us_balance.
Qed.

Lemma steps_handleDestroy st t tx from slot bt g t' g' : handleDestroy st cs t tx from slot bt g = Ok (t', g') -> steps t t'.
Proof.
  unfold handleDestroy. destruct slot as [acc|]; [|done]. intros E. open_ok E. destruct r0 as [[ok u] gu].
  apply steps_runContract in Hr0. destruct ok; cbn [negb] in E; [|by injection E as <- <-].
  open_ok E. injection E as <- <-. etrans; [exact Hr0|]. etrans; [by eapply steps_releaseContractDeps|].
  etrans; [|apply rtc_once, us_delContract].
  destruct (IsForkActive _ _ _); [|by injection Hr2 as ->]. unfold with_context in Hr2.
  destruct (Context' acc); [|done]. injection Hr2 as <-. apply steps_refund.
Qed.

Lemma steps_upgradeSlot t tx from slot bt g s t' g' : upgradeSlot cs t tx from slot bt g = Ok (s, t', g') -> steps t t'.
Proof.
  unfold upgradeSlot. destruct slot as [acc|]; [|by intros [= _ <- _]]. destruct (is_live _); [|by intros [= _ <- _]].
  intros E. open_ok E. destruct r as [[ok u] gu]. apply steps_runContract in Hr. destruct ok; cbn [negb] in E.
  - open_ok E. injection E as _ <- _. etrans; [exact Hr|]. by eapply steps_releaseContractDeps.
  - by injection E as _ <- _.
Qed.

Lemma steps_handleDeploy st t tx bt g t' g' : handleDeploy st cs t tx bt g = Ok (t', g') -> steps t t'.
Proof.
  unfold handleDeploy. intros E. open_ok E. destruct r0 as [from u]. apply steps_chargeFrom in Hr0.
  etrans; [exact Hr0|]. open_ok E. destruct (_ =? 0); [by eapply steps_handleDestroy|]. open_ok E.
  destruct r3 as [[slot v] gv]. apply steps_upgradeSlot in Hr4. etrans; [exact Hr4|].
  destruct slot as [slot|]; [|by injection E as <- <-]. open_ok E. destruct r6 as [[ok w] gw]. injection E as <- <-.
  etrans; [eapply steps_fold; [apply steps_pinDep|exact Hr5]|]. etrans; [by eapply steps_setContract|]. by eapply steps_runContract.
Qed.

Lemma steps_handleGenerate t tx t' : handleGenerate cs t tx = Ok t' -> steps t t'.
Proof.
  unfold handleGenerate. intros E. open_ok E. injection E as <-. etrans; [|apply rtc_once, us_balance].
  destruct (negb _); [|by injection Hr as <-]. open_ok Hr. injection Hr as <-. apply rtc_once, us_key.
Qed.

Lemma steps_consumeReveal t tx t' : tx ∈ b_Txs b -> consumeReveal t tx = Ok t' -> steps t t'.
Proof.
  intros Hin. unfold consumeReveal. destruct (Z.eqb_spec (tx_Height tx) 0); [by intros [= <-]|]. intros E. open_ok E.
  destruct (findCommit _ _ _ _) eqn:Ef; [|done]. injection E as <-. apply rtc_once. by apply us_reveal.
Qed.

Lemma steps_handleTx st bt s tx t' g' : tx ∈ b_Txs b -> handleTx st cs bt s tx = Ok (t', g') -> steps s.1 t'.
Proof.
  destruct s as [t g]. intros Hin. unfold handleTx. intros E. cbn [fst]. destruct (_ =? GenerateTx).
  { open_ok E. injection E as <- <-. by eapply steps_handleGenerate. }
  destruct (_ =? TransactTx); [|destruct (_ =? DeployTx); [|done]]; open_ok E; destruct r0 as [u gu];
    (etrans; [by eapply steps_consumeReveal|]); (etrans; [by eapply steps_runValidate|]).
  - by eapply steps_handleTransaction.
  - by eapply steps_handleDeploy.
Qed.

Lemma steps_HandleTxs st bt l : (forall tx, tx ∈ l -> tx ∈ b_Txs b) ->
  forall s t' g', res_fold (handleTx st cs bt) s l = Ok (t', g') -> steps s.1 t'.
Proof.
  induction l as [|tx l IH]; intros Hl s t' g' E; cbn in E; [by simplify_eq|]. open_ok E. destruct r as [u gu].
  etrans; [eapply steps_handleTx; [apply Hl; left|exact Hr]|]. apply (IH ltac:(intros x Hx; apply Hl; by right) (u, gu) t' g' E).
Qed.

Lemma steps_handleCommits l : (forall c, c ∈ l -> c ∈ b_Commits b) ->
  forall t t', res_fold (handleCommit cs) t l = Ok t' -> steps t t'.
Proof.
  induction l as [|c l IH]; intros Hl t t' E; cbn in E; [by simplify_eq|]. open_ok E.
  etrans; [|by apply (IH ltac:(intros x Hx; apply Hl; by right) _ _ E)]. unfold handleCommit in Hr. open_ok Hr.
  destruct (c_Fee c); [|done]. open_ok Hr. injection Hr as <-. eapply rtc_l; [apply us_balance|]. apply rtc_once, us_commit, Hl. by left.
Qed.

Lemma steps_updateBeacon t : steps t (updateBeacon t cs b).
Proof. unfold updateBeacon. destruct (negb _); [done|]. destruct (_ =? 0); [done|]. apply rtc_once, us_beacon. intros E. pose proof (f_equal length E) as Hl. unfold nextSeed in Hl. by rewrite length_Hash256 in Hl. Qed.

End Handlers.

Definition block_cs (st : State) (b : FullBlock) : option changeset :=
  if st_Archive st then Some (newChangeset (blockHeight b)) else None.

(** A block is a sequence of its writes, then pruned. *)
Lemma Upgrade_steps st t b t' : Upgrade st t b = Ok t' ->
  exists u, rtc (ustep (block_cs st b) b) t u /\ t' = pruneCommits u (blockHeight b).
Proof.
  unfold Upgrade. intros E. open_ok E. destruct r0 as [u gu]. injection E as <-. eexists. split; [|done].
  etrans; [eapply steps_handleCommits; [|exact Hr]; done|]. etrans; [|apply steps_updateBeacon].
  exact (steps_HandleTxs _ b _ _ _ (fun tx Hx => Hx) _ _ _ Hr0).
Qed.

End Steps.
