(* ===== verification/Supply.v ===== *)
(** * The money supply

    Balances are only created by the generates of a block and only destroyed
    by fees: the handlers move everything else.  The check of the generates
    pins what they mint to the reward curve. *)

From stdpp Require Import pretty.
From S2P Require Import Prelude Params StateTrie Keys Contract Types Instances Tx Block BlockStore State StateCommit Journal Ledger.

Definition sum_balances (b : bucket) : Z := map_fold (fun _ v acc => be_Z v + acc) 0 b.

(** All the money there is. *)
Definition supply (t : Txn) : Z := sum_balances (Bucket t Addr2BalBucketName).

Lemma sum_balances_delete b k : sum_balances b = default 0 (be_Z <$> b !! k) + sum_balances (delete k b).
Proof.
  destruct (b !! k) as [w|] eqn:E; cbn.
  - unfold sum_balances. rewrite <-(insert_delete_id b k w E) at 1.
    rewrite map_fold_insert_L; [lia|intros; lia|apply lookup_delete_eq].
  - by rewrite (delete_id b k E).
Qed.

Lemma sum_balances_insert b k v :
  sum_balances (<[k := v]> b) = sum_balances b - default 0 (be_Z <$> b !! k) + be_Z v.
Proof.
  rewrite (sum_balances_delete (<[k := v]> b) k), lookup_insert_eq, delete_insert_eq, (sum_balances_delete b k). cbn. lia.
Qed.

Lemma supply_ext t t' : (forall k, bGet t' Addr2BalBucketName k = bGet t Addr2BalBucketName k) -> supply t' = supply t.
Proof. intros Hk. unfold supply. f_equal. by apply Bucket_ext. Qed.

(** The buckets the writes of contract slots, keys and receipts leave
    alone; and those the balance writes leave alone too. *)
Class Plain (n : BucketName) : Prop :=
  plain : n ∈ [Addr2BalBucketName; CommitBucketName; BlockBucketName; TxBucketName; SnapshotBucketName; CommitSpentBucketName].

Class Outside (n : BucketName) : Prop := outside : n ∈ [CommitBucketName; BlockBucketName; TxBucketName; SnapshotBucketName; CommitSpentBucketName].

#[export] Instance plain_balances : Plain Addr2BalBucketName.
Proof. left. Qed.

#[export] Instance outside_plain n : Outside n -> Plain n.
Proof. apply list_elem_of_further. Qed.

#[export] Instance outside_commits : Outside CommitBucketName.
Proof. left. Qed.

#[export] Instance outside_blocks : Outside BlockBucketName.
Proof. do 1 right. left. Qed.

#[export] Instance outside_txs : Outside TxBucketName.
Proof. do 2 right. left. Qed.

#[export] Instance outside_snapshots : Outside SnapshotBucketName.
Proof. do 3 right. left. Qed.

#[export] Instance outside_spent : Outside CommitSpentBucketName.
Proof. do 4 right. left. Qed.

(** [n <> m] for a plain bucket [n]. *)
Ltac plainly :=
  intros; subst; match goal with H : Plain ?n |- _ => unfold Plain in H | H : Outside ?n |- _ => unfold Outside in H end;
  rewrite ?elem_of_cons, ?elem_of_nil in *; naive_solver.

Section Supply.
Context `{HH : Hasher} `{SL : SigLibs} `{CD : Codec} `{SC : SlotCodec} `{RC : ReceiptCodec}
  `{DC : DepsCodec} `{IF : Inflate} `{ML : MerkleLib} `{VM_ : ContractVM} `{PL : PowLib}.

Lemma getBalance_default t a : getBalance t a = default 0 (be_Z <$> bGet t Addr2BalBucketName (vec_to_list a)).
Proof. unfold getBalance. by destruct (bGet t _ _). Qed.

(** ** What the writes do to the balances *)

Lemma bGet_recordBal rec t a n k : n <> BalChangeSetBucketName -> n <> BalHistBucketName -> bGet (recordBal rec t a) n k = bGet t n k.
Proof.
  intros H1 H2. unfold recordBal. destruct rec as [cs|]; [|done]. destruct (bGet t BalChangeSetBucketName _); [done|].
  by rewrite !bGet_bPut, !decide_False by (intros [? ?]; congruence).
Qed.

Lemma bGet_recordContract rec t a n k :
  n <> ContractChangeSetBucketName -> n <> ContractHistBucketName -> bGet (recordContract rec t a) n k = bGet t n k.
Proof.
  intros H1 H2. unfold recordContract. destruct rec as [cs|]; [|done]. destruct (bGet t ContractChangeSetBucketName _); [done|].
  by rewrite !bGet_bPut, !decide_False by (intros [? ?]; congruence).
Qed.

Lemma bGet_setBalance rec t a b k :
  bGet (setBalance t rec a b) Addr2BalBucketName k
  = if decide (vec_to_list a = k) then Some (big_Bytes b) else bGet t Addr2BalBucketName k.
Proof.
  rewrite setBalance_cwrite, bGet_cwrite by done. rewrite bGet_recordBal by done.
  destruct (decide (vec_to_list a = k)); [by rewrite decide_True|rewrite decide_False; [done|tauto]].
Qed.

Lemma getBalance_setBalance rec t a b a' :
  0 <= b -> getBalance (setBalance t rec a b) a' = if decide (a = a') then b else getBalance t a'.
Proof.
  intros Hb. unfold getBalance. rewrite bGet_setBalance. destruct (decide (a = a')) as [->|Hn].
  - rewrite decide_True by done. by apply be_Z_big_Bytes.
  - rewrite decide_False; [done|]. by intros ?%vec_to_list_inj2.
Qed.

Lemma supply_setBalance rec t a b : 0 <= b -> supply (setBalance t rec a b) = supply t - getBalance t a + b.
Proof.
  intros Hb. unfold supply.
  assert (E : Bucket (setBalance t rec a b) Addr2BalBucketName = <[vec_to_list a := big_Bytes b]> (Bucket t Addr2BalBucketName)).
  { apply map_eq. intros k. rewrite lookup_insert. apply bGet_setBalance. }
  rewrite E, sum_balances_insert, be_Z_big_Bytes by done. by rewrite getBalance_default.
Qed.

Definition same (n : BucketName) (t t' : Txn) : Prop := forall k, bGet t' n k = bGet t n k.

Abbreviation same_balances := (same Addr2BalBucketName).

Lemma same_balances_get t t' a : same_balances t t' -> getBalance t' a = getBalance t a.
Proof. intros Hs. unfold getBalance. by rewrite Hs. Qed.

Lemma bGet_Code_retain t h c t' n k : n <> CodeBucketName -> retainCode t h c = Ok t' -> bGet t' n k = bGet t n k.
Proof.
  intros Hn. unfold retainCode. destruct (bGet t CodeBucketName h); intros E; open_ok E; simplify_eq;
    by rewrite bGet_bPut, decide_False by (intros [? ?]; congruence).
Qed.

Lemma bGet_Code_release t h keep n k : n <> CodeBucketName -> bGet (releaseCode t h keep) n k = bGet t n k.
Proof.
  intros Hn. unfold releaseCode. destruct (bGet t CodeBucketName h); [|done]. destruct (_ <? _)%nat; [done|].
  destruct (_ && _); rewrite ?bGet_bDelete, ?bGet_bPut; by rewrite decide_False by (intros [? ?]; congruence).
Qed.

Lemma same_reconcile `{!Plain n} t rec a h c t' : reconcileCode t rec a h c = Ok t' -> same n t t'.
Proof.
  assert (n <> CodeBucketName) by plainly. intros E k. unfold reconcileCode in E.
  destruct (bGet t ContractBucketName _); [|by eapply bGet_Code_retain].
  destruct (dec_storedContract _); [|by eapply bGet_Code_retain]. case_bool_decide; [by simplify_eq|].
  rewrite (bGet_Code_retain _ _ _ _ n k ltac:(done) E). by apply bGet_Code_release.
Qed.

Lemma same_setContract `{!Plain n} t rec acc t' : setContract t rec acc = Ok t' -> same n t t'.
Proof.
  unfold setContract. intros E k. open_ok E. injection E as <-. unfold trieSetContract.
  rewrite bGet_trieSetLeaf, bGet_bPut by plainly. rewrite decide_False by (intros [? ?]; plainly).
  rewrite (same_reconcile _ _ _ _ _ _ Hr k). apply bGet_recordContract; plainly.
Qed.

Lemma same_delContract `{!Plain n} t rec a : same n t (delContract t rec a).
Proof.
  intros k. assert (Hr : bGet (recordContract rec t a) n k = bGet t n k) by (apply bGet_recordContract; plainly).
  unfold delContract, trieSetContract. rewrite bGet_trieSetLeaf, bGet_bDelete by plainly.
  rewrite decide_False by (intros [? ?]; plainly).
  destruct (bGet (recordContract rec t a) ContractBucketName _); [|done].
  destruct (dec_storedContract _); [|done]. by rewrite bGet_Code_release by plainly.
Qed.

Lemma same_registerPubKey `{!Plain n} t rec tx : same n t (registerPubKey t rec tx).
Proof.
  intros k. unfold registerPubKey. destruct (IsCompactEnvelope tx); [done|]. destruct (_ || _); [done|].
  destruct (bGet t KeyRegistryBucketName _); [done|]. unfold trieSetKey. rewrite bGet_trieSetLeaf, bGet_bPut by plainly.
  rewrite decide_False by (intros [? ?]; plainly). unfold recordKey. destruct rec as [cs|]; [|done].
  destruct (bGet t KeyChangeSetBucketName _); [done|]. by rewrite bGet_bPut, decide_False by (intros [? ?]; plainly).
Qed.

Lemma same_putCommit t h hash from : same_balances t (putCommit t h hash from).
Proof. intros k. rewrite putCommit_cwrite, bGet_cwrite by done. by rewrite decide_False by (intros [? ?]; congruence). Qed.

Lemma same_consume t rh h hash from : same_balances t (consumeCommit (journalConsumed t rh h hash from) h hash).
Proof.
  intros k. rewrite consumeCommit_cwrite, bGet_cwrite by done. unfold journalConsumed.
  by rewrite bGet_bPut, !decide_False by (intros [? ?]; congruence).
Qed.

Lemma same_updateBeacon t cs block : same_balances t (updateBeacon t cs block).
Proof.
  intros k. unfold updateBeacon. destruct (negb _); [done|]. destruct (_ =? _); [done|]. unfold setBeacon, trieSetBeacon.
  rewrite bGet_trieSetLeaf, bGet_bPut by done. rewrite decide_False by (intros [? ?]; congruence).
  unfold recordBeacon. destruct cs as [c|]; [|done]. destruct (bGet t BeaconChangeSetBucketName _); [done|].
  by rewrite bGet_bPut, decide_False by (intros [? ?]; congruence).
Qed.

Lemma same_pruneCommits t tip : same_balances t (pruneCommits t tip).
Proof.
  assert (Hp : forall name inTrie ks t, name <> Addr2BalBucketName -> same_balances t (foldl (pruneEntry name inTrie) t ks)).
  { intros name inTrie ks. induction ks as [|k0 ks IH]; intros t0 Hn k; [done|]. cbn. rewrite (IH _ Hn).
    unfold pruneEntry. destruct inTrie; unfold trieSetCommit; rewrite ?bGet_trieSetLeaf, bGet_bDelete by done;
      by rewrite decide_False by (intros [? ?]; congruence). }
  intros k. unfold pruneCommits. destruct (_ <=? _); [done|]. unfold pruneHeightBucketBelow. by rewrite !Hp by done.
Qed.

Lemma same_recordRun `{!Plain n} t tx run : same n t (recordRun t tx run).
Proof.
  intros k. unfold recordRun. destruct (appendContractRun _ _ _ _) eqn:E; [|done]. unfold appendContractRun in E. open_ok E.
  injection E as <-. by rewrite bGet_bPut, decide_False by (intros [? ?]; plainly).
Qed.

(** ** The contract runs *)

Lemma net_change_other t rec a b bs :
  0 <= b -> a ∉ bs.*1 -> net_change (setBalance t rec a b) bs = net_change t bs.
Proof.
  intros Hb. induction bs as [|[a' b'] bs IH]; [done|]. rewrite fmap_cons, not_elem_of_cons. intros [H1 H2].
  by rewrite !net_change_cons, IH, getBalance_setBalance, decide_False by done.
Qed.

Lemma supply_flushBalances rec bs : forall t, NoDup bs.*1 -> Forall (fun kv => 0 <= kv.2) bs ->
  supply (flushBalances rec t bs) = supply t + net_change t bs.
Proof.
  unfold flushBalances. induction bs as [|[a b] bs IH]; intros t Hd Hp; [cbn; lia|].
  apply NoDup_cons in Hd as [Ha Hd]. apply Forall_cons in Hp as [Hb Hp]. cbn in Hb.
  cbn [foldl]. rewrite net_change_cons, IH, supply_setBalance, net_change_other by done. cbn [fst snd]. lia.
Qed.

Lemma same_trans n t u v : same n t u -> same n u v -> same n t v.
Proof. intros H1 H2 k. by rewrite H2. Qed.

Lemma same_supply t u : same_balances t u -> supply u = supply t.
Proof. apply supply_ext. Qed.

Lemma same_fold {A} (n : BucketName) (f : Txn -> A -> res Txn) l : (forall t x t', f t x = Ok t' -> same n t t') ->
  forall t t', res_fold f t l = Ok t' -> same n t t'.
Proof.
  intros Hf. induction l as [|x l IH]; intros t t' E; cbn in E; [by injection E as ->|].
  open_ok E. eapply same_trans; [by eapply Hf|by eapply IH].
Qed.

Lemma supply_flush rec t j t' : conserves t j -> flush j t rec = Ok t' -> supply t' = supply t.
Proof.
  intros [Hp Hn] E. unfold flush, flushAccounts in E.
  assert (Hs : same_balances (flushBalances rec t (map_to_list (balances j))) t').
  { eapply same_fold; [|exact E]. intros u kv u'. apply same_setContract. }
  rewrite (same_supply _ _ Hs).
  rewrite supply_flushBalances; [lia|apply NoDup_fst_map_to_list|].
  apply Forall_forall. intros [a b] Hi%elem_of_map_to_list. by apply (Hp a).
Qed.

(** What the ledger asks of a run: a call that ends without an error leaves
    a journal that conserves. *)
Definition vm_conserves : Prop := forall t acc tx bt vm e e' vm1 vm2 vm3,
  NewVM t acc tx bt = Ok (inr vm) -> EntryFor vm e = Ok (e', vm1) -> vm2 = vm1 \/ (exists g, vm2 = LimitToll vm1 g) ->
  vm_call vm2 e' = Ok (None, vm3) -> conserves t (journal vm3).

Context (runs_conserve : vm_conserves).

Lemma supply_recordRun t tx run : supply (recordRun t tx run) = supply t.
Proof. apply same_supply, same_recordRun. Qed.

Lemma supply_runContract cs t a tx e bt g ok t' g' :
  runContract cs t a tx e bt g = Ok (ok, t', g') -> supply t' = supply t.
Proof.
  unfold runContract. destruct (getContract t a) as [acc|]; [|by intros [= <- <- <-]].
  destruct (_ || _); [by intros [= <- <- <-]|]. case_bool_decide; [intros [= <- <- <-]; apply supply_recordRun|].
  intros E. apply res_bind_Ok in E as ([|vm] & EV & E); [injection E as <- <- <-; apply supply_recordRun|].
  apply res_bind_Ok in E as ([e' vm1] & EE & E). cbv zeta in E. apply res_bind_Ok in E as ([err vm3] & EC & E). revert E.
  match type of EC with vm_call ?v e' = _ => set (vm2 := v) in * end.
  destruct err as [[text missing]|].
  - destruct (_ && _); intros [= <- <- <-]; [done|apply supply_recordRun].
  - intros E. open_ok E. injection E as <- <- <-. rewrite supply_recordRun. eapply supply_flush; [|done].
    eapply runs_conserve; [exact EV|exact EE| |exact EC]. unfold vm2.
    destruct g; [|by left]. destruct (_ <? _); [right; eauto|by left].
Qed.

Lemma supply_runValidate cs t tx bt g t' g' : runValidate cs t tx bt g = Ok (t', g') -> supply t' = supply t.
Proof.
  unfold runValidate. intros E. open_ok E. destruct (getContract t r) as [acc|]; [|by simplify_eq].
  destruct (_ || _); [by simplify_eq|]. open_ok E. destruct (negb _); [by simplify_eq|]. open_ok E.
  destruct r1 as [[ok u] gu]. open_ok E. injection E as -> ->. by eapply supply_runContract.
Qed.

(** ** The handlers *)

Lemma same_consumeReveal t tx t' : consumeReveal t tx = Ok t' -> same_balances t t'.
Proof.
  unfold consumeReveal. destruct (tx_Height tx =? 0); [intros [= <-] k; done|]. intros E. open_ok E.
  destruct (findCommit _ _ _ _); [|done]. injection E as <-. apply same_consume.
Qed.

Lemma supply_handleGenerate cs t tx t' : 0 <= tx_Value tx -> handleGenerate cs t tx = Ok t' -> supply t' = supply t + tx_Value tx.
Proof.
  intros Hv. unfold handleGenerate. intros E. open_ok E. injection E as <-.
  assert (same_balances t r) as Hs.
  { destruct (negb _); open_ok Hr; injection Hr as <-; [apply same_registerPubKey|done]. }
  pose proof (getBalance_nonneg r (tx_To tx)). rewrite supply_setBalance, (same_supply t r Hs) by lia. lia.
Qed.

Lemma supply_chargeFrom t cs tx expense from t' : chargeFrom t cs tx expense = Ok (from, t') -> supply t' = supply t - expense.
Proof.
  unfold chargeFrom. intros E. open_ok E. injection E as <- <-. apply Z.ltb_ge in Hg.
  rewrite supply_setBalance by lia. rewrite (same_supply t) by apply same_registerPubKey. lia.
Qed.

Lemma supply_handleTransaction cs t tx bt g t' g' :
  0 <= tx_Value tx -> handleTransaction cs t tx bt g = Ok (t', g') -> supply t' = supply t - tx_Fee tx.
Proof.
  intros Hv. unfold handleTransaction. intros E. open_ok E. destruct r as [from u]. apply supply_chargeFrom in Hr.
  pose proof (getBalance_nonneg u (tx_To tx)).
  assert (Hs : supply (setBalance u cs (tx_To tx) (getBalance u (tx_To tx) + tx_Value tx)) = supply t - tx_Fee tx).
  { rewrite supply_setBalance by lia. unfold TotalExpenditure in Hr. lia. }
  destruct (contractExists _ _).
  - open_ok E. destruct r as [[ok v] gv]. injection E as <- <-. rewrite <-Hs. by eapply supply_runContract.
  - injection E as <- <-. done.
Qed.

Lemma same_pinDep `{!Plain n} cs t dep t' : pinDep cs t dep = Ok t' -> same n t t'.
Proof. unfold pinDep. intros E. open_ok E. by eapply same_setContract. Qed.

Lemma same_releaseDep `{!Plain n} cs t dep t' : releaseDep cs t dep = Ok t' -> same n t t'.
Proof.
  unfold releaseDep. intros E. open_ok E. destruct (0 <? _); [open_ok E; by eapply same_setContract|].
  by injection E as ->.
Qed.

Lemma same_releaseContractDeps `{!Plain n} t cs slot t' : releaseContractDeps t cs slot = Ok t' -> same n t t'.
Proof. unfold releaseContractDeps. intros E. open_ok E. eapply same_fold; [apply same_releaseDep|exact E]. Qed.

Lemma supply_refund t cs a ctx : supply (refundContractDeposit t cs a ctx) = supply t.
Proof.
  unfold refundContractDeposit. destruct (_ <=? _); [done|]. cbv zeta.
  set (esc := getBalance t StorageDepositEscrow). set (pay := if esc <? _ then _ else _).
  destruct (Z.leb_spec pay 0); [done|].
  assert (0 <= esc - pay) by (unfold pay; destruct (Z.ltb_spec esc (lockedDeposit ctx)); lia).
  pose proof (getBalance_nonneg (setBalance t cs StorageDepositEscrow (esc - pay)) a).
  rewrite !supply_setBalance by lia. fold esc. lia.
Qed.

Lemma supply_handleDestroy st cs t tx from slot bt g t' g' :
  handleDestroy st cs t tx from slot bt g = Ok (t', g') -> supply t' = supply t.
Proof.
  unfold handleDestroy. destruct slot as [acc|]; [|done]. intros E. open_ok E. destruct r0 as [[ok u] gu].
  apply supply_runContract in Hr0. destruct ok; cbn [negb] in E; [|by injection E as <- <-].
  open_ok E. injection E as <- <-. rewrite (same_supply r1) by apply same_delContract.
  rewrite <-Hr0, <-(same_supply _ _ (same_releaseContractDeps _ _ _ _ Hr1)).
  destruct (IsForkActive _ _ _); [|by injection Hr2 as ->]. unfold with_context in Hr2.
  destruct (Context' acc); [|done]. injection Hr2 as <-. apply supply_refund.
Qed.

Lemma supply_upgradeSlot cs t tx from slot bt g s t' g' :
  upgradeSlot cs t tx from slot bt g = Ok (s, t', g') -> supply t' = supply t.
Proof.
  unfold upgradeSlot. destruct slot as [acc|]; [|by intros [= _ <- _]]. destruct (is_live _); [|by intros [= _ <- _]].
  intros E. open_ok E. destruct r as [[ok u] gu]. apply supply_runContract in Hr. destruct ok; cbn [negb] in E.
  - open_ok E. injection E as _ <- _. rewrite <-Hr. eapply same_supply, same_releaseContractDeps, Hr0.
  - by injection E as _ <- _.
Qed.

Lemma supply_handleDeploy st cs t tx bt g t' g' :
  handleDeploy st cs t tx bt g = Ok (t', g') -> supply t' = supply t - tx_Fee tx.
Proof.
  unfold handleDeploy. intros E. open_ok E. destruct r0 as [from u]. apply supply_chargeFrom in Hr0.
  assert (Hf : supply u = supply t - tx_Fee tx).
  { unfold CheckDeploy, checkNoTransfer in Hr. apply seq_Ok in Hr as [Hr _]. open_ok Hr. apply negb_false_iff, Z.eqb_eq in Hg0.
    unfold TotalExpenditure in Hr0. lia. }
  rewrite <-Hf. open_ok E. destruct (_ =? 0); [by eapply supply_handleDestroy|]. open_ok E.
  destruct r3 as [[slot v] gv]. apply supply_upgradeSlot in Hr4. rewrite <-Hr4.
  destruct slot as [slot|]; [|by injection E as <- <-]. open_ok E. destruct r6 as [[ok w] gw]. injection E as <- <-.
  apply supply_runContract in Hr8. rewrite Hr8, (same_supply _ _ (same_setContract _ _ _ _ Hr7)).
  eapply same_supply, same_fold; [apply same_pinDep|exact Hr5].
Qed.

(** ** A block *)

(** What a transaction adds to the supply: a generate its value, an effect
    transaction the loss of its fee. *)
Definition tx_delta (tx : FullTx) : Z := if tx_Type tx =? GenerateTx then tx_Value tx else - tx_Fee tx.

Definition commit_fee (c : Commitment) : Z := default 0 (c_Fee c).

Lemma supply_handleTx st cs bt t g tx t' g' :
  wf_tx tx -> handleTx st cs bt (t, g) tx = Ok (t', g') -> supply t' = supply t + tx_delta tx.
Proof.
  intros (_&_&_&Hv&_). unfold handleTx, tx_delta. destruct (tx_Type tx =? GenerateTx).
  { intros E. open_ok E. injection E as <- <-. by eapply supply_handleGenerate. }
  destruct (tx_Type tx =? TransactTx); [|destruct (tx_Type tx =? DeployTx); [|done]]; intros E; open_ok E; destruct r0 as [u gu];
    apply same_consumeReveal, same_supply in Hr; apply supply_runValidate in Hr0;
    [apply supply_handleTransaction in E; [|done]|apply supply_handleDeploy in E]; lia.
Qed.

Lemma supply_HandleTxs st cs bt txs : Forall wf_tx txs -> forall s t' g',
  res_fold (handleTx st cs bt) s txs = Ok (t', g') -> supply t' = supply s.1 + sumZ tx_delta txs.
Proof.
  induction 1 as [|tx txs Hw _ IH]; intros [t g] t' g' E; cbn [res_fold] in E.
  - injection E as <- <-. cbn. lia.
  - open_ok E. destruct r as [u gu]. apply IH in E. apply supply_handleTx in Hr; [|done]. cbn [fst snd] in *.
    rewrite sumZ_cons. lia.
Qed.

Lemma supply_handleCommit cs t c t' : handleCommit cs t c = Ok t' -> supply t' = supply t - commit_fee c.
Proof.
  unfold handleCommit, commit_fee. intros E. open_ok E. destruct (c_Fee c) as [fee|]; [|done]. open_ok E. injection E as <-.
  apply Z.ltb_ge in Hg0. rewrite (same_supply _ _ (same_putCommit _ _ _ _)), supply_setBalance by lia. cbn. lia.
Qed.

Lemma supply_handleCommits cs l : forall t t', res_fold (handleCommit cs) t l = Ok t' -> supply t' = supply t - sumZ commit_fee l.
Proof.
  induction l as [|c l IH]; intros t t' E; cbn [res_fold] in E; [injection E as <-; cbn; lia|].
  open_ok E. apply IH in E. apply supply_handleCommit in Hr.
  rewrite sumZ_cons. lia.
Qed.

(** The supply after a block, whatever its generates mint. *)
Lemma supply_Upgrade st t b t' : wf_block b -> Upgrade st t b = Ok t' ->
  supply t' = supply t + sumZ tx_delta (b_Txs b) - sumZ commit_fee (b_Commits b).
Proof.
  intros (_&Ht&_&_) E. unfold Upgrade, handleCommits, HandleTxs in E. cbv zeta in E. open_ok E. destruct r0 as [u g].
  injection E as <-. apply supply_handleCommits in Hr. apply supply_HandleTxs in Hr0; [|done]. cbn in Hr0.
  rewrite (same_supply _ _ (same_pruneCommits _ _)), (same_supply _ _ (same_updateBeacon _ _ _)). lia.
Qed.

(** ** The generates *)

Lemma str_inj s s' : str s = str s' -> s = s'.
Proof.
  intros E. apply (f_equal String.string_of_list_byte) in E. unfold str in E.
  by rewrite !String.string_of_list_byte_of_string in E.
Qed.

Lemma want_key_inj c c' v v' : length c = length c' -> want_key c v = want_key c' v' -> c = c' /\ v = v'.
Proof.
  intros Hl E. unfold want_key in E. apply app_inj_1 in E as [-> E]; [|done]. split; [done|].
  by apply (inj pretty), str_inj.
Qed.

(** The rewards still wanted, as a list. *)
Definition wants (m : gmap bytes Z) (l : list (bytes * Z)) : Prop :=
  forall k, default 0 (m !! k) = Z.of_nat (length (filter (fun p => want_key p.1 p.2 = k) l)).

Lemma wants_cons m l c v : wants m l -> wants (<[want_key c v := default 0 (m !! want_key c v) + 1]> m) ((c, v) :: l).
Proof.
  intros Hm k. rewrite filter_cons. cbn [fst snd]. destruct (decide (want_key c v = k)) as [<-|Hn].
  - rewrite lookup_insert_eq, Hm. cbn [from_option id length]. lia.
  - by rewrite lookup_insert_ne by done.
Qed.

Lemma wants_perm m l l' : l ≡ₚ l' -> wants m l -> wants m l'.
Proof. intros Hp Hm k. rewrite Hm. by rewrite Hp. Qed.

Definition reward_of (h : Z) (u : BlockHeader) : bytes * Z := (h_Coinbase u, UncleReward (h_Height u) h).

Lemma wants_wantMap h us : forall m l, wants m l ->
  wants (foldl (addWant h) m us) (reverse (reward_of h <$> us) ++ l).
Proof.
  induction us as [|u us IH]; intros m l Hm; cbn [foldl fmap list_fmap]; [done|].
  rewrite reverse_cons, <-app_assoc. apply IH. by apply wants_cons.
Qed.

Lemma takeGenerate_wants h m l g m' :
  Forall (fun p => length p.1 = 32%nat) l -> wants m l -> takeGenerate h m g = Ok m' ->
  exists l', l ≡ₚ (vec_to_list (tx_To g), tx_Value g) :: l' /\ wants m' l'.
Proof.
  intros Hl Hm E. unfold takeGenerate in E. open_ok E. injection E as <-. apply Z.eqb_neq in Hg1.
  set (k := want_key (vec_to_list (tx_To g)) (tx_Value g)) in *. rewrite (Hm k) in Hg1.
  destruct (filter (fun p => want_key p.1 p.2 = k) l) as [|[c v] fl] eqn:EF; [done|].
  assert (Hi : (c, v) ∈ l /\ want_key c v = k).
  { assert ((c, v) ∈ filter (fun p => want_key p.1 p.2 = k) l) as Hi by (rewrite EF; left).
    apply list_elem_of_filter in Hi as [? ?]. done. }
  destruct Hi as [Hi Hk]. apply want_key_inj in Hk as [-> ->].
  2:{ rewrite length_vec_to_list. by apply (proj1 (Forall_forall _ _) Hl _ Hi). }
  apply elem_of_Permutation in Hi as [l' Hp]. exists l'. split; [done|]. intros k'.
  pose proof (wants_perm _ _ _ Hp Hm k') as Hw. rewrite filter_cons in Hw. cbn [fst snd] in Hw. fold k in Hw.
  destruct (decide (k = k')) as [<-|Hn]; [rewrite lookup_insert_eq|by rewrite lookup_insert_ne by done].
  rewrite Hw. cbn [from_option id length]. lia.
Qed.

Lemma takeGenerates_sum h gens : forall m l m',
  Forall (fun p => length p.1 = 32%nat) l -> wants m l -> length gens = length l ->
  res_fold (takeGenerate h) m gens = Ok m' -> sumZ tx_Value gens = sumZ snd l.
Proof.
  induction gens as [|g gens IH]; intros m l m' Hl Hm Hn E; cbn [res_fold] in E.
  - by destruct l.
  - open_ok E. destruct (takeGenerate_wants h m l g r Hl Hm Hr) as (l' & Hp & Hm').
    rewrite (sumZ_perm _ _ _ Hp), !sumZ_cons. cbn [snd]. f_equal. eapply IH; [|exact Hm'| |exact E].
    + rewrite Hp in Hl. by apply Forall_cons in Hl as [_ Hl].
    + rewrite Hp in Hn. cbn in Hn. by injection Hn.
Qed.

(** The primary generate and the uncle generates are all the generates. *)
Lemma splitGenerates_sum txs : forall p0 ug0 p ug,
  splitGenerates txs p0 ug0 = Ok (p, ug) ->
  sumZ tx_delta txs + from_option tx_Value 0 p0 + sumZ tx_Value ug0
  = from_option tx_Value 0 p + sumZ tx_Value ug - sumZ tx_Fee (filter (fun tx => tx_Type tx <> GenerateTx) txs).
Proof.
  induction txs as [|tx txs IH]; intros p0 ug0 p ug E; cbn [splitGenerates] in E.
  { injection E as <- <-. cbn. lia. }
  rewrite filter_cons, sumZ_cons.
  unfold tx_delta at 1. destruct (Z.eqb_spec (tx_Type tx) GenerateTx) as [Hg|Hg]; cbn [negb] in E.
  - rewrite decide_False by tauto. destruct (IsSigned tx).
    + destruct p0; [done|]. apply IH in E. cbn [from_option] in E |- *. lia.
    + apply IH in E. rewrite sumZ_app in E. cbn in E. lia.
  - rewrite decide_True by done. apply IH in E. rewrite sumZ_cons. lia.
Qed.

Lemma coinbases_sized now us : Forall (fun u => checkStandaloneError now u = Ok tt) us ->
  Forall (fun u => length (h_Coinbase u) = 32%nat) us.
Proof.
  intros Hu. eapply Forall_impl; [exact Hu|]. intros u E. unfold checkStandaloneError in E. open_ok E. rewrite !orb_false_iff in Hg.
  destruct Hg as [_ Hg]. by apply zlen_eqb in Hg.
Qed.

(** What the rules of the block let it mint. *)
Definition block_issuance (b : FullBlock) : Z :=
  GetBlockReward (blockHeight b) + sumZ (fun u => UncleReward (h_Height u) (blockHeight b)) (b_Uncles b).

(** What it burns. *)
Definition block_fees (b : FullBlock) : Z :=
  sumZ tx_Fee (filter (fun tx => tx_Type tx <> GenerateTx) (b_Txs b)) + sumZ commit_fee (b_Commits b).

Lemma checked_generates_mint now t b :
  CheckError now b = Ok tt -> CheckBlockTxs t b = Ok tt ->
  sumZ tx_delta (b_Txs b) = block_issuance b - sumZ tx_Fee (filter (fun tx => tx_Type tx <> GenerateTx) (b_Txs b)).
Proof.
  intros HE HC. apply CheckError_uncles, coinbases_sized in HE.
  unfold CheckBlockTxs in HC. apply seq_Ok in HC as [HC _]. unfold checkBlockGenerates in HC. open_ok HC.
  destruct r as [[prim|] ug]; [|done]. apply splitGenerates_sum in Hr. cbn [from_option] in Hr.
  open_ok HC. clear HC. unfold CheckGenerate in Hr0. apply guard_Ok in Hr0 as [Hp Hr0]. apply guard_Ok in Hr0 as [Hf _].
  bools. unfold TotalExpenditure in Hp.
  assert (Hs : sumZ tx_Value ug = sumZ snd (reverse (reward_of (blockHeight b) <$> b_Uncles b) ++ [])).
  { eapply takeGenerates_sum; [| | |exact Hr1].
    - rewrite app_nil_r, reverse_Permutation. by apply Forall_fmap.
    - unfold wantMap. apply wants_wantMap. by intros k.
    - rewrite app_nil_r, length_reverse, length_fmap. unfold zlen in *. lia. }
  rewrite app_nil_r, (sumZ_perm _ _ _ (reverse_Permutation _)) in Hs. unfold block_issuance.
  rewrite sumZ_fmap in Hs. cbn [reward_of snd] in Hs. change (sumZ tx_Value []) with 0 in Hr. lia.
Qed.

End Supply.
