(* ===== verification/Spending.v ===== *)
(** * Who may spend

    Commit-reveal on the handlers of Ledger.v: an effect transaction uses up
    one earlier commitment of its sender to exactly its content.  And the
    exception: at height zero nothing is checked. *)

From S2P Require Import Prelude Params StateTrie Keys Contract Types Instances Tx Block BlockStore State StateCommit Journal Ledger Supply.

Section Spending.
Context `{HH : Hasher} `{SL : SigLibs} `{CD : Codec} `{SC : SlotCodec} `{RC : ReceiptCodec}
  `{DC : DepsCodec} `{IF : Inflate} `{ML : MerkleLib} `{VM_ : ContractVM}.

(** ** The handlers write no bucket outside the state

    And leave the commitments alone. *)

Section Frames.
Context (n : BucketName) `{!Outside n}.

Lemma outside_setBalance t rec a b : same n t (setBalance t rec a b).
Proof.
  intros k. rewrite setBalance_cwrite, bGet_cwrite by plainly. rewrite decide_False by (intros [? ?]; plainly).
  apply bGet_recordBal; plainly.
Qed.

Lemma outside_flush j t rec t' : flush j t rec = Ok t' -> same n t t'.
Proof.
  unfold flush, flushAccounts. intros E.
  apply (same_trans _ _ (flushBalances rec t (map_to_list (balances j)))).
  - unfold flushBalances. generalize (map_to_list (balances j)). intros l. clear E. revert t.
    induction l as [|[a b] l IH]; intros t; cbn [foldl]; [done|].
    eapply same_trans; [apply outside_setBalance|apply IH].
  - eapply same_fold; [|exact E]. intros u kv u'. apply same_setContract.
Qed.

Lemma outside_runContract cs t a tx e bt g ok t' g' :
  runContract cs t a tx e bt g = Ok (ok, t', g') -> same n t t'.
Proof.
  unfold runContract. destruct (getContract t a) as [acc|]; [|by intros [= <- <- <-]].
  destruct (_ || _); [by intros [= <- <- <-]|]. case_bool_decide; [intros [= <- <- <-]; apply same_recordRun|].
  intros E. apply res_bind_Ok in E as ([|vm] & EV & E); [injection E as <- <- <-; apply same_recordRun|].
  apply res_bind_Ok in E as ([e' vm1] & EE & E). cbv zeta in E. apply res_bind_Ok in E as ([err vm3] & EC & E).
  destruct err as [[text missing]|].
  - destruct (_ && _); injection E as <- <- <-; [done|apply same_recordRun].
  - open_ok E. injection E as <- <- <-. eapply same_trans; [by eapply outside_flush|apply same_recordRun].
Qed.

Lemma outside_runValidate cs t tx bt g t' g' : runValidate cs t tx bt g = Ok (t', g') -> same n t t'.
Proof.
  unfold runValidate. intros E. open_ok E. destruct (getContract t r) as [acc|]; [|by simplify_eq].
  destruct (_ || _); [by simplify_eq|]. open_ok E. destruct (negb _); [by simplify_eq|]. open_ok E.
  destruct r1 as [[ok u] gu]. open_ok E. injection E as -> ->. by eapply outside_runContract.
Qed.

Lemma outside_chargeFrom t cs tx expense from t' : chargeFrom t cs tx expense = Ok (from, t') -> same n t t'.
Proof.
  unfold chargeFrom. intros E. open_ok E. injection E as <- <-.
  eapply same_trans; [apply same_registerPubKey|apply outside_setBalance].
Qed.

Lemma outside_handleTransaction cs t tx bt g t' g' :
  handleTransaction cs t tx bt g = Ok (t', g') -> same n t t'.
Proof.
  unfold handleTransaction. intros E. open_ok E. destruct r as [from u]. apply outside_chargeFrom in Hr.
  eapply same_trans; [exact Hr|]. eapply same_trans; [apply outside_setBalance|].
  destruct (contractExists _ _).
  - open_ok E. destruct r as [[ok v] gv]. injection E as <- <-. by eapply outside_runContract.
  - by injection E as <- <-.
Qed.

Lemma outside_refund t cs a ctx : same n t (refundContractDeposit t cs a ctx).
Proof.
  unfold refundContractDeposit. destruct (_ <=? _); [done|]. cbv zeta. destruct (_ <=? 0); [done|].
  eapply same_trans; apply outside_setBalance.
Qed.

Lemma outside_handleDestroy st cs t tx from slot bt g t' g' :
  handleDestroy st cs t tx from slot bt g = Ok (t', g') -> same n t t'.
Proof.
  unfold handleDestroy. destruct slot as [acc|]; [|done]. intros E. open_ok E. destruct r0 as [[ok u] gu].
  apply outside_runContract in Hr0. destruct ok; cbn [negb] in E; [|by injection E as <- <-].
  open_ok E. injection E as <- <-. eapply same_trans; [exact Hr0|]. eapply same_trans; [by eapply same_releaseContractDeps|].
  eapply same_trans; [|apply same_delContract].
  destruct (IsForkActive _ _ _); [|by injection Hr2 as ->]. unfold with_context in Hr2.
  destruct (Context' acc); [|done]. injection Hr2 as <-. apply outside_refund.
Qed.

Lemma outside_upgradeSlot cs t tx from slot bt g s t' g' :
  upgradeSlot cs t tx from slot bt g = Ok (s, t', g') -> same n t t'.
Proof.
  unfold upgradeSlot. destruct slot as [acc|]; [|by intros [= _ <- _]]. destruct (is_live _); [|by intros [= _ <- _]].
  intros E. open_ok E. destruct r as [[ok u] gu]. apply outside_runContract in Hr. destruct ok; cbn [negb] in E.
  - open_ok E. injection E as _ <- _. eapply same_trans; [exact Hr|]. by eapply same_releaseContractDeps.
  - by injection E as _ <- _.
Qed.

Lemma outside_handleDeploy st cs t tx bt g t' g' :
  handleDeploy st cs t tx bt g = Ok (t', g') -> same n t t'.
Proof.
  unfold handleDeploy. intros E. open_ok E. destruct r0 as [from u]. apply outside_chargeFrom in Hr0.
  eapply same_trans; [exact Hr0|]. open_ok E. destruct (_ =? 0); [by eapply outside_handleDestroy|]. open_ok E.
  destruct r3 as [[slot v] gv]. apply outside_upgradeSlot in Hr4. eapply same_trans; [exact Hr4|].
  destruct slot as [slot|]; [|by injection E as <- <-]. open_ok E. destruct r6 as [[ok w] gw]. injection E as <- <-.
  eapply same_trans; [eapply same_fold; [apply same_pinDep|exact Hr5]|].
  eapply same_trans; [by eapply same_setContract|]. by eapply outside_runContract.
Qed.

End Frames.

(** ** Commit-reveal *)

Lemma findCommit_Some t from hash rh h :
  findCommit t from hash rh = Some h ->
  rh - CommitWindow <= h < rh /\ 0 <= h /\ bGet t CommitBucketName (commitKey h hash) = Some (vec_to_list from).
Proof.
  unfold findCommit. intros E. apply head_Some_elem_of in E. apply list_elem_of_filter in E as [Hc Hi].
  unfold commit_at in Hc. apply bool_decide_eq_true in Hc. unfold scan_heights in Hi. apply elem_of_seqZ in Hi.
  destruct (Z.ltb_spec CommitWindow rh); unfold CommitWindow in *; split_and!; try done; lia.
Qed.

(** C14 - An effect transaction applied at a height other than zero reveals
    one commitment and uses it up: its sender committed, strictly earlier
    and at most [CommitWindow] heights before, to the hash of exactly this
    content and salt; the salt is long enough; after the transaction that
    commitment is gone, and no other commitment has changed, whatever the
    contracts it ran did. *)
Theorem effect_consumes_its_commitment st cs bt t g tx t' g' :
  tx_Type tx <> GenerateTx -> tx_Height tx <> 0 -> handleTx st cs bt (t, g) tx = Ok (t', g') ->
  exists from h, From tx = Ok from /\ MinSaltSize <= zlen (tx_Salt tx)
    /\ tx_Height tx - CommitWindow <= h < tx_Height tx
    /\ bGet t CommitBucketName (commitKey h (revealHash tx)) = Some (vec_to_list from)
    /\ forall k, bGet t' CommitBucketName k
                 = if decide (k = commitKey h (revealHash tx)) then None else bGet t CommitBucketName k.
Proof.
  intros Ht Hh E. unfold handleTx in E. apply Z.eqb_neq in Ht, Hh. rewrite Ht in E.
  assert (Hs : exists u, consumeReveal t tx = Ok u /\ same CommitBucketName u t').
  { destruct (tx_Type tx =? TransactTx); [|destruct (tx_Type tx =? DeployTx); [|done]]; open_ok E; destruct r0 as [v gv];
      apply (outside_runValidate CommitBucketName) in Hr0; [apply (outside_handleTransaction CommitBucketName) in E|apply (outside_handleDeploy CommitBucketName) in E];
      exists r; (split; [done|]); by eapply same_trans. }
  destruct Hs as (u & Hu & Hs). unfold consumeReveal in Hu. rewrite Hh in Hu. open_ok Hu.
  destruct (findCommit t r (revealHash tx) (tx_Height tx)) as [h|] eqn:Ef; [|done]. injection Hu as <-.
  apply findCommit_Some in Ef as (Hw & _ & Hb). exists r, h. split_and!; [done|by apply Z.ltb_ge|lia|lia|done|]. intros k.
  rewrite (Hs k), consumeCommit_cwrite, bGet_cwrite by done.
  destruct (decide (k = commitKey h (revealHash tx))) as [->|Hn]; [by rewrite decide_True|].
  rewrite decide_False by (intros [_ ?]; congruence). unfold journalConsumed.
  by rewrite bGet_bPut, decide_False by (intros [? ?]; congruence).
Qed.

(** ** Height zero *)

(** A compact envelope over any address, with a signature of zeros. *)
Definition forged_sign (victim : Address) : bytes :=
  [envelopeCompact; SchemeSecp256k1] ++ vec_to_list victim ++ zeros (SigSize SchemeSecp256k1).

Definition forged_tx (net : Network) (victim thief : Address) (amount fee : Z) : FullTx :=
  {| tx_Network := net; tx_Type := TransactTx; tx_Height := 0; tx_To := thief; tx_Value := amount; tx_Fee := fee;
     tx_Extra := []; tx_Sign := forged_sign victim; tx_Salt := [] |}.

Lemma forged_From net victim thief amount fee : From (forged_tx net victim thief amount fee) = Ok victim.
Proof.
  unfold From, envelope_from, forged_tx, forged_sign. cbn [tx_Sign app].
  change (bool_decide (envelopeCompact = envelopeFull)) with false. change (bool_decide (envelopeCompact = envelopeCompact)) with true.
  cbv iota. rewrite length_app, length_vec_to_list, length_zeros. rewrite Nat.eqb_refl.
  change (PubKeySize SchemeSecp256k1 =? 0)%nat with false. cbn [negb orb guard].
  rewrite take_app_length' by (symmetry; apply length_vec_to_list). by rewrite to_array_vec.
Qed.

(** C33 - A transaction that says its height is zero needs no signature, no
    commitment and no salt, at any height of the chain: for every address
    [victim] that is not a contract, whoever writes [victim] and zeros
    into the envelope passes every check the block import makes of the
    transaction and moves [victim]'s money.  (Nothing compares the height a
    transaction states with the height of its block.) *)
Theorem height_zero_spends_any_balance st cs bt net t g victim thief amount fee :
  0 <= amount -> 0 <= fee -> amount + fee <= getBalance t victim -> victim <> thief ->
  is_ok (getContract t victim) = false -> contractExists t thief = false ->
  let tx := forged_tx net victim thief amount fee in
  CheckTx t tx = Ok tt
  /\ exists t', handleTx st cs bt (t, g) tx = Ok (t', g)
       /\ getBalance t' victim = getBalance t victim - amount - fee
       /\ getBalance t' thief = getBalance t thief + amount.
Proof.
  intros Ha Hf Hb Hn Hc Hthief tx. pose proof (forged_From net victim thief amount fee) as HF. fold tx in HF.
  assert (HV : Verify tx (keyResolver t) = Ok tt) by done.
  assert (HR : registerPubKey t cs tx = t) by done.
  assert (Hx : TotalExpenditure tx = fee + amount) by done.
  assert (Hbal : (getBalance t victim <? TotalExpenditure tx) = false) by (rewrite Hx; apply Z.ltb_ge; lia).
  split.
  - change (CheckTx t tx) with (checkTransaction t tx). unfold checkTransaction, CheckTransaction.
    change (tx_Value tx) with amount. rewrite (proj2 (Z.ltb_ge amount 0) Ha). cbn [guard]. rewrite HV. cbn [res_bind].
    unfold fromWithBalance. rewrite HF. cbn [res_bind]. by rewrite Hbal.
  - set (b := getBalance t victim) in *. set (t1 := setBalance t cs victim (b - TotalExpenditure tx)).
    set (t2 := setBalance t1 cs thief (getBalance t1 thief + amount)). exists t2.
    assert (Hr : runValidate cs t tx bt g = Ok (t, g)).
    { unfold runValidate. rewrite HF. cbn [res_bind]. by destruct (getContract t victim). }
    assert (HC : chargeFrom t cs tx (TotalExpenditure tx) = Ok (victim, t1)).
    { unfold chargeFrom. rewrite HV. cbn [res_bind]. rewrite HR, HF. cbn [res_bind]. fold b. by rewrite Hbal. }
    assert (Hg1 : getBalance t1 thief = getBalance t thief)
      by (unfold t1; rewrite getBalance_setBalance, decide_False by (done || lia); done).
    assert (He : contractExists t2 thief = false).
    { unfold contractExists, t2, t1 in *. rewrite !setBalance_cwrite, !bGet_cwrite by done.
      rewrite !decide_False by (intros [? ?]; congruence). rewrite bGet_recordBal by done.
      rewrite bGet_cwrite, decide_False by (done || intros [? ?]; congruence). by rewrite bGet_recordBal by done. }
    split_and!.
    + change (handleTx st cs bt (t, g) tx) with
        (res_bind (runValidate cs t tx bt g) (fun '(u, g) => handleTransaction cs u tx bt g)).
      rewrite Hr. cbn [res_bind]. unfold handleTransaction. rewrite HC. cbn [res_bind].
      change (tx_To tx) with thief. change (tx_Value tx) with amount. fold t2. by rewrite He.
    + unfold t2. rewrite getBalance_setBalance, decide_False by (congruence || (pose proof (getBalance_nonneg t1 thief); lia)).
      unfold t1. rewrite getBalance_setBalance, decide_True by (done || lia). lia.
    + unfold t2. rewrite getBalance_setBalance, decide_True by (done || (pose proof (getBalance_nonneg t1 thief); lia)). lia.
Qed.

End Spending.
