(* ===== verification/LedgerProps.v ===== *)
(** * Applying blocks: the theorems

    The supply of money over a block, with the virtual machine of VM.v in
    place, and concrete blocks on the engine of VMToy.v. *)

From S2P Require Import Prelude Params StateTrie Keys Contract Types Instances Tx Block BlockStore State StateCommit Journal VM VMSteps VMRuns VMFuel VMToy VMProps Ledger Supply Spending.

Section LedgerProps.
Context `{HH : Hasher} `{SL : SigLibs} `{CD : Codec} `{SC : SlotCodec} `{RC : ReceiptCodec}
  `{DC : DepsCodec} `{IF : Inflate} `{ML : MerkleLib} `{WM : Wasman} `{TS : TollStation} `{ET : !ErrorText} `{PL : PowLib}.

(** The machine of VM.v keeps the law the ledger asks for. *)
Lemma wasman_conserves : vm_conserves.
Proof.
  intros t acc tx bt vm e e' vm1 vm2 vm3 HN HE HL HC. cbn in HN, HE, HL, HC. open_ok HN. open_ok HC.
  destruct r as [|v]; [done|]. injection HN as <-. destruct r0 as [err v3]. injection HC as HC Hv3. subst v3.
  destruct err; [done|]. unfold finish in Hr0. destruct (runEntry e' vm2) as [o w] eqn:ER. destruct o; try done.
  injection Hr0 as -> ->. eapply running_conserves, (run_steps _ _ _ _ v e e' vm1 vm2); done.
Qed.

(** C2 - The money supply follows the schedule exactly.  When a decoded
    block passes its self check and the transaction checks, applying it
    changes the sum of all balances by the block reward of its height, plus
    the uncle reward of every referenced uncle, minus the fees of its effect
    transactions and of its commitments; whatever the contracts it runs do,
    none of them creates or destroys money. *)
Theorem block_changes_supply_by_schedule now st t b t' :
  wf_block b -> CheckError now b = Ok tt -> CheckBlockTxs t b = Ok tt -> Upgrade st t b = Ok t' ->
  supply t' = supply t
    + (GetBlockReward (blockHeight b) + sumZ (fun u => UncleReward (h_Height u) (blockHeight b)) (b_Uncles b))
    - (sumZ tx_Fee (filter (fun tx => tx_Type tx <> GenerateTx) (b_Txs b)) + sumZ commit_fee (b_Commits b)).
Proof.
  intros Hw HE HC HU. rewrite (supply_Upgrade wasman_conserves st t b t' Hw HU).
  rewrite (checked_generates_mint now t b HE HC). unfold block_issuance. lia.
Qed.

End LedgerProps.

(** ** Concrete blocks *)

Module LedgerWitness.

#[local] Existing Instance prefix_hasher.
#[local] Existing Instance toy_libs.
#[local] Existing Instance toy_codec.
#[local] Existing Instance toy_slot_codec.
#[local] Existing Instance toy_toll.
#[local] Existing Instance RunWitness.engine.

#[local] Instance receipts : ReceiptCodec := {| rlp_txReceipt := fun _ => [Zbyte 1]; dec_txReceipt := fun _ => None |}.
#[local] Instance deps : DepsCodec := {| rlp_deps := fun l => concat l; dec_deps := fun _ => None |}.
#[local] Instance inflate : Inflate := fun b => (b, true).
#[local] Instance merkle : MerkleLib := fun l => Hash256 (concat l).
#[local] Instance pow : PowLib := fun _ => to_array 32 [].
#[local] Instance text : ErrorText := fun _ => [].

Definition state : State := {| st_Network := ZERONET; st_Archive := false |}.

Definition alice_key : PrivateKey := Tx.Witness.key_of SchemeFNDSA512.

Definition alice : Address := RunWitness.ok_or zeroAddress (NewAddress alice_key).

Definition sign (tx : FullTx) : FullTx := RunWitness.ok_or tx (Signature [] tx alice_key).

(** Two storage contracts, each with 10^15 of its own. *)
Definition bare : Txn :=
  let t := RunWitness.ok_or ∅ (setContract ∅ None (RunWitness.contract alice 1)) in
  let t := RunWitness.ok_or t (setContract t None (RunWitness.contract bob 1)) in
  setBalance (setBalance t None alice (10 ^ 15)) None bob (10 ^ 15).

Definition run_main (t : Txn) (a : Address) : Txn :=
  match runContract None t a (NewTx ZERONET TransactTx 7 a (Some 0) (Some 1) [] []) EntryOnTx 0 None with
  | Ok (_, t, _) => t
  | Err _ => t
  end.

(** Both have stored their entry: the escrow holds both deposits. *)
Definition stored : Txn := run_main (run_main bare alice) bob.

Definition redeploy : FullTx :=
  sign (NewUnsignedTx ZERONET DeployTx 7 zeroAddress (Some 0) (Some 1) (commitRaw :: contract_source 1)).

Definition upgraded (t : Txn) : res Txn := let! (t, _) := handleDeploy state None t redeploy 0 None in Ok t.

Definition rent_at (t : Txn) (a : Address) : Z := match getContract t a with Ok acc => rent_of acc | Err _ => 0 end.

(** The escrow, and the bonds the two contracts record. *)
Definition bonds (t : Txn) : Z * Z * Z := (getBalance t StorageDepositEscrow, rent_at t alice, rent_at t bob).

(** An upgrade hook can take other contracts' bonds.  Both contracts
    have a bond of 4*10^12 and the escrow holds their sum.  alice redeploys
    her own code, whose ng:upgrade hook deletes her entry, twice: each time
    the hook is refunded the bond, and the slot read before the hook ran is
    written back over its effect.  After two redeploys the escrow is empty
    while both contracts are still recorded with their bonds. *)
Example upgrade_hook_drains_escrow :
  bonds stored = (8 * 10 ^ 12, 4 * 10 ^ 12, 4 * 10 ^ 12)
  /\ (let! t := upgraded stored in let! t := upgraded t in Ok (bonds t)) = Ok (0, 4 * 10 ^ 12, 4 * 10 ^ 12).
Proof. vm_compute. split; reflexivity. Qed.

(** *** A block with a reward and a payment *)

Definition pay : FullTx :=
  tx_set_Salt (sign (NewUnsignedTx ZERONET TransactTx 6 bob (Some 5) (Some (10 ^ 14)) [])) (replicate 16 (Zbyte 3)).

Definition reward : FullTx := sign (NewUnsignedTx ZERONET GenerateTx 6 alice (Some (GetBlockReward 6)) (Some 0) []).

(** alice has 10^15 and committed to the payment at height 5. *)
Definition funded : Txn := putCommit (setBalance ∅ None alice (10 ^ 15)) 5 (revealHash pay) alice.

Definition block : FullBlock :=
  let x := SetUncles (SetCoinbase (NewBareBlock ZERONET 6 1603497601000 (zeros 32) 9) alice) [] in
  RunWitness.ok_or x (let! y := ToUnsealing x [reward; pay] in ToSealed y (zeros 8)).

#[local] Instance wf_tx_dec tx : Decision (wf_tx tx).
Proof. unfold wf_tx, is_u64. apply _. Defined.

#[local] Instance wf_header_dec h : Decision (wf_header h).
Proof. unfold wf_header, is_u64. apply _. Defined.

Lemma block_wf : wf_block block.
Proof.
  assert (Hc : b_Commits block = []) by (vm_compute; reflexivity). unfold wf_block. rewrite Hc.
  split_and!; [apply (bool_decide_unpack _); vm_compute; exact I..|constructor].
Qed.

Abbreviation applied := (Upgrade state funded block).

Lemma applied_ok : is_ok applied = true.
Proof. vm_compute. reflexivity. Qed.

Lemma block_passes : CheckError 1603497601000 block = Ok tt /\ CheckBlockTxs funded block = Ok tt.
Proof. split; vm_compute; reflexivity. Qed.

Lemma block_sums :
  (GetBlockReward (blockHeight block) + sumZ (fun u => UncleReward (h_Height u) (blockHeight block)) (b_Uncles block))
  - (sumZ tx_Fee (filter (fun tx => tx_Type tx <> GenerateTx) (b_Txs block)) + sumZ commit_fee (b_Commits block))
  = GetBlockReward 6 - 10 ^ 14.
Proof. vm_compute. reflexivity. Qed.

Lemma block_changes_supply_by_schedule_witness :
  exists t', applied = Ok t' /\ supply t' = supply funded + GetBlockReward 6 - 10 ^ 14.
Proof.
  destruct (is_ok_Ok applied applied_ok) as [t' E]. exists t'. split; [exact E|].
  destruct block_passes as [HE HC]. pose proof block_sums as Hs.
  pose proof (block_changes_supply_by_schedule 1603497601000 state funded block t' block_wf HE HC E) as H.
  rewrite <-!Z.add_sub_assoc in *. rewrite H. by f_equal.
Defined.

Abbreviation paid := (handleTx state None 0 (funded, None) pay).

Lemma paid_ok : is_ok paid = true.
Proof. vm_compute. reflexivity. Qed.

Lemma effect_consumes_its_commitment_witness :
  exists t' g', paid = Ok (t', g') /\ exists from h, From pay = Ok from
    /\ bGet funded CommitBucketName (commitKey h (revealHash pay)) = Some (vec_to_list from)
    /\ bGet t' CommitBucketName (commitKey h (revealHash pay)) = None.
Proof.
  destruct (is_ok_Ok paid paid_ok) as [[t' g'] E]. exists t', g'. split; [exact E|].
  destruct (effect_consumes_its_commitment state None 0 funded None pay t' g') as (from & h & Hf & _ & _ & Hb & Ha).
  - discriminate.
  - discriminate.
  - exact E.
  - exists from, h. split; [exact Hf|]. split; [exact Hb|]. rewrite Ha. by rewrite decide_True.
Defined.

Lemma height_zero_spends_any_balance_witness :
  CheckTx funded (forged_tx ZERONET alice bob 7 0) = Ok tt
  /\ exists t', handleTx state None 0 (funded, None) (forged_tx ZERONET alice bob 7 0) = Ok (t', None)
       /\ getBalance t' alice = getBalance funded alice - 7 - 0 /\ getBalance t' bob = getBalance funded bob + 7.
Proof.
  apply (height_zero_spends_any_balance state None 0 ZERONET funded None alice bob 7 0).
  - lia.
  - lia.
  - assert (E : getBalance funded alice = 10 ^ 15) by (vm_compute; reflexivity). rewrite E. lia.
  - intros E. apply (f_equal vec_to_list) in E. vm_compute in E. discriminate E.
  - vm_compute. reflexivity.
  - vm_compute. reflexivity.
Defined.

End LedgerWitness.
