(* ===== verification/UndoProps.v ===== *)
(** * Undoing a block

    [Upgrade] of Ledger.v followed by [unwindHeightTxn] of State.v: when the
    reveals of a block state the block's own height, the undo restores the
    state.  The journal of consumed commitments is kept under the height a
    reveal states, which no check of a block compares with the block's: a
    reveal that states another height is not undone. *)

From S2P Require Import Prelude Params StateTrie Keys Contract Types Instances Tx Block BlockStore State StateCommit StateUndo VM VMToy VMProps Journal Ledger BlockSteps Supply Spending LedgerProps.

Section Undo.
Context `{HH : Hasher} `{SL : SigLibs} `{CD : Codec} `{SC : SlotCodec} `{RC : ReceiptCodec}
  `{DC : DepsCodec} `{IF : Inflate} `{ML : MerkleLib} `{PL : PowLib} `{VM_ : ContractVM} `{SLAWS : !SlotCodecLaws}.

(** ** The writes of a block, with its reveals in order *)

Section Block.
Context (b : FullBlock).
Let h := blockHeight b.
Let rec : option changeset := Some (newChangeset h).
Context (Hcom : forall c, c ∈ b_Commits b -> c_Height c = h).

(** The block without its transactions: its writes are those that reveal
    nothing. *)
Definition silent : FullBlock := {| b_Header := b_Header b; b_Txs := []; b_Uncles := []; b_Commits := b_Commits b |}.

Lemma quiet_bstep t t' : ustep rec silent t t' -> bstep h t t'.
Proof.
  destruct 1 as [t a v|t acc t' E|t a|t tx|t c from Hc|t tx from r Hin|t seed _|t r].
  - apply bs_balance.
  - by eapply bs_contract.
  - apply bs_delContract.
  - apply bs_key.
  - rewrite (Hcom c Hc). apply bs_commit.
  - by apply elem_of_nil in Hin.
  - apply bs_beacon.
  - apply bs_receipts.
Qed.

Lemma quiet_beacon t : rtc (ustep rec silent) t (updateBeacon t rec b).
Proof.
  unfold updateBeacon. destruct (negb _); [done|]. destruct (_ =? 0); [done|]. apply rtc_once, us_beacon. intros E.
  pose proof (f_equal length E) as Hl. unfold nextSeed in Hl. by rewrite length_Hash256 in Hl.
Qed.

Lemma quiet_spent t t' : ustep rec silent t t' -> same CommitSpentBucketName t t'.
Proof.
  destruct 1 as [t a v|t acc t' E|t a|t tx|t c from Hc|t tx from r Hin|t seed _|t r].
  - apply outside_setBalance. apply _.
  - by eapply same_setContract.
  - apply same_delContract.
  - apply same_registerPubKey.
  - intros k. by rewrite putCommit_cwrite, bGet_cwrite, decide_False by (done || intros [? _]; congruence).
  - by apply elem_of_nil in Hin.
  - intros k. unfold setBeacon, trieSetBeacon. rewrite bGet_trieSetLeaf, bGet_bPut, decide_False by (done || intros [? _]; congruence).
    unfold recordBeacon. cbn [rec]. destruct (bGet t BeaconChangeSetBucketName _); [done|].
    by rewrite bGet_bPut, decide_False by (intros [? _]; congruence).
  - intros k. by rewrite bGet_setBucket, decide_False by congruence.
Qed.

(** [done]: the hashes revealed so far. *)
Record so_far (t0 : Txn) (done : list bytes) (t : Txn) : Prop := {
  sf_steps : rtc (bstep h) t0 t;
  sf_spent : forall hash, length hash = 32%nat -> bGet t CommitSpentBucketName (spentKey h hash) <> None -> hash ∈ done
}.

Lemma so_far_quiet t0 done t t' : so_far t0 done t -> rtc (ustep rec silent) t t' -> so_far t0 done t'.
Proof.
  intros Hs H. induction H as [|t u t' Hu _ IH]; [exact Hs|]. apply IH. destruct Hs as [H1 H2]. split.
  - eapply rtc_r; [exact H1|by apply quiet_bstep].
  - intros hash Hl. rewrite (quiet_spent _ _ Hu). by apply H2.
Qed.

Lemma spentKey_hash_inj x y : length x = 32%nat -> length y = 32%nat -> spentKey h x = spentKey h y -> x = y.
Proof.
  intros Hx Hy E. unfold spentKey in E. apply app_inv_head in E. rewrite !to_array_list in E by done. done.
Qed.

Lemma so_far_reveal t0 done t tx t' :
  is_u64 h -> so_far t0 done t -> (tx_Height tx = 0 \/ tx_Height tx = h) -> (tx_Height tx <> 0 -> revealHash tx ∉ done) ->
  consumeReveal t tx = Ok t' -> so_far t0 (revealHash tx :: done) t'.
Proof.
  intros Hh [H1 H2] Hd Hn E. assert (Hl : length (revealHash tx) = 32%nat) by apply length_Hash256. unfold consumeReveal in E.
  destruct (Z.eqb_spec (tx_Height tx) 0) as [Hz|Hz].
  { injection E as <-. split; [exact H1|]. intros hash Hx Hb. right. by apply H2. }
  destruct Hd as [|Hd]; [done|]. rewrite Hd in *. open_ok E. destruct (findCommit t r (revealHash tx) h) as [c|] eqn:Ef; [|done]. injection E as <-.
  apply findCommit_Some in Ef as (Hw & Hc0 & Hc). assert (Hcu : is_u64 c) by (unfold is_u64 in *; lia). split.
  - eapply rtc_r; [exact H1|]. apply bs_reveal; [done|lia|exact Hc|]. destruct (bGet t CommitSpentBucketName (spentKey h (revealHash tx))) eqn:Es; [|done].
    exfalso. apply (Hn Hz), (H2 _ Hl). by rewrite Es.
  - intros hash Hx. rewrite consumeCommit_cwrite, bGet_cwrite, decide_False by (done || intros [? _]; congruence).
    unfold journalConsumed. rewrite bGet_bPut. destruct (decide _) as [[_ E]|_].
    + intros _. apply spentKey_hash_inj in E; [|done|done]. rewrite E. left.
    + intros Hb. right. by apply H2.
Qed.

Lemma so_far_tx st bt t0 done s tx t' g' :
  is_u64 h -> so_far t0 done s.1 -> (tx_Height tx = 0 \/ tx_Height tx = h) ->
  (tx_Height tx <> 0 -> tx_Type tx <> GenerateTx -> revealHash tx ∉ done) ->
  handleTx st rec bt s tx = Ok (t', g') ->
  so_far t0 (if decide (tx_Type tx <> GenerateTx) then revealHash tx :: done else done) t'.
Proof.
  intros Hh Hs Hd Hn E. destruct s as [t g]. cbn [fst] in Hs. unfold handleTx in E. destruct (Z.eqb_spec (tx_Type tx) GenerateTx) as [Hg|Hg].
  { rewrite decide_False by (intros ?; done). open_ok E. injection E as <- <-. eapply so_far_quiet; [exact Hs|]. by eapply steps_handleGenerate. }
  rewrite decide_True by done.
  destruct (_ =? TransactTx); [|destruct (_ =? DeployTx); [|done]]; open_ok E; destruct r0 as [u gu];
    pose proof (so_far_reveal t0 done t tx r Hh Hs Hd (fun Hz => Hn Hz Hg) Hr) as H1;
    (eapply so_far_quiet; [exact H1|]); (etrans; [by eapply steps_runValidate|]).
  - by eapply steps_handleTransaction.
  - by eapply steps_handleDeploy.
Qed.

(** The hashes a block reveals. *)
Definition reveals (l : list FullTx) : list bytes := revealHash <$> filter (fun tx => tx_Type tx <> GenerateTx) l.

Lemma so_far_txs st bt t0 l : is_u64 h -> (forall tx, tx ∈ l -> tx_Height tx = 0 \/ tx_Height tx = h) ->
  forall done s t' g', so_far t0 done s.1 -> NoDup (reveals l) -> (forall x, x ∈ reveals l -> x ∉ done) ->
  res_fold (handleTx st rec bt) s l = Ok (t', g') -> exists done', so_far t0 done' t'.
Proof.
  intros Hh. induction l as [|tx l IH]; intros Hd done s t' g' Hs Hnd Hx E; cbn in E; [simplify_eq; by exists done|].
  open_ok E. destruct r as [u gu]. assert (Hr' : reveals (tx :: l) = (if decide (tx_Type tx <> GenerateTx) then revealHash tx :: reveals l else reveals l)).
  { unfold reveals. rewrite filter_cons. by destruct (decide _). }
  rewrite Hr' in Hnd, Hx. eapply (IH ltac:(intros y Hy; apply Hd; by right) _ (u, gu)); [..|exact E].
  - cbn [fst]. eapply so_far_tx; [done|exact Hs|apply Hd; by left| |exact Hr]. intros _ Hg. rewrite decide_True in Hx by done. apply Hx. by left.
  - destruct (decide _); [by apply NoDup_cons in Hnd as [_ ?]|done].
  - intros x Hi. destruct (decide _); [|by apply Hx]. apply NoDup_cons in Hnd as [Hn _]. rewrite elem_of_cons. intros [->|Hin]; [done|].
    revert Hin. apply Hx. by right.
Qed.

End Block.

(** ** What the undo gives back *)

(** The reveals of a block state its height (or zero, which reveals
    nothing), and no two have the same hash. *)
Record dated (b : FullBlock) : Prop := {
  da_height : forall tx, tx ∈ b_Txs b -> tx_Height tx = 0 \/ tx_Height tx = blockHeight b;
  da_once : NoDup (reveals (b_Txs b))
}.

Lemma Upgrade_bsteps now st t0 b t1 :
  st_Archive st = true -> is_u64 (blockHeight b) -> CheckError now b = Ok tt -> fresh (blockHeight b) t0 -> dated b ->
  Upgrade st t0 b = Ok t1 -> exists u, rtc (bstep (blockHeight b)) t0 u /\ t1 = pruneCommits u (blockHeight b).
Proof.
  intros Ha Hh Hce Hf [Hd1 Hd2] E. unfold Upgrade in E. rewrite Ha in E. cbv zeta in E. open_ok E. destruct r0 as [u gu]. injection E as <-.
  assert (Hc : forall c, c ∈ b_Commits b -> c_Height c = blockHeight b).
  { apply CheckError_commits in Hce as Hcc. rewrite Forall_forall in Hcc. intros c Hin. specialize (Hcc c Hin).
    unfold Commitment_CheckError in Hcc. open_ok Hcc. bools. done. }
  assert (S0 : so_far b t0 [] t0).
  { split; [done|]. intros hash Hl Hb. destruct Hb. apply (cf_spent _ _ (fr_com _ _ Hf)). apply at_height_app. }
  assert (S1 : so_far b t0 [] r).
  { eapply so_far_quiet; [exact Hc|exact S0|]. unfold handleCommits in Hr. eapply (steps_handleCommits _ (silent b)); [|exact Hr]. done. }
  destruct (so_far_txs b Hc st (h_Timestamp (b_Header b)) t0 (b_Txs b) Hh Hd1 [] (r, Some MaxBlockGas) u gu S1 Hd2) as [dn S2].
  { intros x _. apply not_elem_of_nil. }
  { exact Hr0. }
  eexists. split; [|reflexivity]. eapply sf_steps, so_far_quiet; [exact Hc|exact S2|]. apply quiet_beacon.
Qed.

(** The writes of a block stay within some finite set of tagged keys. *)
Lemma wstep_mono U U' rec t t' : U ⊆ U' -> wstep U rec t t' -> wstep U' rec t t'.
Proof.
  intros Hs. destruct 1.
  - apply ws_balance. auto.
  - eapply ws_contract; eauto.
  - apply ws_delContract. auto.
  - apply ws_key. auto.
  - apply ws_commit. auto.
  - apply ws_reveal; auto.
  - apply ws_beacon; auto.
  - apply ws_prune.
  - apply ws_unwind.
  - apply ws_receipts.
Qed.

Lemma writes_mono U U' t t' : U ⊆ U' -> writes U t t' -> writes U' t t'.
Proof. intros Hs H. eapply rtc_subrel; [|exact H]. intros x y [rec Hw]. exists rec. by eapply wstep_mono. Qed.

Lemma ustep_wstep cs b t t' : (forall tx, tx ∈ b_Txs b -> is_u64 (tx_Height tx)) -> ustep cs b t t' -> exists U, wstep U cs t t'.
Proof.
  intros Hu. destruct 1 as [t a v|t acc t' E|t a|t tx|t c from Hc|t tx from r Hin Hz Hf|t seed Hs|t r].
  - eexists {[ _ ]}. apply ws_balance. by apply elem_of_singleton.
  - eexists {[ _ ]}. eapply ws_contract; [|exact E]. by apply elem_of_singleton.
  - eexists {[ _ ]}. apply ws_delContract. by apply elem_of_singleton.
  - eexists {[ _ ]}. apply ws_key. by apply elem_of_singleton.
  - eexists {[ _ ]}. apply ws_commit. by apply elem_of_singleton.
  - eexists {[ _ ]}. apply findCommit_Some in Hf as (Hw & H0 & _). specialize (Hu tx Hin). apply ws_reveal; [unfold is_u64 in *; lia|]. by apply elem_of_singleton.
  - eexists {[ _ ]}. apply ws_beacon; [done|]. by apply elem_of_singleton.
  - exists ∅. apply ws_receipts.
Qed.

Lemma Upgrade_writes st t b t' : (forall tx, tx ∈ b_Txs b -> is_u64 (tx_Height tx)) -> Upgrade st t b = Ok t' -> exists U, writes U t t'.
Proof.
  intros Hu (u & Hs & ->)%Upgrade_steps. assert (G : exists U, writes U t u).
  { induction Hs as [|x y z Hxy _ [U IH]]; [by exists ∅|]. destruct (ustep_wstep _ _ _ _ Hu Hxy) as [V Hw]. exists (V ∪ U).
    eapply rtc_l; [|eapply writes_mono; [|exact IH]; set_solver]. eexists. eapply wstep_mono; [|exact Hw]. set_solver. }
  destruct G as [U G]. exists U. eapply rtc_r; [exact G|]. exists None. apply ws_prune.
Qed.

Definition nothing_to_prune (h : Z) (t : Txn) : Prop :=
  forall n k v, prunable n -> bGet t n k = Some v -> below (h - CommitWindow) k = false.

(** C16 - Undoing a block restores the state.  Let a recording node apply a
    checked block at height [h] to a database [t0] without records of that
    height, and let the block's reveals state height [h] (or zero) and have
    distinct hashes.  Whatever the contracts of the block did, unwinding
    height [h] gives back every balance, slot, key, pending commitment,
    journal entry and seed, the change sets and history indices, of [t0] with
    the entries the block pruned removed; when there is nothing to prune, of
    [t0] itself; and likewise the state root, when the tagged keys in use
    have no collision. *)
Theorem unwind_restores_block now st t0 b t1 :
  let h := blockHeight b in
  st_Archive st = true -> is_u64 h -> CheckError now b = Ok tt -> dated b -> fresh h t0 -> Upgrade st t0 b = Ok t1 ->
  let undone := unwindHeightTxn t1 h in
  (forall n, restored n -> Bucket undone n = Bucket (pruneCommits t0 h) n)
  /\ (nothing_to_prune h t0 -> forall n, restored n -> Bucket undone n = Bucket t0 n)
  /\ (forall U, collision_free U -> writes U ∅ t0 -> writes U t0 t1 ->
        StateRoot undone = StateRoot (pruneCommits t0 h) /\ (nothing_to_prune h t0 -> StateRoot undone = StateRoot t0)).
Proof.
  intros h Ha Hh Hce Hd Hf E undone. destruct (Upgrade_bsteps now st t0 b t1 Ha Hh Hce Hf Hd E) as (u & Hs & ->).
  assert (Hb : forall n, restored n -> Bucket undone n = Bucket (pruneCommits t0 h) n) by (by apply unwind_buckets).
  assert (Hb0 : nothing_to_prune h t0 -> forall n, restored n -> Bucket undone n = Bucket t0 n).
  { intros Hno n Hn. rewrite Hb by done. by apply prune_nothing_bucket. }
  split; [exact Hb|]. split; [exact Hb0|]. intros U Hcf Hw0 Hw1. pose proof (ok_writes U Hcf _ _ (ok_empty U) Hw0) as Hok0.
  assert (Hok : ok U undone) by (apply ok_unwindHeight, (ok_writes U Hcf t0); done).
  split; [|intros Hno]; (eapply same_buckets_same_root; [exact Hcf|exact Hok| |]); [by apply ok_pruneCommits|exact Hb|exact Hok0|by apply Hb0].
Qed.

(** ** Reveals that state another height *)

(** C34 - A reveal that states another height than its block is not undone.
    The journal of consumed commitments is kept under the height the
    transaction states, which no check compares with the block's.  So when
    an effect stating height [r] is applied in a block at height [h <> r],
    whatever it does, unwinding height [h] does not bring back the
    commitment it consumed. *)
Theorem misdated_reveal_not_undone st cs bt t g tx t' g' from c h :
  is_u64 h -> is_u64 (tx_Height tx) -> tx_Height tx <> 0 -> tx_Height tx <> h -> c <> h -> tx_Type tx <> GenerateTx ->
  (forall k, at_height h k -> bGet t CommitSpentBucketName k = None) ->
  From tx = Ok from -> findCommit t from (revealHash tx) (tx_Height tx) = Some c ->
  handleTx st cs bt (t, g) tx = Ok (t', g') ->
  commit_at t from (revealHash tx) c = true
  /\ commit_at (unwindHeightTxn (pruneCommits t' h) h) from (revealHash tx) c = false.
Proof.
  intros Hh Hr Hz Hne Hch Hg Hsp Hfrom Hfind E. pose proof (findCommit_Some _ _ _ _ _ Hfind) as (Hw & H0 & Hc).
  split; [unfold commit_at; by apply bool_decide_eq_true|]. assert (Hcu : is_u64 c) by (unfold is_u64 in *; lia).
  assert (Hs : exists u, consumeReveal t tx = Ok u /\ same CommitBucketName u t' /\ same CommitSpentBucketName u t').
  { unfold handleTx in E. apply Z.eqb_neq in Hg. rewrite Hg in E.
    assert (V : forall u v gv gu, runValidate cs u tx bt gu = Ok (v, gv) -> same CommitBucketName u v /\ same CommitSpentBucketName u v).
    { intros u v gv gu Hv. split; [by eapply (outside_runValidate CommitBucketName)|by eapply (outside_runValidate CommitSpentBucketName)]. }
    destruct (tx_Type tx =? TransactTx); [|destruct (tx_Type tx =? DeployTx); [|done]]; open_ok E; destruct r0 as [v gv];
      apply V in Hr1 as [V1 V2]; exists r; (split; [done|]).
    - split; (eapply same_trans; [eassumption|]); [by eapply (outside_handleTransaction CommitBucketName)|by eapply (outside_handleTransaction CommitSpentBucketName)].
    - split; (eapply same_trans; [eassumption|]); [by eapply (outside_handleDeploy CommitBucketName)|by eapply (outside_handleDeploy CommitSpentBucketName)]. }
  destruct Hs as (u & Hu & Hs1 & Hs2). unfold consumeReveal in Hu. rewrite (proj2 (Z.eqb_neq _ _) Hz), Hfrom in Hu. open_ok Hu.
  injection Hr0 as <-. rewrite Hfind in Hu. injection Hu as <-.
  unfold commit_at. apply bool_decide_eq_false. rewrite unwind_commit_plain.
  - rewrite bGet_pruneCommits by done. destruct (decide _); [done|]. rewrite (Hs1 _), consumeCommit_cwrite, bGet_cwrite, decide_True by done. done.
  - intros kk Ha. rewrite bGet_pruneCommits by done. destruct (decide _); [done|].
    rewrite (Hs2 _), consumeCommit_cwrite, bGet_cwrite, decide_False by (done || intros [? _]; congruence). unfold journalConsumed.
    rewrite bGet_bPut, decide_False; [by apply Hsp|]. intros [_ <-]. apply at_height_other in Ha; [congruence|done|done].
  - intros Ha. apply at_height_other in Ha; [congruence|done|done].
Qed.

End Undo.

(** ** A payment undone, and one that is not *)

Module UndoBlockWitness.

#[local] Existing Instance prefix_hasher.
#[local] Existing Instance toy_libs.
#[local] Existing Instance toy_codec.
#[local] Existing Instance toy_slot_codec.
#[local] Existing Instance toy_slot_laws.
#[local] Existing Instance toy_toll.
#[local] Existing Instance RunWitness.engine.
#[local] Existing Instance LedgerWitness.receipts.
#[local] Existing Instance LedgerWitness.deps.
#[local] Existing Instance LedgerWitness.inflate.
#[local] Existing Instance LedgerWitness.merkle.
#[local] Existing Instance LedgerWitness.pow.
#[local] Existing Instance LedgerWitness.text.

Definition recording : State := {| st_Network := ZERONET; st_Archive := true |}.

(** No record of any height, and no commitment of height [h] or due for
    pruning there. *)
Definition untouched (h : Z) (t : Txn) : bool :=
  forallb (fun n => bool_decide (Bucket t n = ∅))
    [BalChangeSetBucketName; BalHistBucketName; ContractChangeSetBucketName; ContractHistBucketName; KeyChangeSetBucketName;
     CommitSpentBucketName; BeaconChangeSetBucketName]
  && forallb (fun kv => negb (has_prefix (PackUint64LE h) kv.1) && negb (below (h - CommitWindow) kv.1)) (map_to_list (Bucket t CommitBucketName)).

Lemma untouched_commit h t k v : untouched h t = true -> bGet t CommitBucketName k = Some v ->
  ~ at_height h k /\ below (h - CommitWindow) k = false.
Proof.
  intros [_ H]%andb_prop E. rewrite forallb_forall in H. specialize (H (k, v)). rewrite <-list_elem_of_In, elem_of_map_to_list in H. specialize (H E).
  cbn [fst] in H. apply andb_prop in H as [H1%negb_true_iff H2%negb_true_iff]. unfold at_height. split; [congruence|done].
Qed.

Lemma untouched_empty h t n k : untouched h t = true ->
  n ∈ [BalChangeSetBucketName; BalHistBucketName; ContractChangeSetBucketName; ContractHistBucketName; KeyChangeSetBucketName;
     CommitSpentBucketName; BeaconChangeSetBucketName] -> bGet t n k = None.
Proof.
  intros [H _]%andb_prop Hn. rewrite forallb_forall in H. apply list_elem_of_In, H, bool_decide_eq_true_1 in Hn. unfold bGet. by rewrite Hn.
Qed.

Lemma untouched_spent h t k : untouched h t = true -> bGet t CommitSpentBucketName k = None.
Proof. intros H. apply (untouched_empty h t _ k H). set_solver. Qed.

Lemma untouched_fresh h t : untouched h t = true -> fresh h t /\ nothing_to_prune h t.
Proof.
  intros H. pose proof (fun n k => untouched_empty h t n k H) as He. split.
  - split; [split|split|split|split|]; try (intros k _; apply He; set_solver); try (intros hn a [= <-]; apply He; set_solver).
    + intros k Hk. destruct (bGet t CommitBucketName k) eqn:E; [|done]. by destruct (untouched_commit h t k _ H E).
    + apply He. set_solver.
  - intros n k v [->| ->] E; [by destruct (untouched_commit h t k v H E)|]. rewrite He in E by set_solver. done.
Qed.

Lemma funded_untouched : untouched 6 LedgerWitness.funded = true.
Proof. vm_compute. reflexivity. Qed.

Definition dated_b (b : FullBlock) : bool :=
  forallb (fun tx => (tx_Height tx =? 0) || (tx_Height tx =? blockHeight b)) (b_Txs b) && bool_decide (NoDup (reveals (b_Txs b))).

Lemma dated_b_ok b : dated_b b = true -> dated b.
Proof.
  intros [H1 H2%bool_decide_eq_true_1]%andb_prop. rewrite forallb_forall in H1. split; [|done].
  intros tx Hin%list_elem_of_In. apply H1, orb_prop in Hin as [?%Z.eqb_eq|?%Z.eqb_eq]; auto.
Qed.

Lemma block_dated : dated_b LedgerWitness.block = true.
Proof. vm_compute. reflexivity. Qed.

Lemma block_height : blockHeight LedgerWitness.block = 6.
Proof. vm_compute. reflexivity. Qed.

Abbreviation applied := (Upgrade recording LedgerWitness.funded LedgerWitness.block).

Lemma recorded_ok : is_ok applied = true.
Proof. vm_compute. reflexivity. Qed.

(** Block 6 pays from alice's balance and reveals her commitment of height 5. *)
Lemma unwind_restores_block_witness :
  exists t1, applied = Ok t1 /\ forall n, restored n -> Bucket (unwindHeightTxn t1 6) n = Bucket LedgerWitness.funded n.
Proof.
  destruct (is_ok_Ok applied recorded_ok) as [t1 E]. exists t1. split; [exact E|].
  destruct (untouched_fresh _ _ funded_untouched) as [Hf Hn]. pose proof block_height as Hh.
  destruct (unwind_restores_block 1603497601000 recording LedgerWitness.funded LedgerWitness.block t1) as (_ & H & _).
  - reflexivity.
  - rewrite Hh. unfold is_u64, two64. lia.
  - exact (proj1 LedgerWitness.block_passes).
  - exact (dated_b_ok _ block_dated).
  - rewrite Hh. exact Hf.
  - exact E.
  - rewrite Hh in H. exact (H Hn).
Defined.

(** The same payment stating height 7. *)
Definition early : FullTx :=
  tx_set_Salt (LedgerWitness.sign (NewUnsignedTx ZERONET TransactTx 7 bob (Some 5) (Some (10 ^ 14)) [])) (replicate 16 (Zbyte 3)).

Abbreviation spent := (handleTx recording (Some (newChangeset 6)) 0 (LedgerWitness.funded, None) early).

Lemma spent_ok : is_ok spent && bool_decide (From early = Ok LedgerWitness.alice)
  && bool_decide (findCommit LedgerWitness.funded LedgerWitness.alice (revealHash early) 7 = Some 5) = true.
Proof. vm_compute. reflexivity. Qed.

Lemma misdated_reveal_not_undone_witness :
  exists t' g', spent = Ok (t', g') /\ commit_at LedgerWitness.funded LedgerWitness.alice (revealHash early) 5 = true
    /\ commit_at (unwindHeightTxn (pruneCommits t' 6) 6) LedgerWitness.alice (revealHash early) 5 = false.
Proof.
  pose proof spent_ok as H. apply andb_prop in H as [H H2]. apply andb_prop in H as [H H1].
  apply bool_decide_eq_true_1 in H1, H2. apply is_ok_Ok in H as [[t' g'] E]. exists t', g'. split; [exact E|].
  apply (misdated_reveal_not_undone recording (Some (newChangeset 6)) 0 LedgerWitness.funded None early t' g' LedgerWitness.alice 5 6).
  - unfold is_u64, two64. lia.
  - vm_compute. split; [discriminate|reflexivity].
  - discriminate.
  - discriminate.
  - discriminate.
  - discriminate.
  - intros k _. exact (untouched_spent 6 LedgerWitness.funded k funded_untouched).
  - exact H1.
  - exact H2.
  - exact E.
Defined.

(** A whole block at height 6 with that payment passes every check and is
    applied, and its undo loses the commitment. *)
Definition early_block : FullBlock :=
  let txs := NewTxTrie [LedgerWitness.reward; early] in
  let x := SetUncles (SetCoinbase (NewBareBlock ZERONET 6 1603497601000 (zeros 32) 9) LedgerWitness.alice) [] in
  let x := {| b_Header := h_set_roots (b_Header x) (ContentRoot txs []) (CalcWitnessRoot txs []); b_Txs := txs; b_Uncles := []; b_Commits := [] |} in
  RunWitness.ok_or x (ToSealed x (zeros 8)).

Example early_block_not_undone :
  (bool_decide (CheckError 1603497601000 early_block = Ok tt) && bool_decide (CheckBlockTxs LedgerWitness.funded early_block = Ok tt)
   && match Upgrade recording LedgerWitness.funded early_block with
      | Ok t => negb (commit_at (unwindHeightTxn t 6) LedgerWitness.alice (revealHash early) 5)
      | Err _ => false
      end) = true.
Proof. vm_compute. reflexivity. Qed.

End UndoBlockWitness.
