(* ===== verification/Snapshot.v ===== *)
(** * Sheets, snapshots and rebuilds

    ngtypes/sheet.go, state_snapshot.go, the initialisation and rebuild half
    of state.go, and scratch.go: exporting the state as a sheet, keeping
    snapshots, and rebuilding the state from a sheet or from the block store. *)

From S2P Require Import Prelude Params StateTrie Keys Contract Types Instances Tx Block BlockStore State StateCommit Journal Ledger.

(** ngtypes/address_balance.go, sheet.go *)
Record Balance := { bal_Address : Address; bal_Amount : Z }.
Record RegisteredKey := { rk_Address : Address; rk_Entry : bytes }.

Record Sheet := {
  sh_Network : Network;
  sh_Height : Z;
  sh_BlockHash : bytes;
  sh_Balances : list Balance;
  sh_Contracts : list Contract;
  sh_Keys : list RegisteredKey;
  sh_Beacon : bytes
}.

(** The beacon is left empty. *)
Definition NewSheet (network : Network) (height : Z) (blockHash : bytes) (balances : list Balance)
    (contracts : list Contract) (keys : list RegisteredKey) : Sheet :=
  {| sh_Network := network; sh_Height := height; sh_BlockHash := blockHash; sh_Balances := balances;
     sh_Contracts := contracts; sh_Keys := keys; sh_Beacon := [] |}.

Definition set_Beacon (s : Sheet) (v : bytes) : Sheet :=
  {| sh_Network := sh_Network s; sh_Height := sh_Height s; sh_BlockHash := sh_BlockHash s; sh_Balances := sh_Balances s;
     sh_Contracts := sh_Contracts s; sh_Keys := sh_Keys s; sh_Beacon := v |}.

(** RLP of a sheet. *)
Class SheetCodec := {
  rlp_Sheet : Sheet -> bytes;
  dec_Sheet : bytes -> option Sheet
}.

Section Snapshot.
Context `{HH : Hasher} `{SL : SigLibs} `{CD : Codec} `{SC : SlotCodec} `{RC : ReceiptCodec}
  `{DC : DepsCodec} `{IF : Inflate} `{ML : MerkleLib} `{VM_ : ContractVM} `{SHC : SheetCodec}.

(** ngtypes/sheet_genesis.go: no balances, no slots, no keys.  The
    package-level memo returns the value this function computes. *)
Definition GetGenesisSheet (network : Network) : res Sheet :=
  let! g := GetGenesisBlock network in
  Ok (NewSheet network 0 (Block_GetHash g) [] [] []).

(** ** The in-memory snapshots *)

Definition snapshotKey (height : Z) : bytes := be_bytes 8 height.

Definition snapshotRetention : Z := 16.

Record SnapshotManager := {
  heightToHash : gmap Z bytes;
  hashToSnapshot : gmap bytes Sheet
}.

Definition emptySnapshots : SnapshotManager := {| heightToHash := ∅; hashToSnapshot := ∅ |}.

(** encoding/hex. *)
Definition hex_digit (n : Z) : byte := Zbyte (if n <? 10 then 48 + n else 87 + n).

Definition hex_EncodeToString (b : bytes) : bytes :=
  b ≫= fun x => [hex_digit (byteZ x / 16); hex_digit (byteZ x mod 16)].

Definition pruneSnapshot (floor : Z) (sm : SnapshotManager) (e : Z * bytes) : SnapshotManager :=
  if e.1 <? floor then {| heightToHash := delete e.1 (heightToHash sm); hashToSnapshot := delete e.2 (hashToSnapshot sm) |}
  else sm.

Definition PutSnapshot (sm : SnapshotManager) (height : Z) (hash : bytes) (sheet : Sheet) : SnapshotManager :=
  let sm :=
    if snapshotRetention * BlockCheckRound <? height then
      foldl (pruneSnapshot (height - snapshotRetention * BlockCheckRound)) sm (map_to_list (heightToHash sm))
    else sm in
  let hexHash := hex_EncodeToString hash in
  {| heightToHash := <[height := hexHash]> (heightToHash sm); hashToSnapshot := <[hexHash := sheet]> (hashToSnapshot sm) |}.

Definition GetSnapshot (sm : SnapshotManager) (height : Z) (hash : bytes) : option Sheet :=
  match heightToHash sm !! height with
  | None => None
  | Some hexHash => if bool_decide (hexHash = hex_EncodeToString hash) then hashToSnapshot sm !! hexHash else None
  end.

Definition sm_GetSnapshotByHeight (sm : SnapshotManager) (height : Z) : option Sheet :=
  match heightToHash sm !! height with
  | None => None
  | Some hexHash => hashToSnapshot sm !! hexHash
  end.

Definition GetSnapshotByHash (sm : SnapshotManager) (hash : bytes) : option Sheet :=
  hashToSnapshot sm !! hex_EncodeToString hash.

(** ** Exporting the state *)

Definition dumpContract (txn : Txn) (kv : bytes * bytes) : res Contract := getContract txn (to_array 32 kv.1).

Definition dumpBalance (kv : bytes * bytes) : res Balance :=
  let! addr := Address_SetBytes kv.1 in
  Ok {| bal_Address := addr; bal_Amount := be_Z kv.2 |}.

Definition dumpKey (kv : bytes * bytes) : RegisteredKey := {| rk_Address := to_array 32 kv.1; rk_Entry := kv.2 |}.

Definition DumpSheetAt (network : Network) (txn : Txn) (height : Z) (blockHash : bytes) : res Sheet :=
  let! contracts := mapM_res (dumpContract txn) (cursor (Bucket txn ContractBucketName)) in
  let! balances := mapM_res dumpBalance (cursor (Bucket txn Addr2BalBucketName)) in
  let keys := dumpKey <$> cursor (Bucket txn KeyRegistryBucketName) in
  let sheet := NewSheet network height blockHash balances contracts keys in
  Ok (match bGet txn BeaconBucketName BeaconStateKey with Some v => set_Beacon sheet v | None => sheet end).

Definition DumpSheetTxn (network : Network) (txn : Txn) : res Sheet :=
  let! latestBlock := GetLatestBlock (Bucket txn BlockBucketName) in
  DumpSheetAt network txn (blockHeight latestBlock) (Block_GetHash latestBlock).

(** Keys are big-endian heights, so the cursor stops at the first survivor;
    a key is always eight bytes. *)
Fixpoint pruneStored (floor : Z) (txn : Txn) (keys : list bytes) : Txn :=
  match keys with
  | [] => txn
  | k :: rest => if be_Z (take 8 k) <? floor then pruneStored floor (bDelete txn SnapshotBucketName k) rest else txn
  end.

(** The manager keeps the sheet even when the transaction is rolled back. *)
Definition PutSnapshotTxn (sm : SnapshotManager) (txn : Txn) (sheet : Sheet) : SnapshotManager * Txn :=
  let sm := PutSnapshot sm (sh_Height sheet) (sh_BlockHash sheet) sheet in
  let txn := bPut txn SnapshotBucketName (snapshotKey (sh_Height sheet)) (rlp_Sheet sheet) in
  let txn :=
    if snapshotRetention * BlockCheckRound <? sh_Height sheet then
      pruneStored (sh_Height sheet - snapshotRetention * BlockCheckRound) txn (cursor (Bucket txn SnapshotBucketName)).*1
    else txn in
  (sm, txn).

Definition GenerateSnapshotTxn (state : State) (sm : SnapshotManager) (txn : Txn) : SnapshotManager * res Txn :=
  match DumpSheetTxn (st_Network state) txn with
  | Err e => (sm, Err e)
  | Ok sheet => let '(sm, txn) := PutSnapshotTxn sm txn sheet in (sm, Ok txn)
  end.

(** The last stored snapshot at or below the height. *)
Fixpoint nearestOlder (height : Z) (candidate : option bytes) (entries : list (bytes * bytes)) : option bytes :=
  match entries with
  | [] => candidate
  | (k, v) :: rest => if be_Z (take 8 k) <=? height then nearestOlder height (Some v) rest else candidate
  end.

Definition GetSnapshotByHeight (state : State) (sm : SnapshotManager) (txn : Txn) (height : Z) : res (Sheet * SnapshotManager) :=
  if height =? 0 then let! s := GetGenesisSheet (st_Network state) in Ok (s, sm)
  else
    match sm_GetSnapshotByHeight sm height with
    | Some sheet => Ok (sheet, sm)
    | None =>
        let raw := match bGet txn SnapshotBucketName (snapshotKey height) with
                   | Some raw => Some raw
                   | None => nearestOlder height None (cursor (Bucket txn SnapshotBucketName))
                   end in
        match raw ≫= dec_Sheet with
        | Some sheet => Ok (sheet, PutSnapshot sm (sh_Height sheet) (sh_BlockHash sheet) sheet)
        | None => let! s := GetGenesisSheet (st_Network state) in Ok (s, sm)
        end
    end.

(** ** Importing a sheet *)

Definition putBalance (txn : Txn) (b : Balance) : Txn :=
  bPut txn Addr2BalBucketName (vec_to_list (bal_Address b)) (big_Bytes (bal_Amount b)).

Definition putKey (txn : Txn) (k : RegisteredKey) : Txn :=
  bPut txn KeyRegistryBucketName (vec_to_list (rk_Address k)) (rk_Entry k).

Definition initFromSheet (txn : Txn) (sheet : Sheet) : res Txn :=
  let! txn := res_fold (fun txn account => setContract txn None account) txn (sh_Contracts sheet) in
  let txn := foldl putBalance txn (sh_Balances sheet) in
  let txn := foldl putKey txn (sh_Keys sheet) in
  Ok (if negb (zlen (sh_Beacon sheet) =? 0) then bPut txn BeaconBucketName BeaconStateKey (sh_Beacon sheet) else txn).

Definition sheet_buckets : list BucketName :=
  [Addr2BalBucketName; ContractBucketName; CodeBucketName; KeyRegistryBucketName; CommitBucketName;
   CommitSpentBucketName; BeaconBucketName; BeaconChangeSetBucketName; BalChangeSetBucketName;
   ContractChangeSetBucketName; KeyChangeSetBucketName; BalHistBucketName; ContractHistBucketName].

Definition replay_buckets : list BucketName :=
  [Addr2BalBucketName; ContractBucketName; CodeBucketName; KeyRegistryBucketName; CommitBucketName;
   CommitSpentBucketName; ReceiptBucketName; BeaconBucketName; BeaconChangeSetBucketName; BalChangeSetBucketName;
   ContractChangeSetBucketName; KeyChangeSetBucketName; BalHistBucketName; ContractHistBucketName].

(** [DeleteBucket] then [CreateBucket]. *)
Definition clearBuckets (txn : Txn) (names : list BucketName) : Txn :=
  foldl (fun txn n => setBucket txn n ∅) txn names.

Definition RebuildFromSheetTxn (txn : Txn) (sheet : Sheet) : res Txn :=
  let txn := clearBuckets txn sheet_buckets in
  let! txn := initFromSheet txn sheet in
  RebuildTrie txn.

(** ** Rebuilding from the block store *)

Definition replayBlock (state : State) (txn : Txn) (h : Z) : res Txn :=
  let! b := GetBlockByHeight (Bucket txn BlockBucketName) h in
  applyBlock state txn b.

Definition RebuildFromBlockStoreTxn (state : State) (txn : Txn) : res Txn :=
  let txn := clearBuckets txn replay_buckets in
  let! genesis := GetGenesisSheet (st_Network state) in
  let! txn := initFromSheet txn genesis in
  let! txn := RebuildTrie txn in
  let! latestHeight := GetLatestHeight (Bucket txn BlockBucketName) in
  res_fold (replayBlock state) txn (heights 0 latestHeight).

(** A seeded database is left alone. *)
Definition InitStateFromGenesis (state : State) (txn : Txn) : res Txn :=
  if negb (bool_decide (Bucket txn Addr2BalBucketName = ∅)) then Ok txn
  else
    let! sheet := GetGenesisSheet (st_Network state) in
    let! txn := initFromSheet txn sheet in
    let! genesis := GetGenesisBlock (st_Network state) in
    Upgrade state txn genesis.

Definition BackfillArchive (state : State) (txn : Txn) : res (bool * Txn) :=
  if negb (st_Archive state) then Ok (false, txn)
  else
    let! tip := GetLatestHeight (Bucket txn BlockBucketName) in
    let! origin := GetOriginHeight (Bucket txn BlockBucketName) in
    if (origin =? 0) && (0 <? tip) && negb (changesetCovers txn 1) then
      let! txn := RebuildFromBlockStoreTxn state txn in
      Ok (true, txn)
    else Ok (false, txn).

(** scratch.go: the state at a height, in a database of its own; [live] is
    the node's. *)
Definition scratchBlock (scratch : State) (live : Txn) (stxn : Txn) (h : Z) : res Txn :=
  let! block := GetBlockByHeight (Bucket live BlockBucketName) h in
  Upgrade scratch stxn block.

Definition ReconstructAt (state : State) (sm : SnapshotManager) (live : Txn) (height : Z) : res Txn :=
  let! tip := GetLatestHeight (Bucket live BlockBucketName) in
  reject tip <? height with ErrHeightAboveTip ;
  let! (sheet, _) := GetSnapshotByHeight state sm live height in
  let! stxn := initFromSheet ∅ sheet in
  res_fold (scratchBlock {| st_Network := st_Network state; st_Archive := false |} live) stxn
    (heights (sh_Height sheet + 1) height).

End Snapshot.
