(* ===== verification/SheetProps.v ===== *)
(** * What a sheet carries

    Exporting a state as a sheet and importing it elsewhere: balances,
    contracts, keys and the beacon come back as they were, and with them the
    state root; pending commitments do not. *)

From S2P Require Import Prelude Params StateTrie Keys Contract Types Instances Tx Block BlockStore State StateCommit Journal VMToy VMProps Ledger Supply Spending LedgerProps Snapshot.

(** ** Refilling a bucket *)

Lemma refill_lookup (l : list (bytes * bytes)) : forall (m : bucket) k, NoDup l.*1 ->
  foldl (fun m kv => <[kv.1 := kv.2]> m) m l !! k
  = match (list_to_map l : bucket) !! k with Some v => Some v | None => m !! k end.
Proof.
  induction l as [|[x v] l IH]; intros m k Hnd; [done|]. cbn [fmap list_fmap fst] in Hnd. apply NoDup_cons in Hnd as [Hx Hnd].
  cbn [foldl list_to_map foldr fst snd]. rewrite IH by done. destruct (decide (k = x)) as [->|Hne].
  - rewrite not_elem_of_list_to_map_1 by done. by rewrite lookup_insert_eq, lookup_insert_eq.
  - rewrite !lookup_insert_ne by done. done.
Qed.

Lemma refill (b : bucket) : foldl (fun m kv => <[kv.1 := kv.2]> m) ∅ (cursor b) = b.
Proof.
  apply map_eq. intros k. rewrite refill_lookup by apply NoDup_cursor_keys.
  destruct (b !! k) as [v|] eqn:E.
  - rewrite (elem_of_list_to_map_1 _ k v); [done|apply NoDup_cursor_keys|by apply elem_of_cursor].
  - rewrite not_elem_of_list_to_map_1; [done|]. intros ([k' v] & -> & Hin)%list_elem_of_fmap.
    apply elem_of_cursor in Hin. cbn in E. congruence.
Qed.

Lemma mapM_res_Ok {A B} (f : A -> res B) (g : A -> B) l : (forall x, x ∈ l -> f x = Ok (g x)) -> mapM_res f l = Ok (g <$> l).
Proof.
  induction l as [|x l IH]; intros H; [done|]. cbn. rewrite H by left. cbn. rewrite IH; [done|]. intros y Hy. apply H. by right.
Qed.

Section Sheets.
Context `{HH : Hasher} `{SL : SigLibs} `{CD : Codec} `{SC : SlotCodec} `{!SlotCodecLaws} `{RC : ReceiptCodec}
  `{DC : DepsCodec} `{IF : Inflate} `{ML : MerkleLib} `{VM_ : ContractVM} `{SHC : SheetCodec}.

(** A stored slot: it re-encodes to itself, sits under its owner, and its
    code is registered under its hash. *)
Definition slot_sound (t : Txn) (k raw : bytes) (sc : storedContract) : Prop :=
  dec_storedContract raw = Some sc /\ rlp_storedContract sc = raw /\ vec_to_list (sc_Owner sc) = k
  /\ Hash256 (loadCode t (sc_CodeHash sc)) = sc_CodeHash sc.

Definition slots_sound (t : Txn) : Prop :=
  forall k raw, bGet t ContractBucketName k = Some raw -> exists sc, slot_sound t k raw sc.

(** The contract a slot entry is exported as. *)
Definition exported (t : Txn) (kv : bytes * bytes) : Contract :=
  match dec_storedContract kv.2 with
  | Some sc => {| Owner := sc_Owner sc; Source := loadCode t (sc_CodeHash sc); Context' := sc_Context sc |}
  | None => NewContract zeroAddress [] None
  end.

Lemma dumpContract_ok t kv : slots_sound t -> bGet t ContractBucketName kv.1 = Some kv.2 -> dumpContract t kv = Ok (exported t kv).
Proof.
  intros Hs E. destruct (Hs _ _ E) as (sc & Hd & _ & Hk & _). unfold dumpContract, getContract, exported.
  rewrite <-Hk, to_array_vec, Hk, E. unfold decodeStoredContract. by rewrite Hd.
Qed.

(** *** The registered code *)

Definition codes_sound (u : Txn) : Prop :=
  forall h e, bGet u CodeBucketName h = Some e -> exists r code, e = PackUint64LE r ++ code /\ Hash256 code = h.

Lemma loadCode_entry u h r code : bGet u CodeBucketName h = Some (PackUint64LE r ++ code) -> loadCode u h = code.
Proof.
  intros E. unfold loadCode. rewrite E. rewrite length_app, length_PackUint64LE. cbn [Nat.ltb Nat.leb Nat.add].
  apply drop8_Pack.
Qed.

(** Registering one slot: what it writes. *)
Lemma retainCode_fresh u code : codes_sound u ->
  exists u', retainCode u (Hash256 code) code = Ok u' /\ codes_sound u'
    /\ is_Some (bGet u' CodeBucketName (Hash256 code))
    /\ (forall h, is_Some (bGet u CodeBucketName h) -> is_Some (bGet u' CodeBucketName h))
    /\ (forall n, n <> CodeBucketName -> Bucket u' n = Bucket u n).
Proof.
  intros Hc. unfold retainCode.
  assert (G : forall r code', Hash256 code' = Hash256 code ->
    let u' := bPut u CodeBucketName (Hash256 code) (PackUint64LE r ++ code') in
    codes_sound u' /\ is_Some (bGet u' CodeBucketName (Hash256 code))
    /\ (forall h, is_Some (bGet u CodeBucketName h) -> is_Some (bGet u' CodeBucketName h))
    /\ (forall n, n <> CodeBucketName -> Bucket u' n = Bucket u n)).
  { intros r code' Hh u'. unfold u'. split_and!.
    - intros h e. rewrite bGet_bPut. destruct (decide _) as [[_ <-]|]; [|apply Hc]. intros [= <-]. eauto.
    - rewrite bGet_bPut, decide_True by done. eauto.
    - intros h [e He]. rewrite bGet_bPut. destruct (decide _); eauto.
    - intros n Hn. unfold bPut. by rewrite Bucket_setBucket, decide_False. }
  destruct (bGet u CodeBucketName (Hash256 code)) as [e|] eqn:E.
  - destruct (Hc _ _ E) as (r & code' & -> & Hh). unfold read_u64. rewrite length_app, length_PackUint64LE.
    cbn [Nat.ltb Nat.leb Nat.add res_bind]. rewrite drop8_Pack. eexists. split; [done|]. by apply G.
  - eexists. split; [done|]. by apply G.
Qed.

(** *** Importing the contracts *)

Definition keep (n : BucketName) (u u' : Txn) : Prop :=
  n <> CodeBucketName -> n <> ContractBucketName -> n <> StateTrieBucketName -> Bucket u' n = Bucket u n.

Lemma setContract_import t u kv : slots_sound t -> bGet t ContractBucketName kv.1 = Some kv.2 ->
  codes_sound u -> bGet u ContractBucketName kv.1 = None ->
  exists u', setContract u None (exported t kv) = Ok u' /\ codes_sound u'
    /\ Bucket u' ContractBucketName = <[kv.1 := kv.2]> (Bucket u ContractBucketName)
    /\ is_Some (bGet u' CodeBucketName (Hash256 (Source (exported t kv))))
    /\ (forall h, is_Some (bGet u CodeBucketName h) -> is_Some (bGet u' CodeBucketName h))
    /\ (forall n, keep n u u').
Proof.
  intros Hs E Hc Hnone. destruct (Hs _ _ E) as (sc & Hd & Hr & Hk & Hh). unfold exported. rewrite Hd.
  unfold setContract. cbn [Owner Source Context' recordContract]. unfold reconcileCode. rewrite Hk, Hnone.
  destruct (retainCode_fresh u (loadCode t (sc_CodeHash sc)) Hc) as (u1 & -> & Hc1 & Hi1 & Hk1 & Hb1). cbn [res_bind].
  set (raw := rlp_storedContract _). assert (raw = kv.2) as -> by (unfold raw; rewrite Hh, <-Hr; by destruct sc).
  set (u2 := bPut u1 ContractBucketName kv.1 kv.2).
  assert (H2 : forall n, n <> StateTrieBucketName -> Bucket (trieSetContract u2 (sc_Owner sc) kv.2) n = Bucket u2 n).
  { intros n Hn. apply Bucket_ext. intros k. by apply bGet_trieSetLeaf. }
  assert (Hcode : forall h, bGet (trieSetContract u2 (sc_Owner sc) kv.2) CodeBucketName h = bGet u1 CodeBucketName h).
  { intros h. unfold bGet. rewrite H2 by done. unfold u2, bPut. by rewrite Bucket_setBucket, decide_False. }
  eexists. split; [done|]. split_and!.
  - intros h e. rewrite Hcode. apply Hc1.
  - rewrite H2 by done. unfold u2, bPut. rewrite Bucket_setBucket, decide_True by done. by rewrite Hb1.
  - by rewrite Hcode.
  - intros h Hsome. rewrite Hcode. by apply Hk1.
  - intros n N1 N2 N3. rewrite H2 by done. unfold u2, bPut. rewrite Bucket_setBucket, decide_False by done. by apply Hb1.
Qed.

Lemma import_contracts t l : slots_sound t -> (forall kv, kv ∈ l -> bGet t ContractBucketName kv.1 = Some kv.2) -> NoDup l.*1 ->
  forall u, codes_sound u -> (forall kv, kv ∈ l -> bGet u ContractBucketName kv.1 = None) ->
  exists u', res_fold (fun txn account => setContract txn None account) u (exported t <$> l) = Ok u' /\ codes_sound u'
    /\ Bucket u' ContractBucketName = foldl (fun m kv => <[kv.1 := kv.2]> m) (Bucket u ContractBucketName) l
    /\ (forall kv, kv ∈ l -> is_Some (bGet u' CodeBucketName (Hash256 (Source (exported t kv)))))
    /\ (forall h, is_Some (bGet u CodeBucketName h) -> is_Some (bGet u' CodeBucketName h))
    /\ (forall n, keep n u u').
Proof.
  intros Hs. induction l as [|kv l IH]; intros Hin Hnd u Hc Hnone.
  { exists u. split_and!; try done. set_solver. }
  cbn [fmap list_fmap] in Hnd. apply NoDup_cons in Hnd as [Hx Hnd].
  destruct (setContract_import t u kv Hs (Hin kv ltac:(left)) Hc (Hnone kv ltac:(left))) as (u1 & E1 & Hc1 & Hb1 & Hi1 & Hk1 & Hf1).
  destruct (IH (fun kv' H => Hin kv' ltac:(by right)) Hnd u1 Hc1) as (u2 & E2 & Hc2 & Hb2 & Hi2 & Hk2 & Hf2).
  { intros kv' Hkv. unfold bGet. rewrite Hb1, lookup_insert_ne; [apply (Hnone kv'); by right|].
    intros E. apply Hx. rewrite E. by apply list_elem_of_fmap_2. }
  exists u2. cbn [fmap list_fmap res_fold]. rewrite E1. cbn [res_bind]. split_and!; try done.
  - cbn [foldl]. by rewrite Hb2, Hb1.
  - intros kv' [->|Hkv]%elem_of_cons; [by apply Hk2|by apply Hi2].
  - auto.
  - intros n N1 N2 N3. rewrite Hf2, Hf1; done.
Qed.

(** *** Importing the rest *)

Lemma import_plain {A} (n : BucketName) (key value : A -> bytes) (l : list A) : forall u,
  Bucket (foldl (fun u x => bPut u n (key x) (value x)) u l) n
  = foldl (fun m kv => <[kv.1 := kv.2]> m) (Bucket u n) ((fun x => (key x, value x)) <$> l)
  /\ forall m, m <> n -> Bucket (foldl (fun u x => bPut u n (key x) (value x)) u l) m = Bucket u m.
Proof.
  induction l as [|x l IH]; intros u; [done|]. cbn [foldl fmap list_fmap fst snd].
  destruct (IH (bPut u n (key x) (value x))) as [E F]. rewrite E. unfold bPut. rewrite Bucket_setBucket, decide_True by done.
  split; [done|]. intros m Hm. unfold bPut in F. by rewrite F, Bucket_setBucket, decide_False by done.
Qed.

Lemma dumpBalance_ok U t kv : wf_txn U t -> bGet t Addr2BalBucketName kv.1 = Some kv.2 ->
  dumpBalance kv = Ok {| bal_Address := to_array 32 kv.1; bal_Amount := be_Z kv.2 |}
  /\ vec_to_list (to_array 32 kv.1) = kv.1 /\ big_Bytes (be_Z kv.2) = kv.2.
Proof.
  intros Hw E. destruct (Hw _ _ _ E) as [[Hl Hv] _]. split_and!; [|by apply to_array_list|done].
  unfold dumpBalance, Address_SetBytes, zlen. by rewrite Hl.
Qed.

(** The sheet of a sound state. *)
Definition sheet_of (network : Network) (t : Txn) (height : Z) (blockHash : bytes) : Sheet :=
  {| sh_Network := network; sh_Height := height; sh_BlockHash := blockHash;
     sh_Balances := (fun kv => {| bal_Address := to_array 32 kv.1; bal_Amount := be_Z kv.2 |}) <$> cursor (Bucket t Addr2BalBucketName);
     sh_Contracts := exported t <$> cursor (Bucket t ContractBucketName);
     sh_Keys := dumpKey <$> cursor (Bucket t KeyRegistryBucketName);
     sh_Beacon := default [] (bGet t BeaconBucketName BeaconStateKey) |}.

Lemma DumpSheetAt_ok U network t h hash : wf_txn U t -> slots_sound t -> DumpSheetAt network t h hash = Ok (sheet_of network t h hash).
Proof.
  intros Hw Hs. unfold DumpSheetAt.
  rewrite (mapM_res_Ok (dumpContract t) (exported t)) by (intros [k v] Hin; apply dumpContract_ok; [done|by apply elem_of_cursor]).
  cbn [res_bind]. rewrite (mapM_res_Ok dumpBalance (fun kv => {| bal_Address := to_array 32 kv.1; bal_Amount := be_Z kv.2 |})).
  - cbn [res_bind]. unfold sheet_of. by destruct (bGet t BeaconBucketName BeaconStateKey).
  - intros [k v] Hin. eapply dumpBalance_ok; [exact Hw|by apply elem_of_cursor].
Qed.

Lemma Bucket_clear names : forall t n, Bucket (clearBuckets t names) n = if decide (n ∈ names) then ∅ else Bucket t n.
Proof.
  unfold clearBuckets. induction names as [|m names IH]; intros t n; [done|]. cbn [foldl]. rewrite IH.
  destruct (decide (n ∈ names)) as [Hin|Hn]; [by rewrite decide_True by (by right)|]. rewrite Bucket_setBucket.
  destruct (decide (m = n)) as [->|Hm]; [by rewrite decide_True by left|]. by rewrite decide_False by set_solver.
Qed.

(** What an import leaves: the four exported buckets, and nothing pending or
    recorded. *)
Record imported (t u : Txn) : Prop := {
  im_same : forall n, n ∈ [Addr2BalBucketName; ContractBucketName; KeyRegistryBucketName; BeaconBucketName] -> Bucket u n = Bucket t n;
  im_empty : forall n, n ∈ [CommitBucketName; CommitSpentBucketName; BeaconChangeSetBucketName; BalChangeSetBucketName;
                             ContractChangeSetBucketName; KeyChangeSetBucketName] -> Bucket u n = ∅;
  im_codes : codes_sound u;
  im_code : forall kv, bGet t ContractBucketName kv.1 = Some kv.2 -> is_Some (bGet u CodeBucketName (Hash256 (Source (exported t kv))))
}.

Lemma beacon_bucket U t : wf_txn U t ->
  Bucket t BeaconBucketName = match bGet t BeaconBucketName BeaconStateKey with Some v => {[BeaconStateKey := v]} | None => ∅ end
  /\ bGet t BeaconBucketName BeaconStateKey <> Some [].
Proof.
  intros Hw. split; [|intros E; by destruct (Hw _ _ _ E) as [[_ ?] _]]. apply map_eq. intros k.
  fold (bGet t BeaconBucketName k). destruct (bGet t BeaconBucketName k) as [v|] eqn:E.
  - destruct (Hw _ _ _ E) as [[-> _] _]. rewrite E. by rewrite lookup_singleton_eq.
  - destruct (decide (k = BeaconStateKey)) as [->|Hne]; [by rewrite E|].
    destruct (bGet t BeaconBucketName BeaconStateKey); [by rewrite lookup_singleton_ne|done].
Qed.

Lemma import_beacon u (v : bytes) : Bucket u BeaconBucketName = ∅ ->
  let u' := if negb (zlen v =? 0) then bPut u BeaconBucketName BeaconStateKey v else u in
  Bucket u' BeaconBucketName = match v with [] => ∅ | _ => {[BeaconStateKey := v]} end
  /\ forall n, n <> BeaconBucketName -> Bucket u' n = Bucket u n.
Proof.
  intros He. destruct v as [|x v]; [done|]. change (negb (zlen (x :: v) =? 0)) with true. cbv zeta iota. unfold bPut. split.
  - by rewrite Bucket_setBucket, decide_True, He.
  - intros n Hn. by rewrite Bucket_setBucket, decide_False.
Qed.

Lemma initFromSheet_ok U network t t0 h hash : wf_txn U t -> slots_sound t ->
  exists u, initFromSheet (clearBuckets t0 sheet_buckets) (sheet_of network t h hash) = Ok u /\ imported t u.
Proof.
  intros Hw Hs. set (u0 := clearBuckets t0 sheet_buckets).
  assert (H0 : forall n, n ∈ sheet_buckets -> Bucket u0 n = ∅) by (intros n Hn; unfold u0; by rewrite Bucket_clear, decide_True).
  assert (G0 : forall n k, n ∈ sheet_buckets -> bGet u0 n k = None) by (intros n k Hn; unfold bGet; by rewrite H0).
  assert (Hmem : forall n, bool_decide (n ∈ sheet_buckets) = true -> n ∈ sheet_buckets) by (intros n; apply bool_decide_eq_true).
  destruct (import_contracts t (cursor (Bucket t ContractBucketName)) Hs) with (u := u0)
    as (u1 & E1 & Hc1 & Hb1 & Hi1 & _ & Hf1).
  { intros [k v]. apply elem_of_cursor. }
  { apply NoDup_cursor_keys. }
  { intros k e. by rewrite G0 by (by apply Hmem). }
  { intros kv _. by apply G0, Hmem. }
  rewrite H0, refill in Hb1 by (by apply Hmem).
  unfold initFromSheet, sheet_of. cbn [sh_Contracts sh_Balances sh_Keys sh_Beacon]. rewrite E1. cbn [res_bind]. eexists. split; [done|].
  destruct (import_plain Addr2BalBucketName (fun b => vec_to_list (bal_Address b)) (fun b => big_Bytes (bal_Amount b))
    ((fun kv => {| bal_Address := to_array 32 kv.1; bal_Amount := be_Z kv.2 |}) <$> cursor (Bucket t Addr2BalBucketName)) u1) as [E2 F2].
  fold putBalance in E2, F2. set (u2 := foldl putBalance u1 _) in *.
  destruct (import_plain KeyRegistryBucketName (fun k => vec_to_list (rk_Address k)) rk_Entry
    (dumpKey <$> cursor (Bucket t KeyRegistryBucketName)) u2) as [E3 F3].
  fold putKey in E3, F3. set (u3 := foldl putKey u2 _) in *.
  assert (B2 : Bucket u2 Addr2BalBucketName = Bucket t Addr2BalBucketName).
  { rewrite E2, <-list_fmap_compose, Hf1, H0 by (done || by apply Hmem). rewrite <-(refill (Bucket t Addr2BalBucketName)) at 2. f_equal.
    rewrite <-(list_fmap_id (cursor _)) at 2. apply list_fmap_ext. intros i [k v] Hi. unfold compose. cbn [bal_Address bal_Amount fst snd id].
    apply list_elem_of_lookup_2, elem_of_cursor in Hi. destruct (dumpBalance_ok U t (k, v) Hw Hi) as (_ & Ek & Ev).
    cbn [fst snd] in *. by rewrite Ek, Ev. }
  assert (B3 : Bucket u3 KeyRegistryBucketName = Bucket t KeyRegistryBucketName).
  { rewrite E3, <-list_fmap_compose, F2, Hf1, H0 by (done || by apply Hmem). rewrite <-(refill (Bucket t KeyRegistryBucketName)) at 2. f_equal.
    rewrite <-(list_fmap_id (cursor _)) at 2. apply list_fmap_ext. intros i [k v] Hi. unfold compose, dumpKey. cbn [rk_Address rk_Entry fst snd id].
    apply list_elem_of_lookup_2, elem_of_cursor, Hw in Hi as [[Hl _] _]. by rewrite to_array_list. }
  destruct (import_beacon u3 (default [] (bGet t BeaconBucketName BeaconStateKey))) as [B4 F4].
  { by rewrite F3, F2, Hf1, H0 by (done || by apply Hmem). }
  set (u4 := if negb _ then _ else u3) in *. destruct (beacon_bucket U t Hw) as [Eb Hne].
  assert (B5 : Bucket u4 BeaconBucketName = Bucket t BeaconBucketName).
  { rewrite B4, Eb. by destruct (bGet t BeaconBucketName BeaconStateKey) as [[|x v]|]. }
  assert (C4 : forall k, bGet u4 CodeBucketName k = bGet u1 CodeBucketName k) by (intros k; unfold bGet; by rewrite F4, F3, F2).
  split.
  - intros n. rewrite !elem_of_cons, elem_of_nil. intros [->|[->|[->|[->|[]]]]]; [|by rewrite F4, F3, F2|by rewrite F4|done].
    by rewrite F4, F3.
  - intros n. rewrite !elem_of_cons, elem_of_nil.
    intros [->|[->|[->|[->|[->|[->|[]]]]]]]; rewrite F4, F3, F2, Hf1 by done; by apply H0, Hmem.
  - intros k e. rewrite C4. apply Hc1.
  - intros [k v] Hk. rewrite C4. by apply Hi1, elem_of_cursor.
Qed.

Lemma imported_wf U t u : wf_txn U t -> imported t u -> wf_txn U u.
Proof.
  intros Hw [Hs He _ _] n k v E. unfold bGet in E.
  destruct (decide (n ∈ [Addr2BalBucketName; ContractBucketName; KeyRegistryBucketName; BeaconBucketName])) as [Hin|Hn].
  { rewrite Hs in E by done. by apply Hw. }
  destruct (decide (n ∈ [CommitBucketName; CommitSpentBucketName; BeaconChangeSetBucketName; BalChangeSetBucketName;
                          ContractChangeSetBucketName; KeyChangeSetBucketName])) as [Hin|Hn'].
  { by rewrite He in E. }
  destruct n; try done; exfalso; (apply Hn; by apply (bool_decide_unpack _)) || (apply Hn'; by apply (bool_decide_unpack _)).
Qed.

(** C30 - Snapshots restore the committed state.  Exporting any sound state
    and importing the sheet into any database succeeds; balances, contract
    slots, registered keys and the beacon are then the same entry for entry,
    every contract reads back with its owner, storage and (up to a collision
    of the hash) its code, and when no commitment was pending the rebuilt
    state root is the exporter's. *)
Theorem sheet_roundtrip U network t t0 h hash :
  collision_free U -> ok U t -> slots_sound t ->
  exists sheet t', DumpSheetAt network t h hash = Ok sheet /\ RebuildFromSheetTxn t0 sheet = Ok t'
    /\ (forall n, n ∈ [Addr2BalBucketName; ContractBucketName; KeyRegistryBucketName; BeaconBucketName] -> Bucket t' n = Bucket t n)
    /\ (forall a acc, getContract t a = Ok acc -> exists acc', getContract t' a = Ok acc' /\ Owner acc' = Owner acc
          /\ Context' acc' = Context' acc /\ (Source acc' = Source acc \/ is_collision (Source acc', Source acc)))
    /\ (Bucket t CommitBucketName = ∅ -> StateRoot t' = StateRoot t).
Proof.
  intros Hcf [Hw [Hr Hc]] Hs. exists (sheet_of network t h hash).
  destruct (initFromSheet_ok U network t t0 h hash Hw Hs) as (u & Eu & Hi).
  destruct (RebuildTrie_ok U Hcf u (imported_wf U t u Hw Hi)) as (s & Es & Hrs & Hcs).
  eexists. split; [by eapply DumpSheetAt_ok|]. unfold RebuildFromSheetTxn. cbv zeta. rewrite Eu. cbn [res_bind]. split; [exact Es|].
  set (t' := setBucket _ _ _). 
  assert (Hb : forall n, n <> StateTrieBucketName -> Bucket t' n = Bucket u n).
  { intros n Hn. unfold t'. by rewrite !Bucket_setBucket, !decide_False. }
  split_and!.
  - intros n Hn. rewrite Hb; [by apply (im_same _ _ Hi)|]. intros ->. revert Hn. by apply (bool_decide_unpack _).
  - intros a acc Ha. unfold getContract in *. fold (bGet t' ContractBucketName (vec_to_list a)).
    assert (bGet t' ContractBucketName (vec_to_list a) = bGet t ContractBucketName (vec_to_list a)) as ->.
    { unfold bGet. by rewrite Hb, (im_same _ _ Hi) by (done || by apply (bool_decide_unpack _)). }
    destruct (bGet t ContractBucketName (vec_to_list a)) as [raw|] eqn:Eraw; [|done].
    destruct (Hs _ _ Eraw) as (sc & Hd & _ & _ & Hh). unfold decodeStoredContract in *. rewrite Hd in *. injection Ha as <-.
    eexists. split; [done|]. cbn [Owner Context' Source]. split; [done|]. split; [done|]. apply Hash256_eq_or_collision. rewrite Hh.
    destruct (im_code _ _ Hi (vec_to_list a, raw) Eraw) as [e He]. unfold exported in He. cbn [snd] in He. rewrite Hd in He.
    cbn [Source] in He. rewrite Hh in He. destruct (im_codes _ _ Hi _ _ He) as (r & code & -> & Hcode).
    rewrite (loadCode_entry t' _ r code); [done|]. unfold bGet. by rewrite Hb.
  - intros Hcm. unfold StateRoot, newNodeStore. f_equal. f_equal. apply map_eq. intros k.
    change (ns_Get (newNodeStore t') k = ns_Get (newNodeStore t) k).
    assert (newNodeStore t' = s) as -> by (unfold newNodeStore, t'; rewrite Bucket_setBucket, decide_True by done; by destruct s).
    apply (canonical_unique s (newNodeStore t) (at_path U (committed t))); try done.
    eapply represents_ext; [|exact Hrs]. intros p. apply at_path_ext. intros x _. apply committed_frame.
    intros d n k' Hd. unfold bGet. unfold domain_bucket in Hd.
    repeat case_bool_decide; simplify_eq;
      first [by rewrite (im_same _ _ Hi) by (apply (bool_decide_unpack _); exact I)
            |by rewrite (im_empty _ _ Hi), Hcm by (apply (bool_decide_unpack _); exact I)].
Qed.

Lemma foldl_same {A} (n : BucketName) (f : Txn -> A -> Txn) l : (forall t x, same n t (f t x)) -> forall t, same n t (foldl f t l).
Proof. intros Hf. induction l as [|x l IH]; intros t; cbn [foldl]; [done|]. eapply same_trans; [apply Hf|apply IH]. Qed.

Lemma bPut_same (n m : BucketName) t k v : n <> m -> same n t (bPut t m k v).
Proof. intros Hn k'. unfold bPut. by rewrite bGet_setBucket, decide_False. Qed.

Lemma initFromSheet_commits t sheet t' : initFromSheet t sheet = Ok t' -> same CommitBucketName t t'.
Proof.
  unfold initFromSheet. intros E. open_ok E. injection E as <-.
  eapply same_trans; [eapply same_fold; [|exact Hr]; intros u acc u'; apply same_setContract|].
  eapply same_trans; [eapply (foldl_same _ putBalance); intros u b; by apply bPut_same|].
  eapply same_trans; [eapply (foldl_same _ putKey); intros u b; by apply bPut_same|].
  destruct (negb _); [by apply bPut_same|done].
Qed.

Lemma import_commits t sheet t' k : RebuildFromSheetTxn t sheet = Ok t' -> bGet t' CommitBucketName k = None.
Proof.
  unfold RebuildFromSheetTxn. intros E. open_ok E. unfold RebuildTrie in E. open_ok E. injection E as <-.
  rewrite !bGet_setBucket. cbn [decide]. rewrite (initFromSheet_commits _ _ _ Hr). unfold bGet. by rewrite Bucket_clear.
Qed.

(** Snapshots forget pending commitments.  A reveal that the exporting
    node accepts, its commitment pending, is refused by a node that imported
    the exporter's sheet: the next block that reveals a commitment made
    before the snapshot is invalid there. *)
Theorem sheet_forgets_commitments network t h hash sheet t0 t' tx :
  DumpSheetAt network t h hash = Ok sheet -> RebuildFromSheetTxn t0 sheet = Ok t' ->
  tx_Height tx <> 0 -> checkReveal t tx = Ok tt -> checkReveal t' tx = Err ErrTxNotCommitted.
Proof.
  intros _ E Hh. unfold checkReveal. destruct (Z.eqb_spec (tx_Height tx) 0); [done|]. intros Hok. open_ok Hok. rewrite Hg, Hg0.
  cbn [guard]. rewrite Hr. cbn [res_bind].
  assert (findCommit t' r (revealHash tx) (tx_Height tx) = None) as ->; [|done].
  unfold findCommit. cbv zeta. generalize (scan_heights (if CommitWindow <? tx_Height tx then tx_Height tx - CommitWindow else 0) (tx_Height tx)).
  intros hs. induction hs as [|x hs IH]; [done|]. rewrite filter_cons_False; [done|].
  unfold commit_at. rewrite (import_commits _ _ _ _ E). by rewrite bool_decide_eq_false_2.
Qed.

End Sheets.

(** ** Witnesses *)

Module SheetWitness.

#[local] Existing Instance toy_hasher.
#[local] Existing Instance toy_libs.
#[local] Existing Instance toy_codec.
#[local] Existing Instance toy_slot_codec.
#[local] Existing Instance toy_slot_laws.

Definition alice : Address := CommitWitness.alice.

(** alice has a balance of 7. *)
Definition paid : Txn := setBalance ∅ None alice 7.

Lemma paid_state_ok : ok CommitWitness.U paid.
Proof.
  apply (ok_writes _ CommitWitness.U_collision_free ∅); [apply ok_empty|]. apply rtc_once. exists None.
  apply ws_balance, CommitWitness.in_U_alice.
Qed.

Lemma paid_other n : n <> Addr2BalBucketName -> n <> StateTrieBucketName -> Bucket paid n = ∅.
Proof.
  intros N1 N2. rewrite (Bucket_ext paid ∅ n); [done|]. intros k. unfold paid. rewrite setBalance_cwrite, bGet_cwrite by done.
  cbn [recordBal]. by rewrite decide_False by (by intros [? _]).
Qed.

Lemma paid_slots : slots_sound paid.
Proof. intros k raw E. unfold bGet in E. by rewrite paid_other in E. Qed.

Lemma sheet_roundtrip_witness :
  exists sheet t', DumpSheetAt ZERONET paid 3 (zeros 32) = Ok sheet /\ RebuildFromSheetTxn ∅ sheet = Ok t'
    /\ Bucket t' Addr2BalBucketName = Bucket paid Addr2BalBucketName /\ StateRoot t' = StateRoot paid.
Proof.
  destruct (sheet_roundtrip CommitWitness.U ZERONET paid ∅ 3 (zeros 32) CommitWitness.U_collision_free paid_state_ok paid_slots)
    as (sheet & t' & Hd & Hr & Hs & _ & Hroot).
  exists sheet, t'. split; [exact Hd|]. split; [exact Hr|]. split; [apply Hs; left|]. apply Hroot. by apply paid_other.
Defined.

End SheetWitness.

Module ForgetWitness.

#[local] Existing Instance prefix_hasher.
#[local] Existing Instance toy_libs.
#[local] Existing Instance toy_codec.
#[local] Existing Instance toy_slot_codec.
#[local] Existing Instance toy_slot_laws.

(** alice committed to a payment at height 5 and may reveal it at 6. *)
Abbreviation dumped := (DumpSheetAt ZERONET LedgerWitness.funded 5 (zeros 32)).
Abbreviation imported_state := (let! sheet := dumped in RebuildFromSheetTxn ∅ sheet).

Lemma imported_state_ok : is_ok imported_state = true.
Proof. vm_compute. reflexivity. Qed.

Lemma pay_revealable : checkReveal LedgerWitness.funded LedgerWitness.pay = Ok tt.
Proof. vm_compute. reflexivity. Qed.

Lemma sheet_forgets_commitments_witness :
  checkReveal LedgerWitness.funded LedgerWitness.pay = Ok tt
  /\ exists t', imported_state = Ok t' /\ checkReveal t' LedgerWitness.pay = Err ErrTxNotCommitted.
Proof.
  split; [exact pay_revealable|]. destruct (is_ok_Ok _ imported_state_ok) as [t' E]. exists t'. split; [exact E|].
  apply res_bind_Ok in E as (sheet & Ed & Er).
  apply (sheet_forgets_commitments ZERONET LedgerWitness.funded 5 (zeros 32) sheet ∅ t' LedgerWitness.pay Ed Er).
  - discriminate.
  - exact pay_revealable.
Defined.

End ForgetWitness.
