(* ===== verification/Queries.v ===== *)
(** * Reads of the state

    state_external.go and the log queries of receipt.go: what the node
    answers about balances, contracts and events, now and at a past height. *)

From S2P Require Import Prelude Params StateTrie Keys Contract Types Instances Tx Block BlockStore State StateCommit Journal Ledger Snapshot.

(** receipt.go *)
Record LogFilter := {
  lf_FromHeight : Z;
  lf_ToHeight : Z;
  lf_Address : option Address;
  lf_Topic : option bytes
}.

Record Log := {
  log_Height : Z;
  log_TxHash : bytes;
  log_RunIndex : nat;
  log_LogIndex : nat;
  log_Event : Event
}.

Definition maxLogRange : Z := 10000.

Section Queries.
Context `{HH : Hasher} `{SL : SigLibs} `{CD : Codec} `{SC : SlotCodec} `{RC : ReceiptCodec}
  `{DC : DepsCodec} `{IF : Inflate} `{ML : MerkleLib} `{VM_ : ContractVM} `{SHC : SheetCodec}.

(** ** Logs *)

Definition log_matches (f : LogFilter) (ev : Event) : bool :=
  match lf_Address f with Some a => bool_decide (ev_Contract ev = vec_to_list a) | None => true end
  && match lf_Topic f with Some topic => bool_decide (ev_Topic ev = topic) | None => true end.

Definition runLogs (f : LogFilter) (h : Z) (txHash : bytes) (ri : nat) (run : ContractRun) : list Log :=
  omap id (imap (fun li ev => if log_matches f ev
                              then Some {| log_Height := h; log_TxHash := txHash; log_RunIndex := ri; log_LogIndex := li; log_Event := ev |}
                              else None) (run_Events run)).

Definition txLogs (txn : Txn) (f : LogFilter) (h : Z) (out : list Log) (tx : FullTx) : res (list Log) :=
  let txHash := GetHash tx in
  let! runs := GetTxRuns txn txHash in
  Ok (out ++ concat (imap (runLogs f h txHash) runs)).

Definition CollectLogsTxn (txn : Txn) (f : LogFilter) : res (list Log) :=
  res_fold (fun out h =>
      let! block := GetBlockByHeight (Bucket txn BlockBucketName) h in
      res_fold (txLogs txn f h) out (b_Txs block))
    [] (heights (lf_FromHeight f) (lf_ToHeight f)).

Definition GetLogs (state : State) (txn : Txn) (f : LogFilter) : res (list Log) :=
  let! tip := GetLatestHeight (Bucket txn BlockBucketName) in
  let f := if (lf_ToHeight f =? 0) || (tip <? lf_ToHeight f)
           then {| lf_FromHeight := lf_FromHeight f; lf_ToHeight := tip; lf_Address := lf_Address f; lf_Topic := lf_Topic f |}
           else f in
  if lf_ToHeight f <? lf_FromHeight f then Ok []
  else
    reject maxLogRange <=? lf_ToHeight f - lf_FromHeight f with ErrLogRange ;
    reject negb (st_Archive state) && (receiptRetention <? tip) && (lf_FromHeight f <? tip - receiptRetention) with ErrLogsPruned ;
    CollectLogsTxn txn f.

Definition ReceiptRetainedFloor (state : State) (txn : Txn) : res Z :=
  if st_Archive state then Ok 0
  else
    let! tip := GetLatestHeight (Bucket txn BlockBucketName) in
    Ok (if receiptRetention <? tip then tip - receiptRetention else 0).

(** ** Balances and contracts *)

Definition GetTotalBalanceByAddress (txn : Txn) (address : Address) : Z := getBalance txn address.

(** The last row of the address wins. *)
Definition balance_in (sheet : Sheet) (address : Address) : Z :=
  foldl (fun acc b => if bool_decide (bal_Address b = address) then bal_Amount b else acc) 0 (sh_Balances sheet).

Definition GetMatureBalanceByAddress (state : State) (sm : SnapshotManager) (txn : Txn) (address : Address)
    : res (Z * SnapshotManager) :=
  let! currentHeight := GetLatestHeight (Bucket txn BlockBucketName) in
  let! (matureSnapshot, sm) := GetSnapshotByHeight state sm txn (GetMatureHeight currentHeight) in
  Ok (balance_in matureSnapshot address, sm).

Definition checkHeightInRange (txn : Txn) (height : Z) : res unit :=
  let! tip := GetLatestHeight (Bucket txn BlockBucketName) in
  reject tip <? height with ErrHeightAboveTip ;
  reject (height <? tip) && negb (changesetCovers txn (u64 (height + 1))) with ErrNoHistory ;
  Ok tt.

Definition GetBalanceByAddressAt (state : State) (txn : Txn) (address : Address) (height : Z) : res Z :=
  reject negb (st_Archive state) with ErrArchiveDisabled ;
  do! checkHeightInRange txn height ;
  Ok (balanceAtHeight txn address height).

Definition GetContractAt (state : State) (txn : Txn) (address : Address) (height : Z) : res Contract :=
  reject negb (st_Archive state) with ErrArchiveDisabled ;
  do! checkHeightInRange txn height ;
  let! acc := contractAtHeight txn address height in
  match acc with Some account => Ok account | None => Err ErrKeyNotFound end.

Definition PubKeyRegistered (txn : Txn) (addr : Address) : bool :=
  bool_decide (is_Some (bGet txn KeyRegistryBucketName (vec_to_list addr))).

End Queries.
