(* ===== verification/Archive.v ===== *)
(** * The archive

    What a node that keeps change sets answers about the past: the balance
    and the slot of an address at a height are those the node had when that
    height was its tip. *)

From S2P Require Import Prelude Params StateTrie Keys Contract Types Instances Tx Block BlockStore State StateCommit StateUndo Journal VM VMToy VMProps Ledger BlockSteps Supply LedgerProps Snapshot Queries.

(** ** Cursors *)

Lemma sorted_head {A} (R : A -> A -> Prop) `{!Reflexive R} x l y : StronglySorted R (y :: l) -> x ∈ y :: l -> R y x.
Proof.
  intros Hs Hx. apply elem_of_cons in Hx as [->|Hx]; [done|]. apply StronglySorted_inv in Hs as [_ Hs].
  rewrite Forall_forall in Hs. by apply Hs.
Qed.

Lemma StronglySorted_filter {A} (R : A -> A -> Prop) (P : A -> Prop) `{forall x, Decision (P x)} l :
  StronglySorted R l -> StronglySorted R (filter P l).
Proof.
  induction 1 as [|x l Hs IH Hx]; [constructor|]. rewrite filter_cons. destruct (decide (P x)); [|done].
  constructor; [done|]. rewrite Forall_forall in *. intros y [_ Hy]%list_elem_of_filter. by apply Hx.
Qed.

#[local] Instance kv_le_total : Total kv_le.
Proof. intros a b. apply bytes_le_total. Qed.

Lemma cursor_sorted b : StronglySorted kv_le (cursor b).
Proof.
  unfold cursor. apply Sorted_StronglySorted; [intros x y z; apply bytes_le_trans|].
  apply (Sorted_merge_sort _).
Qed.

(** [Seek] yields the least key at or after its argument. *)
Lemma Seek_Some b k x v :
  Seek b k = Some (x, v) <-> b !! x = Some v /\ bytes_le k x /\ forall y w, b !! y = Some w -> bytes_le k y -> bytes_le x y.
Proof.
  unfold Seek. set (l := filter _ (cursor b)).
  assert (Hs : StronglySorted kv_le l) by apply StronglySorted_filter, cursor_sorted.
  assert (Hl : forall y w, (y, w) ∈ l <-> b !! y = Some w /\ bytes_le k y).
  { intros y w. unfold l. rewrite list_elem_of_filter, elem_of_cursor. cbn [fst]. tauto. }
  assert (Hrefl : Reflexive kv_le) by (intros p; unfold kv_le; reflexivity). split.
  - intros Hh. destruct l as [|p l']; [done|]. injection Hh as ->. destruct (proj1 (Hl x v)) as [? ?]; [left|].
    split_and!; [done|done|]. intros y w Hy Hk. exact (sorted_head kv_le (y, w) l' (x, v) Hs (proj2 (Hl y w) (conj Hy Hk))).
  - intros (Hx & Hk & Hmin). destruct l as [|[y w] l'] eqn:El.
    + exfalso. apply (not_elem_of_nil (x, v)). by apply Hl.
    + destruct (proj1 (Hl y w)) as [Hy Hky]; [left|]. pose proof (Hmin y w Hy Hky) as H1.
      pose proof (sorted_head kv_le (x, v) l' (y, w) Hs (proj2 (Hl x v) (conj Hx Hk))) as H2. unfold kv_le in H2. cbn [fst] in H2.
      assert (x = y) as <- by (by apply (anti_symm bytes_le)). cbn. congruence.
Qed.

Lemma Seek_None b k : Seek b k = None <-> forall y w, b !! y = Some w -> ~ bytes_le k y.
Proof.
  split.
  - unfold Seek. intros H y w Hy Hk. apply head_None in H. apply (not_elem_of_nil (y, w)). rewrite <-H.
    apply list_elem_of_filter. split; [done|]. by apply elem_of_cursor.
  - intros H. destruct (Seek b k) as [[x v]|] eqn:E; [|done]. apply Seek_Some in E as (Hx & Hk & _). by destruct (H x v Hx).
Qed.

(** ** The index of changes *)

Lemma histKey_le a m b m' : is_u64 m -> is_u64 m' ->
  (bytes_le (histKey a m) (histKey b m') <-> bytes_lt (vec_to_list a) (vec_to_list b) \/ a = b /\ m <= m').
Proof.
  intros Hm Hm'. unfold histKey. assert (Hle : bytes_le (be_bytes 8 m) (be_bytes 8 m') <-> m <= m').
  { unfold bytes_le. rewrite bytes_cmp_be_Z by (by rewrite !length_be_bytes). rewrite !be_Z_be_bytes, !Z.mod_small by (unfold is_u64, two64 in *; lia).
    done. }
  destruct (decide (a = b)) as [->|Hab].
  - unfold bytes_le in *. rewrite bytes_cmp_app, Hle. split; [by right|]. intros [Hl|[_ ?]]; [by destruct (bytes_lt_irrefl _ Hl)|done].
  - split.
    + intros H. left. destruct (decide (bytes_lt (vec_to_list a) (vec_to_list b))) as [|Hn]; [done|]. exfalso.
      apply not_bytes_lt in Hn. apply bytes_le_lt_eq in Hn as [Hn|Hn]; [|by apply vec_to_list_inj2 in Hn].
      apply (bytes_cmp_app_lt _ _ (be_bytes 8 m') (be_bytes 8 m)) in Hn; [|by rewrite !length_vec_to_list].
      apply (bytes_lt_irrefl (vec_to_list b ++ be_bytes 8 m')). apply bytes_le_lt_eq in H as [H|H]; [by eapply bytes_lt_trans|by rewrite H in Hn].
    + intros [Hl|[-> _]]; [|done]. apply bytes_le_lt_eq. left. apply bytes_cmp_app_lt; [by rewrite !length_vec_to_list|done].
Qed.

Lemma histKey_inj2 a b m m' : is_u64 m -> is_u64 m' -> histKey a m = histKey b m' -> a = b /\ m = m'.
Proof.
  intros Hm Hm' E. unfold histKey in E. apply app_inj_1 in E as [Ea Em]; [|by rewrite !length_vec_to_list].
  split; [by apply vec_to_list_inj2|]. apply (f_equal be_Z) in Em. rewrite !be_Z_be_bytes, !Z.mod_small in Em by (unfold is_u64, two64 in *; lia). done.
Qed.

Section Index.
Context `{HH : Hasher} `{SL : SigLibs} `{CD : Codec} `{SC : SlotCodec}.
Context (hist : BucketName) (t : Txn) (H : Z).
Hypothesis Hwf : forall k v, bGet t hist k = Some v -> exists a m, k = histKey a m /\ 0 <= m <= H.
Hypothesis HH64 : H < two64.

Definition changed (a : Address) (m : Z) : Prop := is_Some (bGet t hist (histKey a m)).

#[global] Instance changed_dec a m : Decision (changed a m).
Proof. unfold changed. apply _. Defined.

Lemma changed_bound a m : is_u64 m -> changed a m -> 0 <= m <= H.
Proof.
  intros Hm [v Hv]. destruct (Hwf _ _ Hv) as (b & m' & E & Hm'). apply histKey_inj2 in E as [_ ->]; [done|done|unfold is_u64; lia].
Qed.

(** The next change after a height, if there is one. *)
Lemma firstChange_Some a h m : 0 <= h -> h < m < two64 -> changed a m -> (forall m', h < m' < m -> ~ changed a m') ->
  firstChangeHeightAfter t hist a h = Some m.
Proof.
  intros Hh Hm [v Hv] Hmin. unfold firstChangeHeightAfter. rewrite u64_id by (unfold is_u64; lia).
  assert (E : Seek (Bucket t hist) (histKey a (h + 1)) = Some (histKey a m, v)).
  { apply Seek_Some. split_and!; [exact Hv|apply histKey_le; [unfold is_u64; lia|unfold is_u64; lia|]; right; split; [done|lia]|].
    intros y w Hy Hk. destruct (Hwf y w Hy) as (b & m' & -> & Hm'). apply histKey_le in Hk; [|unfold is_u64; lia..].
    apply histKey_le; [unfold is_u64; lia..|]. destruct Hk as [|[-> Hk]]; [by left|right]. split; [done|].
    destruct (Z.le_gt_cases m m') as [|Hlt]; [done|]. destruct (Hmin m' ltac:(lia)). by exists w. }
  rewrite E. unfold histKey. rewrite length_app, length_vec_to_list, length_be_bytes. cbn [Nat.add Nat.eqb negb].
  rewrite take_app_length', drop_app_length' by (by rewrite length_vec_to_list). rewrite bool_decide_eq_true_2 by done. cbn [negb].
  by rewrite be_Z_be_bytes, Z.mod_small by (unfold two64 in *; lia).
Qed.

Lemma firstChange_None a h : 0 <= h -> h + 1 < two64 -> (forall m, h < m < two64 -> ~ changed a m) ->
  firstChangeHeightAfter t hist a h = None.
Proof.
  intros Hh Hm Hno. unfold firstChangeHeightAfter. rewrite u64_id by (unfold is_u64; lia).
  destruct (Seek _ _) as [[k v]|] eqn:E; [|done]. apply Seek_Some in E as (Hk & Hle & _).
  destruct (Hwf k v Hk) as (b & m' & -> & Hm'). apply histKey_le in Hle; [|unfold is_u64; lia..].
  unfold histKey. rewrite length_app, length_vec_to_list, length_be_bytes. cbn [Nat.add Nat.eqb negb].
  rewrite take_app_length' by (by rewrite length_vec_to_list). rewrite bool_decide_eq_false_2; [done|].
  intros Ea%vec_to_list_inj2. subst b. destruct Hle as [Hl|[_ Hl]]; [by destruct (bytes_lt_irrefl _ Hl)|].
  apply (Hno m' ltac:(lia)). by exists v.
Qed.

(** Either way. *)
Lemma next_change a h : 0 <= h ->
  (exists m, h < m <= H /\ changed a m /\ forall m', h < m' < m -> ~ changed a m') \/ forall m, h < m < two64 -> ~ changed a m.
Proof.
  intros Hh. destruct (list_find (fun m => changed a m) (seqZ (h + 1) (H - h))) as [[i m]|] eqn:E.
  - left. apply list_find_Some in E as (Hi & Hc & Hb). apply lookup_seqZ in Hi as [-> Hi]. exists (h + 1 + Z.of_nat i). split_and!; [lia|lia|done|].
    intros m' Hm'. apply (Hb (Z.to_nat (m' - h - 1)) m'); [|lia]. apply lookup_seqZ. lia.
  - right. apply list_find_None in E. rewrite Forall_forall in E. intros m Hm Hc.
    pose proof (changed_bound a m ltac:(unfold is_u64; lia) Hc) as Hb. apply (E m); [|done]. apply elem_of_seqZ. lia.
Qed.

End Index.

(** ** One bucket and its records

    A block of height [h] writes the bucket [st] only through a record: the
    first write of an address saves the old value in [cs] and marks the
    address in [hist]. *)

Section Domain.
Context `{HH : Hasher} `{SL : SigLibs} `{CD : Codec} `{SC : SlotCodec}.
Context (cs st hist : BucketName) (Hne : NoDup [cs; st; hist]).

Definition record (h : Z) (t : Txn) (a : Address) : Txn :=
  match bGet t cs (csKey h a) with
  | Some _ => t
  | None => bPut (bPut t cs (csKey h a) (taggedPreimage (bGet t st (vec_to_list a)))) hist (histKey a h) []
  end.

Definition mine (n : BucketName) : Prop := n ∈ [cs; st; hist].

Inductive dom_step (h : Z) (t t' : Txn) : Prop :=
  | ds_frame : (forall n k, mine n -> bGet t' n k = bGet t n k) -> dom_step h t t'
  | ds_write a o :
      (forall n k, mine n -> bGet t' n k = if decide (st = n /\ vec_to_list a = k) then o else bGet (record h t a) n k) ->
      dom_step h t t'.

Record rec_inv (h : Z) (t0 t : Txn) : Prop := {
  ri_pre : forall a : Address, match bGet t cs (csKey h a) with
    | None => bGet t st (vec_to_list a) = bGet t0 st (vec_to_list a) /\ bGet t hist (histKey a h) = None
    | Some tg => splitPreimage tg = bGet t0 st (vec_to_list a) /\ is_Some (bGet t hist (histKey a h))
    end;
  ri_cs : forall k, (forall a, k <> csKey h a) -> bGet t cs k = bGet t0 cs k;
  ri_hist : forall k, (forall a, k <> histKey a h) -> bGet t hist k = bGet t0 hist k
}.

Lemma mine_cs : mine cs. Proof. unfold mine. set_solver. Qed.
Lemma mine_st : mine st. Proof. unfold mine. set_solver. Qed.
Lemma mine_hist : mine hist. Proof. unfold mine. set_solver. Qed.
#[local] Hint Resolve mine_cs mine_st mine_hist : core.

Lemma dom_distinct : cs <> st /\ cs <> hist /\ st <> hist.
Proof. apply NoDup_cons in Hne as [H1 H2]. apply NoDup_cons in H2 as [H2 _]. set_solver. Qed.

Lemma rec_inv_frame h t0 t t' : (forall n k, mine n -> bGet t' n k = bGet t n k) -> rec_inv h t0 t -> rec_inv h t0 t'.
Proof.
  intros Hf [H1 H2 H3]. split; intros; rewrite !Hf by auto; [apply H1|by apply H2|by apply H3].
Qed.

Lemma rec_inv_write h t0 t t' a o :
  (forall n k, mine n -> bGet t' n k = if decide (st = n /\ vec_to_list a = k) then o else bGet (record h t a) n k) ->
  rec_inv h t0 t -> rec_inv h t0 t'.
Proof.
  intros Hw [H1 H2 H3]. destruct dom_distinct as (D1 & D2 & D3).
  assert (Hcs : forall k, bGet t' cs k = if decide (k = csKey h a) then Some (default (taggedPreimage (bGet t st (vec_to_list a))) (bGet t cs (csKey h a))) else bGet t cs k).
  { intros k. rewrite Hw, decide_False by (auto || intros [? _]; congruence). unfold record. destruct (bGet t cs (csKey h a)) as [tg|] eqn:E.
    - destruct (decide _) as [->|]; [done|done].
    - rewrite !bGet_bPut, decide_False by (intros [? _]; congruence). repeat destruct (decide _); naive_solver. }
  assert (Hhi : forall k, k <> histKey a h -> bGet t' hist k = bGet t hist k).
  { intros k Hk. rewrite Hw, decide_False by (auto || intros [? _]; congruence). unfold record. destruct (bGet t cs (csKey h a)); [done|].
    by rewrite !bGet_bPut, !decide_False by (intros [? ?]; congruence). }
  assert (Hst : forall k, k <> vec_to_list a -> bGet t' st k = bGet t st k).
  { intros k Hk. rewrite Hw, decide_False by (auto || intros [_ ?]; congruence). unfold record. destruct (bGet t cs (csKey h a)); [done|].
    by rewrite !bGet_bPut, !decide_False by (intros [? ?]; congruence). }
  split.
  - intros b. rewrite Hcs. destruct (decide (b = a)) as [->|Hb].
    + rewrite decide_True by done. specialize (H1 a). rewrite Hw, decide_False by (auto || intros [? _]; congruence). unfold record.
      destruct (bGet t cs (csKey h a)) as [tg|]; cbn [default from_option]; [exact H1|]. rewrite splitPreimage_tagged, bGet_bPut, decide_True by done.
      split; [apply H1|by eexists].
    + rewrite decide_False by (intros ?%csKey_inj; done). rewrite Hst by (intros ?%vec_to_list_inj2; done).
      rewrite Hhi by (intros ?%histKey_inj; done). apply H1.
  - intros k Hk. rewrite Hcs, decide_False by apply Hk. by apply H2.
  - intros k Hk. rewrite Hhi by apply Hk. by apply H3.
Qed.

Lemma rec_inv_step h t0 t t' : dom_step h t t' -> rec_inv h t0 t -> rec_inv h t0 t'.
Proof. intros [Hf|a o Hw]; [by apply rec_inv_frame|by apply (rec_inv_write h t0 t t' a o)]. Qed.

Lemma rec_inv_steps (R : Txn -> Txn -> Prop) h t0 t u :
  (forall x y, R x y -> dom_step h x y) -> rtc R t u -> rec_inv h t0 t -> rec_inv h t0 u.
Proof. intros HR. induction 1 as [|x y z Hxy _ IH]; [done|]. intros Hi. apply IH. by eapply rec_inv_step; [apply HR|]. Qed.

(** Nothing recorded above [o]. *)
Record records_to (o : Z) (t : Txn) : Prop := {
  rt_hist : forall k v, bGet t hist k = Some v -> exists a m, k = histKey a m /\ 0 <= m <= o;
  rt_cs : forall a m, o < m < two64 -> bGet t cs (csKey m a) = None
}.

Lemma rec_inv_start o h t0 : 0 <= o < h -> h < two64 -> records_to o t0 -> rec_inv h t0 t0.
Proof.
  intros Ho Hh [H1 H2]. split; [|done..]. intros a. rewrite H2 by lia. split; [done|].
  destruct (bGet t0 hist _) eqn:E; [|done]. destruct (H1 _ _ E) as (b & m & Ek & Hm).
  apply histKey_inj2 in Ek as [_ ->]; unfold is_u64; lia.
Qed.

Lemma csKey_inj2 h h' a b : is_u64 h -> is_u64 h' -> csKey h a = csKey h' b -> h = h' /\ a = b.
Proof.
  intros Hh Hh' E. unfold csKey in E. apply app_inj_1 in E as [E1 E2]; [|by rewrite !length_PackUint64LE].
  apply vec_to_list_inj2 in E2. split; [by apply PackUint64LE_inj|done].
Qed.

Lemma records_next o h t0 t : 0 <= o < h -> h < two64 -> records_to o t0 -> rec_inv h t0 t -> records_to h t.
Proof.
  intros Ho Hh [R1 R2] [H1 H2 H3]. split.
  - intros k v Hv. destruct (decide (length k = 40%nat /\ drop 32 k = be_bytes 8 h)) as [[Hl Hd]|Hno].
    + exists (to_array 32 (take 32 k)), h. split; [|lia]. unfold histKey. rewrite to_array_list by (rewrite length_take; lia).
      rewrite <-Hd. by rewrite take_drop.
    + rewrite H3 in Hv. { destruct (R1 _ _ Hv) as (a & m & -> & Hm). exists a, m. split; [done|lia]. }
      intros a ->. apply Hno. unfold histKey. rewrite length_app, length_vec_to_list, length_be_bytes, drop_app_length' by (by rewrite length_vec_to_list). done.
  - intros a m Hm. rewrite H2; [apply R2; lia|]. intros b E. apply csKey_inj2 in E as [? _]; unfold is_u64; lia.
Qed.

(** ** The value at a past height *)

Definition past_value (t : Txn) (a : Address) (h : Z) : option bytes :=
  match firstChangeHeightAfter t hist a h with
  | None => bGet t st (vec_to_list a)
  | Some m => splitPreimage (default [] (bGet t cs (csKey m a)))
  end.

Lemma past_now h t a : 0 <= h -> h + 1 < two64 -> records_to h t -> past_value t a h = bGet t st (vec_to_list a).
Proof.
  intros Hh Hb [R1 R2]. unfold past_value. rewrite (firstChange_None hist t h R1 ltac:(lia) a h Hh Hb); [done|].
  intros m Hm Hc. pose proof (changed_bound hist t h R1 ltac:(lia) a m ltac:(unfold is_u64; lia) Hc). lia.
Qed.

(** A block at a later height does not change what a past height had. *)
Lemma past_step o h h' t t' a : 0 <= h <= o -> o < h' -> h' + 1 < two64 -> records_to o t -> rec_inv h' t t' ->
  past_value t' a h = past_value t a h.
Proof.
  intros Hh Ho Hb R Hi. pose proof (records_next o h' t t' ltac:(lia) ltac:(lia) R Hi) as [R1' _].
  destruct R as [R1 R2]. destruct Hi as [I1 I2 I3]. specialize (I1 a).
  assert (Hsame : forall m, is_u64 m -> m <> h' -> bGet t' hist (histKey a m) = bGet t hist (histKey a m)).
  { intros m Hm Hne'. apply I3. intros b E. apply histKey_inj2 in E as [_ ?]; [done|done|unfold is_u64; lia]. }
  assert (Hc : forall m, h < m < two64 -> m <> h' -> changed hist t' a m <-> changed hist t a m).
  { intros m Hm Hne'. unfold changed. by rewrite Hsame by (try done; unfold is_u64; lia). }
  unfold past_value. destruct (next_change hist t o R1 ltac:(lia) a h ltac:(lia)) as [(m & Hm & Hch & Hmin)|Hno].
  - rewrite (firstChange_Some hist t o R1 ltac:(lia) a h m) by (try done; lia).
    rewrite (firstChange_Some hist t' h' R1' ltac:(lia) a h m) by first [lia|apply Hc; [lia|lia|done]|intros m' Hm'; rewrite Hc by lia; by apply Hmin].
    rewrite I2; [done|]. intros b E. apply csKey_inj2 in E as [? _]; unfold is_u64; lia.
  - rewrite (firstChange_None hist t o R1 ltac:(lia) a h) by (try done; lia).
    destruct (bGet t' cs (csKey h' a)) as [tg|] eqn:E; destruct I1 as [I1 I1'].
    + rewrite (firstChange_Some hist t' h' R1' ltac:(lia) a h h'); [by rewrite E|lia|lia|done|].
      intros m' Hm'. rewrite Hc by lia. apply Hno. lia.
    + rewrite (firstChange_None hist t' h' R1' ltac:(lia) a h); [done|lia|lia|]. intros m Hm.
      destruct (decide (m = h')) as [->|Hne']; [|rewrite Hc by lia; by apply Hno]. unfold changed. rewrite I1'. by intros [? ?].
Qed.

(** A run of the bucket: the states at the heights from [o] on. *)
Inductive dom_run (o : Z) : list Txn -> Txn -> Prop :=
  | dr_start t : records_to o t -> dom_run o [] t
  | dr_block ts t u t' : dom_run o ts t -> rec_inv (o + Z.of_nat (S (length ts))) t u ->
      (forall n k, mine n -> bGet t' n k = bGet u n k) -> dom_run o (ts ++ [t]) t'.

Lemma dom_run_records o ts t : 0 <= o -> o + Z.of_nat (length ts) < two64 -> dom_run o ts t -> records_to (o + Z.of_nat (length ts)) t.
Proof.
  intros Ho Hb. induction 1 as [t R|ts t u t' Hr IH Hi Hf]; [by replace (o + Z.of_nat (length [])) with o by (cbn; lia)|].
  rewrite length_app in *. cbn [length] in *. replace (length ts + 1)%nat with (S (length ts)) in * by lia.
  eapply (rec_inv_frame _ t u t') in Hi; [|done]. eapply records_next; [| |apply IH; lia|exact Hi]; lia.
Qed.

Lemma dom_run_past o ts t : 0 <= o -> o + Z.of_nat (S (length ts)) < two64 -> dom_run o ts t ->
  forall i ti a, (ts ++ [t]) !! i = Some ti -> past_value t a (o + Z.of_nat i) = bGet ti st (vec_to_list a).
Proof.
  intros Ho Hb Hr. pose proof Hr as Hr0. induction Hr as [t R|ts t u t' Hr IH Hi Hf]; intros i ti a Hl.
  - destruct i as [|i]; [|done]. injection Hl as <-. replace (o + Z.of_nat 0) with o by lia. by apply past_now.
  - rewrite length_app in *. cbn [length] in *. replace (length ts + 1)%nat with (S (length ts)) in * by lia.
    pose proof (rec_inv_frame _ t u t' Hf Hi) as Hi'. apply lookup_snoc_Some in Hl as [[Hlt Hl]|[-> <-]].
    + rewrite length_app in Hlt. cbn [length] in Hlt. pose proof (dom_run_records o ts t Ho ltac:(lia) Hr) as R.
      rewrite (past_step (o + Z.of_nat (length ts)) _ (o + Z.of_nat (S (length ts))) t t' a) by (try done; lia).
      apply IH; [lia|done|done].
    + rewrite length_app. cbn [length]. apply past_now; [lia|lia|]. pose proof (dom_run_records o (ts ++ [t]) t' Ho ltac:(rewrite length_app; cbn [length]; lia) Hr0) as R.
      by rewrite length_app in R.
Qed.

End Domain.

(** ** Blocks *)

(** The code hash of a stored slot, a fixed array of its encoding, decodes to itself
    whatever the slot's context. *)
Class SlotCodeLaw `{SlotCodec} : Prop := {
  dec_slot_code : forall sc sc', dec_storedContract (rlp_storedContract sc) = Some sc' -> sc_CodeHash sc' = sc_CodeHash sc
}.

Section Blocks.
Context `{HH : Hasher} `{SL : SigLibs} `{CD : Codec} `{SC : SlotCodec} `{!SlotCodecLaws} `{!SlotCodeLaw} `{RC : ReceiptCodec}
  `{DC : DepsCodec} `{IF : Inflate} `{ML : MerkleLib} `{VM_ : ContractVM}.

Abbreviation rec_at h := (Some (newChangeset h)).

Ltac other_bucket :=
  unfold owned_bal, owned_con in *; repeat match goal with Hn : _ \/ _ |- _ => destruct Hn as [Hn|Hn] end; subst; first [discriminate|intros [? ?]; discriminate].

(** The writes of a block, by the recorded bucket they touch. *)
Inductive kind (h : Z) (t t' : Txn) : Prop :=
  | k_balance a v : t' = setBalance t (rec_at h) a v -> kind h t t'
  | k_contract acc : setContract t (rec_at h) acc = Ok t' -> kind h t t'
  | k_delContract a : t' = delContract t (rec_at h) a -> kind h t t'
  | k_other : (forall n k, owned_bal n \/ owned_con n -> bGet t' n k = bGet t n k) -> kind h t t'.

Lemma ustep_kind h b t t' : ustep (rec_at h) b t t' -> kind h t t'.
Proof.
  destruct 1 as [t a v|t acc t' E|t a|t tx|t c from _|t tx from h' _ _ _|t seed _|t r];
    [by eapply k_balance|by eapply k_contract|by eapply k_delContract|apply k_other; intros n k Hn..].
  - unfold registerPubKey. destruct (IsCompactEnvelope tx); [done|]. destruct (_ || _); [done|].
    destruct (bGet t KeyRegistryBucketName _); [done|]. unfold trieSetKey, recordKey. cbn [height newChangeset].
    rewrite bGet_trieSetLeaf, bGet_bPut, decide_False by other_bucket. destruct (bGet t KeyChangeSetBucketName _); [done|].
    by rewrite bGet_bPut, decide_False by other_bucket.
  - by rewrite putCommit_cwrite, bGet_cwrite, decide_False by other_bucket.
  - rewrite consumeCommit_cwrite. unfold journalConsumed. by rewrite bGet_cwrite, decide_False, bGet_bPut, decide_False by other_bucket.
  - unfold setBeacon, trieSetBeacon, recordBeacon. cbn [height newChangeset].
    rewrite bGet_trieSetLeaf, bGet_bPut, decide_False by other_bucket. destruct (bGet t BeaconChangeSetBucketName _); [done|].
    by rewrite bGet_bPut, decide_False by other_bucket.
  - by rewrite bGet_setBucket, decide_False by other_bucket.
Qed.

(** What they do to the recorded buckets. *)
Inductive effect (h : Z) (t t' : Txn) : Prop :=
  | ef_bal a o : (forall n k, n <> StateTrieBucketName ->
        bGet t' n k = if decide (Addr2BalBucketName = n /\ vec_to_list a = k) then o else bGet (recordBal (rec_at h) t a) n k) -> effect h t t'
  | ef_con a o : (forall n k, n <> StateTrieBucketName -> n <> CodeBucketName ->
        bGet t' n k = if decide (ContractBucketName = n /\ vec_to_list a = k) then o else bGet (recordContract (rec_at h) t a) n k) -> effect h t t'
  | ef_other : (forall n k, owned_bal n \/ owned_con n -> bGet t' n k = bGet t n k) -> effect h t t'.

Lemma ustep_effect h b t t' : ustep (rec_at h) b t t' -> effect h t t'.
Proof.
  intros [a v ->|acc E|a ->|E]%ustep_kind; [..|by apply ef_other].
  - apply (ef_bal h _ _ a (Some (big_Bytes v))). intros n k Hn. rewrite setBalance_cwrite. by apply bGet_cwrite.
  - unfold setContract in E. open_ok E. injection E as <-. eapply (ef_con h _ _ (Owner acc)). intros n k Hn Hc. unfold trieSetContract.
    rewrite bGet_trieSetLeaf, bGet_bPut by done. by rewrite (bGet_reconcileCode _ _ _ _ _ _ n k Hc Hr).
  - apply (ef_con h _ _ a None). intros n k Hn Hc. unfold delContract, trieSetContract.
    rewrite bGet_trieSetLeaf, bGet_bDelete by done. destruct (bGet (recordContract _ t a) _ _); [|done].
    destruct (dec_storedContract _); [|done]. by rewrite bGet_releaseCode.
Qed.

Abbreviation bal_step := (dom_step BalChangeSetBucketName Addr2BalBucketName BalHistBucketName).
Abbreviation con_step := (dom_step ContractChangeSetBucketName ContractBucketName ContractHistBucketName).
Abbreviation bal_rec := (rec_inv BalChangeSetBucketName Addr2BalBucketName BalHistBucketName).
Abbreviation con_rec := (rec_inv ContractChangeSetBucketName ContractBucketName ContractHistBucketName).
Abbreviation bal_run := (dom_run BalChangeSetBucketName Addr2BalBucketName BalHistBucketName).
Abbreviation con_run := (dom_run ContractChangeSetBucketName ContractBucketName ContractHistBucketName).

Lemma mine_bal n : mine BalChangeSetBucketName Addr2BalBucketName BalHistBucketName n -> owned_bal n.
Proof. unfold mine, owned_bal. set_solver. Qed.
Lemma mine_con n : mine ContractChangeSetBucketName ContractBucketName ContractHistBucketName n -> owned_con n /\ n <> CodeBucketName.
Proof. unfold mine, owned_con. set_solver. Qed.

Lemma recordBal_frame h t a n k : ~ owned_bal n -> bGet (recordBal (rec_at h) t a) n k = bGet t n k.
Proof.
  intros Hn. unfold owned_bal in Hn. unfold recordBal. cbn [height newChangeset]. destruct (bGet t BalChangeSetBucketName _); [done|].
  by rewrite !bGet_bPut, !decide_False by naive_solver.
Qed.
Lemma recordContract_frame h t a n k : ~ owned_con n -> bGet (recordContract (rec_at h) t a) n k = bGet t n k.
Proof.
  intros Hn. unfold owned_con in Hn. unfold recordContract. cbn [height newChangeset]. destruct (bGet t ContractChangeSetBucketName _); [done|].
  by rewrite !bGet_bPut, !decide_False by naive_solver.
Qed.

Lemma effect_bal h t t' : effect h t t' -> bal_step h t t'.
Proof.
  intros [a o E|a o E|E].
  - apply (ds_write _ _ _ h t t' a o). intros n k Hn%mine_bal. rewrite E by (unfold owned_bal in Hn; naive_solver). done.
  - apply ds_frame. intros n k Hn%mine_bal. unfold owned_bal in Hn. rewrite E, decide_False by naive_solver.
    apply recordContract_frame. unfold owned_con. naive_solver.
  - apply ds_frame. intros n k Hn%mine_bal. apply E. by left.
Qed.

Lemma effect_con h t t' : effect h t t' -> con_step h t t'.
Proof.
  intros [a o E|a o E|E].
  - apply ds_frame. intros n k [Hn Hc]%mine_con. unfold owned_con in Hn. rewrite E, decide_False by naive_solver.
    apply recordBal_frame. unfold owned_bal. naive_solver.
  - apply (ds_write _ _ _ h t t' a o). intros n k [Hn Hc]%mine_con. rewrite E by (unfold owned_con in Hn; naive_solver). done.
  - apply ds_frame. intros n k [Hn _]%mine_con. apply E. by right.
Qed.

Lemma bal_nodup : NoDup [BalChangeSetBucketName; Addr2BalBucketName; BalHistBucketName].
Proof. by apply (bool_decide_unpack _). Qed.
Lemma con_nodup : NoDup [ContractChangeSetBucketName; ContractBucketName; ContractHistBucketName].
Proof. by apply (bool_decide_unpack _). Qed.

(** An archiving node records what a block changes. *)
Lemma Upgrade_records state t b t' o :
  Upgrade state t b = Ok t' -> st_Archive state = true -> 0 <= o < blockHeight b -> blockHeight b < two64 ->
  (records_to BalChangeSetBucketName BalHistBucketName o t -> bal_rec (blockHeight b) t t')
  /\ (records_to ContractChangeSetBucketName ContractHistBucketName o t -> con_rec (blockHeight b) t t').
Proof.
  intros E Ha Ho Hb. apply Upgrade_steps in E as (u & Hs & ->). unfold block_cs in Hs. rewrite Ha in Hs.
  assert (Hp : forall n k, owned_bal n \/ owned_con n -> bGet (pruneCommits u (blockHeight b)) n k = bGet u n k).
  { intros n k Hn. unfold owned_bal, owned_con in Hn. rewrite bGet_pruneCommits by naive_solver. rewrite decide_False; [done|].
    unfold prunable. naive_solver. }
  split; intros R.
  - apply rec_inv_frame with (t := u); [exact bal_nodup|intros n k Hn; apply Hp; left; by apply mine_bal|].
    eapply rec_inv_steps; [exact bal_nodup|intros x y Hxy; eapply effect_bal, ustep_effect, Hxy|exact Hs|by eapply rec_inv_start; [..|exact R]].
  - apply rec_inv_frame with (t := u); [exact con_nodup|intros n k Hn; apply Hp; right; by apply mine_con|].
    eapply rec_inv_steps; [exact con_nodup|intros x y Hxy; eapply effect_con, ustep_effect, Hxy|exact Hs|by eapply rec_inv_start; [..|exact R]].
Qed.

(** ** The code store of an archive

    With recording on no code is dropped, so a slot of the past still finds
    the code it named. *)

Definition has_code (t : Txn) (hash code : bytes) : Prop :=
  exists e, bGet t CodeBucketName hash = Some e /\ (8 <= length e)%nat /\ drop 8 e = code.

Definition code_kept (t t' : Txn) : Prop := forall hash code, has_code t hash code -> has_code t' hash code.

#[global] Instance code_kept_preorder : PreOrder code_kept.
Proof. split; [by intros t hash code|]. intros x y z H1 H2 hash code Hc. by apply H2, H1. Qed.

Definition code_present (t : Txn) : Prop :=
  forall k raw sc, bGet t ContractBucketName k = Some raw -> dec_storedContract raw = Some sc -> exists code, has_code t (sc_CodeHash sc) code.

Lemma has_code_frame t t' : (forall k, bGet t' CodeBucketName k = bGet t CodeBucketName k) -> code_kept t t'.
Proof. intros Hf hash code. unfold has_code. by rewrite Hf. Qed.

Lemma bPut_kept t hash n e : (forall code, has_code t hash code -> drop 8 e = code) -> length n = 8%nat -> e = n ++ drop 8 e ->
  code_kept t (bPut t CodeBucketName hash e) /\ has_code (bPut t CodeBucketName hash e) hash (drop 8 e).
Proof.
  intros He Hn Hl. assert (Hmine : has_code (bPut t CodeBucketName hash e) hash (drop 8 e)).
  { exists e. rewrite bGet_bPut, decide_True by done. split_and!; [done|rewrite Hl, length_app; lia|done]. }
  split; [|done]. intros hash' code Hc. destruct (decide (hash' = hash)) as [->|Hne]; [by rewrite <-(He _ Hc)|].
  destruct Hc as (e' & H1 & H2). exists e'. by rewrite bGet_bPut, decide_False by naive_solver.
Qed.

Lemma releaseCode_kept t hash : code_kept t (releaseCode t hash true).
Proof.
  unfold releaseCode. destruct (bGet t CodeBucketName hash) as [e|] eqn:E; [|done]. destruct (Nat.ltb_spec (length e) 8); [done|].
  rewrite andb_false_r. apply bPut_kept with (n := PackUint64LE (if 0 <? UnpackUint64LE e then UnpackUint64LE e - 1 else UnpackUint64LE e)); [|apply length_PackUint64LE|by rewrite drop8_Pack].
  intros code (e' & He & _ & Hc). rewrite E in He. injection He as <-. by rewrite drop8_Pack.
Qed.

Lemma retainCode_kept t hash c t' : retainCode t hash c = Ok t' -> code_kept t t' /\ exists code, has_code t' hash code.
Proof.
  unfold retainCode. destruct (bGet t CodeBucketName hash) as [e|] eqn:E; intros Er; open_ok Er; simplify_eq.
  - edestruct (bPut_kept t hash (PackUint64LE (u64 (r + 1))) (PackUint64LE (u64 (r + 1)) ++ drop 8 e)) as [H1 H2];
      [|apply length_PackUint64LE|by rewrite drop8_Pack|split; [exact H1|by eexists]].
    intros code (e' & He & _ & Hc). rewrite E in He. injection He as <-. by rewrite drop8_Pack.
  - edestruct (bPut_kept t hash (PackUint64LE 1) (PackUint64LE 1 ++ c)) as [H1 H2];
      [|apply length_PackUint64LE|by rewrite drop8_Pack|split; [exact H1|by eexists]]. intros code (e' & He & _). congruence.
Qed.

(** Slots other than [a] keep theirs, and the new value of [a] has its own. *)
Lemma code_present_write t t' (a : Address) :
  code_kept t t' -> (forall k, k <> vec_to_list a -> bGet t' ContractBucketName k = bGet t ContractBucketName k) ->
  (forall raw sc, bGet t' ContractBucketName (vec_to_list a) = Some raw -> dec_storedContract raw = Some sc -> exists code, has_code t' (sc_CodeHash sc) code) ->
  code_present t -> code_present t'.
Proof.
  intros Hk Hf Ha Hp k raw sc Hr Hd. destruct (decide (k = vec_to_list a)) as [->|Hne]; [by eapply Ha|].
  rewrite Hf in Hr by done. destruct (Hp k raw sc Hr Hd) as [code Hc]. exists code. by apply Hk.
Qed.

Lemma recordContract_code h t a : code_kept t (recordContract (rec_at h) t a).
Proof.
  apply has_code_frame. intros k. unfold recordContract. cbn [height newChangeset]. destruct (bGet t ContractChangeSetBucketName _); [done|].
  by rewrite !bGet_bPut, !decide_False by naive_solver.
Qed.

Lemma recordContract_slots h t a k : bGet (recordContract (rec_at h) t a) ContractBucketName k = bGet t ContractBucketName k.
Proof.
  unfold recordContract. cbn [height newChangeset]. destruct (bGet t ContractChangeSetBucketName _); [done|].
  by rewrite !bGet_bPut, !decide_False by naive_solver.
Qed.

Lemma reconcileCode_kept h t a hash c t' : code_present t -> reconcileCode t (rec_at h) a hash c = Ok t' ->
  code_kept t t' /\ exists code, has_code t' hash code.
Proof.
  intros Hp. unfold reconcileCode. cbn [rec_on]. destruct (bGet t ContractBucketName _) as [prev|] eqn:E; [|apply retainCode_kept].
  destruct (dec_storedContract prev) as [old|] eqn:Ed; [|apply retainCode_kept]. case_bool_decide as Eh.
  - intros [= <-]. split; [done|]. subst hash. by eapply Hp.
  - intros [H1 H2]%retainCode_kept. split; [|done]. etrans; [apply releaseCode_kept|exact H1].
Qed.

Lemma ustep_code h b t t' : ustep (rec_at h) b t t' -> code_present t -> code_present t' /\ code_kept t t'.
Proof.
  intros Hs Hp. assert (Hother : (forall n k, n = CodeBucketName \/ n = ContractBucketName -> bGet t' n k = bGet t n k) -> code_present t' /\ code_kept t t').
  { intros Hf. assert (code_kept t t') by (apply has_code_frame; intros k; apply Hf; by left). split; [|done].
    intros k raw sc Hr Hd. rewrite Hf in Hr by (by right). destruct (Hp k raw sc Hr Hd) as [code Hc]. exists code. auto. }
  apply ustep_kind in Hs as [a v ->|acc E|a ->|E].
  - apply Hother. intros n k Hn. rewrite setBalance_cwrite, bGet_cwrite, decide_False by naive_solver.
    apply recordBal_frame. unfold owned_bal. naive_solver.
  - clear Hother. unfold setContract in E. open_ok E. injection E as <-. unfold trieSetContract.
    assert (Hp' : code_present (recordContract (rec_at h) t (Owner acc))).
    { apply (code_present_write t _ (Owner acc)); [apply recordContract_code|intros; apply recordContract_slots| |done].
      intros raw sc. rewrite recordContract_slots. intros Hr0 Hd. destruct (Hp _ _ _ Hr0 Hd) as [code Hc]. exists code. by apply recordContract_code. }
    apply reconcileCode_kept in Hr as Hk; [|done]. destruct Hk as [Hk [code Hc]]. set (t2 := trieSetLeaf _ _ _ _).
    assert (Hf : forall n k, n <> StateTrieBucketName -> n <> ContractBucketName -> bGet t2 n k = bGet r n k).
    { intros n k H1 H2. unfold t2. by rewrite bGet_trieSetLeaf, bGet_bPut, decide_False by naive_solver. }
    assert (H2 : code_kept r t2) by (apply has_code_frame; intros k; by apply Hf).
    assert (Hall : code_kept t t2) by (etrans; [apply recordContract_code|etrans; [exact Hk|exact H2]]). split; [|done].
    apply (code_present_write t t2 (Owner acc)); [done| | |done].
    + intros k Hne. unfold t2. rewrite bGet_trieSetLeaf, bGet_bPut, decide_False by naive_solver.
      rewrite (bGet_reconcileCode _ _ _ _ _ _ ContractBucketName k ltac:(done) Hr). apply recordContract_slots.
    + intros raw sc. unfold t2. rewrite bGet_trieSetLeaf, bGet_bPut, decide_True by done. intros [= <-].
      intros ->%dec_slot_code. cbn [sc_CodeHash]. exists code. by apply H2.
  - clear Hother. unfold delContract, trieSetContract. set (r := recordContract (rec_at h) t a).
    set (u := match bGet r _ _ with Some _ => _ | None => _ end). set (t2 := trieSetLeaf _ _ _ _).
    assert (Hu : code_kept r u /\ forall k, bGet u ContractBucketName k = bGet t ContractBucketName k).
    { unfold u. destruct (bGet r _ _) as [prev|]; [destruct (dec_storedContract prev)|]; cbn [rec_on].
      - split; [apply releaseCode_kept|]. intros k. rewrite bGet_releaseCode by done. apply recordContract_slots.
      - split; [done|]. intros k. apply recordContract_slots.
      - split; [done|]. intros k. apply recordContract_slots. }
    destruct Hu as [Hu Hs]. assert (Hall : code_kept t t2).
    { etrans; [apply recordContract_code|]. etrans; [exact Hu|]. apply has_code_frame. intros k. unfold t2.
      by rewrite bGet_trieSetLeaf, bGet_bDelete, decide_False by naive_solver. }
    split; [|done]. apply (code_present_write t t2 a); [done| | |done].
    + intros k Hne. unfold t2. rewrite bGet_trieSetLeaf, bGet_bDelete, decide_False by naive_solver. apply Hs.
    + intros raw sc. unfold t2. by rewrite bGet_trieSetLeaf, bGet_bDelete, decide_True by done.
  - apply Hother. intros n k Hn. apply E. unfold owned_con. right. naive_solver.
Qed.

Lemma Upgrade_code state t b t' : Upgrade state t b = Ok t' -> st_Archive state = true -> code_present t -> code_present t' /\ code_kept t t'.
Proof.
  intros E Ha Hp. apply Upgrade_steps in E as (u & Hs & ->). unfold block_cs in Hs. rewrite Ha in Hs.
  assert (Hu : code_present u /\ code_kept t u).
  { revert Hp. induction Hs as [|x y z Hxy _ IH]; [done|]. intros [H1 H2]%(ustep_code _ _ _ _ Hxy). destruct (IH H1). split; [done|by etrans]. }
  destruct Hu as [Hu1 Hu2]. assert (Hf : forall n k, n = CodeBucketName \/ n = ContractBucketName -> bGet (pruneCommits u (blockHeight b)) n k = bGet u n k).
  { intros n k Hn. rewrite bGet_pruneCommits, decide_False; [done|unfold prunable; naive_solver|naive_solver]. }
  assert (Hk : code_kept u (pruneCommits u (blockHeight b))) by (apply has_code_frame; intros k; apply Hf; by left).
  split; [|by etrans]. intros k raw sc Hr Hd. rewrite Hf in Hr by (by right). destruct (Hu1 k raw sc Hr Hd) as [code Hc]. exists code. by apply Hk.
Qed.

(** ** The history of a node *)

(** The databases of an archiving node at the heights from [o] on, the last
    one apart.  Between two blocks anything but the recorded buckets and the
    code may change. *)
Inductive history (state : State) (o : Z) : list Txn -> Txn -> Prop :=
  | hi_start t : records_to BalChangeSetBucketName BalHistBucketName o t ->
      records_to ContractChangeSetBucketName ContractHistBucketName o t -> code_present t -> history state o [] t
  | hi_block ts t b u t' : history state o ts t -> blockHeight b = o + Z.of_nat (S (length ts)) -> Upgrade state t b = Ok u ->
      (forall n k, owned_bal n \/ owned_con n -> bGet t' n k = bGet u n k) -> history state o (ts ++ [t]) t'.

Section History.
Context (state : State) (o : Z) (Ha : st_Archive state = true) (Ho : 0 <= o).

Lemma history_runs ts t : o + Z.of_nat (length ts) < two64 -> history state o ts t -> bal_run o ts t /\ con_run o ts t.
Proof.
  intros Hb. induction 1 as [t R1 R2 Hc|ts t b u t' Hh IH Hbh E Hf]; [split; by constructor|].
  rewrite length_app in Hb. cbn [length] in Hb. destruct IH as [IB IC]; [lia|].
  pose proof (dom_run_records _ _ _ bal_nodup o ts t Ho ltac:(lia) IB) as RB.
  pose proof (dom_run_records _ _ _ con_nodup o ts t Ho ltac:(lia) IC) as RC_.
  destruct (Upgrade_records state t b u (o + Z.of_nat (length ts)) E Ha ltac:(lia) ltac:(lia)) as [HB HC]. rewrite <-?Hbh in *.
  split; (eapply dr_block; [eassumption|rewrite <-Hbh; auto|]).
  - intros n k Hn. apply Hf. left. by apply mine_bal.
  - intros n k Hn. apply Hf. right. by apply mine_con.
Qed.

Lemma history_code ts t : history state o ts t -> code_present t /\ forall i ti, (ts ++ [t]) !! i = Some ti -> code_present ti /\ code_kept ti t.
Proof.
  induction 1 as [t R1 R2 Hc|ts t b u t' Hh [IH1 IH2] Hbh E Hf].
  - split; [done|]. intros [|i] ti Hi; [by injection Hi as <-|done].
  - destruct (Upgrade_code state t b u E Ha IH1) as [Hu Hk].
    assert (Hk' : code_kept u t') by (apply has_code_frame; intros k; apply Hf; right; unfold owned_con; tauto).
    assert (Hp : code_present t').
    { intros k raw sc Hr Hd. rewrite Hf in Hr by (right; unfold owned_con; tauto). destruct (Hu k raw sc Hr Hd) as [code Hc]. exists code. by apply Hk'. }
    split; [done|]. intros i ti Hi. apply lookup_snoc_Some in Hi as [[_ Hi]|[_ <-]]; [|done].
    destruct (IH2 i ti Hi) as [H1 H2]. split; [done|]. etrans; [exact H2|]. by etrans.
Qed.

Lemma loadCode_has t hash code : has_code t hash code -> loadCode t hash = code.
Proof. intros (e & H1 & H2 & H3). unfold loadCode. rewrite H1. by destruct (Nat.ltb_spec (length e) 8); [lia|]. Qed.

Lemma decode_kept t t' k raw : code_present t -> code_kept t t' -> bGet t ContractBucketName k = Some raw ->
  decodeStoredContract t' raw = decodeStoredContract t raw.
Proof.
  intros Hp Hk Hr. unfold decodeStoredContract. destruct (dec_storedContract raw) as [sc|] eqn:E; [|done].
  destruct (Hp k raw sc Hr E) as [code Hc]. by rewrite (loadCode_has _ _ _ Hc), (loadCode_has _ _ _ (Hk _ _ Hc)).
Qed.

Lemma balanceAtHeight_past t a h : balanceAtHeight t a h
  = match past_value BalChangeSetBucketName Addr2BalBucketName BalHistBucketName t a h with None => 0 | Some v => be_Z v end.
Proof. unfold balanceAtHeight, past_value, getBalance. by destruct (firstChangeHeightAfter _ _ _ _). Qed.

Lemma contractAtHeight_past t a h : contractAtHeight t a h
  = match past_value ContractChangeSetBucketName ContractBucketName ContractHistBucketName t a h with
    | None => Ok None | Some raw => let! acc := decodeStoredContract t raw in Ok (Some acc) end.
Proof.
  unfold contractAtHeight, past_value, getContract. destruct (firstChangeHeightAfter _ _ _ _); [done|].
  destruct (bGet t ContractBucketName _) as [raw|]; [|done]. unfold decodeStoredContract. by destruct (dec_storedContract raw).
Qed.

(** C17 - An archive answers for the past.  Let an archiving node start at
    height o and apply the blocks of the heights after it, its database being
    t_0 at height o, t_1 after the next block and so on up to its present
    one, with block-store writes in between.  Then, whatever the blocks and
    the contracts they run did, the balance and the contract the node now
    reads for any address at the height of any t_i are exactly those of t_i:
    the balance it had, and the slot with its code and storage, or its
    absence. *)
Theorem archive_reads_past ts t i ti a :
  history state o ts t -> o + Z.of_nat (S (length ts)) < two64 -> (ts ++ [t]) !! i = Some ti ->
  balanceAtHeight t a (o + Z.of_nat i) = getBalance ti a
  /\ contractAtHeight t a (o + Z.of_nat i)
     = match getContract ti a with Ok acc => Ok (Some acc) | Err ErrKeyNotFound => Ok None | Err e => Err e end.
Proof.
  intros Hh Hb Hi. destruct (history_runs ts t ltac:(lia) Hh) as [HB HC]. destruct (history_code ts t Hh) as [_ Hcode].
  rewrite balanceAtHeight_past, contractAtHeight_past.
  rewrite (dom_run_past _ _ _ bal_nodup o ts t Ho Hb HB i ti a Hi), (dom_run_past _ _ _ con_nodup o ts t Ho Hb HC i ti a Hi). split; [done|].
  unfold getContract. destruct (bGet ti ContractBucketName (vec_to_list a)) as [raw|] eqn:E; [|done].
  destruct (Hcode i ti Hi) as [H1 H2]. rewrite (decode_kept ti t _ raw H1 H2 E). unfold decodeStoredContract. by destruct (dec_storedContract raw).
Qed.

End History.

End Blocks.

(** ** A history of one block *)

Module ArchiveWitness.

#[local] Existing Instance prefix_hasher.
#[local] Existing Instance toy_libs.
#[local] Existing Instance toy_codec.
#[local] Existing Instance toy_slot_codec.
#[local] Existing Instance toy_slot_laws.
#[local] Existing Instance toy_toll.
#[local] Existing Instance RunWitness.engine.
#[local] Existing Instance LedgerWitness.receipts.
#[local] Existing Instance LedgerWitness.deps.
#[local] Existing Instance LedgerWitness.inflate.
#[local] Existing Instance LedgerWitness.merkle.
#[local] Existing Instance LedgerWitness.text.

#[local] Instance toy_slot_code : SlotCodeLaw.
Proof.
  split. intros sc sc'. cbn [rlp_storedContract dec_storedContract toy_slot_codec]. unfold toy_dec_slot, toy_slot.
  rewrite fields_of_enc. by intros [= <-].
Qed.

Definition archiving : State := {| st_Network := ZERONET; st_Archive := true |}.

Lemma records_none cs hist o t : Bucket t cs = ∅ -> Bucket t hist = ∅ -> records_to cs hist o t.
Proof. intros H1 H2. split; [intros k v|intros a m _]; unfold bGet; rewrite ?H1, ?H2; by rewrite lookup_empty. Qed.

Lemma no_slots t : Bucket t ContractBucketName = ∅ -> code_present t.
Proof. intros E k raw sc. unfold bGet. by rewrite E, lookup_empty. Qed.

(** The block of LedgerProps.v: a payment of alice to bob at height 6. *)
Abbreviation before := LedgerWitness.funded.
Abbreviation applied := (Upgrade archiving before LedgerWitness.block).

(** bob had nothing then and has the payment now. *)
Example bob_was_paid : match applied with
  | Ok t => (getBalance t bob, balanceAtHeight t bob 5, balanceAtHeight t bob 6)
  | Err _ => (0, 0, 0)
  end = (5, 0, 5).
Proof. vm_compute. reflexivity. Qed.

Lemma applies : is_ok applied = true.
Proof. pose proof bob_was_paid as H. destruct applied; [reflexivity|discriminate H]. Qed.

Lemma started : history archiving 5 [] before.
Proof. apply hi_start; [apply records_none; vm_compute; reflexivity..|apply no_slots; vm_compute; reflexivity]. Qed.

Lemma archive_reads_past_witness : exists t, applied = Ok t /\ balanceAtHeight t bob 5 = getBalance before bob.
Proof.
  destruct (is_ok_Ok applied applies) as [t E]. exists t. split; [exact E|].
  assert (Hh : history archiving 5 ([] ++ [before]) t).
  { apply (hi_block archiving 5 [] before LedgerWitness.block t t started); [reflexivity|exact E|reflexivity]. }
  exact (proj1 (archive_reads_past archiving 5 eq_refl ltac:(lia) [before] t 0 before bob Hh eq_refl eq_refl)).
Defined.

End ArchiveWitness.
