(* ===== verification/Chain.v ===== *)
(** * The chain

    Package blockchain: block checks against the parent, uncles, cumulative
    work, fork choice, reorganisations and snapshots, each in one database
    transaction.  A failed transaction leaves the database as it was; the
    snapshot cache and the log buffers of a reorganisation live in memory
    and keep what a failed one wrote. *)

From S2P Require Import Prelude Params StateTrie Keys Contract Types Instances Tx Block BlockStore State StateCommit Journal Ledger Snapshot Queries.

(** The in-memory half of a node: what a rolled back transaction leaves. *)
Record volatile := {
  v_snapshots : SnapshotManager;
  reorgRemoved : list Log;
  reorgAdded : list Log
}.

Definition v_set_snapshots (v : volatile) (sm : SnapshotManager) : volatile :=
  {| v_snapshots := sm; reorgRemoved := reorgRemoved v; reorgAdded := reorgAdded v |}.

(** ** Transactions *)

Definition TX (A : Type) : Type := Txn -> volatile -> res (A * Txn) * volatile.

Definition tx_ret {A} (a : A) : TX A := fun t v => (Ok (a, t), v).
Definition tx_err {A} (e : error) : TX A := fun _ v => (Err e, v).
Definition tx_bind {A B} (m : TX A) (f : A -> TX B) : TX B := fun t v =>
  match m t v with
  | (Ok (a, t), v) => f a t v
  | (Err e, v) => (Err e, v)
  end.

Notation "'t!' x := m 'in' k" := (tx_bind m (fun x => k)) (at level 10, x pattern, m at level 100, k at level 200).
Notation "'tdo!' m ';' k" := (tx_bind m (fun _ => k)) (at level 10, m at level 100, k at level 200).

(** A read, and a write that may fail. *)
Definition tx_read {A} (f : Txn -> res A) : TX A := fun t v =>
  match f t with Ok a => (Ok (a, t), v) | Err e => (Err e, v) end.
Definition tx_write (f : Txn -> res Txn) : TX unit := fun t v =>
  match f t with Ok t => (Ok (tt, t), v) | Err e => (Err e, v) end.
Definition tx_volatile (f : volatile -> volatile) : TX unit := fun t v => (Ok (tt, t), f v).

(** Both block buckets at once. *)
Definition set_blocks (t : Txn) (b : bucket * bucket) : Txn :=
  setBucket (setBucket t BlockBucketName b.1) TxBucketName b.2.

Section Chain.
Context `{HH : Hasher} `{SL : SigLibs} `{CD : Codec} `{SC : SlotCodec} `{RC : ReceiptCodec}
  `{DC : DepsCodec} `{IF : Inflate} `{ML : MerkleLib} `{PL : PowLib} `{VM_ : ContractVM} `{SHC : SheetCodec}.

Definition blocks (t : Txn) : bucket := Bucket t BlockBucketName.
Definition txs (t : Txn) : bucket := Bucket t TxBucketName.

(** ** fork.go: uncles *)

Definition getBlockFn : Type := bytes -> res FullBlock.

Definition storeGetBlock (blockBucket : bucket) : getBlockFn := GetBlockByHash blockBucket.

Definition branchGetBlock (blockBucket : bucket) (branch : list FullBlock) : getBlockFn :=
  let byHash : gmap bytes FullBlock := foldl (fun m b => <[Block_GetHash b := b]> m) ∅ branch in
  fun hash => match byHash !! hash with Some b => Ok b | None => GetBlockByHash blockBucket hash end.

(** The walk over the ancestors; [fuel] bounds its length. *)
Fixpoint walkAncestors (fuel : nat) (getBlock : getBlockFn) (lowest : Z) (cur : FullBlock)
    (ancestors : gmap Z FullBlock) (referenced : gset bytes) : res (gmap Z FullBlock * gset bytes) :=
  if blockHeight cur <=? lowest then Ok (ancestors, referenced)
  else
    match fuel with
    | O => Err ErrOutOfFuel
    | S fuel =>
        let! parent := getBlock (GetPrevHash (b_Header cur)) in
        walkAncestors fuel getBlock lowest parent (<[blockHeight parent := parent]> ancestors)
          (foldl (fun r u => {[Header_GetHash u]} ∪ r) referenced (b_Uncles parent))
    end.

Definition checkUncleOf (block : FullBlock) (ancestors : gmap Z FullBlock) (referenced : gset bytes) (u : BlockHeader)
    : res (gset bytes) :=
  let depth := i64 (i64 (blockHeight block) - i64 (h_Height u)) in
  reject (depth <? 1) || (UncleMaxDepth <? depth) with ErrUncleInvalid ;
  match ancestors !! u64 (h_Height u - 1) with
  | None => Err ErrUncleInvalid
  | Some uncleParent =>
      reject negb (bool_decide (Block_GetHash uncleParent = h_PrevBlockHash u)) with ErrUncleInvalid ;
      reject match ancestors !! h_Height u with
             | Some onChain => bool_decide (Block_GetHash onChain = Header_GetHash u)
             | None => false
             end with ErrUncleInvalid ;
      reject bool_decide (Header_GetHash u ∈ referenced) with ErrUncleInvalid ;
      reject h_Timestamp u <=? h_Timestamp (b_Header uncleParent) with ErrUncleInvalid ;
      let! correct := GetNextDiff (h_Height u) (h_Timestamp u) (b_Header uncleParent) in
      reject negb (be_Z (h_Difficulty u) =? correct) with ErrUncleInvalid ;
      Ok ({[Header_GetHash u]} ∪ referenced)
  end.

Definition lowestAncestor (height : Z) : Z :=
  if UncleMaxDepth + 1 <? height then height - (UncleMaxDepth + 1) else 0.

Definition validateUncles (getBlock : getBlockFn) (block : FullBlock) : res unit :=
  if (length (b_Uncles block) =? 0)%nat then Ok tt
  else
    let lowest := lowestAncestor (blockHeight block) in
    let! (ancestors, referenced) :=
      walkAncestors (Z.to_nat (UncleMaxDepth + 1)) getBlock lowest block ∅ ∅ in
    do! res_fold (checkUncleOf block ancestors) referenced (b_Uncles block) ;
    Ok tt.

(** ** fork.go: finality and work *)

Definition finalityHeight (tipHeight : Z) : Z :=
  if tipHeight =? 0 then 0 else (tipHeight - 1) / BlockCheckRound * BlockCheckRound.

Definition sideBlockPruneHeight (tipHeight : Z) : Z :=
  let fh := finalityHeight tipHeight in
  if tipHeight <=? UncleMaxDepth then 0
  else let keep := tipHeight - UncleMaxDepth in if keep <? fh then keep else fh.

Definition workOf (block : FullBlock) : Z := be_Z (h_Difficulty (b_Header block)).

(** The walk to a memoised ancestor or the origin; the blocks passed come
    back oldest first. *)
Fixpoint workWalk (fuel : nat) (blk : bucket) (cur : FullBlock) (pending : list FullBlock) : res (Z * list FullBlock) :=
  match GetBlockWork blk (Block_GetHash cur) with
  | Ok work => Ok (work, pending)
  | Err _ =>
      let! originHash := GetOriginHash blk in
      if bool_decide (Block_GetHash cur = originHash) then Ok (0, cur :: pending)
      else
        match fuel with
        | O => Err ErrOutOfFuel
        | S fuel =>
            let! parent := GetBlockByHash blk (GetPrevHash (b_Header cur)) in
            workWalk fuel blk parent (cur :: pending)
        end
  end.

Definition addWork (st : Z * bucket) (b : FullBlock) : Z * bucket :=
  let work := st.1 + workOf b in (work, PutBlockWork st.2 (Block_GetHash b) work).

Definition cumulativeWork (blk : bucket) (block : FullBlock) : res (Z * bucket) :=
  let! (base, pending) := workWalk (Z.to_nat (blockHeight block)) blk block [] in
  Ok (foldl addWork (base, blk) pending).

Definition isCanonical (blk : bucket) (block : FullBlock) : bool :=
  bool_decide (blk !! PackUint64LE (blockHeight block) = Some (Block_GetHash block)).

Fixpoint collectBranch_loop (fuel : nat) (blk : bucket) (originHeight : Z) (cur : FullBlock) (branch : list FullBlock)
    : res (list FullBlock) :=
  if isCanonical blk cur then Ok branch
  else
    let branch := cur :: branch in
    if blockHeight cur <=? u64 (originHeight + 1) then
      let! originHash := GetOriginHash blk in
      reject negb (bool_decide (GetPrevHash (b_Header cur) = originHash)) with ErrReorgBelowOrigin ;
      Ok branch
    else
      match fuel with
      | O => Err ErrOutOfFuel
      | S fuel =>
          let! parent := GetBlockByHash blk (GetPrevHash (b_Header cur)) in
          collectBranch_loop fuel blk originHeight parent branch
      end.

Definition collectBranch (blk : bucket) (tip : FullBlock) : res (list FullBlock) :=
  let! originHeight := GetOriginHeight blk in
  collectBranch_loop (Z.to_nat (blockHeight tip)) blk originHeight tip [].

(** *** Uncles for a template *)

Definition canonicalReferences (blk : bucket) (referenced : gset bytes) (h : Z) : res (gset bytes) :=
  let! anc := GetBlockByHeight blk h in
  Ok (foldl (fun r u => {[Header_GetHash u]} ∪ r) referenced (b_Uncles anc)).

Definition pickUncle (blk : bucket) (st : list BlockHeader * gset bytes) (c : FullBlock) : list BlockHeader * gset bytes :=
  let '(uncles, referenced) := st in
  if MaxUncles <=? zlen uncles then st
  else
    let uh := blockHeight c in
    match GetBlockByHeight blk (u64 (uh - 1)) with
    | Err _ => st
    | Ok canonParent =>
        if negb (bool_decide (Block_GetHash canonParent = GetPrevHash (b_Header c))) then st
        else if match GetBlockByHeight blk uh with
                | Ok canonHere => bool_decide (Block_GetHash canonHere = Block_GetHash c)
                | Err _ => false
                end then st
        else if bool_decide (Block_GetHash c ∈ referenced) then st
        else (uncles ++ [b_Header c], {[Block_GetHash c]} ∪ referenced)
    end.

(** [sort.Slice] by height: an order it may leave. *)
Definition by_height (a b : FullBlock) : Prop := blockHeight a <= blockHeight b.

#[global] Instance by_height_dec : RelDecision by_height.
Proof. intros a b. unfold by_height. apply _. Defined.

Definition CollectUncles (blk : bucket) : res (list BlockHeader) :=
  let! tipHeight := GetLatestHeight blk in
  let nextHeight := u64 (tipHeight + 1) in
  if nextHeight <? 2 then Ok []
  else
    let minH := if UncleMaxDepth <? nextHeight then nextHeight - UncleMaxDepth else 1 in
    let! referenced := res_fold (canonicalReferences blk) ∅ (reverse (heights (lowestAncestor nextHeight + 1) tipHeight)) in
    let! candidates := ListSideBlocksInRange blk minH tipHeight in
    Ok (foldl (pickUncle blk) ([], referenced) (merge_sort by_height candidates)).1.

(** ** check_block.go *)

Definition checkBlockTarget (block prevBlock : FullBlock) : res unit :=
  reject h_Timestamp (b_Header block) <=? h_Timestamp (b_Header prevBlock) with ErrBlockTimeNotMonotonic ;
  let! correctDiff := GetNextDiff (blockHeight block) (h_Timestamp (b_Header block)) (b_Header prevBlock) in
  let blockDiff := be_Z (h_Difficulty (b_Header block)) in
  let! actualDiff := GetActualDiff block in
  reject negb (blockDiff =? correctDiff) with ErrBlockDiffInvalid ;
  reject actualDiff <? correctDiff with ErrBlockDiffInvalid ;
  let correctBaseFee := NextBaseFee (h_Network (b_Header block)) (blockHeight prevBlock)
                          (Some (be_Z (h_BaseFee (b_Header prevBlock)))) (BlockUsedBytes prevBlock) in
  reject negb (be_Z (h_BaseFee (b_Header block)) =? correctBaseFee) with ErrBlockBaseFeeInvalid ;
  Ok tt.

Definition checkBlockTxn (now : Z) (txn : Txn) (block : FullBlock) : res unit :=
  let! genesis := IsGenesis block in
  if (genesis : bool) then Ok tt
  else
    do! CheckError now block ;
    let! originHash := GetOriginHash (blocks txn) in
    do! (if negb (bool_decide (GetPrevHash (b_Header block) = originHash)) then
           let! prevBlock := GetBlockByHash (blocks txn) (GetPrevHash (b_Header block)) in
           checkBlockTarget block prevBlock
         else Ok tt) ;
    do! validateUncles (storeGetBlock (blocks txn)) block ;
    CheckBlockTxs txn block.

Definition checkBranchBlock (now : Z) (getBlock : getBlockFn) (block prev : FullBlock) : res unit :=
  do! CheckError now block ;
  reject negb (blockHeight block =? u64 (blockHeight prev + 1))
         || negb (bool_decide (GetPrevHash (b_Header block) = Block_GetHash prev)) with ErrBranchDisconnected ;
  do! checkBlockTarget block prev ;
  validateUncles getBlock block.

Fixpoint checkBranch (now : Z) (getBlock : getBlockFn) (prev : FullBlock) (branch : list FullBlock) : res unit :=
  match branch with
  | [] => Ok tt
  | block :: rest => do! checkBranchBlock now getBlock block prev ; checkBranch now getBlock block rest
  end.

(** ** The write transactions *)

Definition tx_work (block : FullBlock) : TX Z := fun t v =>
  match cumulativeWork (blocks t) block with
  | Ok (w, blk) => (Ok (w, setBucket t BlockBucketName blk), v)
  | Err e => (Err e, v)
  end.

Definition tx_snapshot (state : State) : TX unit := fun t v =>
  match GenerateSnapshotTxn state (v_snapshots v) t with
  | (sm, Ok t) => (Ok (tt, t), v_set_snapshots v sm)
  | (sm, Err e) => (Err e, v_set_snapshots v sm)
  end.

(** What a checkpoint tip adds. *)
Definition checkpoint (state : State) (tip : FullBlock) : TX unit :=
  if negb (IsHead tip) then tx_ret tt
  else
    tdo! tx_snapshot state ;
    tdo! (if negb (st_Archive state) then
            tx_write (fun t => let t := PruneReceiptsTxn t (blockHeight tip) in
                               Ok (setBucket t TxBucketName (PruneAddrTxIndexTxn (txs t) (ReceiptFloor (blockHeight tip)))))
          else tx_ret tt) ;
    tx_write (fun t => let! (_, blk) := PruneSideBlocks (blocks t) (sideBlockPruneHeight (blockHeight tip)) in
                       Ok (setBucket t BlockBucketName blk)).

Definition tx_logs (from to : Z) : TX (list Log) :=
  tx_read (fun t => CollectLogsTxn t {| lf_FromHeight := from; lf_ToHeight := to; lf_Address := None; lf_Topic := None |}).

Definition switchToBranchTxn (state : State) (branch : list FullBlock) : TX unit :=
  match branch, last branch with
  | first :: _, Some newTip =>
      let forkHeight := u64 (blockHeight first - 1) in
      t! oldTip := tx_read (fun t => GetLatestHeight (blocks t)) in
      tdo! (if forkHeight <? oldTip then
              t! removed := tx_logs (forkHeight + 1) oldTip in
              tx_volatile (fun v => {| v_snapshots := v_snapshots v; reorgRemoved := removed; reorgAdded := reorgAdded v |})
            else tx_ret tt) ;
      t! unwound := (fun t v => match UnwindToTxn state t forkHeight with
                                | Ok (b, t) => (Ok (b, t), v)
                                | Err e => (Err e, v)
                                end) in
      tdo! tx_write (fun t => let! b := SwitchToBranch (blocks t) (txs t) branch in Ok (set_blocks t b)) ;
      tdo! (if (unwound : bool) then tx_write (fun t => ApplyBlocksTxn state t branch)
            else tx_write (RebuildFromBlockStoreTxn state)) ;
      tdo! checkpoint state newTip ;
      if forkHeight + 1 <? blockHeight newTip then
        t! added := tx_logs (forkHeight + 1) (blockHeight newTip - 1) in
        tx_volatile (fun v => {| v_snapshots := v_snapshots v; reorgRemoved := reorgRemoved v; reorgAdded := added |})
      else tx_ret tt
  | _, _ => tx_err GoPanic
  end.

(** The block extends the canonical tip. *)
Definition extendTip (now : Z) (state : State) (block : FullBlock) : TX bool :=
  tdo! tx_read (fun t => checkBlockTxn now t block) ;
  tdo! tx_write (fun t => let! b := PutNewBlock (blocks t) (txs t) block in Ok (set_blocks t b)) ;
  tdo! tx_work block ;
  tdo! tx_write (fun t => Upgrade state t block) ;
  tdo! tx_read (fun t => CheckStateRoot t (h_StateRoot (b_Header block))) ;
  tdo! checkpoint state block ;
  tx_ret true.

(** Fork choice: more work, and on equal work the smaller hash. *)
Definition loses (work : Z) (block : FullBlock) (tipWork : Z) (tip : FullBlock) : bool :=
  (work <? tipWork) || ((work =? tipWork) && bool_decide (bytes_le (Block_GetHash tip) (Block_GetHash block))).

(** The block forks off the canonical chain. *)
Definition importSide (now : Z) (state : State) (block : FullBlock) : TX bool :=
  t! prev := tx_read (fun t => match GetBlockByHash (blocks t) (GetPrevHash (b_Header block)) with
                               | Ok b => Ok b
                               | Err _ => Err ErrPrevBlockNotExist
                               end) in
  tdo! tx_read (fun t => checkBranchBlock now (storeGetBlock (blocks t)) block prev) ;
  tdo! tx_write (fun t => Ok (setBucket t BlockBucketName (PutSideBlock (blocks t) block))) ;
  t! blockWork := tx_work block in
  t! tip := tx_read (fun t => GetLatestBlock (blocks t)) in
  t! tipWork := tx_work tip in
  if loses blockWork block tipWork tip then tx_ret false
  else
    t! branch := tx_read (fun t => collectBranch (blocks t) block) in
    match branch with
    | [] => tx_err GoPanic
    | first :: _ =>
        let forkPoint := u64 (blockHeight first - 1) in
        if forkPoint <? finalityHeight (blockHeight tip) then tx_err ErrReorgBeyondFinality
        else tdo! switchToBranchTxn state branch ; tx_ret true
    end.

Definition importBlock (now : Z) (state : State) (block : FullBlock) : TX bool :=
  t! latestHash := tx_read (fun t => GetLatestHash (blocks t)) in
  if bool_decide (GetPrevHash (b_Header block) = latestHash) then extendTip now state block
  else importSide now state block.

(** ** The chain object *)

Record Chain := {
  ch_Network : Network;
  ch_State : State;
  ch_db : Txn;
  ch_volatile : volatile
}.

(** The hooks a committed change runs. *)
Inductive notification := OnReorg (removed added : list Log) | OnTipChanged.

Definition notifyReorg (v : volatile) : list notification * volatile :=
  ((if negb (length (reorgRemoved v) =? 0)%nat || negb (length (reorgAdded v) =? 0)%nat
    then [OnReorg (reorgRemoved v) (reorgAdded v)] else []),
   {| v_snapshots := v_snapshots v; reorgRemoved := []; reorgAdded := [] |}).

Definition clearReorg (v : volatile) : volatile := {| v_snapshots := v_snapshots v; reorgRemoved := []; reorgAdded := [] |}.

(** [Update]: commit on success, roll back on error. *)
Definition run_update {A} (c : Chain) (v : volatile) (m : TX A) : res A * Chain :=
  match m (ch_db c) v with
  | (Ok (a, t), v) => (Ok a, {| ch_Network := ch_Network c; ch_State := ch_State c; ch_db := t; ch_volatile := v |})
  | (Err e, v) => (Err e, {| ch_Network := ch_Network c; ch_State := ch_State c; ch_db := ch_db c; ch_volatile := v |})
  end.

Definition notify (c : Chain) : list notification * Chain :=
  let '(ns, v) := notifyReorg (ch_volatile c) in
  (ns ++ [OnTipChanged], {| ch_Network := ch_Network c; ch_State := ch_State c; ch_db := ch_db c; ch_volatile := v |}).

(** pow_chain.go *)
Definition ApplyBlock (now : Z) (c : Chain) (block : FullBlock) : res (list notification) * Chain :=
  match run_update c (clearReorg (ch_volatile c)) (importBlock now (ch_State c) block) with
  | (Err e, c) => (Err e, c)
  | (Ok false, c) => (Ok [], c)
  | (Ok true, c) => let '(ns, c) := notify c in (Ok ns, c)
  end.

Definition convergeTxn (now : Z) (state : State) (branch : list FullBlock) : TX unit :=
  match branch, last branch with
  | first :: _, Some newTip =>
      t! forkParent := tx_read (fun t => GetBlockByHash (blocks t) (GetPrevHash (b_Header first))) in
      tdo! tx_read (fun t => checkBranch now (branchGetBlock (blocks t) branch) forkParent branch) ;
      t! base := tx_work forkParent in
      let branchWork := foldl (fun w b => w + workOf b) base branch in
      t! tip := tx_read (fun t => GetLatestBlock (blocks t)) in
      t! tipWork := tx_work tip in
      if loses branchWork newTip tipWork tip then tx_err ErrBranchNotHeavier
      else switchToBranchTxn state branch
  | _, _ => tx_err ErrBranchEmpty
  end.

Definition Chain_SwitchToBranch (now : Z) (c : Chain) (branch : list FullBlock) : res (list notification) * Chain :=
  match branch with
  | [] => (Err ErrBranchEmpty, c)
  | _ =>
      match run_update c (clearReorg (ch_volatile c)) (convergeTxn now (ch_State c) branch) with
      | (Err e, c) => (Err e, c)
      | (Ok _, c) => let '(ns, c) := notify c in (Ok ns, c)
      end
  end.

(** snapshot.go *)
Definition snapshotTxn (now : Z) (state : State) (segment : list FullBlock) (tip : FullBlock) (sheet : Sheet) : TX unit :=
  match segment with
  | [] => tx_err ErrBranchEmpty
  | first :: _ =>
      t! prev := tx_read (fun t => GetBlockByHash (blocks t) (GetPrevHash (b_Header first))) in
      tdo! tx_read (fun t => checkBranch now (branchGetBlock (blocks t) segment) prev segment) ;
      tdo! tx_write (fun t => let! b := SwitchToBranch (blocks t) (txs t) segment in Ok (set_blocks t b)) ;
      tdo! tx_work tip ;
      tdo! tx_write (fun t => RebuildFromSheetTxn t sheet) ;
      fun t v => let '(sm, t) := PutSnapshotTxn (v_snapshots v) t sheet in (Ok (tt, t), v_set_snapshots v sm)
  end.

Definition ApplySnapshot (now : Z) (c : Chain) (segment : list FullBlock) (sheet : Sheet) : res (list notification) * Chain :=
  match last segment with
  | None => (Err ErrBranchEmpty, c)
  | Some tip =>
      if negb (sh_Network sheet =? ch_Network c) || negb (sh_Height sheet =? blockHeight tip)
         || negb (bool_decide (sh_BlockHash sheet = Block_GetHash tip)) then (Err ErrSheetMismatch, c)
      else
        match run_update c (ch_volatile c) (snapshotTxn now (ch_State c) segment tip sheet) with
        | (Err e, c) => (Err e, c)
        | (Ok _, c) => (Ok [OnTipChanged], c)
        end
  end.

Definition forcePut (now : Z) (t : Txn) (block : FullBlock) : res Txn :=
  do! CheckError now block ;
  let! b := ForcePutNewBlock (blocks t) (txs t) block in
  Ok (set_blocks t b).

Definition ForceApplyBlocks (now : Z) (c : Chain) (bs : list FullBlock) : res unit * Chain :=
  run_update c (ch_volatile c) (tx_write (fun t => res_fold (forcePut now) t bs)).

(** ** pow_blocks.go, pow_tx.go: reads *)

Definition GetLatestBlockHeight (c : Chain) : Z :=
  match GetLatestHeight (blocks (ch_db c)) with Ok h => h | Err _ => 0 end.

Definition GetLatestBlockHash (c : Chain) : bytes :=
  match GetLatestHash (blocks (ch_db c)) with Ok h => h | Err _ => [] end.

Definition getBlockByHeight (c : Chain) (height : Z) : res FullBlock :=
  if height =? 0 then GetGenesisBlock (ch_Network c) else GetBlockByHeight (blocks (ch_db c)) height.

Definition getLatestBlock (c : Chain) : res FullBlock :=
  match getBlockByHeight c (GetLatestBlockHeight c) with
  | Ok block => Ok block
  | Err _ => GetGenesisBlock (ch_Network c)
  end.

(** A missing checkpoint is a nil block. *)
Definition GetLatestCheckpoint (c : Chain) : res (option FullBlock) :=
  let! b := getLatestBlock c in
  let! genesis := IsGenesis b in
  if genesis || IsHead b then Ok (Some b)
  else
    Ok (match getBlockByHeight c (blockHeight b - blockHeight b mod BlockCheckRound) with
        | Ok b => Some b
        | Err _ => None
        end).

Definition getBlockByHash (c : Chain) (hash : bytes) : res FullBlock :=
  let! genesis := GetGenesisBlock (ch_Network c) in
  if bool_decide (hash = Block_GetHash genesis) then Ok genesis
  else
    reject negb (zlen hash =? 32) with ErrHashSize ;
    GetBlockByHash (blocks (ch_db c)) hash.

Definition Chain_GetOriginBlock (c : Chain) : res FullBlock :=
  match GetOriginBlock (blocks (ch_db c)) with
  | Ok b => Ok b
  | Err _ => GetGenesisBlock (ch_Network c)
  end.

Definition GetTxLocation (c : Chain) (txHash : bytes) : res (bytes * Z) :=
  let! blockHash := GetTxBlockHash (txs (ch_db c)) txHash in
  let! block := GetBlockByHash (blocks (ch_db c)) blockHash in
  Ok (blockHash, blockHeight block).

End Chain.
