(* ===== verification/Graft.v ===== *)
(** * State and block store are independent

    The state layer reads and writes its own buckets only, so applying a
    block gives the same state whatever the block store holds: every
    operation of ngstate commutes with [graft], which replaces the block
    store of a transaction. *)

From S2P Require Import Prelude Params StateTrie Keys Contract Types Instances Tx Block BlockStore State StateCommit VM Journal Ledger Chain.

(** The result of a fallible function, changed. *)
Definition res_map {A B} (f : A -> B) (r : res A) : res B := match r with Ok a => Ok (f a) | Err e => Err e end.

Section Graft.
Variable store : bucket * bucket.

(** [graft t]: the state of [t] beside another block store. *)
Definition graft (t : Txn) : Txn := set_blocks t store.

Definition is_state (n : BucketName) : bool := match n with BlockBucketName | TxBucketName => false | _ => true end.

Lemma Bucket_graft t n : is_state n = true -> Bucket (graft t) n = Bucket t n.
Proof.
  intros Hn. unfold graft, set_blocks, setBucket, Bucket. by rewrite !lookup_insert_ne by (intros <-; done).
Qed.

Lemma bGet_graft t n k : is_state n = true -> bGet (graft t) n k = bGet t n k.
Proof. intros Hn. unfold bGet. by rewrite Bucket_graft. Qed.

Lemma setBucket_graft t n b : is_state n = true -> setBucket (graft t) n b = graft (setBucket t n b).
Proof.
  intros Hn. unfold graft, set_blocks, setBucket.
  rewrite (insert_insert_ne _ n TxBucketName), (insert_insert_ne _ n BlockBucketName); [done|intros ->; done..].
Qed.

Lemma bPut_graft t n k v : is_state n = true -> bPut (graft t) n k v = graft (bPut t n k v).
Proof. intros Hn. unfold bPut. by rewrite Bucket_graft, setBucket_graft. Qed.

Lemma bDelete_graft t n k : is_state n = true -> bDelete (graft t) n k = graft (bDelete t n k).
Proof. intros Hn. unfold bDelete. by rewrite Bucket_graft, setBucket_graft. Qed.

Lemma foldl_graft {A} (f : Txn -> A -> Txn) l : (forall t x, f (graft t) x = graft (f t x)) ->
  forall t, foldl f (graft t) l = graft (foldl f t l).
Proof. intros Hf. induction l as [|x l IH]; intros t; cbn [foldl]; [done|]. by rewrite Hf, IH. Qed.

Lemma fold_graft {A S} (g : S -> S) (f : S -> A -> res S) l : (forall s x, f (g s) x = res_map g (f s x)) ->
  forall s, res_fold f (g s) l = res_map g (res_fold f s l).
Proof. intros Hf. induction l as [|x l IH]; intros s; cbn [res_fold]; [done|]. rewrite Hf. destruct (f s x); [apply IH|done]. Qed.

End Graft.

(** Reads see through a graft and writes pass under it. *)
Ltac graft_step :=
  first [ rewrite Bucket_graft by reflexivity | rewrite bGet_graft by reflexivity | rewrite bPut_graft by reflexivity
        | rewrite bDelete_graft by reflexivity | rewrite setBucket_graft by reflexivity ].

Section State.
Context `{HH : Hasher} `{SL : SigLibs} `{CD : Codec} `{SC : SlotCodec}.
Variable store : bucket * bucket.
Abbreviation G := (graft store).

(** ** Reads *)

Lemma getBalance_graft t a : getBalance (G t) a = getBalance t a.
Proof. unfold getBalance. by graft_step. Qed.

Lemma getContract_graft t a : getContract (G t) a = getContract t a.
Proof. unfold getContract, decodeStoredContract, loadCode. by repeat (graft_step || case_match). Qed.

Lemma contractExists_graft t a : contractExists (G t) a = contractExists t a.
Proof. unfold contractExists. by graft_step. Qed.

Lemma keyResolver_graft t : keyResolver (G t) = keyResolver t.
Proof. unfold keyResolver, bGet. by graft_step. Qed.

Lemma commit_at_graft t from hash h : commit_at (G t) from hash h = commit_at t from hash h.
Proof. unfold commit_at. by graft_step. Qed.

Lemma findCommit_graft t from hash h : findCommit (G t) from hash h = findCommit t from hash h.
Proof. unfold findCommit. f_equal. apply list_filter_iff. intros x. by rewrite commit_at_graft. Qed.

Lemma commitFromPending_graft t from hash h : commitFromPending (G t) from hash h = commitFromPending t from hash h.
Proof.
  unfold commitFromPending. induction (scan_heights _ _) as [|x l IH]; [done|]. cbn [existsb]. by rewrite commit_at_graft, IH.
Qed.

Lemma getBeacon_graft t : getBeacon (G t) = getBeacon t.
Proof. unfold getBeacon. by graft_step. Qed.

Lemma StateRoot_graft t : StateRoot (G t) = StateRoot t.
Proof. unfold StateRoot, newNodeStore. by graft_step. Qed.

(** ** Writes *)

Lemma trieSetLeaf_graft t d k v : trieSetLeaf (G t) d k v = G (trieSetLeaf t d k v).
Proof. unfold trieSetLeaf, newNodeStore. graft_step. cbv zeta. case_match; [by graft_step|done]. Qed.

Lemma recordBal_graft cs t a : recordBal cs (G t) a = G (recordBal cs t a).
Proof. unfold recordBal. destruct cs; [|done]. cbv zeta. graft_step. case_match; [done|]. by repeat graft_step. Qed.

Lemma recordContract_graft cs t a : recordContract cs (G t) a = G (recordContract cs t a).
Proof. unfold recordContract. destruct cs; [|done]. cbv zeta. graft_step. case_match; [done|]. by repeat graft_step. Qed.

Lemma recordKey_graft cs t a : recordKey cs (G t) a = G (recordKey cs t a).
Proof. unfold recordKey. destruct cs; [|done]. cbv zeta. graft_step. case_match; [done|]. by repeat graft_step. Qed.

Lemma recordBeacon_graft cs t : recordBeacon cs (G t) = G (recordBeacon cs t).
Proof. unfold recordBeacon. destruct cs; [|done]. cbv zeta. graft_step. case_match; [done|]. by repeat graft_step. Qed.

Lemma setBalance_graft t cs a b : setBalance (G t) cs a b = G (setBalance t cs a b).
Proof. unfold setBalance, trieSetBalance. cbv zeta. rewrite recordBal_graft. graft_step. apply trieSetLeaf_graft. Qed.

Lemma registerPubKey_graft t cs tx : registerPubKey (G t) cs tx = G (registerPubKey t cs tx).
Proof.
  unfold registerPubKey, trieSetKey. cbv zeta. do 2 (case_match; [done|]). graft_step. case_match; [done|].
  rewrite recordKey_graft. graft_step. apply trieSetLeaf_graft.
Qed.

Lemma retainCode_graft t h code : retainCode (G t) h code = res_map G (retainCode t h code).
Proof. unfold retainCode. graft_step. case_match; [destruct (read_u64 _); [|done]|]; cbn; by graft_step. Qed.

Lemma releaseCode_graft t h keep : releaseCode (G t) h keep = G (releaseCode t h keep).
Proof. unfold releaseCode. graft_step. repeat (case_match; try done); by graft_step. Qed.

Lemma reconcileCode_graft t cs owner h source : reconcileCode (G t) cs owner h source = res_map G (reconcileCode t cs owner h source).
Proof.
  unfold reconcileCode. graft_step. repeat (case_match; try done); rewrite ?releaseCode_graft; apply retainCode_graft.
Qed.

Lemma setContract_graft t cs acc : setContract (G t) cs acc = res_map G (setContract t cs acc).
Proof.
  unfold setContract, trieSetContract. cbv zeta. rewrite recordContract_graft, reconcileCode_graft.
  destruct (reconcileCode _ _ _ _ _); [|done]. cbn. graft_step. by rewrite trieSetLeaf_graft.
Qed.

Lemma delContract_graft t cs a : delContract (G t) cs a = G (delContract t cs a).
Proof.
  unfold delContract, trieSetContract. cbv zeta. rewrite recordContract_graft. graft_step.
  repeat case_match; rewrite ?releaseCode_graft; graft_step; apply trieSetLeaf_graft.
Qed.

Lemma putCommit_graft t h hash from : putCommit (G t) h hash from = G (putCommit t h hash from).
Proof. unfold putCommit, trieSetCommit. cbv zeta. graft_step. apply trieSetLeaf_graft. Qed.

Lemma consumeCommit_graft t h hash : consumeCommit (G t) h hash = G (consumeCommit t h hash).
Proof. unfold consumeCommit, trieSetCommit. cbv zeta. graft_step. apply trieSetLeaf_graft. Qed.

Lemma journalConsumed_graft t h h' hash from : journalConsumed (G t) h h' hash from = G (journalConsumed t h h' hash from).
Proof. unfold journalConsumed. by graft_step. Qed.

Lemma updateBeacon_graft t cs b : updateBeacon (G t) cs b = G (updateBeacon t cs b).
Proof.
  unfold updateBeacon, setBeacon, trieSetBeacon. do 2 (case_match; [done|]). cbv zeta.
  rewrite getBeacon_graft, recordBeacon_graft. graft_step. apply trieSetLeaf_graft.
Qed.

Lemma pruneHeight_graft t n cutoff inTrie : is_state n = true ->
  pruneHeightBucketBelow (G t) n cutoff inTrie = G (pruneHeightBucketBelow t n cutoff inTrie).
Proof.
  intros Hn. unfold pruneHeightBucketBelow. rewrite Bucket_graft by done. apply foldl_graft. intros u k.
  unfold pruneEntry, trieSetCommit. rewrite bDelete_graft by done. case_match; [apply trieSetLeaf_graft|done].
Qed.

Lemma pruneCommits_graft t tip : pruneCommits (G t) tip = G (pruneCommits t tip).
Proof. unfold pruneCommits. case_match; [done|]. cbv zeta. by rewrite !pruneHeight_graft. Qed.

(** ** The journal of a run *)

Lemma flush_graft j t cs : flush j (G t) cs = res_map G (flush j t cs).
Proof.
  unfold flush, flushBalances, flushAccounts. rewrite (foldl_graft store) by (intros; apply setBalance_graft).
  apply fold_graft. intros u kv. apply setContract_graft.
Qed.

Lemma refundContractDeposit_graft t cs a ctx : refundContractDeposit (G t) cs a ctx = G (refundContractDeposit t cs a ctx).
Proof.
  unfold refundContractDeposit. cbv zeta. case_match; [done|]. rewrite getBalance_graft. case_match; [done|].
  by rewrite setBalance_graft, getBalance_graft, setBalance_graft.
Qed.

Lemma balanceOf_graft j t a : balanceOf j (G t) a = balanceOf j t a.
Proof. unfold balanceOf. case_match; [done|apply getBalance_graft]. Qed.

Lemma contractOf_graft j t a : contractOf j (G t) a = contractOf j t a.
Proof. unfold contractOf. by rewrite getContract_graft. Qed.

Lemma contextOf_graft j t a : contextOf j (G t) a = contextOf j t a.
Proof. unfold contextOf. by rewrite contractOf_graft. Qed.

Lemma transfer_graft j t from to value : transfer j (G t) from to value = transfer j t from to value.
Proof. unfold transfer. cbv zeta. by rewrite !balanceOf_graft. Qed.

Lemma lockDeposit_graft j t a amount : lockDeposit j (G t) a amount = lockDeposit j t a amount.
Proof. unfold lockDeposit. rewrite transfer_graft. case_match; [done|]. case_match; [|done]. by rewrite contextOf_graft. Qed.

Lemma refundDeposit_graft j t a amount : refundDeposit j (G t) a amount = refundDeposit j t a amount.
Proof.
  unfold refundDeposit. rewrite contextOf_graft. case_match; [done|]. destruct (contextOf j t a) as [[[ctx|] j']|]; [|done..].
  cbn [res_bind]. cbv zeta. by rewrite balanceOf_graft, transfer_graft.
Qed.

End State.

(** ** What the state layer asks of the machine

    A machine made on a grafted state is the machine made on the state, on
    another block store. *)
Class VMStateOnly `{ContractVM} := {
  vm_graft : bucket * bucket -> VM -> VM;
  NewVM_graft : forall store t acc tx bt,
    NewVM (graft store t) acc tx bt
    = res_map (fun r => match r with inl e => inl e | inr v => inr (vm_graft store v) end) (NewVM t acc tx bt);
  EntryFor_graft : forall store v entry,
    EntryFor (vm_graft store v) entry = res_map (fun r => (r.1, vm_graft store r.2)) (EntryFor v entry);
  LimitToll_graft : forall store v budget, LimitToll (vm_graft store v) budget = vm_graft store (LimitToll v budget);
  vm_call_graft : forall store v entry,
    vm_call (vm_graft store v) entry = res_map (fun r => (r.1, vm_graft store r.2)) (vm_call v entry);
  GasUsed_graft : forall store v, GasUsed (vm_graft store v) = GasUsed v;
  Events_graft : forall store v, Events (vm_graft store v) = Events v;
  Trace_graft : forall store v, Trace (vm_graft store v) = Trace v;
  journal_graft : forall store v, journal (vm_graft store v) = journal v
}.

Section Ledger.
Context `{HH : Hasher} `{SL : SigLibs} `{CD : Codec} `{SC : SlotCodec} `{RC : ReceiptCodec}
  `{DC : DepsCodec} `{IF : Inflate} `{ML : MerkleLib} `{VM_ : ContractVM} `{!VMStateOnly}.
Variable store : bucket * bucket.
Abbreviation G := (graft store).
Abbreviation GG := (fun s : Txn * option Z => (G s.1, s.2)).

Lemma recordRun_graft t tx run : recordRun (G t) tx run = G (recordRun t tx run).
Proof.
  unfold recordRun, appendContractRun. graft_step.
  destruct (bGet t ReceiptBucketName (GetHash tx)) as [raw|]; [destruct (dec_txReceipt raw); [|done]|]; cbn [res_bind]; by graft_step.
Qed.

Lemma runContract_graft cs t a tx entry bt gas :
  runContract cs (G t) a tx entry bt gas = res_map (fun r => (r.1.1, G r.1.2, r.2)) (runContract cs t a tx entry bt gas).
Proof.
  unfold runContract. rewrite getContract_graft. destruct (getContract t a) as [acc|]; [|done]. case_match; [done|].
  case_match; [by rewrite recordRun_graft|]. rewrite NewVM_graft. destruct (NewVM t acc tx bt) as [[e|vm]|]; cbn [res_map res_bind]; [by rewrite recordRun_graft| |done].
  rewrite EntryFor_graft. destruct (EntryFor vm entry) as [[e1 v1]|]; [|done]. cbn [res_map res_bind fst snd].
  assert (El : match gas with Some remaining => if remaining <? vmMaxToll then LimitToll (vm_graft store v1) remaining else vm_graft store v1 | None => vm_graft store v1 end
    = vm_graft store (match gas with Some remaining => if remaining <? vmMaxToll then LimitToll v1 remaining else v1 | None => v1 end)).
  { destruct gas; [|done]. case_match; [apply LimitToll_graft|done]. }
  rewrite El. generalize (match gas with Some remaining => if remaining <? vmMaxToll then LimitToll v1 remaining else v1 | None => v1 end). intros v2.
  rewrite vm_call_graft. destruct (vm_call v2 e1) as [[[[text missing]|] v3]|]; [| |done]; cbn [res_map res_bind fst snd];
    rewrite ?GasUsed_graft, ?Trace_graft, ?Events_graft, ?journal_graft.
  - destruct (missing && _); [done|]. cbn. by rewrite recordRun_graft.
  - rewrite flush_graft. destruct (flush _ _ _); [|done]. cbn. by rewrite recordRun_graft.
Qed.

Lemma runValidate_graft cs t tx bt gas : runValidate cs (G t) tx bt gas = res_map GG (runValidate cs t tx bt gas).
Proof.
  unfold runValidate. destruct (From tx) as [from|]; [|done]. cbn [res_bind]. rewrite getContract_graft. destruct (getContract t from); [|done].
  case_match; [done|]. destruct (contractHasExport _ _); [|done]. cbn [res_bind]. case_match; [done|]. rewrite runContract_graft.
  destruct (runContract _ _ _ _ _ _ _) as [[[ok u] g]|]; [|done]. cbn [res_map res_bind fst snd]. by destruct ok.
Qed.

Lemma handleGenerate_graft cs t tx : handleGenerate cs (G t) tx = res_map G (handleGenerate cs t tx).
Proof.
  unfold handleGenerate. rewrite keyResolver_graft. destruct (negb _).
  - destruct (Verify _ _); [|done]. cbn. by rewrite registerPubKey_graft, getBalance_graft, setBalance_graft.
  - cbn. by rewrite getBalance_graft, setBalance_graft.
Qed.

Lemma chargeFrom_graft t cs tx e : chargeFrom (G t) cs tx e = res_map (fun r => (r.1, G r.2)) (chargeFrom t cs tx e).
Proof.
  unfold chargeFrom. rewrite keyResolver_graft. destruct (Verify _ _); [|done]. cbn [res_bind]. cbv zeta.
  rewrite registerPubKey_graft. destruct (From tx); [|done]. cbn [res_bind]. rewrite getBalance_graft. destruct (_ <? _); [done|].
  cbn. by rewrite setBalance_graft.
Qed.

Lemma handleTransaction_graft cs t tx bt gas : handleTransaction cs (G t) tx bt gas = res_map GG (handleTransaction cs t tx bt gas).
Proof.
  unfold handleTransaction. rewrite chargeFrom_graft. destruct (chargeFrom _ _ _ _) as [[a u]|]; [|done]. cbn [res_map res_bind fst snd]. cbv zeta.
  rewrite getBalance_graft, setBalance_graft, contractExists_graft. case_match; [|done]. rewrite runContract_graft.
  by destruct (runContract _ _ _ _ _ _ _) as [[[ok u'] g]|].
Qed.

Lemma checkDeps_graft t from deps : checkDeps (G t) from deps = checkDeps t from deps.
Proof.
  unfold checkDeps. induction deps as [|d l IH]; [done|]. cbn [res_fold].
  replace (checkDep (G t) from d) with (checkDep t from d) by (unfold checkDep; by rewrite getContract_graft).
  destruct (checkDep t from d) as [[]|]; [exact IH|done].
Qed.

Lemma pinDeps_graft t cs deps : pinDeps (G t) cs deps = res_map G (pinDeps t cs deps).
Proof.
  apply fold_graft. intros u d. unfold pinDep. rewrite getContract_graft. destruct (getContract u d); [|done]. cbn [res_bind].
  destruct (getRefCount _); [|done]. cbn [res_bind]. destruct (setRefCount _ _); [|done]. apply setContract_graft.
Qed.

Lemma releaseContractDeps_graft t cs slot : releaseContractDeps (G t) cs slot = res_map G (releaseContractDeps t cs slot).
Proof.
  unfold releaseContractDeps. destruct (getContractDeps slot); [|done]. apply fold_graft. intros u d. unfold releaseDep. rewrite getContract_graft.
  destruct (getContract u d); [|done]. cbn [res_bind]. destruct (getRefCount _); [|done]. cbn [res_bind]. case_match; [|done].
  destruct (setRefCount _ _); [|done]. apply setContract_graft.
Qed.

Lemma handleDestroy_graft st cs t tx from slot bt gas :
  handleDestroy st cs (G t) tx from slot bt gas = res_map GG (handleDestroy st cs t tx from slot bt gas).
Proof.
  unfold handleDestroy. destruct slot as [acc|]; [|done]. destruct (negb _); [done|]. cbn [guard]. destruct (getRefCount acc); [|done]. cbn [res_bind].
  destruct (0 <? _); [done|]. cbn [guard]. rewrite runContract_graft. destruct (runContract _ _ _ _ _ _ _) as [[[ok u] g]|]; [|done].
  cbn [res_map res_bind fst snd]. destruct (negb ok); [done|]. rewrite releaseContractDeps_graft. destruct (releaseContractDeps _ _ _) as [u1|]; [|done].
  cbn [res_map res_bind]. unfold with_context. destruct (IsForkActive _ _ _); [destruct (Context' acc); [|done]|]; cbn;
    by rewrite ?refundContractDeposit_graft, delContract_graft.
Qed.

Lemma upgradeSlot_graft cs t tx from slot bt gas :
  upgradeSlot cs (G t) tx from slot bt gas = res_map (fun r => (r.1.1, G r.1.2, r.2)) (upgradeSlot cs t tx from slot bt gas).
Proof.
  unfold upgradeSlot. destruct slot as [acc|]; [|done]. case_match; [|done]. rewrite runContract_graft.
  destruct (runContract _ _ _ _ _ _ _) as [[[ok u] g]|]; [|done]. cbn [res_map res_bind fst snd]. destruct (negb ok); [done|].
  rewrite releaseContractDeps_graft. by destruct (releaseContractDeps _ _ _).
Qed.

Lemma handleDeploy_graft st cs t tx bt gas : handleDeploy st cs (G t) tx bt gas = res_map GG (handleDeploy st cs t tx bt gas).
Proof.
  unfold handleDeploy. rewrite keyResolver_graft. destruct (CheckDeploy _ _); [|done]. cbn [res_bind]. rewrite chargeFrom_graft.
  destruct (chargeFrom _ _ _ _) as [[from u]|]; [|done]. cbn [res_map res_bind fst snd]. destruct (DecodeCommitCode _ _) as [src|]; [|done]. cbn [res_bind].
  destruct (_ <? _); [done|]. cbn [guard]. cbv zeta. rewrite getContract_graft. case_match; [apply handleDestroy_graft|].
  destruct (LoadContractWasm _); [|done]. cbn [res_bind]. unfold validateDeps.
  destruct (extractContractDeps src) as [deps|]; [|done]. cbn [res_bind]. rewrite checkDeps_graft. destruct (checkDeps _ _ _); [|done]. cbn [res_bind].
  rewrite upgradeSlot_graft. destruct (upgradeSlot _ _ _ _ _ _ _) as [[[[slot|] u1] g1]|]; [|done..]. cbn [res_map res_bind fst snd].
  rewrite pinDeps_graft. destruct (pinDeps _ _ _) as [u2|]; [|done]. cbn [res_map res_bind]. destruct (setContractDeps _ _) as [slot'|]; [|done]. cbn [res_bind].
  rewrite setContract_graft. destruct (setContract _ _ _) as [u3|]; [|done]. cbn [res_map res_bind]. rewrite runContract_graft.
  by destruct (runContract _ _ _ _ _ _ _) as [[[ok u4] g4]|].
Qed.

Lemma consumeReveal_graft t tx : consumeReveal (G t) tx = res_map G (consumeReveal t tx).
Proof.
  unfold consumeReveal. case_match; [done|]. destruct (_ <? _); [done|]. cbn [guard]. destruct (From tx); [|done]. cbn [res_bind]. cbv zeta.
  rewrite findCommit_graft. case_match; [|done]. cbn. by rewrite journalConsumed_graft, consumeCommit_graft.
Qed.

Lemma handleTx_graft st cs bt s tx : handleTx st cs bt (GG s) tx = res_map GG (handleTx st cs bt s tx).
Proof.
  destruct s as [t gas]. unfold handleTx. cbn [fst snd]. case_match.
  { rewrite handleGenerate_graft. by destruct (handleGenerate _ _ _). }
  case_match; [|case_match; [|done]]; rewrite consumeReveal_graft; (destruct (consumeReveal t tx) as [u|]; [|done]); cbn [res_map res_bind];
    rewrite runValidate_graft; (destruct (runValidate _ _ _ _ _) as [[u1 g1]|]; [|done]); cbn [res_map res_bind fst snd].
  - apply handleTransaction_graft.
  - apply handleDeploy_graft.
Qed.

Lemma handleCommit_graft cs t c : handleCommit cs (G t) c = res_map G (handleCommit cs t c).
Proof.
  unfold handleCommit. rewrite keyResolver_graft. destruct (Commitment_Verify _ _); [|done]. cbn [res_bind]. destruct (Commitment_From c); [|done]. cbn [res_bind].
  rewrite commitFromPending_graft. destruct (commitFromPending _ _ _ _); [done|]. cbn [guard]. destruct (c_Fee c); [|done]. cbv zeta.
  rewrite getBalance_graft. destruct (_ <? _); [done|]. cbn. by rewrite setBalance_graft, putCommit_graft.
Qed.

(** Applying a block does not see the block store. *)
Lemma Upgrade_graft st t b : Upgrade st (G t) b = res_map G (Upgrade st t b).
Proof.
  unfold Upgrade, handleCommits, HandleTxs. cbv zeta. rewrite (fold_graft G) by (intros; apply handleCommit_graft).
  destruct (res_fold _ t _) as [u|]; [|done]. cbn [res_map res_bind].
  pose proof (fold_graft GG (handleTx st (if st_Archive st then Some (newChangeset (blockHeight b)) else None) (h_Timestamp (b_Header b))) (b_Txs b)
    (handleTx_graft _ _ _) (u, Some MaxBlockGas)) as Ef. cbn [fst snd] in Ef. rewrite Ef.
  destruct (res_fold _ (u, _) _) as [[u1 g]|]; [|done]. cbn [res_map res_bind fst snd]. by rewrite updateBeacon_graft, pruneCommits_graft.
Qed.

End Ledger.
