(* ===== verification/GraftVM.v ===== *)
(** * The contract machine is independent of the block store

    Every host function, and so every run of the machine of VM.v, behaves the
    same on a grafted state: the machine meets [VMStateOnly]. *)

From S2P Require Import Prelude Params StateTrie Keys Contract Types Instances Tx Block BlockStore State StateCommit VM Journal Ledger Chain Graft.
Import VM.

Create HintDb blind.

Section Machine.
Context `{HH : Hasher} `{SL : SigLibs} `{CD : Codec} `{SC : SlotCodec} `{WM : Wasman} `{TS : TollStation}.
Variable store : bucket * bucket.
Abbreviation G := (graft store).

Definition graft_vm (v : machine) : machine :=
  mkMachine {| caller := caller (env v); self := self (env v); txn := G (txn (env v)); blockTime := blockTime (env v); module := module (env v) |}
    (journal' v) (linker v) (instances v) (frames v) (callArgs v) (events v) (trace v) (tollPreburn v) (tollStation v) (bufs v).

(** A computation that does not see the block store. *)
Definition blind {A} (m : M A) : Prop := forall v, m (graft_vm v) = ((m v).1, graft_vm (m v).2).

Lemma blind_ret {A} (a : A) : blind (mret' a).
Proof. done. Qed.

Lemma blind_panic {A} p : blind (mpanic (A := A) p).
Proof. done. Qed.

Lemma blind_bind {A B} (m : M A) (f : A -> M B) : blind m -> (forall a, blind (f a)) -> blind (mbind' m f).
Proof. intros Hm Hf v. unfold mbind'. rewrite Hm. destruct (m v) as [[a|p|] v1]; [apply Hf|done..]. Qed.

Lemma blind_get {A} (f : machine -> A) : (forall v, f (graft_vm v) = f v) -> blind (mget f).
Proof. intros Hf v. unfold mget. by rewrite Hf. Qed.

Lemma blind_set f : (forall v, f (graft_vm v) = graft_vm (f v)) -> blind (mset f).
Proof. intros Hf v. unfold mset. by rewrite Hf. Qed.

(** What reads the whole machine. *)
Lemma blind_here {A} (k : machine -> M A) : (forall v, k (graft_vm v) = k v) -> (forall v, blind (k v)) -> blind (mbind' (mget id) k).
Proof. intros Hk Hb v. unfold mbind', mget, id. rewrite Hk. apply Hb. Qed.

Lemma blind_lift {A} (m : res A) : blind (lift m).
Proof. destruct m; done. Qed.

Lemma blind_mfold {A S} (f : S -> A -> M S) l : (forall s x, blind (f s x)) -> forall s, blind (mfold f s l).
Proof. intros Hf. induction l as [|x l IH]; intros s; cbn; [apply blind_ret|]. by apply blind_bind. Qed.

Lemma blind_charge cost : blind (charge cost).
Proof. intros v. unfold charge. cbn. by destruct (AddToll _ _) as [[] st]. Qed.

Lemma blind_currentAddress : blind currentAddress.
Proof. intros v. unfold currentAddress. cbn. by destruct (last (frames v)). Qed.

Lemma blind_traceStart c : blind (traceStart c).
Proof. intros v. unfold traceStart. cbn. by destruct (_ <=? _). Qed.

Lemma blind_traceOk i : blind (traceOk i).
Proof. destruct i; [by apply blind_set|apply blind_ret]. Qed.

Lemma blind_answer mem z : blind (answer mem z).
Proof. done. Qed.

Lemma blind_copy_out mem ptr data : blind (copy_out mem ptr data).
Proof. unfold copy_out. by destruct (cp mem ptr data) as [[l mem']|]. Qed.

Lemma blind_vmContext : blind vmContext.
Proof.
  apply blind_bind; [apply blind_currentAddress|]. intros a v. cbn. rewrite contextOf_graft.
  by destruct (contextOf _ _ a) as [[[ctx|] j]|].
Qed.

Lemma blind_with_journal f p : (forall j t a, f j (G t) a = f j t a) -> blind (with_journal f p).
Proof.
  intros Hf. apply blind_bind; [apply blind_currentAddress|]. intros a v. cbn. rewrite Hf. by destruct (f _ _ a).
Qed.

Lemma blind_lock amount p : blind (with_journal (fun j t a => lockDeposit j t a amount) p).
Proof. apply blind_with_journal. intros. apply lockDeposit_graft. Qed.

Lemma blind_refund amount p : blind (with_journal (fun j t a => refundDeposit j t a amount) p).
Proof. apply blind_with_journal. intros. apply refundDeposit_graft. Qed.

Lemma blind_getContract addr : blind (mget (fun v => getContract (txn (env v)) addr)).
Proof. apply blind_get. intros v. apply getContract_graft. Qed.

Lemma blind_getBeacon : blind (mget (fun v => getBeacon (txn (env v)))).
Proof. apply blind_get. intros v. apply getBeacon_graft. Qed.

Lemma blind_balanceOf addr : blind (mget (fun v => balanceOf (journal' v) (txn (env v)) addr)).
Proof. apply blind_get. intros v. apply balanceOf_graft. Qed.

Lemma blind_the_tx : blind the_tx.
Proof. by apply blind_get. Qed.

#[local] Hint Resolve blind_the_tx blind_ret blind_panic blind_lift blind_charge blind_currentAddress blind_traceStart blind_traceOk blind_answer
  blind_copy_out blind_vmContext blind_lock blind_refund blind_getContract blind_getBeacon blind_balanceOf : blind.

(** One construct after another; reads of parts of the machine and writes
    of parts of it commute by computation. *)
Ltac blindly :=
  repeat first
    [ solve [auto with blind]
    | match goal with
      | |- blind (mbind' (mget id) _) => apply blind_here; [intros; cbn [env txn linker self frames journal' events trace bufs graft_vm id]; rewrite ?getContract_graft, ?transfer_graft; reflexivity|intros]
      | |- blind (mbind' _ _) => apply blind_bind; [|intros]
      | |- blind (mget _) => apply blind_get; intros; reflexivity
      | |- blind (mset _) => apply blind_set; intros; first [reflexivity|cbn; by case_match]
      | |- blind (mfold _ _ _) => apply blind_mfold; intros
      | |- blind (match ?x with _ => _ end) => destruct x
      end ].

(** ** Engine runs, linking and calls between contracts *)

Definition blind_host (host : HostHandler) : Prop := forall m f args mem, blind (host m f args mem).

Lemma blind_runExec {A} host (e : exec werr A) : blind_host host -> blind (runExec host e).
Proof.
  intros Hh. induction e as [a| |n k IH|m f args mem k IH]; cbn [runExec]; [apply blind_ret|apply blind_panic| |]; intros v.
  - cbn. destruct (AddToll (tollStation v) (Z.of_N n)) as [ok st]. apply (IH ok (set_toll v (tollPreburn v) st)).
  - rewrite Hh. destruct (host m f args mem v) as [[r|p|] w]; cbn [fst snd]; [apply IH..|done].
Qed.

Lemma blind_instantiate host m : blind_host host -> blind (instantiate host m).
Proof.
  intros Hh v. unfold instantiate. apply (blind_bind (runExec host (Instantiate (linked_names (linker v)) m))); [by apply blind_runExec|].
  intros [e|ins]; [apply blind_ret|done].
Qed.

Lemma blind_callExported host i name args : blind_host host -> blind (callExported host i name args).
Proof.
  intros Hh v. unfold callExported. cbn [instances graft_vm]. destruct (instances v !! i) as [ins|]; [|done].
  apply (blind_bind (runExec host (CallExportedFunc ins name args))); [by apply blind_runExec|done].
Qed.

#[local] Hint Resolve blind_instantiate blind_callExported : blind.

Lemma blind_linkExport name addr ins m e export : blind (linkExport name addr ins m e export).
Proof. unfold linkExport. blindly. Qed.

#[local] Hint Resolve blind_linkExport : blind.

Lemma blind_linkServiceDep host load name acc : blind_host host -> (forall m, blind (load m)) -> blind (linkServiceDep host load name acc).
Proof. intros Hh Hl. unfold linkServiceDep. blindly. Qed.

#[local] Hint Resolve blind_linkServiceDep : blind.

Lemma blind_linkDep host load e name : blind_host host -> (forall m, blind (load m)) -> blind (linkDep host load e name).
Proof.
  intros Hh Hl. unfold linkDep. destruct e; [apply blind_ret|]. destruct (resolveDepAddr name) as [x|]; blindly.
Qed.

Lemma blind_loadContractDeps host levels : blind_host host -> forall m, blind (loadContractDeps host levels m).
Proof.
  intros Hh. induction levels as [|n IH]; intros m; cbn [loadContractDeps]; destruct (parseContractDeps m); try apply blind_ret.
  apply blind_mfold. intros. by apply blind_linkDep.
Qed.

#[local] Hint Resolve blind_loadContractDeps : blind.

Lemma blind_serviceCall host a b c mem : blind_host host -> blind (serviceCall host a b c mem).
Proof.
  intros Hh. unfold serviceCall. destruct (readAddr mem a) as [target|]; [destruct (readMem mem b c) as [calldata|]|]; blindly.
Qed.

Lemma blind_serviceWrapper host s f args : blind_host host -> blind (serviceWrapper host s f args).
Proof. intros Hh. unfold serviceWrapper. blindly. Qed.

#[local] Hint Resolve blind_serviceCall blind_serviceWrapper : blind.

(** ** The host modules *)

Lemma blind_builtin host : blind_host host ->
  Forall (fun e : string * string * HostFn => forall args mem, blind (e.2 args mem)) (initBuiltInImports host).
Proof.
  intros Hh. unfold initBuiltInImports. repeat match goal with
      | |- Forall _ (_ :: _) => apply Forall_cons; split
      | |- Forall _ [] => apply Forall_nil_2
      end; intros args mem; cbn [snd]; unfold fn0, fn1, fn2, fn3, fn4, fn6;
      repeat match goal with |- blind (match ?l with _ => _ end) => destruct l end; try apply blind_panic.
  all: unfold log_line, log_emit, env_get_gas, env_buf_set, env_buf_size, env_buf_get, address_get_host, address_get_caller, coin_get_balance,
    coin_transfer, noteTransfer, kv_get_size, kv_get, kv_set, kv_del, settleDeposit, writeContext, kv_count, kv_key_size_at, kv_key_at, kv_at,
    matchingKeys, of_tx, tx_bytes, tx_get_paid, tx_get_from, crypto_blake3, crypto_verify, crypto_addr_of, crypto_random,
    contract_is_active, contract_get_code_size, contract_get_code, contract_code_hash, contract_call; blindly.
Qed.

Lemma blind_hostCall fuel : blind_host (hostCall fuel).
Proof.
  induction fuel as [|n IH]; intros m f args mem; cbn [hostCall]; [done|]. destruct (findFn _ m f) as [fn|] eqn:E.
  - pose proof (blind_builtin _ IH) as Hf. unfold findFn in E. revert E. induction Hf as [|e l He _ IHl]; cbn; [done|].
    destruct (_ && _); cbn; [intros [= <-]; apply He|exact IHl].
  - intros v. cbn [linker graft_vm]. destruct (_ ≫= _) as [s|]; [|done].
    apply (blind_bind (serviceWrapper (hostCall n) s f args)); [by apply blind_serviceWrapper|done].
Qed.

Lemma blind_runEntry entry : blind (runEntry entry).
Proof.
  unfold runEntry. pose proof (blind_hostCall vmFuel). apply blind_bind; [|intros; blindly].
  intros v. cbn [module env graft_vm]. by apply blind_instantiate.
Qed.

End Machine.

(** The machine of VM.v is what the state layer asks for. *)
#[export] Program Instance wasman_state_only `{Hasher} `{SigLibs} `{Codec} `{SlotCodec} `{WM : Wasman} `{TS : TollStation}
    `{ET : !ErrorText} : VMStateOnly (H := wasman_vm) := {| vm_graft := graft_vm |}.
Next Obligation.
  intros. cbn. unfold VM.NewVM. destruct (LoadContractWasm_ _) as [e|bin]; [done|]. destruct (template bin) as [[e|md]|]; [done| |done]. cbn [res_bind].
  destruct (newVMJournal acc) as [j|]; [|done]. cbn [res_bind].
  pose proof (blind_loadContractDeps store (hostCall vmFuel) (Z.to_nat maxDepChainDepth) (blind_hostCall store vmFuel) md (fresh_machine t acc tx bt md j)) as E.
  change (graft_vm store (fresh_machine t acc tx bt md j)) with (fresh_machine (graft store t) acc tx bt md j) in E. rewrite E.
  clear E. destruct (loadContractDeps _ _ _ _) as [[[e|]|p|] v]; reflexivity.
Qed.
Next Obligation.
  intros. cbn. unfold VM.EntryFor. cbn [env graft_vm caller]. destruct (_ || _); [done|]. destruct (DecodeCallData _) as [[method args]|]; [|done].
  cbv zeta. cbn [env graft_vm set_callArgs module]. by destruct (dispatch _ method).
Qed.
Next Obligation. intros. cbn. unfold VM.LimitToll. by destruct (_ <=? _). Qed.
Next Obligation. intros. cbn. unfold finish. rewrite (blind_runEntry store entry v). by destruct (runEntry entry v) as [[err|p|] w]. Qed.
Solve Obligations with done.
