(* ===== verification/ChainFrames.v ===== *)
(** * What the state layer leaves alone

    Applying, undoing and rebuilding state writes neither the block store
    nor the transaction index: the frame the fork choice stands on. *)

From S2P Require Import Prelude Params StateTrie Keys Contract Types Instances Tx Block BlockStore State StateCommit Journal Ledger Supply Spending Snapshot.

(** The buckets of the block store. *)
Class Foreign (n : BucketName) : Prop := foreign : n ∈ [BlockBucketName; TxBucketName].

#[export] Instance foreign_blocks : Foreign BlockBucketName.
Proof. left. Qed.

#[export] Instance foreign_txs : Foreign TxBucketName.
Proof. right. left. Qed.

#[export] Instance foreign_outside n : Foreign n -> Outside n.
Proof. intros H. right. unfold Foreign in H. set_solver. Qed.

(** [n <> m] for a bucket [n] of the block store. *)
Ltac abroad :=
  intros; subst; match goal with H : Foreign ?n |- _ => unfold Foreign in H end;
  rewrite ?elem_of_cons, ?elem_of_nil in *; naive_solver.

Lemma foreign_not_in n (l : list BucketName) : Foreign n -> BlockBucketName ∉ l -> TxBucketName ∉ l -> n ∉ l.
Proof. unfold Foreign. rewrite !elem_of_cons, elem_of_nil. naive_solver. Qed.

Section Frames.
Context `{HH : Hasher} `{SL : SigLibs} `{CD : Codec} `{SC : SlotCodec} `{RC : ReceiptCodec}
  `{DC : DepsCodec} `{IF : Inflate} `{ML : MerkleLib} `{VM_ : ContractVM} `{SHC : SheetCodec}.
Context (n : BucketName) `{!Foreign n}.

Lemma same_refl t : same n t t.
Proof. done. Qed.

Lemma same_setBucket t m b : n <> m -> same n t (setBucket t m b).
Proof. intros Hn k. by rewrite bGet_setBucket, decide_False. Qed.

Lemma same_bPut t m k v : n <> m -> same n t (bPut t m k v).
Proof. apply same_setBucket. Qed.

Lemma same_bDelete t m k : n <> m -> same n t (bDelete t m k).
Proof. apply same_setBucket. Qed.

Lemma same_trieSetLeaf t d k v : same n t (trieSetLeaf t d k v).
Proof. intros x. apply bGet_trieSetLeaf. abroad. Qed.

Lemma same_foldl {A} (f : Txn -> A -> Txn) l : (forall t x, same n t (f t x)) -> forall t, same n t (foldl f t l).
Proof.
  intros Hf. induction l as [|x l IH]; intros t; cbn [foldl]; [done|]. eapply same_trans; [apply Hf|apply IH].
Qed.

(** One write after another. *)
Ltac frame :=
  repeat first
    [ apply same_refl
    | apply same_bPut; abroad | apply same_bDelete; abroad | apply same_setBucket; abroad | apply same_trieSetLeaf
    | eapply same_trans; [|apply same_bPut; abroad]
    | eapply same_trans; [|apply same_bDelete; abroad]
    | eapply same_trans; [|apply same_setBucket; abroad]
    | eapply same_trans; [|apply same_trieSetLeaf] ].

Lemma foreign_putCommit t h hash from : same n t (putCommit t h hash from).
Proof. unfold putCommit, trieSetCommit. cbv zeta. frame. Qed.

Lemma foreign_consumeReveal t tx t' : consumeReveal t tx = Ok t' -> same n t t'.
Proof.
  unfold consumeReveal. destruct (_ =? 0); [by intros [= <-]|]. intros E. open_ok E.
  destruct (findCommit _ _ _ _); [|done]. injection E as <-. unfold consumeCommit, journalConsumed, trieSetCommit. frame.
Qed.

Lemma foreign_handleGenerate cs t tx t' : handleGenerate cs t tx = Ok t' -> same n t t'.
Proof.
  unfold handleGenerate. intros E. open_ok E. injection E as <-. eapply same_trans; [|apply (outside_setBalance n)].
  destruct (negb _); [|by injection Hr as <-]. open_ok Hr. injection Hr as <-. apply same_registerPubKey.
Qed.

Lemma foreign_handleTx st cs bt s tx t' g' : handleTx st cs bt s tx = Ok (t', g') -> same n s.1 t'.
Proof.
  destruct s as [t g]. unfold handleTx. intros E. cbn [fst]. destruct (_ =? GenerateTx).
  { open_ok E. injection E as <- <-. by eapply foreign_handleGenerate. }
  destruct (_ =? TransactTx); [|destruct (_ =? DeployTx); [|done]]; open_ok E; destruct r0 as [u gu];
    (eapply same_trans; [by eapply foreign_consumeReveal|]); (eapply same_trans; [by eapply (outside_runValidate n)|]).
  - by eapply (outside_handleTransaction n).
  - by eapply (outside_handleDeploy n).
Qed.

Lemma foreign_HandleTxs st cs bt l : forall s t' g', res_fold (handleTx st cs bt) s l = Ok (t', g') -> same n s.1 t'.
Proof.
  induction l as [|tx l IH]; intros s t' g' E; cbn in E; [by simplify_eq|]. open_ok E. destruct r as [u gu].
  eapply same_trans; [by eapply foreign_handleTx|]. by apply (IH (u, gu) t' g').
Qed.

Lemma foreign_handleCommit cs t c t' : handleCommit cs t c = Ok t' -> same n t t'.
Proof.
  unfold handleCommit. intros E. open_ok E. destruct (c_Fee c); [|done]. open_ok E. injection E as <-.
  eapply same_trans; [apply (outside_setBalance n)|apply foreign_putCommit].
Qed.

Lemma foreign_updateBeacon t cs block : same n t (updateBeacon t cs block).
Proof.
  unfold updateBeacon. destruct (negb _); [done|]. destruct (_ =? 0); [done|]. unfold setBeacon, trieSetBeacon, recordBeacon.
  destruct cs as [c|]; [|frame]. destruct (bGet t BeaconChangeSetBucketName _); frame.
Qed.

Lemma foreign_pruneCommits t tip : same n t (pruneCommits t tip).
Proof.
  unfold pruneCommits. destruct (_ <=? _); [done|]. unfold pruneHeightBucketBelow.
  eapply same_trans; eapply same_foldl; intros u k; unfold pruneEntry, trieSetCommit; frame.
Qed.

Lemma foreign_Upgrade st t b t' : Upgrade st t b = Ok t' -> same n t t'.
Proof.
  unfold Upgrade. intros E. open_ok E. destruct r0 as [u gu]. injection E as <-.
  eapply same_trans; [eapply same_fold; [apply foreign_handleCommit|exact Hr]|].
  eapply same_trans; [exact (foreign_HandleTxs _ _ _ _ _ _ _ Hr0)|].
  eapply same_trans; [apply foreign_updateBeacon|apply foreign_pruneCommits].
Qed.

Lemma foreign_applyBlock st t b t' : applyBlock st t b = Ok t' -> same n t t'.
Proof. unfold applyBlock. intros E. open_ok E. injection E as <-. by eapply foreign_Upgrade. Qed.

Lemma foreign_ApplyBlocks st t bs t' : ApplyBlocksTxn st t bs = Ok t' -> same n t t'.
Proof. apply same_fold. intros u b u'. apply foreign_applyBlock. Qed.

(** ** Undo *)

Lemma foreign_revertDomain t cs st hist h mirror :
  n <> cs -> n <> st -> hist <> Some n -> (forall t a v, same n t (mirror t a v)) ->
  same n t (revertDomain t cs st hist h mirror).
Proof.
  intros Hc Hs Hh Hm. apply same_foldl. intros u [a tagged]. unfold revertEntry.
  eapply same_trans; [|by apply same_bDelete].
  assert (Hu : same n u (mirror (match splitPreimage tagged with
      Some v => bPut u st (vec_to_list a) v | None => bDelete u st (vec_to_list a) end) a (splitPreimage tagged))).
  { eapply same_trans; [|apply Hm]. destruct (splitPreimage tagged); [by apply same_bPut|by apply same_bDelete]. }
  destruct hist as [m|]; [|exact Hu]. eapply same_trans; [exact Hu|]. apply same_bDelete. congruence.
Qed.

Lemma foreign_mirrors t h :
  same n t (revertDomain t BalChangeSetBucketName Addr2BalBucketName (Some BalHistBucketName) h mirrorBalance)
  /\ same n t (revertDomain t ContractChangeSetBucketName ContractBucketName (Some ContractHistBucketName) h mirrorContract)
  /\ same n t (revertDomain t KeyChangeSetBucketName KeyRegistryBucketName None h mirrorKey).
Proof.
  split_and!; (apply foreign_revertDomain; [abroad|abroad|abroad|]); intros u a v;
    unfold mirrorBalance, mirrorContract, mirrorKey, trieSetBalance, trieSetContract, trieSetKey; frame.
Qed.

Lemma foreign_deleteCommits t h : same n t (deleteCommitsAtHeight t h).
Proof. apply same_foldl. intros u k. unfold dropCommit, trieSetCommit. frame. Qed.

Lemma foreign_restoreConsumed t h : same n t (restoreConsumedAtHeight t h).
Proof.
  apply same_foldl. intros u kv. unfold restoreEntry. cbv zeta. eapply same_trans; [apply foreign_putCommit|frame].
Qed.

Lemma foreign_revertBeacon t h : same n t (revertBeacon t h).
Proof.
  unfold revertBeacon, trieSetBeacon. destruct (bGet t BeaconChangeSetBucketName _); [|done]. destruct (splitPreimage _); frame.
Qed.

Lemma foreign_unwindHeight t h : same n t (unwindHeightTxn t h).
Proof.
  unfold unwindHeightTxn. cbv zeta. eapply same_trans; [|apply foreign_revertBeacon].
  eapply same_trans; [|apply foreign_restoreConsumed]. eapply same_trans; [|apply foreign_deleteCommits].
  eapply same_trans; [|apply foreign_mirrors]. eapply same_trans; [|apply foreign_mirrors]. apply foreign_mirrors.
Qed.

Lemma foreign_deleteReceipts t h : same n t (deleteReceiptsAboveTxn t h).
Proof. apply same_foldl. intros u kv. destruct (dec_txReceipt _); [|done]. destruct (_ <? _); frame. Qed.

Lemma foreign_PruneReceipts t h : same n t (PruneReceiptsTxn t h).
Proof.
  unfold PruneReceiptsTxn. destruct (_ <=? _); [done|]. apply same_foldl. intros u kv.
  destruct (dec_txReceipt _); [destruct (_ <? _)|]; frame.
Qed.

Lemma foreign_UnwindTo st t target b t' : UnwindToTxn st t target = Ok (b, t') -> same n t t'.
Proof.
  unfold UnwindToTxn. destruct (negb _); [by intros [= _ <-]|]. intros E. open_ok E.
  destruct (_ <=? _); [by injection E as _ <-|]. destruct (negb _); [by injection E as _ <-|]. injection E as _ <-.
  eapply same_trans; [eapply same_foldl; intros u h; apply foreign_unwindHeight|apply foreign_deleteReceipts].
Qed.

(** ** Rebuilds *)

Lemma foreign_clearBuckets t names : n ∉ names -> same n t (clearBuckets t names).
Proof.
  unfold clearBuckets. revert t. induction names as [|m names IH]; intros t Hn; cbn [foldl]; [done|].
  apply not_elem_of_cons in Hn as [Hm Hn]. eapply same_trans; [|by apply IH]. by apply same_setBucket.
Qed.

Lemma foreign_initFromSheet t sheet t' : initFromSheet t sheet = Ok t' -> same n t t'.
Proof.
  unfold initFromSheet. intros E. open_ok E. injection E as <-.
  eapply same_trans; [eapply same_fold; [|exact Hr]; intros u acc u'; apply same_setContract|].
  eapply same_trans; [apply (same_foldl putBalance); intros u b; unfold putBalance; frame|].
  eapply same_trans; [apply (same_foldl putKey); intros u b; unfold putKey; frame|].
  destruct (negb _); frame.
Qed.

Lemma foreign_RebuildTrie t t' : RebuildTrie t = Ok t' -> same n t t'.
Proof. unfold RebuildTrie. intros E. open_ok E. injection E as <-. frame. Qed.

Lemma foreign_RebuildFromBlockStore st t t' : RebuildFromBlockStoreTxn st t = Ok t' -> same n t t'.
Proof.
  unfold RebuildFromBlockStoreTxn. intros E. open_ok E.
  eapply same_trans; [apply (foreign_clearBuckets t replay_buckets), foreign_not_in; [apply _|by apply (bool_decide_unpack _)..]|].
  eapply same_trans; [by eapply foreign_initFromSheet|]. eapply same_trans; [by eapply foreign_RebuildTrie|].
  eapply same_fold; [|exact E]. intros u h u' Eu. unfold replayBlock in Eu. open_ok Eu. by eapply foreign_applyBlock.
Qed.

Lemma foreign_RebuildFromSheet t sheet t' : RebuildFromSheetTxn t sheet = Ok t' -> same n t t'.
Proof.
  unfold RebuildFromSheetTxn. intros E. open_ok E.
  eapply same_trans; [apply (foreign_clearBuckets t sheet_buckets), foreign_not_in; [apply _|by apply (bool_decide_unpack _)..]|].
  eapply same_trans; [by eapply foreign_initFromSheet|by eapply foreign_RebuildTrie].
Qed.

Lemma foreign_PutSnapshot sm t sheet : same n t (PutSnapshotTxn sm t sheet).2.
Proof.
  unfold PutSnapshotTxn. cbn [snd]. apply (same_trans _ _ (bPut t SnapshotBucketName (snapshotKey (sh_Height sheet)) (rlp_Sheet sheet)));
    [apply same_bPut; abroad|].
  destruct (_ <? _); [|done]. generalize (cursor (Bucket (bPut t SnapshotBucketName (snapshotKey (sh_Height sheet)) (rlp_Sheet sheet)) SnapshotBucketName)).*1.
  intros ks. generalize (bPut t SnapshotBucketName (snapshotKey (sh_Height sheet)) (rlp_Sheet sheet)).
  induction ks as [|k ks IH]; intros u; cbn [pruneStored]; [done|]. destruct (_ <? _); [|done].
  eapply same_trans; [|apply IH]. apply same_bDelete. abroad.
Qed.

Lemma foreign_GenerateSnapshot st sm t sm' t' : GenerateSnapshotTxn st sm t = (sm', Ok t') -> same n t t'.
Proof.
  unfold GenerateSnapshotTxn. destruct (DumpSheetTxn _ _) as [sheet|]; [|done].
  destruct (PutSnapshotTxn sm t sheet) as [sm2 u] eqn:E. intros [= <- <-].
  pose proof (foreign_PutSnapshot sm t sheet) as H. by rewrite E in H.
Qed.

End Frames.
