(* ===== verification/ForkChoice.v ===== *)
(** * Fork choice

    What the import paths of package blockchain establish together: the
    canonical tip is the best block the node ever accepted, whatever order
    the blocks came in; a gossiped block never rewrites the chain at or below
    the finality line; and the state commitment is the tip's. *)

From S2P Require Import Prelude Params StateTrie Keys Contract Types Instances Tx Block BlockStore State StateCommit Journal Ledger Supply Spending Snapshot Queries Chain ChainFrames.

(** ** Running a transaction *)

Lemma tx_bind_Ok {A B} (m : TX A) (f : A -> TX B) t v b t' v' :
  tx_bind m f t v = (Ok (b, t'), v') <->
  exists a u w, m t v = (Ok (a, u), w) /\ f a u w = (Ok (b, t'), v').
Proof. unfold tx_bind. destruct (m t v) as [[[a u]|e] w]; naive_solver. Qed.

Lemma tx_read_Ok {A} (f : Txn -> res A) t v a t' v' :
  tx_read f t v = (Ok (a, t'), v') <-> f t = Ok a /\ t' = t /\ v' = v.
Proof. unfold tx_read. destruct (f t); naive_solver. Qed.

Lemma tx_write_Ok (f : Txn -> res Txn) t v a t' v' :
  tx_write f t v = (Ok (a, t'), v') <-> f t = Ok t' /\ v' = v.
Proof. unfold tx_write. destruct a, (f t); naive_solver. Qed.

(** Opens a committed transaction into its steps. *)
Ltac open_tx H :=
  repeat match type of H with
  | tx_bind _ _ _ _ = (Ok _, _) =>
      let a := fresh "a" in let u := fresh "u" in let w := fresh "w" in let Hm := fresh "Hm" in
      apply tx_bind_Ok in H as (a & u & w & Hm & H)
  end;
  repeat match goal with
  | E : tx_read _ _ _ = (Ok _, _) |- _ => apply tx_read_Ok in E as (E & -> & ->); cbv beta in E
  | E : tx_write _ _ _ = (Ok _, _) |- _ => apply tx_write_Ok in E as (E & ->); cbv beta in E
  | E : tx_ret _ _ _ = (Ok _, _) |- _ => unfold tx_ret in E; simplify_eq
  | E : tx_volatile _ _ _ = (Ok _, _) |- _ => unfold tx_volatile in E; simplify_eq
  | E : tx_err _ _ _ = (Ok _, _) |- _ => unfold tx_err in E; discriminate E
  end.

(** The better of two chain ends: more work, then the smaller hash. *)
Definition beats (w : Z) (h : bytes) (w' : Z) (h' : bytes) : Prop := w' < w \/ w = w' /\ bytes_lt h h'.

Section ForkChoice.
Context `{HH : Hasher} `{SL : SigLibs} `{CD : Codec} `{SC : SlotCodec} `{RC : ReceiptCodec}
  `{DC : DepsCodec} `{IF : Inflate} `{ML : MerkleLib} `{PL : PowLib} `{VM_ : ContractVM} `{SHC : SheetCodec}.
Context `{CL : !CodecLaws}.

(** The block the node's history starts at. *)
Variable ob : FullBlock.

(** ** The ledger of accepted blocks *)

(** The work of the chain from the origin to a block, along accepted
    ancestors. *)
Inductive weighs (acc : list FullBlock) : FullBlock -> Z -> Prop :=
  | weighs_origin : weighs acc ob (workOf ob)
  | weighs_child p b w : p ∈ acc -> weighs acc p w -> h_PrevBlockHash (b_Header b) = Block_GetHash p ->
      blockHeight b = blockHeight p + 1 -> weighs acc b (w + workOf b).

(** What is asked of the blocks themselves: values in the ranges of the
    code's types, keys that the store does not confuse, and no two different
    blocks of one hash, the genesis block included. *)
Record admissible (acc : list FullBlock) : Prop := {
  adm_wf : forall b, b ∈ acc -> wf_block b /\ plain_keys b /\ blockHeight b + 1 < two64;
  adm_hash : forall a b, a ∈ acc -> b ∈ acc -> Block_GetHash a = Block_GetHash b -> a = b;
  adm_genesis : forall b, b ∈ acc -> IsGenesis b = Ok true -> blockHeight b = 0
}.

Record ledger (acc : list FullBlock) : Prop := {
  led_adm : admissible acc;
  led_origin : ob ∈ acc;
  led_weighs : forall b, b ∈ acc -> exists w, weighs acc b w;
  led_work : forall b, b ∈ acc -> b <> ob -> 0 < workOf b
}.

Lemma weighs_mono acc acc' b w : acc ⊆ acc' -> weighs acc b w -> weighs acc' b w.
Proof. intros Hs. induction 1; [constructor|econstructor; eauto]. Qed.

Lemma weighs_height acc b w : weighs acc b w -> b = ob \/ blockHeight ob < blockHeight b.
Proof. induction 1 as [|p b w Hp _ IH _ Hh]; [by left|]. right. destruct IH as [->|]; lia. Qed.

Lemma weighs_inv acc b w : weighs acc b w -> b <> ob ->
  exists p wp, p ∈ acc /\ weighs acc p wp /\ h_PrevBlockHash (b_Header b) = Block_GetHash p
    /\ blockHeight b = blockHeight p + 1 /\ w = wp + workOf b.
Proof. intros [|p c wp Hp Hw Hpr Hh] Hne; [done|]. by exists p, wp. Qed.

(** A block's work depends on the accepted blocks alone. *)
Lemma weighs_unique acc b w w' : admissible acc -> weighs acc b w -> weighs acc b w' -> w = w'.
Proof.
  intros [_ Hinj _] H. revert w'. induction H as [|p b w Hp Hw IH Hpr Hh]; intros w' H'.
  - inversion H' as [|p b w Hp Hw Hpr Hh]; subst; [done|]. apply weighs_height in Hw as [->|]; lia.
  - inversion H' as [|q c wq Hq Hwq Hpr' Hh']; subst; [apply weighs_height in Hw as [->|]; lia|].
    assert (q = p) as -> by (apply Hinj; congruence). by rewrite (IH wq).
Qed.

Lemma workOf_nonneg b : 0 <= workOf b.
Proof. unfold workOf. apply be_Z_nonneg. Qed.

Lemma weighs_nonneg acc b w : weighs acc b w -> 0 <= w.
Proof. induction 1 as [|p b w _ _ IH _ _]; [apply workOf_nonneg|]. pose proof (workOf_nonneg b). lia. Qed.

(** ** What the store knows *)

(** Every stored block was accepted and every memoised work is right. *)
Record faithful (acc : list FullBlock) (blk : bucket) : Prop := {
  fa_block : forall k raw, length k = 32%nat -> blk !! k = Some raw ->
    exists b, b ∈ acc /\ k = Block_GetHash b /\ raw = rlp_FullBlock b;
  fa_work : forall h raw, length h = 32%nat -> blk !! blockWorkKey h = Some raw ->
    exists b w, b ∈ acc /\ h = Block_GetHash b /\ weighs acc b w /\ raw = big_Bytes w
}.

(** The writes of the store: blocks of a list, and keys of other kinds. *)
Definition extends (new : list FullBlock) (blk blk' : bucket) : Prop :=
  (forall k, length k = 32%nat -> blk' !! k = blk !! k \/ blk' !! k = None
     \/ exists b, b ∈ new /\ k = Block_GetHash b /\ blk' !! k = Some (rlp_FullBlock b))
  /\ forall h, length h = 32%nat -> blk' !! blockWorkKey h = blk !! blockWorkKey h \/ blk' !! blockWorkKey h = None.

Lemma extends_refl new blk : extends new blk blk.
Proof. split; auto. Qed.

Lemma extends_trans new blk blk1 blk2 : extends new blk blk1 -> extends new blk1 blk2 -> extends new blk blk2.
Proof.
  intros [H1 W1] [H2 W2]. split.
  - intros k Hk. destruct (H2 k Hk) as [E|[E|E]]; rewrite ?E; auto.
  - intros h Hh. destruct (W2 h Hh) as [E|E]; rewrite ?E; auto.
Qed.

Lemma extends_faithful acc acc' new blk blk' :
  extends new blk blk' -> new ⊆ acc' -> acc ⊆ acc' -> faithful acc blk -> faithful acc' blk'.
Proof.
  intros [He Hw] Hn Ha [Hb Hm]. split.
  - intros k raw Hk Hr. destruct (He k Hk) as [E|[E|(b & Hin & Hkb & E)]]; rewrite Hr in E.
    + destruct (Hb k raw) as (b & Hin & ? & ?); [done..|]. exists b. split_and!; [by apply Ha|done..].
    + done.
    + simplify_eq. exists b. split_and!; [by apply Hn|done..].
  - intros h raw Hh Hr. destruct (Hw h Hh) as [E|E]; rewrite Hr in E; [|done].
    destruct (Hm h raw) as (b & w & Hin & ? & Hwt & ?); [done..|]. exists b, w. split_and!; [by apply Ha|done|by eapply weighs_mono|done].
Qed.

Lemma GetBlockByHash_acc acc blk h b :
  admissible acc -> faithful acc blk -> length h = 32%nat -> GetBlockByHash blk h = Ok b -> b ∈ acc /\ h = Block_GetHash b.
Proof.
  intros Ha Hf Hl E. unfold GetBlockByHash in E. destruct (blk !! h) as [raw|] eqn:Er; [|done].
  destruct (fa_block _ _ Hf h raw Hl Er) as (c & Hin & -> & ->).
  rewrite dec_rlp_FullBlock in E by (by apply (adm_wf _ Ha)). by simplify_eq.
Qed.

(** ** Cumulative work *)

(** Blocks whose works add up from a base. *)
Fixpoint climbs (acc : list FullBlock) (base : Z) (l : list FullBlock) : Prop :=
  match l with
  | [] => True
  | b :: l => b ∈ acc /\ weighs acc b (base + workOf b) /\ climbs acc (base + workOf b) l
  end.

Definition total (base : Z) (l : list FullBlock) : Z := foldl (fun w b => w + workOf b) base l.

Lemma workWalk_sound acc blk fuel : ledger acc -> faithful acc blk -> blk !! OriginHashTag = Some (Block_GetHash ob) ->
  forall cur pending base out w, cur ∈ acc -> weighs acc cur w -> climbs acc w pending ->
  workWalk fuel blk cur pending = Ok (base, out) -> climbs acc base out /\ total base out = total w pending.
Proof.
  intros [Ha Ho _ _] Hf Htag. induction fuel as [|fuel IH]; intros cur pending base out w Hin Hw Hc E; cbn [workWalk] in E.
  all: unfold GetBlockWork at 1 in E; destruct (blk !! blockWorkKey (Block_GetHash cur)) as [raw|] eqn:Em.
  1,3: simplify_eq; destruct (fa_work _ _ Hf _ _ (length_Block_GetHash cur) Em) as (b & wb & Hb & Eh & Hwb & ->);
       rewrite (adm_hash _ Ha cur b) in Hw by done; rewrite (weighs_unique _ _ _ _ Ha Hwb Hw) in *;
       rewrite be_Z_big_Bytes by (by eapply weighs_nonneg); done.
  all: unfold GetOriginHash in E; rewrite Htag in E; cbn [res_bind] in E; case_bool_decide as Eo.
  1,3: simplify_eq; assert (cur = ob) as -> by (by apply (adm_hash _ Ha));
       rewrite (weighs_unique _ _ _ _ Ha Hw (weighs_origin acc)) in *; cbn; repeat split; try done; constructor.
  - done.
  - assert (Hne : cur <> ob) by congruence. destruct (weighs_inv _ _ _ Hw Hne) as (p & wp & Hp & Hwp & Hpr & _ & ->).
    open_ok E. unfold GetPrevHash in Hr. rewrite Hpr in Hr.
    destruct (GetBlockByHash_acc acc blk _ _ Ha Hf (length_Block_GetHash p) Hr) as [Hinr Eh].
    rewrite <-(adm_hash _ Ha p r Hp Hinr Eh) in E. by apply (IH p (cur :: pending) base out wp).
Qed.

Definition works_only (blk blk' : bucket) : Prop := forall k, length k <> 37%nat \/ has_prefix sideBlockPrefix k = true -> blk' !! k = blk !! k.

(** Memoising keeps the works right and touches nothing else. *)
Lemma addWork_sound acc l : forall base blk, climbs acc base l -> faithful acc blk ->
  exists blk', foldl addWork (base, blk) l = (total base l, blk') /\ faithful acc blk'
    /\ works_only blk blk'.
Proof.
  induction l as [|b l IH]; intros base blk Hc Hf; [by exists blk|]. destruct Hc as (Hin & Hw & Hc).
  destruct (IH (base + workOf b) (PutBlockWork blk (Block_GetHash b) (base + workOf b)) Hc) as (blk' & E & Hf' & Hk).
  - destruct Hf as [Hb Hm]. split.
    + intros k raw Hl. unfold PutBlockWork. rewrite lookup_insert_ne; [by apply Hb|].
      intros <-. by rewrite length_blockWorkKey, length_Block_GetHash in Hl.
    + intros h raw Hl. unfold PutBlockWork. destruct (decide (h = Block_GetHash b)) as [->|Hne].
      * rewrite lookup_insert_eq. intros [= <-]. by exists b, (base + workOf b).
      * rewrite lookup_insert_ne; [by apply Hm|]. intros Ek%app_inv_head. done.
  - exists blk'. split; [exact E|]. split; [done|]. intros k Hkk. rewrite Hk by done.
    unfold PutBlockWork. rewrite lookup_insert_ne; [done|]. intros <-. rewrite has_prefix_workKey in Hkk.
    rewrite length_blockWorkKey, length_Block_GetHash in Hkk. by destruct Hkk.
Qed.

Lemma cumulativeWork_sound acc blk b w r : ledger acc -> faithful acc blk -> blk !! OriginHashTag = Some (Block_GetHash ob) ->
  b ∈ acc -> weighs acc b w -> cumulativeWork blk b = Ok r -> r.1 = w /\ faithful acc r.2 /\ works_only blk r.2.
Proof.
  intros HL Hf Ht Hin Hw E. unfold cumulativeWork in E. open_ok E. destruct r0 as [base pending]. injection E as <-.
  destruct (workWalk_sound acc blk _ HL Hf Ht _ [] _ _ _ Hin Hw I Hr) as [Hc Hs]. cbn in Hs.
  destruct (addWork_sound acc pending base blk Hc Hf) as (blk' & -> & ? & ?). by rewrite Hs.
Qed.

(** *** The walk ends *)

(** The loop follows a chain of accepted blocks down to the origin, so the
    height of the block bounds its length. *)
Lemma workWalk_ends acc blk : ledger acc -> faithful acc blk -> blk !! OriginHashTag = Some (Block_GetHash ob) ->
  forall fuel cur pending, cur ∈ acc -> blockHeight cur - blockHeight ob <= Z.of_nat fuel ->
  workWalk fuel blk cur pending <> Err ErrOutOfFuel.
Proof.
  intros [Ha Ho Hwt _] Hf Htag. induction fuel as [|fuel IH]; intros cur pending Hin Hh; cbn [workWalk].
  all: unfold GetBlockWork at 1; destruct (blk !! blockWorkKey (Block_GetHash cur)) as [raw|]; [done|].
  all: unfold GetOriginHash; rewrite Htag; cbn [res_bind]; case_bool_decide as Eo; [done|].
  all: assert (Hne : cur <> ob) by congruence; destruct (Hwt cur Hin) as [w Hw].
  - destruct (weighs_height _ _ _ Hw); lia || done.
  - destruct (weighs_inv _ _ _ Hw Hne) as (p & wp & Hp & Hwp & Hpr & Hhp & ->). unfold GetPrevHash. rewrite Hpr.
    destruct (GetBlockByHash blk _) as [q|e] eqn:E.
    + destruct (GetBlockByHash_acc acc blk _ _ Ha Hf (length_Block_GetHash p) E) as [Hq Eh].
      rewrite <-(adm_hash _ Ha p q Hp Hq Eh). cbn [res_bind]. apply IH; [done|lia].
    + cbn [res_bind]. unfold GetBlockByHash in E. destruct (blk !! Block_GetHash p); [destruct (dec_FullBlock _)|]; congruence.
Qed.

(** On the canonical chain it always answers. *)
Lemma workWalk_canonical blk chain : canonical_chain blk (blockHeight ob) chain -> head chain = Some ob ->
  forall i cur pending fuel, chain !! i = Some cur -> (i <= fuel)%nat -> is_ok (workWalk fuel blk cur pending) = true.
Proof.
  intros C Hh. destruct (cc_first _ _ _ C) as (f & Hf & Htag & _). rewrite Hh in Hf. injection Hf as <-.
  induction i as [|i IH]; intros cur pending fuel Hi Hle.
  - assert (cur = ob) as -> by (destruct chain; cbn in *; congruence).
    destruct fuel; cbn [workWalk]; (destruct (GetBlockWork blk _); [done|]); unfold GetOriginHash; rewrite Htag; cbn [res_bind];
      by rewrite bool_decide_eq_true_2.
  - destruct fuel as [|fuel]; [lia|]. cbn [workWalk]. destruct (GetBlockWork blk _); [done|]. unfold GetOriginHash. rewrite Htag.
    cbn [res_bind]. case_bool_decide; [done|]. destruct (lookup_lt_is_Some_2 chain i) as [p Hp].
    { apply lookup_lt_Some in Hi. lia. }
    destruct (cc_block _ _ _ C i p Hp) as (_ & Hw & _ & Hst).
    unfold GetPrevHash. rewrite (cc_link _ _ _ C i p cur Hp Hi), GetBlockByHash_stored by done. cbn [res_bind].
    apply IH; [done|lia].
Qed.

(** ** The store under the import steps *)

Lemma store_inv_works blk blk' o chain : works_only blk blk' -> store_inv blk o chain -> store_inv blk' o chain.
Proof.
  intros Hw [C Hs]. assert (Hk : forall k, length k <> 37%nat -> blk' !! k = blk !! k) by auto. split.
  - split.
    + apply (cc_origin _ _ _ C).
    + apply (cc_width _ _ _ C).
    + intros i b Hi. rewrite !Hk by (by rewrite ?length_PackUint64LE, ?length_Block_GetHash). by apply (cc_block _ _ _ C).
    + apply (cc_link _ _ _ C).
    + intros h Hh. rewrite Hk by (by rewrite length_PackUint64LE). by apply (cc_above _ _ _ C).
    + destruct (cc_latest _ _ _ C) as (tip & ?). exists tip. by rewrite !Hk.
    + destruct (cc_first _ _ _ C) as (first & ?). exists first. by rewrite !Hk.
  - revert Hs. apply side_marks_mono.
    + intros k Hp. left. apply Hw. by right.
    + intros b Hb. by rewrite Hk by (by rewrite length_Block_GetHash).
Qed.

(** Keys of different lengths differ. *)
Ltac other_key :=
  let E := fresh in intros E; apply (f_equal length) in E;
  rewrite ?length_sideBlockKey, ?length_blockWorkKey, ?length_PackUint64LE, ?length_Block_GetHash in E; cbn in E; lia.

Lemma work_side_ne h b : blockWorkKey h <> sideBlockKey b.
Proof. intros E. pose proof (has_prefix_workKey h) as H. by rewrite E, has_prefix_sideBlockKey in H. Qed.

Lemma extends_putBlock new blk b : b ∈ new -> extends new blk (putBlock blk (Block_GetHash b) b).
Proof.
  intros Hin. split.
  - intros k Hk. rewrite lookup_putBlock. rewrite decide_False by other_key. rewrite decide_False by other_key.
    destruct (decide _) as [->|]; [|by left]. right; right. by exists b.
  - intros h Hh. left. rewrite lookup_putBlock. rewrite decide_False by apply work_side_ne.
    by rewrite !decide_False by other_key.
Qed.

(** Writes and deletes under keys that are neither blocks nor works. *)
Lemma extends_keys new blk blk' :
  (forall k, length k = 32%nat \/ (exists h, length h = 32%nat /\ k = blockWorkKey h) -> blk' !! k = blk !! k) -> extends new blk blk'.
Proof. intros H. split; intros; left; apply H; eauto. Qed.

Lemma extends_tags new blk h hash : extends new blk (putLatestTags blk h hash).
Proof.
  apply extends_keys. intros k Hk. apply lookup_putLatestTags; intros ->; destruct Hk as [|(x & Hx & E)]; try done;
    apply (f_equal length) in E; rewrite length_blockWorkKey, Hx in E; done.
Qed.

Lemma extends_side new blk h v : length h = 32%nat -> extends new blk (<[sideBlockKey h := v]> blk).
Proof.
  intros Hh. apply extends_keys. intros k Hk. rewrite lookup_insert_ne; [done|]. intros <-.
  destruct Hk as [Hk|(x & _ & E)]; [rewrite length_sideBlockKey in Hk; lia|by apply (work_side_ne x h)].
Qed.

Lemma extends_PutSideBlock new blk b : b ∈ new -> extends new blk (PutSideBlock blk b).
Proof.
  intros Hin. unfold PutSideBlock. cbv zeta. eapply extends_trans; [|apply extends_side, length_Block_GetHash]. split.
  - intros k Hk. destruct (decide (Block_GetHash b = k)) as [<-|].
    + rewrite lookup_insert_eq. right; right. by exists b.
    + rewrite lookup_insert_ne by done. by left.
  - intros h Hh. rewrite lookup_insert_ne by other_key. by left.
Qed.

Lemma extends_PutNewBlock new blk txb b r : b ∈ new -> PutNewBlock blk txb b = Ok r -> extends new blk r.1.
Proof.
  intros Hin E. unfold PutNewBlock in E. open_ok E. injection E as <-. cbn [fst].
  eapply extends_trans; [by apply extends_putBlock|apply extends_tags].
Qed.

Lemma extends_Prune new blk below n blk' : PruneSideBlocks blk below = Ok (n, blk') -> extends new blk blk'.
Proof.
  intros E. unfold PruneSideBlocks in E. open_ok E. injection E as _ <-.
  assert (H : forall k, foldl deleteSide blk r !! k = blk !! k \/ foldl deleteSide blk r !! k = None).
  { intros k. destruct (decide (k ∈ r \/ k ∈ sideBlockKey <$> r \/ k ∈ blockWorkKey <$> r)) as [Hin|Hn].
    - right. by apply lookup_deleteSides.
    - left. apply lookup_deleteSides; tauto. }
  split; intros k Hk; [destruct (H k)|destruct (H (blockWorkKey k))]; auto.
Qed.

Lemma extends_unlink new hs : forall st st', res_fold unlinkOld st hs = Ok st' -> extends new st.1 st'.1.
Proof.
  induction hs as [|h hs IH]; intros [blk txb] st' E; cbn [res_fold] in E.
  { injection E as <-. apply extends_refl. }
  open_ok E. unfold unlinkOld in Hr. open_ok Hr. injection Hr as <-.
  eapply extends_trans; [|exact (IH _ st' E)]. cbn [fst]. apply extends_side, length_Block_GetHash.
Qed.

Lemma extends_connect new l : l ⊆ new -> forall st, extends new st.1 (foldl connectBlock st l).1.
Proof.
  induction l as [|b l IH]; intros Hl [blk txb]; cbn [foldl]; [apply extends_refl|].
  eapply extends_trans; [|apply IH; set_solver]. cbn [connectBlock fst].
  eapply extends_trans; [apply (extends_putBlock new blk b); set_solver|]. apply extends_keys. intros k Hk.
  rewrite lookup_delete_ne; [done|]. intros <-. destruct Hk as [Hk|(x & _ & E)]; [|by apply (work_side_ne x (Block_GetHash b))].
  rewrite length_sideBlockKey, length_Block_GetHash in Hk. lia.
Qed.

Lemma extends_drop new hs : forall blk, extends new blk (foldl dropHeight blk hs).
Proof.
  induction hs as [|h hs IH]; intros blk; cbn [foldl]; [apply extends_refl|]. eapply extends_trans; [|apply IH].
  apply extends_keys. intros k Hk. unfold dropHeight. rewrite lookup_delete_ne; [done|]. intros <-.
  destruct Hk as [Hk|(x & Hx & E)]; [by rewrite length_PackUint64LE in Hk|]. apply (f_equal length) in E.
  rewrite length_blockWorkKey, length_PackUint64LE, Hx in E. done.
Qed.

Lemma extends_SwitchToBranch blk txb branch r : SwitchToBranch blk txb branch = Ok r -> extends branch blk r.1.
Proof.
  unfold SwitchToBranch. destruct branch as [|first rest]; [done|]. destruct (last _) as [tip|]; [|done].
  set (branch := first :: rest). intros E. open_ok E. pose proof (extends_connect branch branch ltac:(done) r1) as Hc.
  destruct (foldl connectBlock r1 branch) as [blk2 txb2]. injection E as <-. cbn [fst] in *.
  eapply extends_trans; [apply (extends_unlink branch _ _ _ Hr0)|]. eapply extends_trans; [exact Hc|].
  eapply extends_trans; [apply extends_drop|apply extends_tags].
Qed.

(** ** The invariant of the store *)

Record sound (acc : list FullBlock) (blk : bucket) (chain : list FullBlock) : Prop := {
  so_ledger : ledger acc;
  so_store : store_inv blk (blockHeight ob) chain;
  so_head : head chain = Some ob;
  so_chain : chain ⊆ acc;
  so_faithful : faithful acc blk
}.

Lemma admissible_sub acc acc' : acc ⊆ acc' -> admissible acc' -> admissible acc.
Proof. intros Hs [H1 H2 H3]. split; intros; auto. Qed.

Lemma ledger_cons acc b p : ledger acc -> admissible (b :: acc) -> p ∈ acc -> h_PrevBlockHash (b_Header b) = Block_GetHash p ->
  blockHeight b = blockHeight p + 1 -> 0 < workOf b -> ledger (b :: acc).
Proof.
  intros [Ha Ho Hw Hp] Hadm Hin Hpr Hh Hpos. split; [done|by right| |].
  - intros c Hc. apply elem_of_cons in Hc as [->|Hc].
    + destruct (Hw p Hin) as [w Hwp]. exists (w + workOf b). econstructor; [by right|eapply weighs_mono; [|done]; set_solver|done|done].
    + destruct (Hw c Hc) as [w Hwc]. exists w. eapply weighs_mono; [|done]. set_solver.
  - intros c Hc Hne. apply elem_of_cons in Hc as [->|Hc]; auto.
Qed.

Lemma sound_tag acc blk chain : sound acc blk chain -> blk !! OriginHashTag = Some (Block_GetHash ob).
Proof.
  intros [_ [C _] Hh _ _]. destruct (cc_first _ _ _ C) as (f & Hf & Ht & _). congruence.
Qed.

Lemma sound_no_clash acc acc' blk chain b : sound acc blk chain -> acc ⊆ acc' -> admissible acc' -> b ∈ acc' -> no_clash blk b.
Proof.
  intros S Hs Ha Hb raw Hr. destruct (fa_block _ _ (so_faithful _ _ _ S) _ _ (length_Block_GetHash b) Hr) as (c & Hc & Eh & ->).
  f_equal. symmetry. apply (adm_hash _ Ha); auto.
Qed.

Lemma sound_work acc blk chain b r : sound acc blk chain -> b ∈ acc -> cumulativeWork blk b = Ok r ->
  weighs acc b r.1 /\ sound acc r.2 chain /\ works_only blk r.2.
Proof.
  intros S Hin E. destruct (led_weighs _ (so_ledger _ _ _ S) b Hin) as [w Hw].
  destruct (cumulativeWork_sound acc blk b w r (so_ledger _ _ _ S) (so_faithful _ _ _ S) (sound_tag _ _ _ S) Hin Hw E)
    as (-> & Hf & Hwo). split; [done|]. split; [|done]. destruct S. split; try done. by eapply store_inv_works.
Qed.

Lemma sound_prune acc blk chain below n blk' : sound acc blk chain -> PruneSideBlocks blk below = Ok (n, blk') -> sound acc blk' chain.
Proof.
  intros [HL Hst Hh Hc Hf] E. destruct (PruneSideBlocks_inv blk _ chain below Hst) as (n2 & blk2 & E2 & Hi).
  rewrite E in E2. simplify_eq. split; try done. apply (extends_faithful acc acc [] blk); [by eapply extends_Prune|set_solver|done|done].
Qed.

Lemma sound_side acc blk chain b : sound acc blk chain -> ledger (b :: acc) -> sound (b :: acc) (PutSideBlock blk b) chain.
Proof.
  intros S HL'. pose proof (led_adm _ HL') as Ha. destruct (adm_wf _ Ha b ltac:(left)) as (Hw & Hp & _).
  assert (Hnc : no_clash blk b) by (apply (sound_no_clash acc (b :: acc) blk chain); [done|set_solver|done|left]).
  destruct S as [HL Hst Hh Hc Hf]. split; [done| |done|set_solver|].
  - by apply PutSideBlock_inv.
  - eapply (extends_faithful acc (b :: acc) [b]); [apply extends_PutSideBlock; left|set_solver|set_solver|done].
Qed.

Lemma sound_tip acc blk chain tip : sound acc blk chain -> last chain = Some tip ->
  tip ∈ acc /\ blockHeight tip = blockHeight ob + zlen chain - 1 /\ GetLatestHash blk = Ok (Block_GetHash tip)
  /\ GetLatestBlock blk = Ok tip /\ GetLatestHeight blk = Ok (blockHeight tip).
Proof.
  intros S Hl. pose proof (so_chain _ _ _ S) as Hc. destruct (so_store _ _ _ S) as [C _].
  pose proof (linked_last _ _ _ _ (canonical_linked _ _ _ C) Hl) as Hh.
  destruct (cc_latest _ _ _ C) as (tip' & Hl' & Ht & Hth). rewrite Hl in Hl'. injection Hl' as <-.
  assert (Hi : chain !! (length chain - 1)%nat = Some tip) by (rewrite last_lookup in Hl; by rewrite Nat.sub_1_r).
  destruct (cc_block _ _ _ C _ _ Hi) as (_ & Hw & _ & Hst). pose proof (canonical_height_hash _ _ _ _ _ C Hi) as Hu.
  assert (El : GetLatestHash blk = Ok (Block_GetHash tip)) by (unfold GetLatestHash; by rewrite Ht).
  split; [apply Hc; by eapply list_elem_of_lookup_2|]. split; [done|]. split; [done|]. split.
  - unfold GetLatestBlock. rewrite El. cbn [res_bind]. by apply GetBlockByHash_stored.
  - unfold GetLatestHeight. rewrite Hth. by apply read_u64_Pack.
Qed.

Lemma sound_new acc blk txb chain tip b r : sound acc blk chain -> last chain = Some tip -> ledger (b :: acc) ->
  h_PrevBlockHash (b_Header b) = Block_GetHash tip -> blockHeight b = blockHeight tip + 1 ->
  PutNewBlock blk txb b = Ok r -> sound (b :: acc) r.1 (chain ++ [b]).
Proof.
  intros S Hl HL' Hpr Hh E. pose proof (led_adm _ HL') as Ha. destruct (adm_wf _ Ha b ltac:(left)) as (Hw & Hp & Hwd).
  assert (Hnc : no_clash blk b) by (apply (sound_no_clash acc (b :: acc) blk chain); [done|set_solver|done|left]).
  destruct (sound_tip _ _ _ _ S Hl) as (_ & Ht & _). destruct S as [HL Hst Hhd Hc Hf].
  destruct (PutNewBlock_inv blk txb _ chain tip b Hst Hl Hw Hnc Hp) as (blk' & E' & Hi); [lia|done|lia|].
  rewrite E in E'. injection E' as ->. cbn [fst]. split; [done|done| |set_solver|].
  - destruct chain; [done|]. done.
  - eapply (extends_faithful acc (b :: acc) [b]); [by apply (extends_PutNewBlock _ _ _ _ _ ltac:(left) E)|set_solver|set_solver|done].
Qed.

(** *** Switching *)

Lemma connected_heights branch : forall first, head branch = Some first -> branchConnected branch = true ->
  (forall b, b ∈ branch -> is_u64 (blockHeight b) /\ blockHeight b + 1 < two64) ->
  forall i b, branch !! i = Some b -> blockHeight b = blockHeight first + Z.of_nat i.
Proof.
  induction branch as [|a branch IH]; intros first Hh Hc Hb i b Hi; [done|]. injection Hh as ->.
  destruct i as [|i]; [injection Hi as ->; lia|]. cbn in Hi. destruct branch as [|c branch]; [done|].
  cbn [branchConnected] in Hc. bools. destruct (Hb first ltac:(left)) as [Hu Hw].
  rewrite (IH c) with (i := i) (b := b); try done; [|intros x Hx; apply Hb; by right].
  rewrite H, u64_id by (unfold is_u64 in *; lia). lia.
Qed.

Lemma connected_NoDup acc branch first : admissible acc -> branch ⊆ acc -> head branch = Some first ->
  branchConnected branch = true -> NoDup (Block_GetHash <$> branch).
Proof.
  intros Ha Hs Hh Hc. assert (Hb : forall b, b ∈ branch -> is_u64 (blockHeight b) /\ blockHeight b + 1 < two64).
  { intros b Hb. destruct (adm_wf _ Ha b (Hs b Hb)) as (Hw & _ & ?). split; [by apply wf_block_height|done]. }
  apply NoDup_alt. intros i j x Hi Hj. rewrite list_lookup_fmap in Hi, Hj.
  destruct (branch !! i) as [a|] eqn:Ei; [|done]. destruct (branch !! j) as [b|] eqn:Ej; [|done]. cbn in Hi, Hj. simplify_eq.
  assert (b = a) as ->. { apply (adm_hash _ Ha); try done; apply Hs; by eapply list_elem_of_lookup_2. }
  pose proof (connected_heights branch first Hh Hc Hb i a Ei). pose proof (connected_heights branch first Hh Hc Hb j a Ej). lia.
Qed.

(** The chain a branch leads to. *)
Definition switched (chain branch : list FullBlock) : list FullBlock :=
  match branch with
  | [] => chain
  | first :: _ => take (Z.to_nat (blockHeight first - blockHeight ob)) chain ++ branch
  end.

Lemma sound_switch acc blk txb chain branch r : sound acc blk chain -> branch ⊆ acc -> ob ∉ branch ->
  SwitchToBranch blk txb branch = Ok r -> sound acc r.1 (switched chain branch) /\ last (switched chain branch) = last branch.
Proof.
  intros S Hs Hob E. pose proof (so_ledger _ _ _ S) as HL. pose proof (led_adm _ HL) as Ha.
  destruct branch as [|first rest]; [done|]. remember (first :: rest) as branch eqn:Eb.
  assert (Hh : head branch = Some first) by (by subst). destruct (last branch) as [tip|] eqn:Hl; [|by apply last_None in Hl; subst].
  destruct (SwitchToBranch_guards _ _ _ _ _ Hh E) as [Hc Hanc].
  assert (Hf : first ∈ branch) by (subst; left).
  assert (Hoh : blockHeight ob < blockHeight first).
  { destruct (led_weighs _ HL first (Hs _ Hf)) as [w Hw]. destruct (weighs_height _ _ _ Hw) as [->|]; done. }
  pose proof (cc_origin _ _ _ (proj1 (so_store _ _ _ S))) as Ho.
  destruct (adm_wf _ Ha first (Hs _ Hf)) as (Hwf & _ & Hfw). pose proof (wf_block_height _ Hwf) as Hfu. unfold is_u64 in Hfu.
  rewrite u64_id in Hanc by (unfold is_u64; lia).
  assert (Hti : branch !! (length branch - 1)%nat = Some tip) by (rewrite last_lookup in Hl; by rewrite Nat.sub_1_r).
  assert (Htw : blockHeight first + zlen branch < two64).
  { destruct (adm_wf _ Ha tip (Hs _ (list_elem_of_lookup_2 _ _ _ Hti))) as (_ & _ & Hw).
    rewrite (connected_heights branch first Hh Hc) with (i := (length branch - 1)%nat) in Hw; [|clear Hw|done].
    - subst branch. unfold zlen. cbn [length] in *. lia.
    - intros b Hb. destruct (adm_wf _ Ha b (Hs b Hb)) as (Hw & _ & ?). split; [by apply wf_block_height|done]. }
  destruct (SwitchToBranch_inv blk txb _ chain branch first tip (so_store _ _ _ S) Hh Hl) as (blk' & E' & Hi); try done.
  { apply Forall_forall. intros b Hb. by apply (adm_wf _ Ha), Hs. }
  { apply Forall_forall. intros b Hb. by apply (adm_wf _ Ha), Hs. }
  { apply Forall_forall. intros b Hb. apply (sound_no_clash acc acc blk chain); try done. by apply Hs. }
  { by eapply connected_NoDup. }
  rewrite E in E'. injection E' as ->. cbn [fst].
  assert (Esw : switched chain branch = take (Z.to_nat (blockHeight first - blockHeight ob)) chain ++ branch) by (by rewrite Eb).
  rewrite Esw. split; [|by rewrite last_app, Hl].
  pose proof (so_head _ _ _ S) as Hhd. pose proof (so_chain _ _ _ S) as Hch. split; try done.
  - destruct chain as [|c chain]; [done|]. destruct (Z.to_nat _) eqn:En; [lia|]. done.
  - intros b. rewrite elem_of_app. intros [Hb|Hb]; [|by apply Hs]. apply Hch. rewrite <-(take_drop (Z.to_nat (blockHeight first - blockHeight ob)) chain).
    set_solver.
  - apply (extends_faithful acc acc branch blk); [|done|done|apply (so_faithful _ _ _ S)].
    by apply (extends_SwitchToBranch blk txb branch _ E).
Qed.

(** The branch of a side block: accepted, off the canonical chain, ending in
    the block. *)
Lemma collectBranch_loop_sound acc blk chain oh : sound acc blk chain -> forall fuel cur branch out,
  cur ∈ acc -> branch ⊆ acc -> ob ∉ branch -> collectBranch_loop fuel blk oh cur branch = Ok out ->
  out ⊆ acc /\ (ob ∉ out) /\ exists pre, out = pre ++ branch /\ (pre = [] \/ last pre = Some cur).
Proof.
  intros S. pose proof (so_ledger _ _ _ S) as HL. pose proof (led_adm _ HL) as Ha.
  induction fuel as [|fuel IH]; intros cur branch out Hin Hs Hob E; cbn [collectBranch_loop] in E.
  all: destruct (isCanonical blk cur) eqn:Ec; [injection E as <-; split_and!; [done|done|]; exists []; auto|].
  all: assert (Hne : cur <> ob).
  1,3: intros ->; unfold isCanonical in Ec; bools; apply Ec;
       pose proof (so_head _ _ _ S) as Hh; destruct (so_store _ _ _ S) as [C _]; destruct chain as [|c chain]; [done|];
       injection Hh as ->; destruct (cc_block _ _ _ C 0%nat ob eq_refl) as (_ & _ & H8 & _);
       by rewrite Z.add_0_r in H8.
  all: assert (Hs' : (cur :: branch) ⊆ acc) by set_solver; assert (Hob' : ob ∉ (cur :: branch)) by set_solver.
  all: destruct (_ <=? _); [open_ok E; injection E as <-; split_and!; [done|done|]; exists [cur]; auto|].
  - done.
  - open_ok E. destruct (led_weighs _ HL cur Hin) as [w Hw]. destruct (weighs_inv _ _ _ Hw Hne) as (p & _ & Hp & _ & Hpr & _).
    unfold GetPrevHash in Hr. rewrite Hpr in Hr.
    destruct (GetBlockByHash_acc acc blk _ _ Ha (so_faithful _ _ _ S) (length_Block_GetHash p) Hr) as [Hr' _].
    destruct (IH r (cur :: branch) out Hr' Hs' Hob' E) as (? & ? & pre & -> & _). split_and!; [done|done|].
    exists (pre ++ [cur]). rewrite <-app_assoc. split; [done|]. right. apply last_snoc.
Qed.

Lemma collectBranch_sound acc blk chain b out : sound acc blk chain -> b ∈ acc -> collectBranch blk b = Ok out ->
  out ⊆ acc /\ (ob ∉ out) /\ (out = [] \/ last out = Some b).
Proof.
  intros S Hin E. unfold collectBranch in E. open_ok E.
  destruct (collectBranch_loop_sound acc blk chain r S (Z.to_nat (blockHeight b)) b [] out Hin)
    as (? & ? & pre & -> & Hl); [set_solver|set_solver|done|].
  by rewrite app_nil_r in *.
Qed.

(** ** The transactions *)

Lemma blocks_set t b : blocks (setBucket t BlockBucketName b) = b.
Proof. unfold blocks. by rewrite Bucket_setBucket, decide_True. Qed.

Lemma blocks_set_blocks t b : blocks (set_blocks t b) = b.1.
Proof. unfold blocks, set_blocks. by rewrite !Bucket_setBucket. Qed.

Lemma blocks_set_other t n b : n <> BlockBucketName -> blocks (setBucket t n b) = blocks t.
Proof. intros Hn. unfold blocks. by rewrite Bucket_setBucket, decide_False. Qed.

Lemma blocks_same t t' : same BlockBucketName t t' -> blocks t' = blocks t.
Proof. intros H. apply Bucket_ext. exact H. Qed.

Lemma root_same t t' : Bucket t' StateTrieBucketName = Bucket t StateTrieBucketName -> StateRoot t' = StateRoot t.
Proof. unfold StateRoot, newNodeStore. by intros ->. Qed.

Lemma root_setBucket t n b : n <> StateTrieBucketName -> StateRoot (setBucket t n b) = StateRoot t.
Proof. intros Hn. apply root_same. by rewrite Bucket_setBucket, decide_False. Qed.

Lemma tx_work_Ok b t v w t' v' : tx_work b t v = (Ok (w, t'), v') ->
  exists blk, cumulativeWork (blocks t) b = Ok (w, blk) /\ t' = setBucket t BlockBucketName blk.
Proof. unfold tx_work. destruct (cumulativeWork _ _) as [[w2 blk]|]; [|done]. intros. simplify_eq. eauto. Qed.

(** *** Checkpoints *)

Lemma root_PutSnapshot sm t sheet : StateRoot (PutSnapshotTxn sm t sheet).2 = StateRoot t.
Proof.
  unfold PutSnapshotTxn. cbn [snd]. set (u := bPut t _ _ _). assert (Hu : StateRoot u = StateRoot t) by (by apply root_setBucket).
  destruct (_ <? _); [|done]. rewrite <-Hu. generalize (cursor (Bucket u SnapshotBucketName)).*1. intros ks.
  clearbody u. clear Hu. revert u. induction ks as [|k ks IH]; intros u; cbn [pruneStored]; [done|]. destruct (_ <? _); [|done].
  rewrite IH. by apply root_setBucket.
Qed.

Lemma root_PruneReceipts t h : StateRoot (PruneReceiptsTxn t h) = StateRoot t.
Proof.
  unfold PruneReceiptsTxn. destruct (_ <=? _); [done|]. generalize (cursor (Bucket t ReceiptBucketName)). intros l.
  revert t. induction l as [|kv l IH]; intros t; cbn [foldl]; [done|]. rewrite IH.
  destruct (dec_txReceipt _); [destruct (_ <? _)|]; try done; by apply root_setBucket.
Qed.

Lemma checkpoint_sound acc state b t v t' v' chain : checkpoint state b t v = (Ok (tt, t'), v') ->
  sound acc (blocks t) chain -> sound acc (blocks t') chain /\ StateRoot t' = StateRoot t.
Proof.
  unfold checkpoint. destruct (negb _); intros E S; open_tx E; [done|].
  assert (H1 : blocks u = blocks t /\ StateRoot u = StateRoot t).
  { unfold tx_snapshot in Hm. destruct (GenerateSnapshotTxn _ _ _) as [sm [u'|]] eqn:Eg; [|done]. simplify_eq.
    split; [by apply blocks_same, (foreign_GenerateSnapshot BlockBucketName _ _ _ _ _ Eg)|].
    unfold GenerateSnapshotTxn in Eg. destruct (DumpSheetTxn _ _) as [sheet|]; [|done].
    destruct (PutSnapshotTxn _ t sheet) as [sm2 u2] eqn:Ep. simplify_eq.
    pose proof (root_PutSnapshot (v_snapshots v) t sheet) as Hp. by rewrite Ep in Hp. }
  assert (H2 : blocks u0 = blocks u /\ StateRoot u0 = StateRoot u).
  { destruct (negb _); open_tx Hm0; [|done]. injection Hm0 as <-. split.
    - rewrite blocks_set_other by done. apply blocks_same, (foreign_PruneReceipts BlockBucketName).
    - rewrite root_setBucket by done. apply root_PruneReceipts. }
  destruct H1 as [B1 R1], H2 as [B2 R2]. open_ok E. destruct r as [n blk]. injection E as <-.
  rewrite blocks_set, root_setBucket, R2, R1 by done. split; [|done].
  rewrite B2, B1 in Hr. by eapply sound_prune.
Qed.

(** *** The state after a switch *)

Lemma res_fold_snoc {A S} (f : S -> A -> res S) l x : forall s s', res_fold f s (l ++ [x]) = Ok s' ->
  exists u, res_fold f s l = Ok u /\ f u x = Ok s'.
Proof.
  induction l as [|y l IH]; intros s s' E; cbn in E; open_ok E; [injection E as <-; by exists s|].
  destruct (IH _ _ E) as (u & Eu & Ex). exists u. split; [|done]. cbn. by rewrite Hr.
Qed.

Lemma applyBlock_root state t b t' : applyBlock state t b = Ok t' -> StateRoot t' = h_StateRoot (b_Header b).
Proof. unfold applyBlock, CheckStateRoot. intros E. open_ok E. injection E as <-. open_ok Hr2. by bools. Qed.

Lemma ApplyBlocks_root state t branch tip t' : last branch = Some tip -> ApplyBlocksTxn state t branch = Ok t' ->
  StateRoot t' = h_StateRoot (b_Header tip).
Proof.
  intros Hl E. apply last_Some in Hl as [l ->]. apply res_fold_snoc in E as (u & _ & E). by eapply applyBlock_root.
Qed.

Lemma Rebuild_root acc state t t' chain tip : sound acc (blocks t) chain -> last chain = Some tip ->
  RebuildFromBlockStoreTxn state t = Ok t' -> StateRoot t' = h_StateRoot (b_Header tip).
Proof.
  intros S Hl E. destruct (sound_tip _ _ _ _ S Hl) as (Hin & Hth & _ & _ & Hlh). destruct (so_store _ _ _ S) as [C _].
  assert (Hne : 0 < zlen chain) by (destruct chain; [done|unfold zlen; cbn; lia]). pose proof (cc_origin _ _ _ C).
  unfold RebuildFromBlockStoreTxn in E. open_ok E.
  assert (HB : forall u, same BlockBucketName r1 u -> blocks u = blocks t).
  { intros u Hu. apply blocks_same. eapply same_trans; [|exact Hu].
    eapply same_trans; [|by eapply (foreign_RebuildTrie BlockBucketName)]. eapply same_trans; [|by eapply (foreign_initFromSheet BlockBucketName)].
    apply (foreign_clearBuckets BlockBucketName). by apply (bool_decide_unpack _). }
  fold (blocks r1) in Hr2. rewrite HB, Hlh in Hr2 by done. injection Hr2 as <-.
  assert (Hs : heights 0 (blockHeight tip) = heights 0 (blockHeight tip - 1) ++ [blockHeight tip]).
  { unfold heights. replace (blockHeight tip - 0 + 1) with ((blockHeight tip - 1 - 0 + 1) + 1) by lia.
    rewrite seqZ_app by lia. f_equal.
    replace (0 + (blockHeight tip - 1 - 0 + 1)) with (blockHeight tip) by lia. by rewrite seqZ_cons. }
  rewrite Hs in E. apply res_fold_snoc in E as (u & Eu & E). unfold replayBlock in E. open_ok E.
  fold (blocks u) in Hr2. rewrite HB in Hr2; cycle 1.
  { eapply same_fold; [|exact Eu]. intros x h x' Ex. unfold replayBlock in Ex. open_ok Ex. by eapply (foreign_applyBlock BlockBucketName). }
  assert (Hi : chain !! (length chain - 1)%nat = Some tip) by (rewrite last_lookup in Hl; by rewrite Nat.sub_1_r).
  pose proof (canonical_get_height _ _ _ _ _ C Hi) as Hg.
  replace (blockHeight ob + Z.of_nat (length chain - 1)) with (blockHeight tip) in Hg by (unfold zlen in *; lia).
  rewrite Hr2 in Hg. injection Hg as ->. by eapply applyBlock_root.
Qed.

Lemma switchToBranchTxn_sound acc state branch t v t' v' chain : switchToBranchTxn state branch t v = (Ok (tt, t'), v') ->
  sound acc (blocks t) chain -> branch ⊆ acc -> ob ∉ branch ->
  sound acc (blocks t') (switched chain branch)
  /\ exists tip, last branch = Some tip /\ last (switched chain branch) = Some tip /\ StateRoot t' = h_StateRoot (b_Header tip).
Proof.
  intros E S Hs Hob. unfold switchToBranchTxn in E. destruct branch as [|first rest]; [done|].
  destruct (last (first :: rest)) as [tip|] eqn:Hl; [|done]. remember (first :: rest) as branch eqn:Eb.
  open_tx E. unfold tx_logs in *. assert (u0 = t) as -> by (destruct (_ <? a); by open_tx Hm0).
  assert (u4 = t') as -> by (destruct (_ <? blockHeight tip); by open_tx E).
  destruct (UnwindToTxn _ _ _) as [[un u]|] eqn:Eu; [|done]. simplify_eq.
  apply (foreign_UnwindTo BlockBucketName), blocks_same in Eu. open_ok Hm2. rewrite Eu in Hr. injection Hm2 as <-.
  destruct (sound_switch acc _ _ chain _ r S Hs Hob Hr) as [S' Hl']. rewrite Hl in Hl'.
  assert (H3 : blocks u3 = r.1 /\ StateRoot u3 = h_StateRoot (b_Header tip)).
  { rewrite <-(blocks_set_blocks u1 r) in S'. destruct a1; open_tx Hm3.
    - pose proof (foreign_ApplyBlocks BlockBucketName _ _ _ _ Hm3) as Hf%blocks_same.
      split; [by rewrite Hf, blocks_set_blocks|exact (ApplyBlocks_root _ _ _ _ _ Hl Hm3)].
    - pose proof (foreign_RebuildFromBlockStore BlockBucketName _ _ _ Hm3) as Hf%blocks_same.
      split; [by rewrite Hf, blocks_set_blocks|exact (Rebuild_root _ _ _ _ _ _ S' Hl' Hm3)]. }
  destruct H3 as [B3 R3]. rewrite <-B3 in S'. destruct a4.
  destruct (checkpoint_sound _ _ _ _ _ _ _ _ Hm4 S') as [S4 R4]. split; [done|]. exists tip. by rewrite R4.
Qed.

(** ** Fork choice *)

Definition best (acc : list FullBlock) (tip : FullBlock) : Prop :=
  forall w b wb, weighs acc tip w -> b ∈ acc -> weighs acc b wb -> b = tip \/ beats w (Block_GetHash tip) wb (Block_GetHash b).

Record forkinv (acc : list FullBlock) (t : Txn) (chain : list FullBlock) (tip : FullBlock) : Prop := {
  fi_sound : sound acc (blocks t) chain;
  fi_tip : last chain = Some tip;
  fi_best : best acc tip;
  fi_root : StateRoot t = h_StateRoot (b_Header tip)
}.

Lemma beats_trans w h w' h' w'' h'' : beats w h w' h' -> beats w' h' w'' h'' -> beats w h w'' h''.
Proof.
  unfold beats. intros [?|[-> ?]] [?|[-> ?]]; [left; lia..|by left|]. right. split; [done|]. by eapply bytes_lt_trans.
Qed.

Lemma loses_false w b wt tip : loses w b wt tip = false -> beats w (Block_GetHash b) wt (Block_GetHash tip).
Proof.
  unfold loses, beats. intros H. bools. destruct (Z.eqb_spec w wt) as [->|]; [|left; lia].
  right. split; [done|]. cbn in *. bools. by rewrite <-not_bytes_lt in H0; destruct (decide (bytes_lt (Block_GetHash b) (Block_GetHash tip))).
Qed.

Lemma loses_true w b wt tip : loses w b wt tip = true ->
  Block_GetHash b = Block_GetHash tip \/ beats wt (Block_GetHash tip) w (Block_GetHash b).
Proof.
  unfold loses, beats. intros [H|H]%orb_true_iff; bools; [right; by left|]. apply bytes_le_lt_eq in H0 as [|]; auto.
Qed.

(** The works of the old blocks do not move when blocks are added. *)
Lemma weighs_old acc acc' b w : ledger acc -> admissible acc' -> acc ⊆ acc' -> b ∈ acc -> weighs acc' b w -> weighs acc b w.
Proof.
  intros HL Ha Hs Hb Hw. destruct (led_weighs _ HL b Hb) as [w0 H0].
  by rewrite (weighs_unique acc' b w w0 Ha Hw (weighs_mono _ _ _ _ Hs H0)).
Qed.

(** A block above the old best and above the rest of the new blocks is the
    new best. *)
Lemma best_move acc acc' tip tip' w w' : ledger acc -> admissible acc' -> acc ⊆ acc' -> tip ∈ acc -> best acc tip ->
  weighs acc tip w -> weighs acc' tip' w' -> beats w' (Block_GetHash tip') w (Block_GetHash tip) ->
  (forall b wb, b ∈ acc' -> weighs acc' b wb -> b ∈ acc \/ b = tip' \/ wb < w') -> best acc' tip'.
Proof.
  intros HL Ha Hs Ht Hb Hw Hw' Hbt Hnew v b wb Hv Hin Hwb. rewrite (weighs_unique _ _ _ _ Ha Hv Hw').
  destruct (Hnew b wb Hin Hwb) as [Hold|[->|]]; [|by left|right; by left]. right.
  destruct (Hb w b wb Hw Hold (weighs_old _ _ _ _ HL Ha Hs Hold Hwb)) as [->|]; [|by eapply beats_trans].
  by rewrite (weighs_unique _ _ _ _ (led_adm _ HL) (weighs_old _ _ _ _ HL Ha Hs Hold Hwb) Hw).
Qed.

Lemma best_keep acc b tip w wb : ledger acc -> admissible (b :: acc) -> tip ∈ acc -> best acc tip ->
  weighs (b :: acc) tip w -> weighs (b :: acc) b wb ->
  (Block_GetHash b = Block_GetHash tip \/ beats w (Block_GetHash tip) wb (Block_GetHash b)) -> best (b :: acc) tip.
Proof.
  intros HL Ha Ht Hb Hw Hwb Hor v c wc Hv Hin Hwc. assert (Hs : acc ⊆ b :: acc) by set_solver.
  apply elem_of_cons in Hin as [->|Hin].
  - rewrite (weighs_unique _ _ _ _ Ha Hv Hw), (weighs_unique _ _ _ _ Ha Hwc Hwb). destruct Hor as [E|]; [left|by right].
    by apply (adm_hash _ Ha); [left|right|].
  - apply (Hb v c wc); eauto using weighs_old.
Qed.

(** *** What the checks give *)

Lemma CheckError_work now b : CheckError now b = Ok tt -> blockHeight b <> 0 -> 0 < workOf b.
Proof.
  unfold CheckError. intros E Hh. open_ok E. unfold verifyNonce in E. fold (blockHeight b) in E.
  destruct (Z.eqb_spec (blockHeight b) 0); [done|]. open_ok E. unfold big_Div in Hr3.
  unfold workOf. pose proof (be_Z_nonneg (h_Difficulty (b_Header b))). destruct (Z.eqb_spec (be_Z (h_Difficulty (b_Header b))) 0); [done|lia].
Qed.

(** A block that passes against an accepted parent joins the ledger. *)
Lemma checkBranchBlock_ledger acc now getBlock b prev : ledger acc -> prev ∈ acc -> admissible (b :: acc) ->
  checkBranchBlock now getBlock b prev = Ok tt -> ledger (b :: acc) /\ blockHeight b = blockHeight prev + 1 /\ 0 < workOf b.
Proof.
  intros HL Hp Ha E. unfold checkBranchBlock in E. open_ok E. bools. destruct r.
  destruct (adm_wf _ (led_adm _ HL) prev Hp) as (Hw & _ & Hwd). apply wf_block_height in Hw. unfold is_u64 in Hw.
  rewrite u64_id in H by (unfold is_u64; lia).
  assert (Hpos : 0 < workOf b) by (eapply CheckError_work; [done|lia]).
  split; [|done]. by eapply ledger_cons.
Qed.

Lemma checkBranchBlock_link now getBlock b prev : checkBranchBlock now getBlock b prev = Ok tt ->
  h_PrevBlockHash (b_Header b) = Block_GetHash prev.
Proof. intros E. unfold checkBranchBlock in E. open_ok E. by bools. Qed.

(** ** Extending the tip *)

Lemma PutNewBlock_height blk txb b tip r : wf_block b -> wf_block tip -> h_PrevBlockHash (b_Header b) = Block_GetHash tip ->
  GetBlockByHash blk (Block_GetHash tip) = Ok tip -> PutNewBlock blk txb b = Ok r -> blockHeight b = blockHeight tip + 1.
Proof.
  intros Hw Hwt Hpr Hg E. unfold PutNewBlock in E. open_ok E. unfold checkBlock in Hr. open_ok Hr. bools.
  apply wf_block_height in Hw. apply wf_block_height in Hwt. unfold is_u64 in *.
  unfold blockHeightExists in Hg0. destruct (Z.eqb_spec (blockHeight b) 0) as [|Hne]; [done|].
  unfold blockPrevHashExists, GetPrevHash in Hg1. rewrite Hpr, Hg in Hg1.
  destruct (Z.eqb_spec (blockHeight b) 0); [done|]. cbn [andb] in Hg1. bools. fold (blockHeight tip) in Hg1.
  rewrite u64_id in Hg1 by (unfold is_u64; lia). lia.
Qed.

Lemma extendTip_inv acc now state b t v r t' v' chain tip : forkinv acc t chain tip -> admissible (b :: acc) ->
  h_PrevBlockHash (b_Header b) = Block_GetHash tip -> extendTip now state b t v = (Ok (r, t'), v') ->
  forkinv (b :: acc) t' (chain ++ [b]) b.
Proof.
  intros [S Hl Hb _] Ha Hpr E. unfold extendTip in E. open_tx E.
  destruct (sound_tip _ _ _ _ S Hl) as (Htin & _ & _ & Hgl & _). pose proof (so_ledger _ _ _ S) as HL.
  destruct (adm_wf _ (led_adm _ HL) tip Htin) as (Hwt & _). destruct (adm_wf _ Ha b ltac:(left)) as (Hwb & _).
  open_ok Hm0. injection Hm0 as <-.
  assert (Hh : blockHeight b = blockHeight tip + 1).
  { eapply PutNewBlock_height; [done|done|done| |exact Hr]. unfold GetLatestBlock in Hgl. open_ok Hgl.
    destruct (sound_tip _ _ _ _ S Hl) as (_ & _ & Hgh & _). congruence. }
  pose proof (wf_block_height _ Hwt) as Hu. unfold is_u64 in Hu.
  assert (Hpos : 0 < workOf b).
  { unfold checkBlockTxn in Hm. apply res_bind_Ok in Hm as (g & Hgen & Hm). destruct g.
    - apply (adm_genesis _ Ha) in Hgen; [lia|left].
    - apply seq_Ok in Hm as [Hce _]. eapply CheckError_work; [done|lia]. }
  assert (HL' : ledger (b :: acc)) by (by eapply ledger_cons).
  pose proof (sound_new _ _ _ _ _ _ _ S Hl HL' Hpr Hh Hr) as S1.
  apply tx_work_Ok in Hm1 as (blk & Ew & ->). rewrite blocks_set_blocks in Ew.
  destruct (sound_work _ _ _ _ _ S1 ltac:(left) Ew) as (Hw & S2 & _). cbn [fst snd] in *.
  pose proof (blocks_same _ _ (foreign_Upgrade BlockBucketName _ _ _ _ Hm2)) as B3. rewrite blocks_set in B3.
  rewrite <-B3 in S2. destruct a4. destruct (checkpoint_sound _ _ _ _ _ _ _ _ Hm4 S2) as [S4 R4].
  split; [done|apply last_snoc| |].
  - destruct (led_weighs _ HL tip Htin) as [wt Hwt']. assert (Hs : acc ⊆ b :: acc) by set_solver.
    assert (Hwb' : weighs (b :: acc) b (wt + workOf b)).
    { econstructor; [by right|by eapply weighs_mono|done|done]. }
    eapply (best_move acc (b :: acc) tip b); [done|done|done|done|done|done|exact Hwb'|left; lia|].
    intros c wc Hin _. apply elem_of_cons in Hin as [->|]; auto.
  - rewrite R4. unfold CheckStateRoot in Hm3. open_ok Hm3. by bools.
Qed.

(** ** Side blocks *)

Lemma importSide_inv acc now state b t v r t' v' chain tip : forkinv acc t chain tip -> admissible (b :: acc) ->
  importSide now state b t v = (Ok (r, t'), v') ->
  (r = false /\ forkinv (b :: acc) t' chain tip)
  \/ exists branch first, r = true /\ head branch = Some first
     /\ finalityHeight (blockHeight tip) <= u64 (blockHeight first - 1) /\ first ∈ (b :: acc) /\ first <> ob
     /\ forkinv (b :: acc) t' (switched chain branch) b.
Proof.
  intros [S Hl Hb Hroot] Ha E. unfold importSide in E. open_tx E. destruct a0.
  destruct (GetBlockByHash _ _) as [prev|] eqn:Hg; [|done]. simplify_eq. pose proof (so_ledger _ _ _ S) as HL.
  unfold GetPrevHash in Hg. rewrite (checkBranchBlock_link _ _ _ _ Hm0) in Hg.
  destruct (GetBlockByHash_acc acc _ _ _ (led_adm _ HL) (so_faithful _ _ _ S) (length_Block_GetHash a) Hg) as [Hpin _].
  destruct (checkBranchBlock_ledger _ _ _ _ _ HL Hpin Ha Hm0) as (HL' & _ & _).
  pose proof (sound_side _ _ _ b S HL') as S1.
  apply tx_work_Ok in Hm2 as (blk & Ew & ->). rewrite blocks_set in Ew.
  destruct (sound_work _ _ _ _ _ S1 ltac:(left) Ew) as (Hwb & S2 & _). cbn [fst snd] in *. rewrite blocks_set in Hm3.
  destruct (sound_tip _ _ _ _ S2 Hl) as (Htin' & _ & _ & Hgl & _). rewrite Hgl in Hm3. injection Hm3 as <-.
  apply tx_work_Ok in Hm4 as (blk' & Ew' & ->). rewrite blocks_set in Ew'.
  destruct (sound_work _ _ _ _ _ S2 Htin' Ew') as (Hwt & S3 & _). cbn [fst snd] in *.
  destruct (sound_tip _ _ _ _ S Hl) as (Htin & _).
  destruct (loses a2 b a4 tip) eqn:El.
  - left. open_tx E. split; [done|]. split; [by rewrite blocks_set|done| |by rewrite !root_setBucket].
    destruct (loses_true _ _ _ _ El) as [Eh|Hbt]; (eapply (best_keep acc b tip); [done|done|done|done|exact Hwt|exact Hwb|]); auto.
  - right. open_tx E. rewrite blocks_set in Hm. destruct a0 as [|first rest]; [done|].
    destruct (collectBranch_sound _ _ _ _ _ S3 ltac:(left) Hm) as (Hsub & Hob & [|Hlast]); [done|].
    destruct (_ <? _) eqn:Hfin; [open_tx E|]. bools. open_tx E. destruct a0.
    destruct (switchToBranchTxn_sound (b :: acc) _ _ _ _ _ _ chain Hm1) as (S5 & tip' & Hl1 & Hl2 & R5);
      [by rewrite blocks_set|done|done|]. rewrite Hlast in Hl1. injection Hl1 as <-.
    exists (first :: rest), first. split_and!; [done|done|done|apply Hsub; left|set_solver|].
    split; [done|done| |done]. assert (Hs : acc ⊆ (b :: acc)) by set_solver.
    eapply (best_move acc (b :: acc) tip b); [done|done|done|done|done| |exact Hwb| |].
    + by eapply weighs_old.
    + by apply loses_false.
    + intros c wc Hin _. apply elem_of_cons in Hin as [->|]; auto.
Qed.

Lemma importBlock_inv acc now state b t v r t' v' chain tip : forkinv acc t chain tip -> admissible (b :: acc) ->
  importBlock now state b t v = (Ok (r, t'), v') -> exists chain' tip', forkinv (b :: acc) t' chain' tip'.
Proof.
  intros F Ha E. unfold importBlock in E. open_tx E. pose proof (sound_tip _ _ _ _ (fi_sound _ _ _ _ F) (fi_tip _ _ _ _ F)) as (_ & _ & Hgh & _).
  rewrite Hgh in Hm. injection Hm as <-. case_bool_decide as Hpr.
  - eexists _, _. by eapply extendTip_inv.
  - destruct (importSide_inv _ _ _ _ _ _ _ _ _ _ _ F Ha E) as [[_ H]|(branch & first & _ & _ & _ & _ & _ & H)]; eauto.
Qed.

(** ** Converging *)

Lemma ledger_ext acc acc' : (forall b, b ∈ acc <-> b ∈ acc') -> ledger acc -> ledger acc'.
Proof.
  intros Hx [Ha Ho Hw Hp]. assert (Hs : acc ⊆ acc') by (intros b; apply Hx). split.
  - eapply admissible_sub; [|exact Ha]. intros b. apply Hx.
  - by apply Hx.
  - intros b Hb. destruct (Hw b) as [w H]; [by apply Hx|]. exists w. by eapply weighs_mono.
  - intros b Hb. apply Hp. by apply Hx.
Qed.

Lemma checkBranch_ledger now getBlock branch : forall acc prev, ledger acc -> prev ∈ acc -> admissible (branch ++ acc) ->
  checkBranch now getBlock prev branch = Ok tt -> ledger (branch ++ acc).
Proof.
  induction branch as [|b branch IH]; intros acc prev HL Hp Ha E; [done|]. cbn [checkBranch] in E. apply seq_Ok in E as [Eb E].
  assert (Ha' : admissible (branch ++ b :: acc)) by (eapply admissible_sub; [|exact Ha]; set_solver).
  assert (Hab : admissible (b :: acc)) by (eapply admissible_sub; [|exact Ha]; set_solver).
  destruct (checkBranchBlock_ledger _ _ _ _ _ HL Hp Hab Eb) as (HL' & _).
  eapply ledger_ext; [|by apply (IH (b :: acc) b); [done|left|done|done]]. set_solver.
Qed.

Lemma total_pos l : forall w, (forall b, b ∈ l -> 0 < workOf b) -> w <= total w l /\ (l <> [] -> w < total w l).
Proof.
  induction l as [|b l IH]; intros w Hp; [split; [done|done]|]. cbn [total foldl].
  destruct (IH (w + workOf b)) as [H _]; [intros c Hc; apply Hp; by right|]. pose proof (Hp b ltac:(left)). fold (total (w + workOf b) l).
  split; [lia|intros _; lia].
Qed.

(** The works along a checked branch. *)
Lemma checkBranch_works acc now getBlock branch : admissible acc -> forall prev w tip, branch ⊆ acc -> prev ∈ acc ->
  weighs acc prev w -> checkBranch now getBlock prev branch = Ok tt -> last branch = Some tip ->
  weighs acc tip (total w branch)
  /\ forall b, b ∈ branch -> 0 < workOf b /\ blockHeight prev < blockHeight b
       /\ exists wb, weighs acc b wb /\ (b = tip \/ wb < total w branch).
Proof.
  intros Ha. induction branch as [|b branch IH]; intros prev w tip Hs Hp Hw E Hl; [done|]. cbn [checkBranch] in E. apply seq_Ok in E as [Eb E].
  assert (Hb : b ∈ acc) by (apply Hs; left). assert (Hs' : branch ⊆ acc) by set_solver.
  assert (Hh : blockHeight b = blockHeight prev + 1 /\ 0 < workOf b).
  { destruct (adm_wf _ Ha prev Hp) as (Hwf & _ & Hwd). apply wf_block_height in Hwf. unfold is_u64 in Hwf.
    pose proof Eb as Eb'. unfold checkBranchBlock in Eb'. open_ok Eb'. bools. destruct r.
    rewrite u64_id in H by (unfold is_u64; lia). split; [done|]. eapply CheckError_work; [done|lia]. }
  destruct Hh as [Hh Hpos].
  assert (Hwb : weighs acc b (w + workOf b)) by (apply (weighs_child acc prev); [done|done|by eapply checkBranchBlock_link|done]).
  cbn [total foldl]. fold (total (w + workOf b) branch). destruct branch as [|c branch].
  - cbn in Hl. injection Hl as <-. split; [done|]. intros x Hx. apply list_elem_of_singleton in Hx as ->.
    split_and!; [done|lia|]. exists (w + workOf b). auto.
  - destruct (IH b (w + workOf b) tip Hs' Hb Hwb E Hl) as [Ht Hall]. split; [done|]. intros x Hx.
    apply elem_of_cons in Hx as [->|Hx].
    + split_and!; [done|lia|]. exists (w + workOf b). split; [done|]. right. apply total_pos; [|done]. intros y Hy. by apply Hall.
    + destruct (Hall x Hx) as (? & ? & ?). split_and!; [done|lia|done].
Qed.

Lemma sound_mono acc acc' blk chain : sound acc blk chain -> ledger acc' -> acc ⊆ acc' -> sound acc' blk chain.
Proof.
  intros [HL Hst Hh Hc Hf] HL' Hs. split; [done|done|done|set_solver|].
  eapply (extends_faithful acc acc' [] blk); [apply extends_refl|set_solver|done|done].
Qed.

Lemma convergeTxn_inv acc now state branch t v r t' v' chain tip : forkinv acc t chain tip -> admissible (branch ++ acc) ->
  convergeTxn now state branch t v = (Ok (r, t'), v') ->
  exists newTip, last branch = Some newTip /\ forkinv (branch ++ acc) t' (switched chain branch) newTip.
Proof.
  intros [S Hl Hb Hroot] Ha E. unfold convergeTxn in E. destruct branch as [|first rest]; [done|].
  remember (first :: rest) as branch eqn:Ebr. destruct (last branch) as [newTip|] eqn:Hln; [|done].
  open_tx E. destruct a0, r. pose proof (so_ledger _ _ _ S) as HL.
  assert (Hlk : h_PrevBlockHash (b_Header first) = Block_GetHash a).
  { rewrite Ebr in Hm0. cbn [checkBranch] in Hm0. apply seq_Ok in Hm0 as [H _]. by eapply checkBranchBlock_link. }
  unfold GetPrevHash in Hm. rewrite Hlk in Hm.
  destruct (GetBlockByHash_acc acc _ _ _ (led_adm _ HL) (so_faithful _ _ _ S) (length_Block_GetHash a) Hm) as [Hpin _].
  pose proof (checkBranch_ledger _ _ _ _ _ HL Hpin Ha Hm0) as HL'.
  apply tx_work_Ok in Hm1 as (blk & Ew & ->). destruct (sound_work _ _ _ _ _ S Hpin Ew) as (Hwp & S1 & _). cbn [fst snd] in *.
  rewrite blocks_set in Hm2. destruct (sound_tip _ _ _ _ S1 Hl) as (Htin & _ & _ & Hgl & _). rewrite Hgl in Hm2. injection Hm2 as <-.
  apply tx_work_Ok in Hm3 as (blk' & Ew' & ->). rewrite blocks_set in Ew'.
  destruct (sound_work _ _ _ _ _ S1 Htin Ew') as (Hwt & S2 & _). cbn [fst snd] in *.
  destruct (loses _ _ _ _) eqn:El; [open_tx E|].
  assert (Hsa : acc ⊆ branch ++ acc) by set_solver. assert (Hsb : branch ⊆ branch ++ acc) by set_solver.
  destruct (checkBranch_works (branch ++ acc) _ _ branch Ha a a1 newTip Hsb (Hsa _ Hpin) (weighs_mono _ _ _ _ Hsa Hwp) Hm0 Hln)
    as [Hnw Hall].
  assert (Hob : ob ∉ branch).
  { intros Hin. destruct (Hall ob Hin) as (_ & Hlt & _). destruct (weighs_height _ _ _ Hwp) as [->|]; lia. }
  destruct (switchToBranchTxn_sound (branch ++ acc) _ _ _ _ _ _ chain E) as (S5 & tip' & Hl1 & Hl2 & R5); try done.
  { rewrite blocks_set. by eapply sound_mono. }
  rewrite Hln in Hl1. injection Hl1 as <-. exists newTip. split; [done|]. split; [done|done| |done].
  eapply (best_move acc (branch ++ acc) tip newTip); [done|done|done|done|done|done|exact Hnw| |].
  - by apply loses_false.
  - intros c wc Hin Hwc. apply elem_of_app in Hin as [Hin|Hin]; [|by left]. right.
    destruct (Hall c Hin) as (_ & _ & wb & Hwb & Hor). by rewrite (weighs_unique _ _ _ _ Ha Hwc Hwb).
Qed.
End ForkChoice.
