(* ===== verification/ForkProps.v ===== *)
(** * What the fork choice guarantees

    The runs of a node - gossiped blocks and converging branches, accepted or
    refused, in any order - and the theorems about every state they reach. *)

From S2P Require Import Prelude Params StateTrie Keys Contract Types Instances Tx Block BlockStore State StateCommit Journal VM VMToy VMProps Ledger Supply Spending LedgerProps Snapshot Queries Chain ChainFrames ForkChoice.

Section ForkProps.
Context `{HH : Hasher} `{SL : SigLibs} `{CD : Codec} `{SC : SlotCodec} `{RC : ReceiptCodec}
  `{DC : DepsCodec} `{IF : Inflate} `{ML : MerkleLib} `{PL : PowLib} `{VM_ : ContractVM} `{SHC : SheetCodec}.
Context `{CL : !CodecLaws}.
Variable ob : FullBlock.

(** A node whose store holds the origin block alone, with its state. *)
Record starts (c : Chain) : Prop := {
  sta_blocks : blocks (ch_db c) = InitFromCheckpoint ∅ ob;
  sta_root : StateRoot (ch_db c) = h_StateRoot (b_Header ob)
}.

(** [imports c acc]: the node [c] was reached by imports that accepted [acc]. *)
Inductive imports : Chain -> list FullBlock -> Prop :=
  | im_start c : starts c -> admissible [ob] -> imports c [ob]
  | im_apply now c acc b ns c' : imports c acc -> admissible (b :: acc) ->
      ApplyBlock now c b = (Ok ns, c') -> imports c' (b :: acc)
  | im_refuse now c acc b e c' : imports c acc -> ApplyBlock now c b = (Err e, c') -> imports c' acc
  | im_converge now c acc branch ns c' : imports c acc -> admissible (branch ++ acc) ->
      Chain_SwitchToBranch now c branch = (Ok ns, c') -> imports c' (branch ++ acc)
  | im_stay now c acc branch e c' : imports c acc -> Chain_SwitchToBranch now c branch = (Err e, c') -> imports c' acc.

(** ** The entry points *)

Lemma run_update_Ok {A} c v (m : TX A) a c' : run_update c v m = (Ok a, c') ->
  exists w, m (ch_db c) v = (Ok (a, ch_db c'), w) /\ ch_State c' = ch_State c.
Proof. unfold run_update. destruct (m (ch_db c) v) as [[[x t]|] w]; [|done]. intros [= <- <-]. eauto. Qed.

Lemma run_update_Err {A} c v (m : TX A) e c' : run_update c v m = (Err e, c') -> ch_db c' = ch_db c.
Proof. unfold run_update. destruct (m (ch_db c) v) as [[[x t]|] w]; [done|]. by intros [= <- <-]. Qed.

Lemma ApplyBlock_Ok now c b ns c' : ApplyBlock now c b = (Ok ns, c') ->
  exists r w, importBlock now (ch_State c) b (ch_db c) (clearReorg (ch_volatile c)) = (Ok (r, ch_db c'), w).
Proof.
  unfold ApplyBlock. destruct (run_update _ _ _) as [[r|e] u] eqn:E; [|done]. apply run_update_Ok in E as (w & E & _).
  destruct r; [unfold notify; destruct (notifyReorg _)|]; intros [= <- <-]; eauto.
Qed.

Lemma ApplyBlock_Err now c b e c' : ApplyBlock now c b = (Err e, c') -> ch_db c' = ch_db c.
Proof.
  unfold ApplyBlock. destruct (run_update _ _ _) as [[[|]|e2] u] eqn:E; [by destruct (notify _)|done|].
  apply run_update_Err in E. by intros [= <- <-].
Qed.

Lemma Switch_Ok now c branch ns c' : Chain_SwitchToBranch now c branch = (Ok ns, c') ->
  exists r w, convergeTxn now (ch_State c) branch (ch_db c) (clearReorg (ch_volatile c)) = (Ok (r, ch_db c'), w).
Proof.
  unfold Chain_SwitchToBranch. destruct branch as [|x l]; [done|]. destruct (run_update _ _ _) as [[r|e] u] eqn:E; [|done].
  apply run_update_Ok in E as (w & E & _). unfold notify. destruct (notifyReorg _). intros [= <- <-]. eauto.
Qed.

Lemma Switch_Err now c branch e c' : Chain_SwitchToBranch now c branch = (Err e, c') -> ch_db c' = ch_db c.
Proof.
  unfold Chain_SwitchToBranch. destruct branch as [|x l]; [by intros [= <- <-]|].
  destruct (run_update _ _ _) as [[r|e2] u] eqn:E; [by destruct (notify _)|]. apply run_update_Err in E. by intros [= <- <-].
Qed.

(** ** The invariant of every run *)

Lemma starts_inv c : starts c -> admissible [ob] -> forkinv ob [ob] (ch_db c) [ob] ob.
Proof.
  intros [Hb Hr] Ha. destruct (adm_wf _ Ha ob ltac:(left)) as (Hw & Hp & Hd).
  assert (HL : ledger ob [ob]).
  { split; [done|left| |].
    - intros b ->%list_elem_of_singleton. eexists. constructor.
    - by intros b ->%list_elem_of_singleton. }
  split; [|done| |done].
  - rewrite Hb. split; [done|by apply InitFromCheckpoint_inv|done|done|]. unfold InitFromCheckpoint. cbv zeta. split.
    + intros k raw Hk. do 5 rewrite lookup_insert_ne by (intros <-; by rewrite ?length_PackUint64LE in Hk).
      destruct (decide (Block_GetHash ob = k)) as [<-|]; [|by rewrite lookup_insert_ne, lookup_empty].
      rewrite lookup_insert_eq. intros [= <-]. exists ob. split; [left|done].
    + intros h raw Hh. assert (Hk : length (blockWorkKey h) = 37%nat) by (rewrite length_blockWorkKey; lia).
      do 6 rewrite lookup_insert_ne by (intros E; rewrite <-E in Hk; by rewrite ?length_PackUint64LE, ?length_Block_GetHash in Hk).
      by rewrite lookup_empty.
  - intros w b wb _ ->%list_elem_of_singleton _. by left.
Qed.

Lemma imports_inv c acc : imports c acc -> exists chain tip, forkinv ob acc (ch_db c) chain tip.
Proof.
  induction 1 as [c Hs Ha|now c acc b ns c' _ (chain & tip & F) Ha E|now c acc b e c' _ (chain & tip & F) E
    |now c acc branch ns c' _ (chain & tip & F) Ha E|now c acc branch e c' _ (chain & tip & F) E].
  - eexists _, _. by apply starts_inv.
  - apply ApplyBlock_Ok in E as (r & w & E). by eapply importBlock_inv.
  - apply ApplyBlock_Err in E as ->. eauto.
  - apply Switch_Ok in E as (r & w & E). destruct (convergeTxn_inv _ _ _ _ _ _ _ _ _ _ _ _ F Ha E) as (newTip & _ & F'). eauto.
  - apply Switch_Err in E as ->. eauto.
Qed.

Lemma imports_tip c acc : imports c acc -> exists chain tip w, forkinv ob acc (ch_db c) chain tip /\ weighs ob acc tip w
  /\ exists blk, cumulativeWork (blocks (ch_db c)) tip = Ok (w, blk).
Proof.
  intros Him. destruct (imports_inv c acc Him) as (chain & tip & F). pose proof (fi_sound _ _ _ _ _ F) as S. pose proof S as [HL Hst Hh Hc Hf]. destruct (sound_tip _ _ _ _ _ S (fi_tip _ _ _ _ _ F)) as (Hin & Hth & _).
  destruct (led_weighs _ _ HL tip Hin) as [w Hw]. exists chain, tip, w. split; [done|]. split; [done|].
  assert (Hi : chain !! (length chain - 1)%nat = Some tip) by (pose proof (fi_tip _ _ _ _ _ F) as Hl; rewrite last_lookup in Hl; by rewrite Nat.sub_1_r).
  destruct (cumulativeWork (blocks (ch_db c)) tip) as [[w' blk]|e] eqn:E.
  - destruct (sound_work _ _ _ _ _ _ S Hin E) as (Hw' & _). rewrite (weighs_unique _ _ _ _ _ (led_adm _ _ HL) Hw Hw'). eauto.
  - exfalso. unfold cumulativeWork in E. destruct Hst as [C _].
    pose proof (cc_origin _ _ _ C) as Ho. assert (Hle : (length chain - 1 <= Z.to_nat (blockHeight tip))%nat) by (unfold zlen in *; lia).
    pose proof (workWalk_canonical ob _ chain C Hh _ tip [] _ Hi Hle) as Hok.
    by destruct (workWalk _ _ _ _) as [[base l]|].
Qed.

(** C1 - Fork choice.  After any sequence of imports the canonical chain runs
    from the origin to the tip without a gap, every canonical block was
    accepted, the tip is the best of all accepted blocks - the most
    cumulative work, and on equal work the smallest hash - and the tip's
    work, as the node computes it, is the sum of the difficulties along its
    chain.  The state commitment is the root in the tip's header. *)
Theorem tip_is_best_accepted c acc :
  imports c acc ->
  exists chain tip w,
    canonical_chain (blocks (ch_db c)) (blockHeight ob) chain
    /\ head chain = Some ob /\ last chain = Some tip /\ chain ⊆ acc
    /\ GetLatestBlock (blocks (ch_db c)) = Ok tip
    /\ weighs ob acc tip w /\ (exists blk, cumulativeWork (blocks (ch_db c)) tip = Ok (w, blk))
    /\ (forall b, b ∈ acc -> exists wb, weighs ob acc b wb /\ (b = tip \/ beats w (Block_GetHash tip) wb (Block_GetHash b)))
    /\ StateRoot (ch_db c) = h_StateRoot (b_Header tip).
Proof.
  intros Him. destruct (imports_tip c acc Him) as (chain & tip & w & [S Hl Hb Hr] & Hw & Hcw).
  exists chain, tip, w. destruct (sound_tip _ _ _ _ _ S Hl) as (_ & _ & _ & Hgl & _). destruct S as [HL [C _] Hh Hc _].
  split_and!; try done. intros b Hin. destruct (led_weighs _ _ HL b Hin) as [wb Hwb]. exists wb. eauto.
Qed.

(** C18 - The block store keeps a connected canonical chain.  Through any
    sequence of gossiped blocks and converging branches the node accepts or
    refuses - extensions of the tip, side blocks, prunes at checkpoints and
    branch switches - every height from the origin to the tip resolves to its
    block, which builds on the block below and is also found by hash; the
    latest tags name the tip; no height above it resolves; and the health
    check of a restart passes instead of panicking. *)
Theorem imports_store_healthy c acc :
  imports c acc -> exists chain, head chain = Some ob /\ chain ⊆ acc /\ healthy (blocks (ch_db c)) (blockHeight ob) chain.
Proof.
  intros Him. destruct (imports_inv c acc Him) as (chain & tip & [S _ _ _]). exists chain.
  split; [exact (so_head _ _ _ _ S)|]. split; [exact (so_chain _ _ _ _ S)|]. apply store_inv_healthy, (so_store _ _ _ _ S).
Qed.

(** ** Convergence *)

Lemma beats_asym w h w' h' : beats w h w' h' -> beats w' h' w h -> False.
Proof.
  unfold beats. intros [?|[-> H1]] [?|[? H2]]; try lia. apply (bytes_lt_irrefl h). by eapply bytes_lt_trans.
Qed.

Lemma best_unique acc acc' tip tip' w w' : (forall b, b ∈ acc <-> b ∈ acc') -> admissible acc ->
  weighs ob acc tip w -> weighs ob acc' tip' w' -> tip ∈ acc -> tip' ∈ acc' -> best ob acc tip -> best ob acc' tip' -> tip = tip'.
Proof.
  intros Hx Ha Hw Hw' Ht Ht' Hb Hb'.
  assert (H1 : acc ⊆ acc') by (intros b; apply Hx). assert (H2 : acc' ⊆ acc) by (intros b; apply Hx).
  destruct (Hb w tip' w' Hw (H2 _ Ht') (weighs_mono _ _ _ _ _ H2 Hw')) as [|B1]; [done|].
  destruct (Hb' w' tip w Hw' (H1 _ Ht) (weighs_mono _ _ _ _ _ H1 Hw)) as [|B2]; [done|].
  exfalso. by eapply beats_asym.
Qed.

(** A chain is its tip's ancestry. *)
Definition links (l : list FullBlock) : Prop :=
  forall i a b, l !! i = Some a -> l !! S i = Some b -> h_PrevBlockHash (b_Header b) = Block_GetHash a.

Lemma chain_is acc blk chain l tip : sound ob acc blk chain -> l ⊆ acc -> last l = Some tip -> last chain = Some tip ->
  length l = length chain -> links l -> chain = l.
Proof.
  intros Sc Hl Ht Hc Hlen Hlk. pose proof (led_adm _ _ (so_ledger _ _ _ _ Sc)) as Ha. pose proof (so_chain _ _ _ _ Sc) as Hsub.
  destruct (so_store _ _ _ _ Sc) as [C _]. rewrite last_lookup in Ht, Hc. rewrite <-Nat.sub_1_r in Ht, Hc.
  assert (G : forall j, (j < length chain)%nat -> chain !! (length chain - 1 - j)%nat = l !! (length chain - 1 - j)%nat).
  { induction j as [|j IH]; intros Hj; [rewrite Nat.sub_0_r; congruence|]. specialize (IH ltac:(lia)).
    replace (length chain - 1 - j)%nat with (S (length chain - 1 - S j)) in IH by lia. set (i := (length chain - 1 - S j)%nat) in *.
    destruct (lookup_lt_is_Some_2 chain i) as [a Ea]; [lia|]. destruct (lookup_lt_is_Some_2 l i) as [a' Ea']; [lia|].
    destruct (lookup_lt_is_Some_2 chain (S i)) as [b Eb]; [lia|]. rewrite Eb in IH. symmetry in IH. rewrite Ea, Ea'. f_equal.
    apply (adm_hash _ Ha); [apply Hsub; by eapply list_elem_of_lookup_2|apply Hl; by eapply list_elem_of_lookup_2|].
    rewrite <-(cc_link _ _ _ C _ _ _ Ea Eb). by apply (Hlk _ _ _ Ea' IH). }
  apply list_eq. intros i. destruct (decide (i < length chain)%nat) as [Hi|Hi].
  - specialize (G (length chain - 1 - i)%nat ltac:(lia)). by replace (length chain - 1 - (length chain - 1 - i))%nat with i in G by lia.
  - by rewrite !lookup_ge_None_2 by lia.
Qed.

Lemma chain_unique acc acc' blk blk' chain chain' tip : (forall b, b ∈ acc <-> b ∈ acc') ->
  sound ob acc blk chain -> sound ob acc' blk' chain' -> last chain = Some tip -> last chain' = Some tip -> chain = chain'.
Proof.
  intros Hx Sa Sb Hl Hl'. destruct (sound_tip _ _ _ _ _ Sa Hl) as (_ & Hh & _). destruct (sound_tip _ _ _ _ _ Sb Hl') as (_ & Hh' & _).
  destruct (so_store _ _ _ _ Sb) as [C' _]. pose proof (so_chain _ _ _ _ Sb) as Hc'.
  apply (chain_is acc blk chain chain' tip Sa); [intros b Hb; by apply Hx, Hc'|done|done|unfold zlen in *; lia|exact (cc_link _ _ _ C')].
Qed.

(** C5 - Nodes agree.  Two nodes of the same origin that accepted the same
    blocks, in whatever order and by whatever route, have the same tip, the
    same canonical block at every height from the origin on, and the same
    state root. *)
Theorem same_blocks_same_chain c c' acc acc' :
  imports c acc -> imports c' acc' -> (forall b, b ∈ acc <-> b ∈ acc') ->
  GetLatestBlock (blocks (ch_db c)) = GetLatestBlock (blocks (ch_db c'))
  /\ StateRoot (ch_db c) = StateRoot (ch_db c')
  /\ forall h, blockHeight ob <= h < two64 -> GetBlockByHeight (blocks (ch_db c)) h = GetBlockByHeight (blocks (ch_db c')) h.
Proof.
  intros Him Him' Hx. destruct (imports_tip c acc Him) as (chain & tip & w & [S Hl Hb Hr] & Hw & _).
  destruct (imports_tip c' acc' Him') as (chain' & tip' & w' & [S' Hl' Hb' Hr'] & Hw' & _).
  destruct (sound_tip _ _ _ _ _ S Hl) as (Ht & Hh & _ & Hgl & _). destruct (sound_tip _ _ _ _ _ S' Hl') as (Ht' & _ & _ & Hgl' & _).
  pose proof (best_unique _ _ _ _ _ _ Hx (led_adm _ _ (so_ledger _ _ _ _ S)) Hw Hw' Ht Ht' Hb Hb') as <-.
  pose proof (chain_unique _ _ _ _ _ _ _ Hx S S' Hl Hl') as <-. split; [congruence|]. split; [congruence|].
  intros h Hhr. destruct (so_store _ _ _ _ S) as [C _], (so_store _ _ _ _ S') as [C' _].
  destruct (decide (h < blockHeight ob + zlen chain)) as [Hlt|Hge].
  - destruct (lookup_lt_is_Some_2 chain (Z.to_nat (h - blockHeight ob))) as [b Eb]; [unfold zlen in *; lia|].
    pose proof (canonical_get_height _ _ _ _ _ C Eb) as G. pose proof (canonical_get_height _ _ _ _ _ C' Eb) as G'.
    replace (blockHeight ob + Z.of_nat (Z.to_nat (h - blockHeight ob))) with h in G, G' by lia. congruence.
  - unfold GetBlockByHeight. rewrite (cc_above _ _ _ C), (cc_above _ _ _ C') by lia. done.
Qed.

(** ** Finality *)

Lemma finality_below_tip h : 0 <= h -> 0 <= finalityHeight h <= h.
Proof.
  unfold finalityHeight, BlockCheckRound. intros. destruct (Z.eqb_spec h 0); [lia|].
  pose proof (Z.mul_div_le (h - 1) 10 ltac:(lia)). pose proof (Z.div_pos (h - 1) 10 ltac:(lia) ltac:(lia)). lia.
Qed.

(** C9 - Finality.  Importing a gossiped block, whether it extends the tip,
    is stored aside or starts a reorganisation, never changes the canonical
    block at a height at or below the last checkpoint under the old tip. *)
Theorem gossip_respects_finality now c acc b ns c' tip h :
  imports c acc -> admissible (b :: acc) -> ApplyBlock now c b = (Ok ns, c') ->
  GetLatestBlock (blocks (ch_db c)) = Ok tip ->
  blockHeight ob <= h <= finalityHeight (blockHeight tip) ->
  GetBlockByHeight (blocks (ch_db c')) h = GetBlockByHeight (blocks (ch_db c)) h
  /\ exists x, GetBlockByHeight (blocks (ch_db c)) h = Ok x.
Proof.
  intros Him Ha E Hg Hh. destruct (imports_inv c acc Him) as (chain & tip0 & F). pose proof (fi_sound _ _ _ _ _ F) as S.
  destruct (sound_tip _ _ _ _ _ S (fi_tip _ _ _ _ _ F)) as (Hin & Hth & Hgh & Hgl & _). rewrite Hg in Hgl. injection Hgl as <-.
  pose proof (so_ledger _ _ _ _ S) as HL. destruct (adm_wf _ (led_adm _ _ HL) tip Hin) as (Hwt & _). apply wf_block_height in Hwt.
  pose proof (finality_below_tip (blockHeight tip) (proj1 Hwt)) as Hfin. pose proof (so_store _ _ _ _ S) as [C _].
  pose proof (cc_origin _ _ _ C) as Ho.
  destruct (lookup_lt_is_Some_2 chain (Z.to_nat (h - blockHeight ob))) as [x Ex]; [unfold zlen in *; lia|].
  assert (G : forall blk ch, canonical_chain blk (blockHeight ob) ch -> ch !! Z.to_nat (h - blockHeight ob) = Some x -> GetBlockByHeight blk h = Ok x).
  { intros blk ch Cc Hi. pose proof (canonical_get_height _ _ _ _ _ Cc Hi) as Hc.
    by replace (blockHeight ob + Z.of_nat (Z.to_nat (h - blockHeight ob))) with h in Hc by lia. }
  rewrite (G _ _ C Ex). split; [|eauto].
  apply ApplyBlock_Ok in E as (r & w & E). unfold importBlock in E. open_tx E. rewrite Hgh in Hm. injection Hm as <-.
  case_bool_decide as Hpr.
  - destruct (extendTip_inv _ _ _ _ _ _ _ _ _ _ _ _ F Ha Hpr E) as [S' _ _ _]. apply (G _ (chain ++ [b])); [apply (so_store _ _ _ _ S')|].
    rewrite lookup_app_l by (by apply lookup_lt_Some in Ex). done.
  - destruct (importSide_inv _ _ _ _ _ _ _ _ _ _ _ _ F Ha E) as [[_ F']|(branch & first & _ & Hhd & Hf & Hfin' & Hfo & F')].
    + apply (G _ chain); [apply (so_store _ _ _ _ (fi_sound _ _ _ _ _ F'))|done].
    + apply (G _ (switched ob chain branch)); [apply (so_store _ _ _ _ (fi_sound _ _ _ _ _ F'))|].
      unfold switched. destruct branch as [|f l]; [done|]. injection Hhd as ->.
      destruct (adm_wf _ Ha first Hfin') as (Hwf & _). apply wf_block_height in Hwf. unfold is_u64 in *.
      assert (Hpos : blockHeight ob < blockHeight first).
      { destruct (led_weighs _ _ (so_ledger _ _ _ _ (fi_sound _ _ _ _ _ F')) first Hfin') as [wf Hw].
        by destruct (weighs_height _ _ _ _ Hw). }
      rewrite u64_id in Hf by (unfold is_u64; lia).
      rewrite lookup_app_l; [|rewrite length_take; apply lookup_lt_Some in Ex; lia].
      rewrite lookup_take_lt by lia. done.
Qed.

End ForkProps.

(** ** Two nodes, two orders *)

Module ForkWitness.

#[local] Existing Instance prefix_hasher.
#[local] Existing Instance toy_libs.
#[local] Existing Instance toy_codec.
#[local] Existing Instance toy_codec_laws.
#[local] Existing Instance toy_slot_codec.
#[local] Existing Instance toy_toll.
#[local] Existing Instance RunWitness.engine.
#[local] Existing Instance LedgerWitness.receipts.
#[local] Existing Instance LedgerWitness.deps.
#[local] Existing Instance LedgerWitness.inflate.
#[local] Existing Instance LedgerWitness.merkle.
#[local] Existing Instance LedgerWitness.text.

#[local] Instance pow : PowLib := fun _ => to_array 32 (zeros 31 ++ [Byte.x01]).
#[local] Instance sheets : SheetCodec := {| rlp_Sheet := fun _ => [Zbyte 1]; dec_Sheet := fun _ => None |}.

Definition state : State := LedgerWitness.state.

Definition genesis : FullBlock :=
  RunWitness.ok_or (NewBareBlock ZERONET 0 0 [] 0) (GetGenesisBlock ZERONET).

Definition db0 : Txn :=
  RunWitness.ok_or ∅ (InitStateFromGenesis state (setBucket ∅ BlockBucketName (InitFromCheckpoint ∅ genesis))).

Definition node : Chain :=
  {| ch_Network := ZERONET; ch_State := state; ch_db := db0;
     ch_volatile := {| v_snapshots := emptySnapshots; reorgRemoved := []; reorgAdded := [] |} |}.

Definition now : Z := 1603497601000 + 10 ^ 6.

Definition reward : FullTx :=
  LedgerWitness.sign (NewUnsignedTx ZERONET GenerateTx 1 LedgerWitness.alice (Some (GetBlockReward 1)) (Some 0) []).

(** A block on the genesis block, [ms] milliseconds after it. *)
Definition child (ms : Z) : FullBlock :=
  let ts := h_Timestamp (b_Header genesis) + ms in
  let diff := RunWitness.ok_or 0 (GetNextDiff 1 ts (b_Header genesis)) in
  let x := SetUncles (SetCoinbase (NewBareBlock ZERONET 1 ts (Block_GetHash genesis) diff) LedgerWitness.alice) [] in
  let x := RunWitness.ok_or x (ToUnsealing x [reward]) in
  let root := RunWitness.ok_or [] (DryApplyRoot state db0 x) in
  let fee := NextBaseFee ZERONET 0 (Some (be_Z (h_BaseFee (b_Header genesis)))) (BlockUsedBytes genesis) in
  set_Header x (h_set_StateRoot_BaseFee (b_Header x) root (big_Bytes fee)).

Definition a1 : FullBlock := child 4000.
Definition b1 : FullBlock := child 4001.

(** One node sees [a1] first, the other [b1]. *)
Abbreviation first_a := (ApplyBlock now node a1).
Abbreviation a_then_b := (ApplyBlock now first_a.2 b1).
Abbreviation first_b := (ApplyBlock now node b1).
Abbreviation b_then_a := (ApplyBlock now first_b.2 a1).

Lemma runs_ok :
  (let x := first_a in let y := ApplyBlock now x.2 b1 in is_ok x.1 && is_ok y.1)
  && (let x := first_b in let y := ApplyBlock now x.2 a1 in is_ok x.1 && is_ok y.1) = true.
Proof. vm_compute. reflexivity. Qed.

#[local] Instance wf_tx_dec tx : Decision (wf_tx tx).
Proof. unfold wf_tx, is_u64. apply _. Defined.

#[local] Instance wf_header_dec h : Decision (wf_header h).
Proof. unfold wf_header, is_u64. apply _. Defined.

Definition usable (b : FullBlock) : bool :=
  bool_decide (wf_header (b_Header b)) && bool_decide (Forall wf_tx (b_Txs b)) && bool_decide (Forall wf_header (b_Uncles b))
  && (length (b_Commits b) =? 0)%nat
  && negb (has_prefix sideBlockPrefix (Block_GetHash b)) && negb (has_prefix sideBlockPrefix (PackUint64LE (blockHeight b)))
  && (blockHeight b + 1 <? two64)
  && (negb (bool_decide (IsGenesis b = Ok true)) || (blockHeight b =? 0)).

Lemma usable_ok b : usable b = true ->
  (wf_block b /\ plain_keys b /\ blockHeight b + 1 < two64) /\ (IsGenesis b = Ok true -> blockHeight b = 0).
Proof.
  unfold usable. intros H. bools. split_and!; try done.
  - destruct (b_Commits b) eqn:E; [|done]. unfold wf_block. rewrite E. split_and!; [done..|constructor].
  - intros Hg. by destruct (bool_decide_reflect (IsGenesis b = Ok true)); [cbn in *; bools|].
Qed.

(** Away from the constants. *)
Lemma usable_admissible l : forallb usable l && bool_decide (NoDup (Block_GetHash <$> l)) = true -> admissible l.
Proof.
  intros [H Hn]%andb_prop. apply bool_decide_eq_true_1 in Hn. rewrite forallb_forall in H. split.
  - intros b Hb. by apply usable_ok, H, list_elem_of_In.
  - intros a b Ha Hb E. apply list_elem_of_lookup in Ha as [i Hi], Hb as [j Hj].
    assert (i = j) as ->; [|congruence]. eapply (NoDup_lookup (Block_GetHash <$> l)); [done|..].
    + by rewrite list_lookup_fmap, Hi.
    + by rewrite list_lookup_fmap, Hj, E.
  - intros b Hb. by apply usable_ok, H, list_elem_of_In.
Qed.

Lemma blocks_usable :
  forallb usable [a1; b1; genesis] && bool_decide (NoDup (Block_GetHash <$> [a1; b1; genesis])) = true.
Proof. vm_compute. reflexivity. Qed.

Lemma all_admissible : admissible [a1; b1; genesis].
Proof. exact (usable_admissible _ blocks_usable). Qed.

(** Sublists, away from the constants. *)
Lemma subs {A} (x y z : A) : [z] ⊆ [x; y; z] /\ [x; z] ⊆ [x; y; z] /\ [y; z] ⊆ [x; y; z] /\ [y; x; z] ⊆ [x; y; z]
  /\ forall b, b ∈ [y; x; z] <-> b ∈ [x; y; z].
Proof. split_and!; set_solver. Qed.

Lemma node_starts : bool_decide (blocks db0 = InitFromCheckpoint ∅ genesis) && bool_decide (StateRoot db0 = h_StateRoot (b_Header genesis)) = true.
Proof. vm_compute. reflexivity. Qed.

Lemma accepted (c : Chain) (acc : list FullBlock) (b : FullBlock) : imports genesis c acc -> admissible (b :: acc) -> is_ok (ApplyBlock now c b).1 = true ->
  imports genesis (ApplyBlock now c b).2 (b :: acc).
Proof.
  intros Hi Ha Hok. destruct (ApplyBlock now c b) as [r c'] eqn:E. cbn [fst snd] in *. apply is_ok_Ok in Hok as [ns ->].
  by eapply im_apply.
Qed.

Lemma start_imports : imports genesis node [genesis].
Proof.
  pose proof node_starts as H. bools. apply im_start; [by split|]. apply (admissible_sub _ _ (proj1 (subs a1 b1 genesis)) all_admissible).
Qed.

Lemma both_orders : imports genesis a_then_b.2 [b1; a1; genesis] /\ imports genesis b_then_a.2 [a1; b1; genesis].
Proof.
  pose proof runs_ok as H. cbv zeta in H. bools. pose proof all_admissible as Ha.
  destruct (subs a1 b1 genesis) as (_ & S1 & S2 & S3 & _).
  split; (apply accepted; [apply accepted; [exact start_imports| |assumption]| |assumption]).
  - exact (admissible_sub _ _ S1 Ha).
  - exact (admissible_sub _ _ S3 Ha).
  - exact (admissible_sub _ _ S2 Ha).
  - exact Ha.
Qed.

Lemma tip_is_best_accepted_witness :
  exists tip w, GetLatestBlock (blocks (ch_db b_then_a.2)) = Ok tip /\ weighs genesis [a1; b1; genesis] tip w
    /\ StateRoot (ch_db b_then_a.2) = h_StateRoot (b_Header tip).
Proof.
  destruct (tip_is_best_accepted genesis b_then_a.2 [a1; b1; genesis] (proj2 both_orders))
    as (chain & tip & w & _ & _ & _ & _ & Hg & Hw & _ & _ & Hr).
  exists tip, w. split; [exact Hg|]. split; [exact Hw|exact Hr].
Defined.

Lemma imports_store_healthy_witness : CheckHealth (blocks (ch_db b_then_a.2)) = Ok tt.
Proof.
  destruct (imports_store_healthy genesis b_then_a.2 [a1; b1; genesis] (proj2 both_orders)) as (chain & _ & _ & H).
  exact (hl_check _ _ _ H).
Defined.

Lemma same_blocks_same_chain_witness :
  GetLatestBlock (blocks (ch_db a_then_b.2)) = GetLatestBlock (blocks (ch_db b_then_a.2))
  /\ StateRoot (ch_db a_then_b.2) = StateRoot (ch_db b_then_a.2).
Proof.
  destruct (same_blocks_same_chain genesis a_then_b.2 b_then_a.2 _ _ (proj1 both_orders) (proj2 both_orders)) as (Ht & Hr & _).
  - apply (subs a1 b1 genesis).
  - split; [exact Ht|exact Hr].
Defined.

Lemma first_b_tip :
  bool_decide (GetLatestHash (blocks (ch_db first_b.2)) = Ok (Block_GetHash b1))
  && (blockHeight genesis <=? 0) && (0 <=? finalityHeight (blockHeight b1)) = true.
Proof. vm_compute. reflexivity. Qed.

(** The reorganisation from [b1] to [a1] keeps the genesis block. *)
Lemma gossip_respects_finality_witness :
  GetBlockByHeight (blocks (ch_db b_then_a.2)) 0 = GetBlockByHeight (blocks (ch_db first_b.2)) 0.
Proof.
  pose proof first_b_tip as H. pose proof runs_ok as R. cbv zeta in R. bools.
  destruct (subs a1 b1 genesis) as (_ & _ & S2 & _).
  assert (Hi : imports genesis first_b.2 [b1; genesis]).
  { apply accepted; [exact start_imports|exact (admissible_sub _ _ S2 all_admissible)|assumption]. }
  destruct (imports_inv genesis _ _ Hi) as (chain & tip & F).
  destruct (sound_tip genesis _ _ _ _ (fi_sound _ _ _ _ _ F) (fi_tip _ _ _ _ _ F)) as (Hin & _ & Hh & Hg & _).
  assert (tip = b1) as ->.
  { apply (adm_hash _ all_admissible); [by apply S2|apply S2; left|congruence]. }
  destruct b_then_a as [r c'] eqn:E. cbn [fst snd] in *.
  match goal with Hr : is_ok r = true |- _ => apply is_ok_Ok in Hr as [ns ->] end.
  apply (gossip_respects_finality genesis now first_b.2 [b1; genesis] a1 ns c' b1 0 Hi all_admissible E Hg). split; assumption.
Defined.

End ForkWitness.
