(* ===== verification/Pool.v ===== *)
(** * The transaction pool

    Package ngpool: one pending transaction and one pending commitment per
    address, locked to the next height; the two relay queues that survive tip
    movements; and the packs a block template takes.  The chain is read, not
    written.  Puts, packs and resets run under the pool lock, so they come one
    after the other.  [RelayCommit] and [RelayReveal] of relay.go take the
    lock for each of their steps only; here they run as one call, and what
    comes between two of their steps in the program is one of the other
    operations, each of which preserves the invariant of the pool.

    [range] over a Go map visits the entries in an arbitrary order: where the
    order could show, the order is an argument. *)

From S2P Require Import Prelude Params StateTrie Keys Contract Types Instances Tx Block BlockStore State StateCommit Journal Ledger Snapshot Queries Chain.

Definition DefaultPoolSize : Z := 4096.
Definition DefaultMinFeePerByte : Z := 10000000000.
Definition MaxTxsPerPack : Z := MaxBlockTxCount.

(** relay.go *)
Record queuedReveal := { qr_tx : FullTx; qr_expireAt : Z }.
Record queuedCommit := { qc_commit : Commitment; qc_expireAt : Z }.

(** What leaves the pool: the hooks, and what is handed to the network. *)
Inductive poolEvent :=
  | OnNewTx (tx : FullTx)
  | OnNewCommit (c : Commitment)
  | RouteTx (tx : FullTx)
  | RouteCommitment (c : Commitment).

Record TxPool := {
  txMap : gmap Address FullTx;
  commitMap : gmap Address Commitment;
  commitQueue : gmap Address queuedCommit;
  revealQueue : gmap Address queuedReveal;
  MaxSize : Z;
  MinFeePerByte : option Z;
  events : list poolEvent
}.

Definition p_set_txMap (p : TxPool) (m : gmap Address FullTx) : TxPool :=
  {| txMap := m; commitMap := commitMap p; commitQueue := commitQueue p; revealQueue := revealQueue p;
     MaxSize := MaxSize p; MinFeePerByte := MinFeePerByte p; events := events p |}.
Definition p_set_commitMap (p : TxPool) (m : gmap Address Commitment) : TxPool :=
  {| txMap := txMap p; commitMap := m; commitQueue := commitQueue p; revealQueue := revealQueue p;
     MaxSize := MaxSize p; MinFeePerByte := MinFeePerByte p; events := events p |}.
Definition p_set_commitQueue (p : TxPool) (m : gmap Address queuedCommit) : TxPool :=
  {| txMap := txMap p; commitMap := commitMap p; commitQueue := m; revealQueue := revealQueue p;
     MaxSize := MaxSize p; MinFeePerByte := MinFeePerByte p; events := events p |}.
Definition p_set_revealQueue (p : TxPool) (m : gmap Address queuedReveal) : TxPool :=
  {| txMap := txMap p; commitMap := commitMap p; commitQueue := commitQueue p; revealQueue := m;
     MaxSize := MaxSize p; MinFeePerByte := MinFeePerByte p; events := events p |}.
Definition p_emit (p : TxPool) (e : poolEvent) : TxPool :=
  {| txMap := txMap p; commitMap := commitMap p; commitQueue := commitQueue p; revealQueue := revealQueue p;
     MaxSize := MaxSize p; MinFeePerByte := MinFeePerByte p; events := events p ++ [e] |}.

Definition Pool_Init : TxPool :=
  {| txMap := ∅; commitMap := ∅; commitQueue := ∅; revealQueue := ∅; MaxSize := DefaultPoolSize;
     MinFeePerByte := Some DefaultMinFeePerByte; events := [] |}.

(** The other fields of the transaction are kept. *)
Definition tx_set_Height (x : FullTx) (h : Z) : FullTx :=
  {| tx_Network := tx_Network x; tx_Type := tx_Type x; tx_Height := h; tx_To := tx_To x; tx_Value := tx_Value x;
     tx_Fee := tx_Fee x; tx_Extra := tx_Extra x; tx_Sign := tx_Sign x; tx_Salt := tx_Salt x |}.
Definition c_set_Height (c : Commitment) (h : Z) : Commitment :=
  {| c_Network := c_Network c; c_Height := h; c_Hash := c_Hash c; c_Fee := c_Fee c; c_Sign := c_Sign c |}.

(** [dedupByKey] keeps the first element of each key. *)
Fixpoint dedupByKey {A} (key : A -> bytes) (seen : gset bytes) (items : list A) : list A :=
  match items with
  | [] => []
  | it :: rest =>
      if bool_decide (key it ∈ seen) then dedupByKey key seen rest
      else it :: dedupByKey key ({[key it]} ∪ seen) rest
  end.

(** ngp2p's routers, whose failure is the only answer: a parameter. *)
Class Router := routed : poolEvent -> bool.

Section Pool.
Context `{HH : Hasher} `{SL : SigLibs} `{CD : Codec} `{SC : SlotCodec} `{RC : ReceiptCodec}
  `{DC : DepsCodec} `{IF : Inflate} `{ML : MerkleLib} `{PL : PowLib} `{VM_ : ContractVM} `{SHC : SheetCodec} `{RT : Router}.

(** ** pool.go *)

Definition values {A} (m : gmap Address A) : list A := (map_to_list m).*2.

(** The entry the iteration meets first. *)
Definition IsInPool (pool : TxPool) (txHash : bytes) : option FullTx :=
  head (filter (fun tx => GetHash tx = txHash) (values (txMap pool))).

Definition Pool_List (pool : TxPool) : list FullTx := values (txMap pool).

Definition ListCommitments (pool : TxPool) : list Commitment := values (commitMap pool).

Definition Reset (pool : TxPool) : TxPool := p_set_commitMap (p_set_txMap pool ∅) ∅.

(** ** pool_put.go *)

Definition nextHeight (c : Chain) : Z := u64 (GetLatestBlockHeight c + 1).

(** [None] is nil. *)
Definition effectiveFloorPerByte (c : Chain) (pool : TxPool) : res (option Z) :=
  let floor := match MinFeePerByte pool with Some m => if 0 <? m then Some m else None | None => None end in
  let! tip := getLatestBlock c in
  let childHeight := u64 (blockHeight tip + 1) in
  let network := h_Network (b_Header tip) in
  if IsForkActive network ForkFeeMarket childHeight then
    let nextBaseFee := NextBaseFee network (blockHeight tip) (Some (be_Z (h_BaseFee (b_Header tip)))) (BlockUsedBytes tip) in
    Ok (match floor with
        | Some f => if f <? nextBaseFee then Some nextBaseFee else Some f
        | None => Some nextBaseFee
        end)
  else Ok floor.

(** A fee below the floor of a wire size is refused. *)
Definition checkFloor (perByte : option Z) (size fee : Z) : res unit :=
  match perByte with
  | Some p => if 0 <? p then reject fee <? p * size with ErrTxFeeBelowFloor ; Ok tt else Ok tt
  | None => Ok tt
  end.

(** Lowest fee; on equal fees the greater address. *)
Definition cheaper (best : option (Address * Z)) (e : Address * FullTx) : option (Address * Z) :=
  match best with
  | None => Some (e.1, tx_Fee e.2)
  | Some (addr, fee) =>
      if tx_Fee e.2 <? fee then Some (e.1, tx_Fee e.2)
      else if (tx_Fee e.2 =? fee) && bool_decide (bytes_lt (vec_to_list addr) (vec_to_list e.1)) then Some (e.1, tx_Fee e.2)
      else best
  end.

Definition cheapestEntry (entries : list (Address * FullTx)) : option (Address * Z) := foldl cheaper None entries.

(** The nil fee of an empty map panics. *)
Definition makeRoom (pool : TxPool) (fee : Z) : res (gmap Address FullTx) :=
  if MaxSize pool <=? Z.of_nat (size (txMap pool)) then
    match cheapestEntry (map_to_list (txMap pool)) with
    | None => Err GoPanic
    | Some (evictAddr, evictFee) =>
        reject fee <=? evictFee with ErrPoolFull ;
        Ok (delete evictAddr (txMap pool))
    end
  else Ok (txMap pool).

Definition PutTx (c : Chain) (pool : TxPool) (tx : FullTx) : res TxPool :=
  reject negb (tx_Height tx =? nextHeight c) with ErrTxInvalidHeight ;
  let! perByte := effectiveFloorPerByte c pool in
  do! checkFloor perByte (zlen (rlp_FullTx tx)) (tx_Fee tx) ;
  do! CheckTx (ch_db c) tx ;
  let! from := From tx in
  match txMap pool !! from with
  | Some existing =>
      reject tx_Fee tx <=? tx_Fee existing with ErrTxFeeTooLow ;
      Ok (p_emit (p_set_txMap pool (<[from := tx]> (txMap pool))) (OnNewTx tx))
  | None =>
      let! room := makeRoom pool (tx_Fee tx) in
      Ok (p_emit (p_set_txMap pool (<[from := tx]> room)) (OnNewTx tx))
  end.

(** [CheckCommitment] has seen a fee. *)
Definition PutCommitment (c : Chain) (pool : TxPool) (commit : Commitment) : res TxPool :=
  do! CheckCommitment (ch_db c) commit (nextHeight c) ;
  let fee := default 0 (c_Fee commit) in
  let! perByte := effectiveFloorPerByte c pool in
  do! checkFloor perByte (zlen (rlp_Commitment commit)) fee ;
  let! from := Commitment_From commit in
  reject match commitMap pool !! from with Some existing => fee <=? default 0 (c_Fee existing) | None => false end
    with ErrTxFeeTooLow ;
  Ok (p_emit (p_set_commitMap pool (<[from := commit]> (commitMap pool))) (OnNewCommit commit)).

(** The pool keeps what it admitted when routing fails. *)
Definition route (e : poolEvent) (pool : TxPool) : res unit * TxPool :=
  (if routed e then Ok tt else Err ErrRemote, p_emit pool e).

Definition PutNewTxFromLocal (c : Chain) (pool : TxPool) (tx : FullTx) : res unit * TxPool :=
  match PutTx c pool tx with
  | Err e => (Err e, pool)
  | Ok pool => route (RouteTx tx) pool
  end.

Definition PutNewTxFromRemote (c : Chain) (pool : TxPool) (tx : FullTx) : res TxPool := PutTx c pool tx.

Definition PutNewCommitmentFromLocal (c : Chain) (pool : TxPool) (commit : Commitment) : res unit * TxPool :=
  match PutCommitment c pool commit with
  | Err e => (Err e, pool)
  | Ok pool => route (RouteCommitment commit) pool
  end.

Definition PutNewCommitmentFromRemote (c : Chain) (pool : TxPool) (commit : Commitment) : res TxPool := PutCommitment c pool commit.

(** ** pool_get.go *)

(** Highest fee first, ties by the id. *)
Definition packs_before (a b : FullTx) : Prop :=
  tx_Fee b < tx_Fee a \/ tx_Fee a = tx_Fee b /\ bytes_le (GetHash a) (GetHash b).

#[global] Instance packs_before_dec : RelDecision packs_before.
Proof. intros a b. unfold packs_before. apply _. Defined.

Definition commit_before (a b : Commitment) : Prop :=
  default 0 (c_Fee b) < default 0 (c_Fee a) \/ default 0 (c_Fee a) = default 0 (c_Fee b) /\ bytes_le (c_Hash a) (c_Hash b).

#[global] Instance commit_before_dec : RelDecision commit_before.
Proof. intros a b. unfold commit_before. apply _. Defined.

(** [order]: the entries of the map as the iteration yields them. *)
Definition GetPack_in (order : list FullTx) (h : Z) : TxTrie :=
  let txs := merge_sort packs_before (filter (fun tx => tx_Height tx = h) order) in
  let txs := dedupByKey GetHash ∅ txs in
  let txs := if MaxTxsPerPack <? zlen txs then take (Z.to_nat MaxTxsPerPack) txs else txs in
  NewTxTrie txs.

Definition GetPack (pool : TxPool) (h : Z) : TxTrie := GetPack_in (values (txMap pool)) h.

Definition GetCommitPack_in (order : list Commitment) (h : Z) : list Commitment :=
  let commits := merge_sort commit_before (filter (fun c => c_Height c = h) order) in
  let commits := dedupByKey c_Hash ∅ commits in
  if MaxTxsPerPack <? zlen commits then take (Z.to_nat MaxTxsPerPack) commits else commits.

Definition GetCommitPack (pool : TxPool) (h : Z) : list Commitment := GetCommitPack_in (values (commitMap pool)) h.

(** ** relay.go *)

Definition relayExpiry (next : Z) : Z := u64 (next + 2 * CommitWindow).

(** One queued commitment at its turn. *)
Definition retryCommit (c : Chain) (pool : TxPool) (e : Address * queuedCommit) : TxPool :=
  let next := nextHeight c in
  let tmpl := qc_commit e.2 in
  if CommitOnChain (ch_db c) e.1 (c_Hash tmpl) next then pool
  else (PutNewCommitmentFromLocal c pool (c_set_Height tmpl next)).2.

Definition relayCommits (c : Chain) (pool : TxPool) : TxPool :=
  let live := filter (fun e => nextHeight c <= qc_expireAt e.2) (commitQueue pool) in
  foldl (retryCommit c) (p_set_commitQueue pool live) (map_to_list live).

Definition RelayCommit (c : Chain) (pool : TxPool) (commit : Commitment) : res TxPool :=
  reject negb (Commitment_IsSigned commit) with ErrCommitUnsigned ;
  let! from := Commitment_From commit in
  let next := nextHeight c in
  do! CheckCommitment (ch_db c) (c_set_Height commit next) next ;
  reject bool_decide (commitQueue pool !! from = None) && (MaxSize pool <=? Z.of_nat (size (commitQueue pool))) with ErrPoolFull ;
  let pool := p_set_commitQueue pool (<[from := {| qc_commit := commit; qc_expireAt := relayExpiry next |}]> (commitQueue pool)) in
  Ok (relayCommits c pool).

Definition retryReveal (c : Chain) (pool : TxPool) (e : Address * queuedReveal) : TxPool :=
  (PutNewTxFromLocal c pool (tx_set_Height (qr_tx e.2) (nextHeight c))).2.

Definition relayReveals (c : Chain) (pool : TxPool) : TxPool :=
  let live := filter (fun e => nextHeight c <= qr_expireAt e.2) (revealQueue pool) in
  foldl (retryReveal c) (p_set_revealQueue pool live) (map_to_list live).

Definition RelayReveal (c : Chain) (pool : TxPool) (reveal : FullTx) : res TxPool :=
  reject negb (IsSigned reveal) with ErrTxUnsigned ;
  reject negb (tx_Type reveal =? TransactTx) && negb (tx_Type reveal =? DeployTx) with ErrNotEffectTx ;
  reject zlen (tx_Salt reveal) <? MinSaltSize with ErrRevealSaltShort ;
  let probe := if tx_Height reveal =? 0 then tx_set_Height reveal 1 else reveal in
  do! CheckRevealExceptCommitment (ch_db c) probe ;
  let! from := From reveal in
  let next := nextHeight c in
  reject bool_decide (revealQueue pool !! from = None) && (MaxSize pool <=? Z.of_nat (size (revealQueue pool))) with ErrPoolFull ;
  let pool := p_set_revealQueue pool (<[from := {| qr_tx := reveal; qr_expireAt := relayExpiry next |}]> (revealQueue pool)) in
  Ok (relayReveals c pool).

(** The hook resets the pool; the relay it starts runs later, by itself. *)
Definition OnTipChanged_reset (pool : TxPool) : TxPool := Reset pool.

Definition OnTipChanged_relay (c : Chain) (pool : TxPool) : TxPool := relayReveals c (relayCommits c pool).

End Pool.
