(* ===== verification/PoolProps.v ===== *)
(** * What the pool guarantees

    Every entry of the pool is admissible in the next block of the current
    chain, whatever calls led to it; and a pack is the best-paying choice. *)

From S2P Require Import Prelude Params StateTrie Keys Contract Types Instances Tx Block BlockStore State StateCommit Journal Ledger Snapshot Queries Chain VM VMToy VMProps LedgerProps Pool.

(** ** Deduplication *)

Section Dedup.
Context {A : Type} (key : A -> bytes).

Lemma dedup_sub l : forall seen x, x ∈ dedupByKey key seen l -> x ∈ l /\ key x ∉ seen.
Proof.
  induction l as [|y l IH]; intros seen x; cbn [dedupByKey]; [set_solver|]. case_bool_decide as Hs.
  - intros H. destruct (IH _ _ H). split; [by right|done].
  - intros [->|H]%elem_of_cons; [split; [left|done]|]. destruct (IH _ _ H). split; [by right|set_solver].
Qed.

Lemma dedup_NoDup l : forall seen, NoDup (key <$> dedupByKey key seen l).
Proof.
  induction l as [|y l IH]; intros seen; cbn [dedupByKey]; [constructor|]. case_bool_decide; [apply IH|].
  cbn [fmap list_fmap]. constructor; [|apply IH]. intros (x & Hk & Hx)%list_elem_of_fmap. apply dedup_sub in Hx as [_ Hn]. set_solver.
Qed.

(** Every key survives. *)
Lemma dedup_keeps l : forall seen x, x ∈ l -> key x ∉ seen -> key x ∈ key <$> dedupByKey key seen l.
Proof.
  induction l as [|y l IH]; intros seen x Hx Hs; [set_solver|]. cbn [dedupByKey]. case_bool_decide as Hy.
  - apply elem_of_cons in Hx as [->|Hx]; [done|]. by apply IH.
  - cbn [fmap list_fmap]. rewrite elem_of_cons. destruct (decide (key x = key y)) as [->|Hne]; [by left|right].
    apply elem_of_cons in Hx as [->|Hx]; [done|]. apply IH; [done|set_solver].
Qed.

Lemma dedup_Forall (P : A -> Prop) l seen : Forall P l -> Forall P (dedupByKey key seen l).
Proof. rewrite !Forall_forall. intros H x [Hx _]%dedup_sub. by apply H. Qed.

Lemma dedup_StronglySorted (R : A -> A -> Prop) l : forall seen, StronglySorted R l -> StronglySorted R (dedupByKey key seen l).
Proof.
  induction l as [|y l IH]; intros seen Hs; [done|]. apply StronglySorted_inv in Hs as [Hs Hf]. cbn [dedupByKey]. case_bool_decide; [by apply IH|].
  constructor; [by apply IH|by apply dedup_Forall].
Qed.

(** The survivor of a key is the first of it in the order. *)
Lemma dedup_first (R : A -> A -> Prop) l : StronglySorted R l -> forall seen x, x ∈ l -> key x ∉ seen ->
  exists d, d ∈ dedupByKey key seen l /\ key d = key x /\ (d = x \/ R d x).
Proof.
  induction 1 as [|y l Hl IH Hf]; intros seen x Hx Hs; [set_solver|]. cbn [dedupByKey]. case_bool_decide as Hy.
  - apply elem_of_cons in Hx as [->|Hx]; [done|]. by apply IH.
  - destruct (decide (key x = key y)) as [E|Hne].
    + exists y. split; [left|]. split; [done|]. apply elem_of_cons in Hx as [->|Hx]; [by left|right]. rewrite Forall_forall in Hf. by apply Hf.
    + apply elem_of_cons in Hx as [->|Hx]; [done|]. destruct (IH ({[key y]} ∪ seen) x Hx) as (d & Hd & ?); [set_solver|].
      exists d. split; [by right|done].
Qed.

(** The keys that survive depend on the keys alone. *)
Lemma dedup_keys l l' : key <$> l = key <$> l' -> forall seen, key <$> dedupByKey key seen l = key <$> dedupByKey key seen l'.
Proof.
  revert l'. induction l as [|x l IH]; intros [|y l'] E seen; try done. cbn [fmap list_fmap] in E. injection E as E1 E2.
  cbn [dedupByKey]. rewrite E1. case_bool_decide; [by apply IH|]. cbn [fmap list_fmap]. rewrite E1. f_equal. by apply IH.
Qed.

End Dedup.

Lemma StronglySorted_take_drop {A} (R : A -> A -> Prop) n l a b : StronglySorted R l -> a ∈ take n l -> b ∈ drop n l -> R a b.
Proof.
  intros H. rewrite <-(take_drop n l) in H. generalize dependent (drop n l). generalize dependent (take n l).
  intros t. induction t as [|x t IH]; intros d Hs Ha Hb; [set_solver|]. apply StronglySorted_inv in Hs as [Hs Hf].
  apply elem_of_cons in Ha as [->|Ha]; [|by apply (IH d)]. rewrite Forall_forall in Hf. apply Hf. apply elem_of_app. by right.
Qed.

Section Packs.
Context `{HH : Hasher} `{SL : SigLibs} `{CD : Codec}.

#[local] Instance packs_before_trans : Transitive packs_before.
Proof.
  intros a b c. unfold packs_before. intros [?|[? ?]] [?|[? ?]]; [left; lia..|]. right. split; [lia|]. by etrans.
Qed.

#[local] Instance packs_before_total : Total packs_before.
Proof.
  intros a b. unfold packs_before. destruct (Z.lt_trichotomy (tx_Fee a) (tx_Fee b)) as [|[E|]]; [right; by left| |left; by left].
  destruct (total bytes_le (GetHash a) (GetHash b)); [left|right]; right; auto.
Qed.

(** The candidates of a height, best first, one per id. *)
Definition ranked (order : list FullTx) (h : Z) : list FullTx :=
  dedupByKey GetHash ∅ (merge_sort packs_before (filter (fun tx => tx_Height tx = h) order)).

Lemma GetPack_take order h : GetPack_in order h = NewTxTrie (take (Z.to_nat MaxTxsPerPack) (ranked order h)).
Proof.
  unfold GetPack_in. cbv zeta. fold (ranked order h). destruct (Z.ltb_spec MaxTxsPerPack (zlen (ranked order h))); [done|].
  rewrite take_ge; [done|]. unfold zlen in *. lia.
Qed.

Lemma ranked_sorted order h : StronglySorted packs_before (ranked order h).
Proof. apply dedup_StronglySorted, Sorted_StronglySorted; [apply _|]. apply (Sorted_merge_sort _). Qed.

Lemma ranked_sub order h tx : tx ∈ ranked order h -> tx ∈ order /\ tx_Height tx = h.
Proof. intros [H _]%dedup_sub. rewrite merge_sort_Permutation in H. by apply list_elem_of_filter in H as [? ?]. Qed.

Lemma ranked_first order h tx : tx ∈ order -> tx_Height tx = h ->
  exists d, d ∈ ranked order h /\ GetHash d = GetHash tx /\ tx_Fee tx <= tx_Fee d.
Proof.
  intros Hin Hh. destruct (dedup_first GetHash packs_before (merge_sort packs_before (filter (fun tx => tx_Height tx = h) order)))
    with (seen := (∅ : gset bytes)) (x := tx) as (d & Hd & Hk & Hor).
  - apply Sorted_StronglySorted; [apply _|]. apply (Sorted_merge_sort _).
  - rewrite merge_sort_Permutation. by apply list_elem_of_filter.
  - set_solver.
  - exists d. split_and!; [done|done|]. destruct Hor as [->|[?|[? _]]]; lia.
Qed.

(** *** Independence of the iteration order *)

Definition rank (tx : FullTx) : Z * bytes := (tx_Fee tx, GetHash tx).
Definition rank_le (a b : Z * bytes) : Prop := b.1 < a.1 \/ a.1 = b.1 /\ bytes_le a.2 b.2.

Lemma rank_unique l l' : StronglySorted packs_before l -> StronglySorted packs_before l' -> l ≡ₚ l' -> rank <$> l = rank <$> l'.
Proof.
  intros Hs Hs' Hp. assert (AntiSymm (=) rank_le).
  { intros [w k] [w' k']. unfold rank_le. cbn. intros [?|[E ?]] [?|[? ?]]; [lia..|]. rewrite E. f_equal. by apply (anti_symm bytes_le). }
  assert (G : forall x, StronglySorted packs_before x -> StronglySorted rank_le (rank <$> x)).
  { induction 1 as [|y x Hx IH Hf]; [constructor|]. cbn [fmap list_fmap]. constructor; [done|]. by apply Forall_fmap. }
  apply (StronglySorted_unique rank_le); [by apply G|by apply G|by rewrite Hp].
Qed.

Lemma GetHash_sort_by l : GetHash <$> sort_by GetHash l = sort_by id (GetHash <$> l).
Proof.
  assert (AntiSymm (=) (hash_le (@id bytes))) by (intros x y; apply (anti_symm bytes_le)).
  apply (StronglySorted_unique (hash_le id)); [|apply sort_by_sorted|by rewrite !sort_by_perm].
  pose proof (sort_by_sorted GetHash l) as H'. induction H' as [|y x Hx IH Hf]; [constructor|].
  cbn [fmap list_fmap]. constructor; [done|]. by apply Forall_fmap.
Qed.

(** C20 - Packing.  A pack holds at most 512 transactions of the height, all
    from the pool, no two of one id, in the canonical order of a block; a
    transaction of the height is left out only when the pack is full and
    pays no less with every transaction it has; and which ids are packed
    does not depend on the order the pool map is iterated in. *)
Theorem GetPack_best order order' h :
  let pack := GetPack_in order h in
  (forall tx, tx ∈ pack -> tx ∈ order /\ tx_Height tx = h)
  /\ NoDup (GetHash <$> pack) /\ StronglySorted (hash_le GetHash) pack /\ zlen pack <= MaxTxsPerPack
  /\ (forall tx, tx ∈ order -> tx_Height tx = h -> GetHash tx ∉ (GetHash <$> pack) ->
        zlen pack = MaxTxsPerPack /\ forall p, p ∈ pack -> tx_Fee tx <= tx_Fee p)
  /\ (order ≡ₚ order' -> GetHash <$> pack = GetHash <$> GetPack_in order' h).
Proof.
  cbv zeta. rewrite !GetPack_take. set (n := Z.to_nat MaxTxsPerPack). set (R := ranked order h). unfold NewTxTrie.
  assert (Hmem : forall tx, tx ∈ sort_by GetHash (take n R) <-> tx ∈ take n R) by (intros tx; by rewrite sort_by_perm).
  assert (Hsub : forall tx, tx ∈ take n R -> tx ∈ R) by (intros tx Ht; rewrite <-(take_drop n R); apply elem_of_app; by left).
  assert (Hlen : zlen (sort_by GetHash (take n R)) = zlen (take n R)) by (unfold zlen; by rewrite sort_by_perm).
  split_and!.
  - intros tx Ht. by apply ranked_sub, Hsub, Hmem.
  - rewrite sort_by_perm. rewrite fmap_take. apply (NoDup_app (take n (GetHash <$> R)) (drop n (GetHash <$> R))). rewrite take_drop. apply dedup_NoDup.
  - apply sort_by_sorted.
  - rewrite Hlen. unfold zlen, n. rewrite length_take. change MaxTxsPerPack with 512. lia.
  - intros tx Hin Hh Hn. destruct (ranked_first order h tx Hin Hh) as (d & Hd & Hk & Hf). fold R in Hd.
    assert (Hdrop : d ∈ drop n R).
    { rewrite <-(take_drop n R) in Hd. apply elem_of_app in Hd as [Hd|]; [|done]. exfalso. apply Hn. rewrite <-Hk.
      apply list_elem_of_fmap_2. by apply Hmem. }
    split.
    + rewrite Hlen. unfold zlen. rewrite length_take. assert (n <= length R)%nat; [|unfold n in *; change MaxTxsPerPack with 512 in *; lia].
      destruct (decide (n <= length R)%nat); [done|]. rewrite drop_ge in Hdrop by lia. set_solver.
    + intros p Hp%Hmem. destruct (StronglySorted_take_drop _ _ _ _ _ (ranked_sorted order h) Hp Hdrop) as [?|[? _]]; lia.
  - intros Hp. rewrite !GetHash_sort_by. f_equal. rewrite !fmap_take. f_equal. unfold R, ranked. apply dedup_keys.
    assert (E : rank <$> merge_sort packs_before (filter (fun tx => tx_Height tx = h) order)
              = rank <$> merge_sort packs_before (filter (fun tx => tx_Height tx = h) order')).
    { apply rank_unique; [apply Sorted_StronglySorted; [apply _|]; apply (Sorted_merge_sort _)..|].
      rewrite !merge_sort_Permutation. by rewrite Hp. }
    apply (f_equal (fmap snd)) in E. rewrite <-!list_fmap_compose in E. exact E.
Qed.

End Packs.

(** ** The pool between two tip movements *)

Section Invariant.
Context `{HH : Hasher} `{SL : SigLibs} `{CD : Codec} `{SC : SlotCodec} `{RC : ReceiptCodec}
  `{DC : DepsCodec} `{IF : Inflate} `{ML : MerkleLib} `{PL : PowLib} `{VM_ : ContractVM} `{SHC : SheetCodec} `{RT : Router}.

(** The chain, the pool, and how many tip movements the hook has still to
    answer: the chain commits first and calls the hook after. *)
Inductive pool_step : Chain * TxPool * nat -> Chain * TxPool * nat -> Prop :=
  | ps_tx_local c p n tx : pool_step (c, p, n) (c, (PutNewTxFromLocal c p tx).2, n)
  | ps_tx_remote c p n tx p' : PutNewTxFromRemote c p tx = Ok p' -> pool_step (c, p, n) (c, p', n)
  | ps_commit_local c p n cm : pool_step (c, p, n) (c, (PutNewCommitmentFromLocal c p cm).2, n)
  | ps_commit_remote c p n cm p' : PutNewCommitmentFromRemote c p cm = Ok p' -> pool_step (c, p, n) (c, p', n)
  | ps_relay_commit c p n cm p' : RelayCommit c p cm = Ok p' -> pool_step (c, p, n) (c, p', n)
  | ps_relay_reveal c p n tx p' : RelayReveal c p tx = Ok p' -> pool_step (c, p, n) (c, p', n)
  | ps_relay c p n : pool_step (c, p, n) (c, OnTipChanged_relay c p, n)
  | ps_tip c p n c' : pool_step (c, p, n) (c', p, S n)
  | ps_hook c p n : pool_step (c, p, S n) (c, OnTipChanged_reset p, n).

(** The relay floor, and the base fee the next block will ask. *)
Definition pays_floor (c : Chain) (size fee : Z) : Prop :=
  DefaultMinFeePerByte * size <= fee
  /\ forall tip, getLatestBlock c = Ok tip ->
       IsForkActive (h_Network (b_Header tip)) ForkFeeMarket (u64 (blockHeight tip + 1)) = true ->
       NextBaseFee (h_Network (b_Header tip)) (blockHeight tip) (Some (be_Z (h_BaseFee (b_Header tip)))) (BlockUsedBytes tip) * size <= fee.

Definition tx_ready (c : Chain) (a : Address) (tx : FullTx) : Prop :=
  From tx = Ok a /\ tx_Height tx = nextHeight c /\ CheckTx (ch_db c) tx = Ok tt /\ pays_floor c (zlen (rlp_FullTx tx)) (tx_Fee tx).

Definition commit_ready (c : Chain) (a : Address) (cm : Commitment) : Prop :=
  Commitment_From cm = Ok a /\ CheckCommitment (ch_db c) cm (nextHeight c) = Ok tt
  /\ pays_floor c (zlen (rlp_Commitment cm)) (default 0 (c_Fee cm)).

Record pool_ok (c : Chain) (p : TxPool) (n : nat) : Prop := {
  po_max : MaxSize p = DefaultPoolSize;
  po_floor : MinFeePerByte p = Some DefaultMinFeePerByte;
  po_txs : Z.of_nat (size (txMap p)) <= DefaultPoolSize;
  po_commits_queued : Z.of_nat (size (commitQueue p)) <= DefaultPoolSize;
  po_reveals_queued : Z.of_nat (size (revealQueue p)) <= DefaultPoolSize;
  po_ready : n = O -> map_Forall (tx_ready c) (txMap p) /\ map_Forall (commit_ready c) (commitMap p)
}.

(** ** Floors *)

Lemma checkFloor_Ok f size fee : 0 < f -> checkFloor (Some f) size fee = Ok tt -> f * size <= fee.
Proof. intros Hf. cbn. destruct (Z.ltb_spec 0 f); [|lia]. intros H'. open_ok H'. bools. lia. Qed.

Lemma pays_floor_ok c p f size fee : MinFeePerByte p = Some DefaultMinFeePerByte -> 0 <= size ->
  effectiveFloorPerByte c p = Ok f -> checkFloor f size fee = Ok tt -> pays_floor c size fee.
Proof.
  intros Hm Hs. unfold effectiveFloorPerByte. rewrite Hm. change (0 <? DefaultMinFeePerByte) with true. cbv zeta beta iota.
  intros Hf Hc. open_ok Hf. assert (0 < DefaultMinFeePerByte) by done. unfold pays_floor. rewrite Hr.
  destruct (IsForkActive _ _ _) eqn:Ef.
  - destruct (Z.ltb_spec DefaultMinFeePerByte (NextBaseFee (h_Network (b_Header r)) (blockHeight r)
      (Some (be_Z (h_BaseFee (b_Header r)))) (BlockUsedBytes r))); injection Hf as <-; apply checkFloor_Ok in Hc; [|lia|..|lia];
    (split; [nia|intros tip [= <-] _; nia]).
  - injection Hf as <-. apply checkFloor_Ok in Hc; [|done]. split; [done|]. intros tip [= <-]. by rewrite Ef.
Qed.

(** ** Eviction *)

Lemma cheaper_least l : forall best,
  match foldl cheaper best l with
  | None => best = None /\ l = []
  | Some (a, f) => (best = Some (a, f) \/ exists e, e ∈ l /\ a = e.1 /\ f = tx_Fee e.2)
      /\ (forall b, best = Some b -> f <= b.2) /\ forall e, e ∈ l -> f <= tx_Fee e.2
  end.
Proof.
  induction l as [|e l IH]; intros best; cbn [foldl].
  { destruct best as [[a f]|]; [|done]. split_and!; [by left| |set_solver]. by intros ? [= <-]. }
  specialize (IH (cheaper best e)). destruct (foldl cheaper (cheaper best e) l) as [[a f]|].
  - destruct IH as (Hin & Hb & Hl).
    assert (Hc : (cheaper best e = best /\ exists b, best = Some b /\ b.2 <= tx_Fee e.2)
      \/ cheaper best e = Some (e.1, tx_Fee e.2) /\ forall b, best = Some b -> tx_Fee e.2 <= b.2).
    { unfold cheaper. destruct best as [[b g]|]; [|right; by split]. destruct (Z.ltb_spec (tx_Fee e.2) g).
      - right. split; [done|]. intros ? [= <-]. cbn. lia.
      - destruct (_ && _) eqn:E; [right; split; [done|]; intros ? [= <-]; cbn; bools; lia|left]. split; [done|]. by exists (b, g). }
    destruct Hc as [[Hc (b & -> & Hbe)]|[Hc Hle]]; rewrite Hc in *.
    + pose proof (Hb _ eq_refl). split_and!; [|intros ? [= <-]; lia|intros x [->|Hx]%elem_of_cons; [lia|by apply Hl]].
      destruct Hin as [|(x & Hx & ?)]; [by left|right]. exists x. split; [by right|done].
    + pose proof (Hb _ eq_refl) as Hfe. cbn in Hfe. split_and!.
      * right. destruct Hin as [[= <- <-]|(x & Hx & ?)]; [exists e; split; [left|done]|exists x; split; [by right|done]].
      * intros b Eb. pose proof (Hle _ Eb). lia.
      * intros x [->|Hx]%elem_of_cons; [done|by apply Hl].
  - destruct IH as [Hc ->]. unfold cheaper in Hc. destruct best as [[b g]|]; [|done]. by repeat destruct (_ : bool).
Qed.

(** A full pool gives up its cheapest entry, to a fee that beats it. *)
Lemma makeRoom_Ok p fee m : makeRoom p fee = Ok m ->
  (m = txMap p /\ Z.of_nat (size (txMap p)) < MaxSize p)
  \/ (MaxSize p <= Z.of_nat (size (txMap p)) /\ exists a v, txMap p !! a = Some v /\ m = delete a (txMap p) /\ tx_Fee v < fee
      /\ forall a' v', txMap p !! a' = Some v' -> tx_Fee v <= tx_Fee v').
Proof.
  unfold makeRoom. destruct (Z.leb_spec (MaxSize p) (Z.of_nat (size (txMap p)))) as [Hf|Hf]; [|by intros [= <-]; left].
  unfold cheapestEntry. pose proof (cheaper_least (map_to_list (txMap p)) None) as Hc.
  destruct (foldl _ _ _) as [[a f]|]; [|done]. intros E. open_ok E. bools. injection E as <-.
  destruct Hc as ([|([x v] & Hx%elem_of_map_to_list & -> & ->)] & _ & Hl); [done|]. right. split; [done|]. exists x, v. cbn in *.
  split_and!; [done|done|lia|]. intros a' v' H'. apply (Hl (a', v')). by apply elem_of_map_to_list.
Qed.

Lemma makeRoom_size p fee m : makeRoom p fee = Ok m -> Z.of_nat (size (txMap p)) <= MaxSize p -> m ⊆ txMap p /\ Z.of_nat (size m) < MaxSize p.
Proof.
  intros [[-> ?]|(Hf & a & v & Ha & -> & _)]%makeRoom_Ok Hs; [done|]. split; [apply delete_subseteq|].
  rewrite map_size_delete, Ha. assert (0 < size (txMap p))%nat; [|lia].
  destruct (decide (txMap p = ∅)) as [E|E]; [by rewrite E, lookup_empty in Ha|]. apply map_size_non_empty_iff in E. lia.
Qed.

(** ** Each call *)

Lemma PutTx_Ok c p tx p' : MinFeePerByte p = Some DefaultMinFeePerByte -> PutTx c p tx = Ok p' ->
  exists a m, tx_ready c a tx /\ p' = p_emit (p_set_txMap p (<[a := tx]> m)) (OnNewTx tx)
    /\ match txMap p !! a with
       | Some old => m = txMap p /\ tx_Fee old < tx_Fee tx
       | None => makeRoom p (tx_Fee tx) = Ok m
       end.
Proof.
  intros Hf E. unfold PutTx in E. open_ok E. bools. repeat match goal with u : () |- _ => destruct u end.
  match goal with H : From tx = Ok ?x |- _ => exists x; rename H into HF; rename x into a end.
  assert (R : tx_ready c a tx) by (split_and!; [done|done|done|]; eapply pays_floor_ok; [done| |done|done]; unfold zlen; lia).
  destruct (txMap p !! a) as [old|] eqn:Ea; open_ok E; injection E as <-; [exists (txMap p); bools|eexists]; by split_and!.
Qed.

Lemma PutTx_ok c p n tx p' : pool_ok c p n -> PutTx c p tx = Ok p' -> pool_ok c p' n.
Proof.
  intros [Hm Hf Ht Hq Hv Hr] E. destruct (PutTx_Ok c p tx p' Hf E) as (a & m & R & -> & Hc).
  assert (m ⊆ txMap p /\ Z.of_nat (size (<[a := tx]> m)) <= DefaultPoolSize) as [Hsub Hs].
  { destruct (txMap p !! a) as [old|] eqn:Ea.
    - destruct Hc as [-> _]. by rewrite map_size_insert, Ea.
    - apply makeRoom_size in Hc as [Hsub Hs]; [|by rewrite Hm]. split; [done|]. rewrite map_size_insert.
      rewrite (lookup_weaken_None _ _ _ Ea Hsub). lia. }
  split; try done. intros Hn. destruct (Hr Hn) as [H1 H2]. split; [|done]. cbn. apply map_Forall_insert_2; [done|].
  intros k x Hk. by apply H1, (lookup_weaken _ _ _ _ Hk).
Qed.

Lemma PutCommitment_Ok c p cm p' : MinFeePerByte p = Some DefaultMinFeePerByte -> PutCommitment c p cm = Ok p' ->
  exists a, commit_ready c a cm /\ p' = p_emit (p_set_commitMap p (<[a := cm]> (commitMap p))) (OnNewCommit cm).
Proof.
  intros Hf E. unfold PutCommitment in E. cbv zeta in E. open_ok E. injection E as <-. repeat match goal with u : () |- _ => destruct u end.
  match goal with H : Commitment_From cm = Ok ?x |- _ => exists x end. split; [|done]. split_and!; [done|done|].
  eapply pays_floor_ok; [done| |done|done]. unfold zlen. lia.
Qed.

Lemma PutCommitment_ok c p n cm p' : pool_ok c p n -> PutCommitment c p cm = Ok p' -> pool_ok c p' n.
Proof.
  intros [Hm Hf Ht Hq Hv Hr] E. destruct (PutCommitment_Ok c p cm p' Hf E) as (a & R & ->). split; try done.
  intros Hn. destruct (Hr Hn) as [H1 H2]. split; [done|]. by apply map_Forall_insert_2.
Qed.

Lemma emit_ok c p n e : pool_ok c p n -> pool_ok c (p_emit p e) n.
Proof. intros [Hm Hf Ht Hq Hv Hr]. by split. Qed.

Lemma PutNewTxFromLocal_ok c p n tx : pool_ok c p n -> pool_ok c (PutNewTxFromLocal c p tx).2 n.
Proof. intros H'. unfold PutNewTxFromLocal. destruct (PutTx c p tx) eqn:E; [|done]. eapply emit_ok, PutTx_ok; done. Qed.

Lemma PutNewCommitmentFromLocal_ok c p n cm : pool_ok c p n -> pool_ok c (PutNewCommitmentFromLocal c p cm).2 n.
Proof. intros H'. unfold PutNewCommitmentFromLocal. destruct (PutCommitment c p cm) eqn:E; [|done]. eapply emit_ok, PutCommitment_ok; done. Qed.

Lemma size_filter_le {A} (P : Address * A -> Prop) `{!forall x, Decision (P x)} (m : gmap Address A) : (size (filter P m) <= size m)%nat.
Proof. apply map_subseteq_size, map_filter_subseteq. Qed.

Lemma queue_ok c p n cq rq : pool_ok c p n -> Z.of_nat (size cq) <= DefaultPoolSize -> Z.of_nat (size rq) <= DefaultPoolSize ->
  pool_ok c (p_set_revealQueue (p_set_commitQueue p cq) rq) n.
Proof. intros [Hm Hf Ht Hq Hv Hr] ? ?. by split. Qed.

Lemma relayCommits_ok c p n : pool_ok c p n -> pool_ok c (relayCommits c p) n.
Proof.
  intros H'. unfold relayCommits. cbv zeta. pose proof (size_filter_le (fun e => nextHeight c <= qc_expireAt e.2) (commitQueue p)) as Hs.
  set (live := filter _ (commitQueue p)) in *. clearbody live. apply (foldl_inv (fun q => pool_ok c q n) (fun _ => True)); [| |by apply Forall_true].
  - intros q e Hq _. unfold retryCommit. destruct (CommitOnChain _ _ _ _); [done|]. by apply PutNewCommitmentFromLocal_ok.
  - apply (queue_ok c p n _ (revealQueue p)); [done| |apply H']. pose proof (po_commits_queued _ _ _ H'). lia.
Qed.

Lemma relayReveals_ok c p n : pool_ok c p n -> pool_ok c (relayReveals c p) n.
Proof.
  intros H'. unfold relayReveals. cbv zeta. pose proof (size_filter_le (fun e => nextHeight c <= qr_expireAt e.2) (revealQueue p)) as Hs.
  set (live := filter _ (revealQueue p)) in *. clearbody live. apply (foldl_inv (fun q => pool_ok c q n) (fun _ => True)); [intros q e Hq _; by apply PutNewTxFromLocal_ok| |by apply Forall_true].
  apply (queue_ok c p n (commitQueue p)); [done|apply H'|]. pose proof (po_reveals_queued _ _ _ H'). lia.
Qed.

(** A full queue only replaces. *)
Lemma queue_size {A} (q : gmap Address A) a x : Z.of_nat (size q) <= DefaultPoolSize ->
  bool_decide (q !! a = None) && (DefaultPoolSize <=? Z.of_nat (size q)) = false -> Z.of_nat (size (<[a := x]> q)) <= DefaultPoolSize.
Proof.
  intros Hs Hb. rewrite map_size_insert. destruct (q !! a); [done|]. cbn in Hb. destruct (Z.leb_spec DefaultPoolSize (Z.of_nat (size q))); [done|lia].
Qed.

Lemma RelayCommit_ok c p n cm p' : pool_ok c p n -> RelayCommit c p cm = Ok p' -> pool_ok c p' n.
Proof.
  intros H' E. unfold RelayCommit in E. cbv zeta in E. open_ok E. injection E as <-. apply relayCommits_ok.
  apply (queue_ok c p n _ (revealQueue p)); [done| |apply H']. rewrite (po_max _ _ _ H') in *. apply queue_size; [apply H'|done].
Qed.

Lemma RelayReveal_ok c p n tx p' : pool_ok c p n -> RelayReveal c p tx = Ok p' -> pool_ok c p' n.
Proof.
  intros H' E. unfold RelayReveal in E. cbv zeta in E. open_ok E. injection E as <-. apply relayReveals_ok.
  apply (queue_ok c p n (commitQueue p)); [done|apply H'|]. rewrite (po_max _ _ _ H') in *. apply queue_size; [apply H'|done].
Qed.

Lemma pool_step_ok s s' : pool_step s s' -> pool_ok s.1.1 s.1.2 s.2 -> pool_ok s'.1.1 s'.1.2 s'.2.
Proof.
  destruct 1; cbn [fst snd]; intros H'.
  - by apply PutNewTxFromLocal_ok.
  - by eapply PutTx_ok.
  - by apply PutNewCommitmentFromLocal_ok.
  - by eapply PutCommitment_ok.
  - by eapply RelayCommit_ok.
  - by eapply RelayReveal_ok.
  - by apply relayReveals_ok, relayCommits_ok.
  - destruct H'. by split.
  - destruct H'. by split.
Qed.

Lemma pool_run_ok s s' : rtc pool_step s s' -> pool_ok s.1.1 s.1.2 s.2 -> pool_ok s'.1.1 s'.1.2 s'.2.
Proof. induction 1 as [|x y z Hs _ IH]; [done|]. intros H'. by apply IH, (pool_step_ok x). Qed.

Lemma Pool_Init_ok c : pool_ok c Pool_Init 0.
Proof. by split. Qed.

(** C6 - The pool is always the next block's.  After any sequence of
    submissions, relays and tip movements, starting from the empty pool, no
    more than 4096 transactions are pooled and no more than 4096 halves of
    each kind are queued; and once the hook has answered every tip movement,
    each pooled transaction is its sender's, carries the next height, passes
    the state's checks and pays the floor, and so does each commitment. *)
Theorem pool_is_next_blocks c0 c p n : rtc pool_step (c0, Pool_Init, O) (c, p, n) ->
  Z.of_nat (size (txMap p)) <= 4096 /\ Z.of_nat (size (commitQueue p)) <= 4096 /\ Z.of_nat (size (revealQueue p)) <= 4096
  /\ (n = O -> map_Forall (tx_ready c) (txMap p) /\ map_Forall (commit_ready c) (commitMap p)).
Proof.
  intros Hr. assert (G : pool_ok c p n) by (apply (pool_run_ok _ _ Hr), Pool_Init_ok).
  destruct G as [Hm Hf Ht Hq Hv Hg]. by split_and!.
Qed.

End Invariant.

(** ** A pool with a payment *)

Module PoolWitness.

#[local] Existing Instance prefix_hasher.
#[local] Existing Instance toy_libs.
#[local] Existing Instance toy_codec.
#[local] Existing Instance toy_slot_codec.
#[local] Existing Instance toy_toll.
#[local] Existing Instance RunWitness.engine.
#[local] Existing Instance LedgerWitness.receipts.
#[local] Existing Instance LedgerWitness.deps.
#[local] Existing Instance LedgerWitness.inflate.
#[local] Existing Instance LedgerWitness.merkle.
#[local] Existing Instance LedgerWitness.text.
#[local] Existing Instance LedgerWitness.pow.
#[local] Instance sheets : SheetCodec := {| rlp_Sheet := fun _ => [Zbyte 1]; dec_Sheet := fun _ => None |}.
#[local] Instance reached : Router := fun _ => true.

(** The tip is at height 5, where alice's commitment was recorded. *)
Definition node : Chain :=
  {| ch_Network := ZERONET; ch_State := LedgerWitness.state;
     ch_db := setBucket LedgerWitness.funded BlockBucketName (InitFromCheckpoint ∅ (NewBareBlock ZERONET 5 0 [] 1));
     ch_volatile := {| v_snapshots := emptySnapshots; reorgRemoved := []; reorgAdded := [] |} |}.

Definition pooled : TxPool := (PutNewTxFromLocal node Pool_Init LedgerWitness.pay).2.

Lemma pooled_one : size (txMap pooled) = 1%nat.
Proof. vm_compute. reflexivity. Qed.

Lemma pool_is_next_blocks_witness : map_Forall (tx_ready node) (txMap pooled) /\ size (txMap pooled) = 1%nat.
Proof.
  split; [|exact pooled_one]. refine (proj1 (proj2 (proj2 (proj2 (pool_is_next_blocks node node pooled 0 _))) eq_refl)).
  apply rtc_once, ps_tx_local.
Defined.

End PoolWitness.
