(* ===== verification/Wired.v ===== *)
(** * The wired protocol and the gossip validators

    Packages ngp2p/wired and ngp2p/broadcast: the signed messages two nodes
    exchange over a stream, the handlers a node answers them with, and the
    stateless gates of the gossip topics.  A stream is the pair of a request
    and at most one reply; libp2p's keys and the message encodings are
    parameters.  A handler that panics ends the process, since no caller
    recovers. *)

From S2P Require Import Prelude Params StateTrie Keys Contract Types Instances Tx Block BlockStore State StateCommit Journal Ledger Snapshot Queries Chain.

(** ** message.go, message_payload.go *)

Abbreviation MsgType := Z (only parsing).
Definition InvalidMsg : MsgType := 0.
Definition PingMsg : MsgType := 1.
Definition PongMsg : MsgType := 2.
Definition RejectMsg : MsgType := 3.
Definition GetChainMsg : MsgType := 16.
Definition ChainMsg : MsgType := 17.
Definition GetSheetMsg : MsgType := 18.
Definition SheetMsg : MsgType := 19.
Definition StemTxMsg : MsgType := 32.
Definition StemCommitMsg : MsgType := 33.
Definition GetProofMsg : MsgType := 34.
Definition ProofMsg : MsgType := 35.

Abbreviation PeerID := bytes (only parsing).

Record MsgHeader := {
  mh_Network : Network;
  mh_ID : bytes;
  mh_Type : MsgType;
  mh_Timestamp : Z;
  mh_PeerKey : bytes;
  mh_Sign : bytes
}.

(** [None] is the nil header. *)
Record Message := { m_Header : option MsgHeader; m_Payload : bytes }.

Record StatusPayload := { sp_Origin : Z; sp_Latest : Z; sp_CheckpointHash : bytes; sp_CheckpointDiff : bytes }.
Record GetChainPayload := { gc_Type : Z; gc_From : list bytes; gc_To : bytes }.
Record ChainPayload := { cp_Type : Z; cp_Headers : list BlockHeader; cp_Blocks : list FullBlock }.
Record GetSheetPayload := { gs_Height : Z; gs_Hash : bytes }.
Record SheetPayload := { shp_Sheet : Sheet }.
Record StemPayload := { st_TTL : Z; st_Raw : bytes }.

Record ProofRequest := { pq_Domain : string; pq_Key : bytes; pq_Height : Z }.
Record ProofResponse := {
  ps_Height : Z;
  ps_BlockHash : bytes;
  ps_StateRoot : bytes;
  ps_Domain : string;
  ps_Key : bytes;
  ps_Value : bytes;
  ps_ValueHash : bytes;
  ps_Path : bytes;
  ps_Proof : list bytes;
  ps_Found : bool
}.

(** RLP of the messages. *)
Class WireCodec := {
  rlp_Message : Message -> bytes;
  dec_Message : bytes -> option Message;
  rlp_StatusPayload : StatusPayload -> bytes;
  dec_StatusPayload : bytes -> option StatusPayload;
  rlp_GetChainPayload : GetChainPayload -> bytes;
  dec_GetChainPayload : bytes -> option GetChainPayload;
  rlp_ChainPayload : ChainPayload -> bytes;
  dec_ChainPayload : bytes -> option ChainPayload;
  rlp_GetSheetPayload : GetSheetPayload -> bytes;
  dec_GetSheetPayload : bytes -> option GetSheetPayload;
  rlp_SheetPayload : SheetPayload -> bytes;
  dec_SheetPayload : bytes -> option SheetPayload;
  rlp_StemPayload : StemPayload -> bytes;
  dec_StemPayload : bytes -> option StemPayload;
  rlp_ProofRequest : ProofRequest -> bytes;
  dec_ProofRequest : bytes -> option ProofRequest;
  rlp_ProofResponse : ProofResponse -> bytes;
  dec_ProofResponse : bytes -> option ProofResponse
}.

(** Values RLP can carry. *)
Definition wf_Message (m : Message) : Prop :=
  match m_Header m with
  | None => False
  | Some h => 0 <= mh_Network h < 256 /\ 0 <= mh_Type h < 256 /\ is_u64 (mh_Timestamp h)
  end.

(** What decodes is what was encoded. *)
Class WireCodecLaws `{WireCodec} : Prop := {
  dec_rlp_Message m : wf_Message m -> dec_Message (rlp_Message m) = Some m;
  dec_rlp_GetChainPayload p : 0 <= gc_Type p < 256 -> dec_GetChainPayload (rlp_GetChainPayload p) = Some p;
  dec_rlp_ChainPayload p : 0 <= cp_Type p < 256 -> Forall wf_header (cp_Headers p) -> Forall wf_block (cp_Blocks p) ->
    dec_ChainPayload (rlp_ChainPayload p) = Some p
}.

(** libp2p's keys: the peer id of a marshaled public key, and whether a
    signature verifies under it; [None] where the library answers an error. *)
Class PeerKeys := {
  key_peer : bytes -> option PeerID;
  key_verify : bytes -> bytes -> bytes -> option bool
}.

(** The text an error prints. *)
Class RejectText := reject_text : error -> bytes.

(** The local host: its marshaled public key and its signer. *)
Record Host := { host_Key : bytes; host_Sign : bytes -> option bytes }.

Record Wired := {
  w_network : Network;
  w_host : Host;
  w_OnStemTx : bool;
  w_OnStemCommit : bool
}.

Definition mh_set_Sign (h : MsgHeader) (s : bytes) : MsgHeader :=
  {| mh_Network := mh_Network h; mh_ID := mh_ID h; mh_Type := mh_Type h; mh_Timestamp := mh_Timestamp h;
     mh_PeerKey := mh_PeerKey h; mh_Sign := s |}.

(** ngp2p/defaults *)
Definition MaxBlocks : Z := 1000.

(** wired_stem.go, wired_proof.go *)
Definition maxStemTxWire : Z := TxMaxExtraSize + 65536 + 1024.
Definition maxStemCommitWire : Z := 65536 + 1024.
Definition maxProofReqWire : Z := 1024.
Definition maxProofRespWire : Z := 65536.
Definition maxProofKeyWire : Z := 64.

(** broadcast/validators.go *)
Definition maxTxWireSize : Z := TxMaxExtraSize + 65536.
Definition maxCommitWireSize : Z := 65536.

(** What a handler does with its stream. *)
Inductive answer :=
  | Rejected (e : error)
  | Answered (t : MsgType) (payload : bytes)
  | Silent.

(** What is handed to the registered stem router. *)
Inductive stemItem := StemmedTx (tx : FullTx) (ttl : Z) | StemmedCommit (c : Commitment) (ttl : Z).

Section Wired.
Context `{HH : Hasher} `{SL : SigLibs} `{CD : Codec} `{SC : SlotCodec} `{RC : ReceiptCodec}
  `{DC : DepsCodec} `{IF : Inflate} `{ML : MerkleLib} `{PL : PowLib} `{VM_ : ContractVM} `{SHC : SheetCodec}
  `{WC : WireCodec} `{PK : PeerKeys} `{RX : RejectText}.

(** ** message.go, message_verify.go *)

Definition NewHeader (now : Z) (host : Host) (network : Network) (msgID : bytes) (msgType : MsgType) : MsgHeader :=
  {| mh_Network := network; mh_ID := msgID; mh_Type := msgType; mh_Timestamp := now; mh_PeerKey := host_Key host; mh_Sign := [] |}.

(** The signature of the header is empty while the message is signed. *)
Definition unsigned (h : MsgHeader) (payload : bytes) : bytes :=
  rlp_Message {| m_Header := Some (mh_set_Sign h []); m_Payload := payload |}.

Definition verifyMessageData (data signature : bytes) (peerID : PeerID) (pubKeyData : bytes) : bool :=
  match key_peer pubKeyData with
  | None => false
  | Some idFromKey =>
      if negb (bool_decide (idFromKey = peerID)) then false
      else default false (key_verify pubKeyData data signature)
  end.

(** A nil header is dereferenced. *)
Definition Message_Verify (peerID : PeerID) (message : Message) : res bool :=
  match m_Header message with
  | None => Err GoPanic
  | Some h => Ok (verifyMessageData (unsigned h (m_Payload message)) (mh_Sign h) peerID (mh_PeerKey h))
  end.

(** [None]: signing failed and nothing is sent. *)
Definition signedMessage (now : Z) (w : Wired) (id : bytes) (t : MsgType) (payload : bytes) : option Message :=
  let h := NewHeader now (w_host w) (w_network w) id t in
  match host_Sign (w_host w) (unsigned h payload) with
  | None => None
  | Some sign => Some {| m_Header := Some (mh_set_Sign h sign); m_Payload := payload |}
  end.

(** wired_reject.go: the text of the error is the payload. *)
Definition sendReject (now : Z) (w : Wired) (id : bytes) (e : error) : option Message :=
  signedMessage now w id RejectMsg (reject_text e).

(** ** message_recv.go *)

Definition ReceiveReply (uuid : bytes) (remote : PeerID) (raw : bytes) : res Message :=
  match dec_Message raw with
  | None => Err ErrDecode
  | Some msg =>
      match m_Header msg with
      | None => Err ErrMsgMalformed
      | Some h =>
          reject mh_Type h =? InvalidMsg with ErrMsgTypeInvalid ;
          reject negb (bool_decide (mh_ID h = uuid)) with ErrMsgIDInvalid ;
          let! ok := Message_Verify remote msg in
          reject negb ok with ErrMsgSignInvalid ;
          Ok msg
      end
  end.

(** ** wired_ping.go, wired_pong.go *)

(** A nil checkpoint is dereferenced. *)
Definition localStatus (c : Chain) : res StatusPayload :=
  let! origin := Chain_GetOriginBlock c in
  let! latest := getLatestBlock c in
  let! checkpoint := GetLatestCheckpoint c in
  match checkpoint with
  | None => Err GoPanic
  | Some cp =>
      let! diff := GetActualDiff cp in
      Ok {| sp_Origin := blockHeight origin; sp_Latest := blockHeight latest; sp_CheckpointHash := Block_GetHash cp;
            sp_CheckpointDiff := big_Bytes diff |}
  end.

Definition onPing (c : Chain) (payload : bytes) : res answer :=
  match dec_StatusPayload payload with
  | None => Ok (Rejected ErrDecode)
  | Some _ => let! status := localStatus c in Ok (Answered PongMsg (rlp_StatusPayload status))
  end.

(** ** wired_getchain.go, wired_chain.go *)

Definition sendChain (blocks : list FullBlock) : answer :=
  Answered ChainMsg (rlp_ChainPayload {| cp_Type := 0; cp_Headers := []; cp_Blocks := blocks |}).

(** The height range.  Each turn but the last reads another height key of
    the store, so the fuel of [onGetChain] is never used up. *)
Fixpoint fetchRange (fuel : nat) (c : Chain) (height to : Z) (blocks : list FullBlock) : res answer :=
  match fuel with
  | O => Err ErrOutOfFuel
  | S fuel =>
      if to <? height then Ok (sendChain blocks)
      else
        match getBlockByHeight c height with
        | Err e => Ok (Rejected e)
        | Ok cur => fetchRange fuel c (u64 (height + 1)) to (blocks ++ [cur])
        end
  end.

(** The blocks above a height, at most [n]. *)
Fixpoint blocksAbove (n : nat) (c : Chain) (height : Z) : list FullBlock :=
  match n with
  | O => []
  | S n =>
      match getBlockByHeight c (u64 (height + 1)) with
      | Err _ => []
      | Ok next => next :: blocksAbove n c (blockHeight next)
      end
  end.

(** The same, stopping at the block [to]. *)
Fixpoint blocksUntil (n : nat) (c : Chain) (cur : FullBlock) (to : bytes) : list FullBlock :=
  match n with
  | O => []
  | S n =>
      if bool_decide (Block_GetHash cur = to) then []
      else
        match getBlockByHeight c (u64 (blockHeight cur + 1)) with
        | Err _ => []
        | Ok next => next :: blocksUntil n c next to
        end
  end.

(** The last of the hashes this chain also has. *)
Definition samepoint (c : Chain) (from : list bytes) : option FullBlock :=
  foldr (fun hash found => match found with
                           | Some b => Some b
                           | None => match getBlockByHash c hash with Ok b => Some b | Err _ => None end
                           end) None from.

Definition onGetChain (c : Chain) (payload : bytes) : res answer :=
  match dec_GetChainPayload payload with
  | None => Ok (Rejected ErrDecode)
  | Some p =>
      let To := gc_To p in
      if negb (zlen To =? 16) && negb (zlen To =? 32) then Ok (Rejected ErrGetChainTo)
      else
        match gc_From p with
        | [] =>
            if negb (zlen To =? 16) then Ok (Rejected ErrGetChainRange)
            else
              fetchRange (S (S (size (blocks (ch_db c))))) c (le_Z (take 8 To)) (le_Z (take 8 (drop 8 To))) []
        | first :: _ =>
            if zlen To =? 16 then
              match samepoint c (gc_From p) with
              | None => Ok (sendChain [])
              | Some cur => Ok (sendChain (blocksAbove (Z.to_nat MaxBlocks) c (blockHeight cur)))
              end
            else
              match getBlockByHash c first with
              | Err e => Ok (Rejected e)
              | Ok cur => Ok (sendChain (blocksUntil (Z.to_nat MaxBlocks) c cur To))
              end
        end
  end.

(** ** wired_getsheet.go, wired_sheet.go *)

Definition onGetSheet (c : Chain) (payload : bytes) : res answer :=
  match dec_GetSheetPayload payload with
  | None => Ok (Rejected ErrDecode)
  | Some p =>
      match GetSnapshot (v_snapshots (ch_volatile c)) (gs_Height p) (gs_Hash p) with
      | None => Ok (Rejected ErrSnapshotNofFound)
      | Some sheet => Ok (Answered SheetMsg (rlp_SheetPayload {| shp_Sheet := sheet |}))
      end
  end.

(** ** wired_proof.go *)

Definition proofOf (height : Z) (block : FullBlock) (req : ProofRequest) (pr : LeafProof) : ProofResponse :=
  {| ps_Height := height; ps_BlockHash := Block_GetHash block; ps_StateRoot := h_StateRoot (b_Header block);
     ps_Domain := pq_Domain req; ps_Key := pq_Key req; ps_Value := pr_value pr; ps_ValueHash := pr_valueHash pr;
     ps_Path := pr_path pr; ps_Proof := pr_proof pr; ps_Found := negb (zlen (pr_value pr) =? 0) |}.

Definition buildTipProof (c : Chain) (req : ProofRequest) : res ProofResponse :=
  let txn := ch_db c in
  let! block := GetLatestBlock (blocks txn) in
  let! pr := StateProof txn (pq_Domain req) (pq_Key req) in
  reject negb (bool_decide (pr_root pr = h_StateRoot (b_Header block))) with ErrProofRoot ;
  Ok (proofOf (blockHeight block) block req pr).

Definition buildHistoricalProof (c : Chain) (req : ProofRequest) : res ProofResponse :=
  let! block := getBlockByHeight c (pq_Height req) in
  let! txn := ReconstructAt (ch_State c) (v_snapshots (ch_volatile c)) (ch_db c) (pq_Height req) in
  let! pr := StateProof txn (pq_Domain req) (pq_Key req) in
  reject negb (bool_decide (pr_root pr = h_StateRoot (b_Header block))) with ErrProofRoot ;
  Ok (proofOf (pq_Height req) block req pr).

Definition buildProof (c : Chain) (req : ProofRequest) : res ProofResponse :=
  let tipHeight := GetLatestBlockHeight c in
  if (pq_Height req =? 0) || (pq_Height req =? tipHeight) then buildTipProof c req
  else
    reject tipHeight <? pq_Height req with ErrProofAboveTip ;
    buildHistoricalProof c req.

Definition onGetProof (c : Chain) (payload : bytes) : res answer :=
  if maxProofReqWire <? zlen payload then Ok (Rejected ErrProofOversized)
  else
    match dec_ProofRequest payload with
    | None => Ok (Rejected ErrDecode)
    | Some req =>
        if maxProofKeyWire <? zlen (pq_Key req) then Ok (Rejected ErrProofKeyOversized)
        else
          match buildProof c req with
          | Err GoPanic => Err GoPanic
          | Err e => Ok (Rejected e)
          | Ok resp => Ok (Answered ProofMsg (rlp_ProofResponse resp))
          end
    end.

(** The client's reading of a reply. *)
Definition DecodeProofResponse (payload : bytes) : res ProofResponse :=
  match dec_ProofResponse payload with None => Err ErrDecode | Some resp => Ok resp end.

Definition RequestProof_reply (id : bytes) (remote : PeerID) (raw : bytes) : res ProofResponse :=
  let! msg := ReceiveReply id remote raw in
  match m_Header msg with
  | None => Err GoPanic
  | Some h =>
      reject mh_Type h =? RejectMsg with ErrMsgRejected ;
      reject negb (mh_Type h =? ProofMsg) with ErrMsgTypeInvalid ;
      reject maxProofRespWire <? zlen (m_Payload msg) with ErrProofOversized ;
      DecodeProofResponse (m_Payload msg)
  end.

(** ** wired_stem.go *)

Definition decodeStemPayload (payload : bytes) (maxWire : Z) : option StemPayload :=
  if maxWire <? zlen payload then None
  else
    match dec_StemPayload payload with
    | None => None
    | Some p => if maxWire <? zlen (st_Raw p) then None else Some p
    end.

(** [m != nil] for a check that may panic. *)
Definition fails (m : res unit) : res bool :=
  match m with Ok _ => Ok false | Err GoPanic => Err GoPanic | Err _ => Ok true end.

(** The gates a gossiped or stemmed transaction passes without the state. *)
Definition admitTx (network : Network) (tx : FullTx) : res bool :=
  if negb (tx_Network tx =? network) || negb (IsSigned tx) then Ok false
  else if IsCompactEnvelope tx then Ok true
  else let! bad := fails (Tx.Verify tx None) in Ok (negb bad).

Definition isCompactSign (sign : bytes) : bool :=
  match sign with form :: _ => bool_decide (form = envelopeCompact) | [] => false end.

Definition admitCommit (network : Network) (commit : Commitment) : res bool :=
  if negb (c_Network commit =? network) || negb (Commitment_IsSigned commit) || negb (zlen (c_Hash commit) =? HashSize) then Ok false
  else if isCompactSign (c_Sign commit) then Ok true
  else let! bad := fails (Commitment_Verify commit None) in Ok (negb bad).

Definition onStemTx (w : Wired) (payload : bytes) : res (option stemItem) :=
  if negb (w_OnStemTx w) then Ok None
  else
    match decodeStemPayload payload maxStemTxWire with
    | None => Ok None
    | Some p =>
        match dec_FullTx (st_Raw p) with
        | None => Ok None
        | Some tx => let! ok := admitTx (w_network w) tx in Ok (if ok then Some (StemmedTx tx (st_TTL p)) else None)
        end
    end.

Definition onStemCommit (w : Wired) (payload : bytes) : res (option stemItem) :=
  if negb (w_OnStemCommit w) then Ok None
  else
    match decodeStemPayload payload maxStemCommitWire with
    | None => Ok None
    | Some p =>
        match dec_Commitment (st_Raw p) with
        | None => Ok None
        | Some commit => let! ok := admitCommit (w_network w) commit in Ok (if ok then Some (StemmedCommit commit (st_TTL p)) else None)
        end
    end.

(** ** wired.go *)

(** What a message makes the node do, before the reply is signed. *)
Definition dispatch (w : Wired) (c : Chain) (t : MsgType) (payload : bytes) : res (answer * option stemItem) :=
  if t =? PingMsg then let! a := onPing c payload in Ok (a, None)
  else if t =? GetChainMsg then let! a := onGetChain c payload in Ok (a, None)
  else if t =? GetSheetMsg then let! a := onGetSheet c payload in Ok (a, None)
  else if t =? StemTxMsg then let! i := onStemTx w payload in Ok (Silent, i)
  else if t =? StemCommitMsg then let! i := onStemCommit w payload in Ok (Silent, i)
  else if t =? GetProofMsg then let! a := onGetProof c payload in Ok (a, None)
  else Ok (Rejected ErrMsgTypeInvalid, None).

Definition reply (now : Z) (w : Wired) (id : bytes) (a : answer) : option Message :=
  match a with
  | Rejected e => sendReject now w id e
  | Answered t payload => signedMessage now w id t payload
  | Silent => None
  end.

(** [raw]: what was read from the stream; the answer: what is written to it. *)
Definition handleStream (now : Z) (w : Wired) (c : Chain) (remote : PeerID) (raw : bytes) : res (option Message * option stemItem) :=
  match dec_Message raw with
  | None => Ok (None, None)
  | Some msg =>
      let! ok := Message_Verify remote msg in
      match m_Header msg with
      | None => Err GoPanic
      | Some h =>
          if negb ok then Ok (sendReject now w (mh_ID h) ErrMsgSignInvalid, None)
          else
            let! (a, item) := dispatch w c (mh_Type h) (m_Payload msg) in
            Ok (reply now w (mh_ID h) a, item)
      end
  end.

(** ** broadcast/validators.go *)

Definition validateBlockMsg (now : Z) (network : Network) (data : bytes) : res bool :=
  if MaxBlockBytes <? zlen data then Ok false
  else
    match dec_FullBlock data with
    | None => Ok false
    | Some block =>
        if negb (h_Network (b_Header block) =? network) then Ok false
        else let! bad := fails (CheckError now block) in Ok (negb bad)
    end.

(** The id reported to the router when the message is relayed. *)
Definition validateTxMsg (network : Network) (data : bytes) : res (option bytes) :=
  if maxTxWireSize <? zlen data then Ok None
  else
    match dec_FullTx data with
    | None => Ok None
    | Some tx => let! ok := admitTx network tx in Ok (if ok then Some (GetHash tx) else None)
    end.

Definition validateCommitMsg (network : Network) (data : bytes) : res (option bytes) :=
  if maxCommitWireSize <? zlen data then Ok None
  else
    match dec_Commitment data with
    | None => Ok None
    | Some commit => let! ok := admitCommit network commit in Ok (if ok then Some (Commitment_GetUnsignedHash commit) else None)
    end.

End Wired.
