(* ===== verification/LightClient.v ===== *)
(** * The light client

    Package lightclient: folding a served state proof into the root of a
    trusted header, against the server of ngp2p/wired (Wired.v) and the state
    commitment (StateCommit.v). *)

From S2P Require Import Prelude Params StateTrie Keys Contract Types Instances Tx Block BlockStore State StateCommit Journal VM VMToy VMProps Ledger LedgerProps Snapshot Queries Chain Wired.

Section LightClient.
Context `{HH : Hasher} `{CD : Codec}.

(** A nil header or response is [None]; a nil value is the empty slice. *)
Definition VerifyProof (header : option BlockHeader) (resp : option ProofResponse) : bytes * bool :=
  match header, resp with
  | Some header, Some resp =>
      if negb (bool_decide (ps_StateRoot resp = h_StateRoot header)) then ([], false)
      else if negb (bool_decide (ps_BlockHash resp = Header_GetHash header)) then ([], false)
      else if (if ps_Found resp then zlen (ps_Value resp) =? 0 else negb (zlen (ps_Value resp) =? 0)) then ([], false)
      else
        let wantValueHash := if ps_Found resp then ValueHash (ps_Value resp) else ZeroHash in
        if negb (bool_decide (ps_ValueHash resp = wantValueHash)) then ([], false)
        else if negb (StateTrie.Verify (ps_StateRoot resp) (ps_Path resp) (ps_ValueHash resp) (ps_Proof resp)) then ([], false)
        else if ps_Found resp then (ps_Value resp, true)
        else ([], true)
  | _, _ => ([], false)
  end.

Lemma zlen_nil_inv {A} (l : list A) : zlen l = 0 -> l = [].
Proof. unfold zlen. destruct l; [done|]. cbn. lia. Qed.

(** The hash under which a value is a leaf. *)
Definition hash_of_value (value : bytes) : bytes := if zlen value =? 0 then ZeroHash else ValueHash value.

Lemma VerifyProof_true header resp v : VerifyProof (Some header) (Some resp) = (v, true) <->
  ps_StateRoot resp = h_StateRoot header /\ ps_BlockHash resp = Header_GetHash header
  /\ ps_Value resp = v /\ ps_Found resp = negb (zlen v =? 0) /\ ps_ValueHash resp = hash_of_value v
  /\ StateTrie.Verify (ps_StateRoot resp) (ps_Path resp) (ps_ValueHash resp) (ps_Proof resp) = true.
Proof.
  unfold VerifyProof, hash_of_value. cbv zeta. split.
  - case_bool_decide as H1; [|done]. case_bool_decide as H2; [|done]. cbn [negb].
    destruct (ps_Found resp) eqn:F, (Z.eqb_spec (zlen (ps_Value resp)) 0) as [L|L]; cbn [negb]; try done;
      (case_bool_decide as H3; [|done]); cbn [negb]; (destruct (StateTrie.Verify _ _ _ _) eqn:V; [|done]); cbn [negb]; intros [= <-].
    + split_and!; try done; destruct (Z.eqb_spec (zlen (ps_Value resp)) 0); done.
    + assert (E : ps_Value resp = []) by (by apply zlen_nil_inv). by rewrite E.
  - intros (-> & -> & <- & -> & -> & ->). rewrite !bool_decide_eq_true_2 by done. cbn [negb].
    destruct (Z.eqb_spec (zlen (ps_Value resp)) 0) as [L|L]; cbn [negb]; rewrite ?bool_decide_eq_true_2 by done; cbn [negb]; [|done].
    by apply zlen_nil_inv in L as ->.
Qed.

(** From an accepted value that is not the stored one: two strings with one
    hash, or one hashing to zero. *)
Definition proof_collision (path v stored : bytes) (pr pr' : list bytes) : bytes * bytes :=
  if bool_decide (hash_of_value v = hash_of_value stored)
  then if zlen v =? 0 then (stored, []) else (v, stored)
  else trie_collision path (hash_of_value v) (hash_of_value stored) pr pr'.

Lemma accepted_two root path v stored pr pr' :
  StateTrie.Verify root path (hash_of_value v) pr = true -> StateTrie.Verify root path (hash_of_value stored) pr' = true ->
  v <> stored -> let xy := proof_collision path v stored pr pr' in is_collision xy \/ Hash256 xy.1 = zeros 32.
Proof.
  intros V V' Hn. unfold proof_collision. case_bool_decide as E; [|by apply (Verify_two_values root)].
  unfold hash_of_value in E. destruct (Z.eqb_spec (zlen v) 0) as [L|L], (Z.eqb_spec (zlen stored) 0) as [L'|L']; cbn [fst].
  - by apply zlen_nil_inv in L, L'; subst.
  - by right.
  - by right.
  - left. by split.
Qed.

End LightClient.

Section Serving.
Context `{HH : Hasher} `{SL : SigLibs} `{CD : Codec} `{SC : SlotCodec} `{SLW : !SlotCodecLaws} `{RC : ReceiptCodec}
  `{DC : DepsCodec} `{IF : Inflate} `{ML : MerkleLib} `{PL : PowLib} `{VM_ : ContractVM} `{SHC : SheetCodec}.

(** The state buckets of [t] are those of [s]. *)
Definition same_state (t s : Txn) : Prop := forall n, n <> BlockBucketName -> n <> TxBucketName -> Bucket t n = Bucket s n.

Lemma stateDomain_bucket domain tag n : stateDomain domain = Ok (tag, n) -> n <> BlockBucketName /\ n <> TxBucketName.
Proof. unfold stateDomain. intros H'. repeat (case_bool_decide; [by injection H' as <- <-|]). done. Qed.

Lemma StateProof_same t s domain key : same_state t s -> StateProof t domain key = StateProof s domain key.
Proof.
  intros Hs. unfold StateProof. destruct (stateDomain domain) as [[tag n]|] eqn:E; [|done]. cbn [res_bind].
  apply stateDomain_bucket in E as [? ?]. unfold newNodeStore, bGet. by rewrite !Hs.
Qed.

Lemma StateRoot_same t s : same_state t s -> StateRoot t = StateRoot s.
Proof. intros Hs. unfold StateRoot, newNodeStore. by rewrite Hs. Qed.

Section Node.
Variables (U : gset bytes) (s : Txn) (c : Chain) (tip : FullBlock).
Hypothesis HU : collision_free U.
Hypothesis Hw : writes U ∅ s.
Hypothesis Hs : same_state (ch_db c) s.
Hypothesis Htip : GetLatestBlock (blocks (ch_db c)) = Ok tip.
Hypothesis Hroot : StateRoot (ch_db c) = h_StateRoot (b_Header tip).

(** What the node serves for a key. *)
Lemma tip_proof domain tag n key h : stateDomain domain = Ok (tag, n) -> tag :: key ∈ U ->
  exists resp, buildTipProof c {| pq_Domain := domain; pq_Key := key; pq_Height := h |} = Ok resp
    /\ ps_Path resp = LeafPath tag key /\ ps_StateRoot resp = h_StateRoot (b_Header tip)
    /\ VerifyProof (Some (b_Header tip)) (Some resp) = (default [] (bGet (ch_db c) n key), true).
Proof.
  intros Hd Hk. pose proof (ok_writes U HU _ _ (ok_empty U) Hw) as Hok.
  destruct (StateProof_verifies U HU s domain tag n key Hok Hd Hk) as (pr & E & Er & Ev & V).
  assert (Ep : pr_path pr = LeafPath tag key /\ pr_valueHash pr = hash_of_value (pr_value pr)).
  { unfold StateProof in E. rewrite Hd in E. cbn [res_bind] in E. by injection E as <-. }
  destruct Ep as [Ep Eh]. unfold buildTipProof. cbv zeta. rewrite Htip. cbn [res_bind pq_Domain pq_Key].
  rewrite (StateProof_same _ _ _ _ Hs), E. cbn [res_bind].
  assert (Hb : pr_root pr = h_StateRoot (b_Header tip)) by (by rewrite Er, <-Hroot, (StateRoot_same _ _ Hs)).
  rewrite bool_decide_eq_true_2 by done. cbn [negb guard]. eexists. split; [done|]. cbn [ps_Path ps_StateRoot proofOf].
  split_and!; [done|done|]. apply VerifyProof_true. cbn [proofOf ps_StateRoot ps_BlockHash ps_Value ps_Found ps_ValueHash ps_Path ps_Proof].
  destruct (stateDomain_bucket _ _ _ Hd) as [? ?]. unfold bGet in *. rewrite Hs by done. rewrite <-Ev, Hb in *. by rewrite Eh in *.
Qed.

(** C8 - Light-client proofs are complete and binding.  The node's state was
    written by the state functions and its root is in the tip's header, and
    the hash does not collide on the tagged keys in use.  Then for every key
    of every domain the server builds a proof that the light client accepts,
    with the stored value (the empty value for an absent key); and any
    response the client accepts for the path of that key carries that very
    value, or [proof_collision] computes from it and from the served proof
    two strings with the same hash or one hashing to zero. *)
Theorem light_client_complete_and_binding domain tag n key h : stateDomain domain = Ok (tag, n) -> tag :: key ∈ U ->
  let stored := default [] (bGet (ch_db c) n key) in
  exists served, buildTipProof c {| pq_Domain := domain; pq_Key := key; pq_Height := h |} = Ok served
    /\ VerifyProof (Some (b_Header tip)) (Some served) = (stored, true)
    /\ forall resp v, VerifyProof (Some (b_Header tip)) (Some resp) = (v, true) -> ps_Path resp = LeafPath tag key ->
         v = stored \/ (let xy := proof_collision (LeafPath tag key) v stored (ps_Proof resp) (ps_Proof served) in
                        is_collision xy \/ Hash256 xy.1 = zeros 32).
Proof.
  intros Hd Hk. cbv zeta. destruct (tip_proof domain tag n key h Hd Hk) as (served & E & Ep & Er & V). exists served. split_and!; [done..|].
  intros resp v Hv Hp. destruct (decide (v = default [] (bGet (ch_db c) n key))) as [|Hne]; [by left|right].
  apply VerifyProof_true in V as (_ & _ & _ & _ & Eh & V). apply VerifyProof_true in Hv as (Er' & _ & _ & _ & Eh' & V').
  rewrite Eh in V. rewrite Eh' in V'. rewrite Ep, Er in V. rewrite Hp, Er' in V'. by apply (accepted_two (h_StateRoot (b_Header tip))).
Qed.

(** A response with the labels of another request. *)
Definition relabel (req : ProofRequest) (resp : ProofResponse) : ProofResponse :=
  {| ps_Height := ps_Height resp; ps_BlockHash := ps_BlockHash resp; ps_StateRoot := ps_StateRoot resp;
     ps_Domain := pq_Domain req; ps_Key := pq_Key req; ps_Value := ps_Value resp; ps_ValueHash := ps_ValueHash resp;
     ps_Path := ps_Path resp; ps_Proof := ps_Proof resp; ps_Found := ps_Found resp |}.

(** A proof is not bound to the question.  Whatever a light client asks,
    a peer can answer with the proof of any other key of the state, labelled
    with the domain and key that were asked: the client accepts it and
    returns the value of the other key. *)
Theorem proof_answers_any_question asked domain tag n key : stateDomain domain = Ok (tag, n) -> tag :: key ∈ U ->
  exists resp, buildTipProof c {| pq_Domain := domain; pq_Key := key; pq_Height := 0 |} = Ok resp
    /\ ps_Domain (relabel asked resp) = pq_Domain asked /\ ps_Key (relabel asked resp) = pq_Key asked
    /\ VerifyProof (Some (b_Header tip)) (Some (relabel asked resp)) = (default [] (bGet (ch_db c) n key), true).
Proof. intros Hd Hk. destruct (tip_proof domain tag n key 0 Hd Hk) as (resp & E & _ & _ & V). by exists resp. Qed.

End Node.
End Serving.

Module LightWitness.

#[local] Existing Instance prefix_hasher.
#[local] Existing Instance toy_libs.
#[local] Existing Instance toy_codec.
#[local] Existing Instance toy_slot_codec.
#[local] Existing Instance toy_slot_laws.
#[local] Existing Instance toy_toll.
#[local] Existing Instance RunWitness.engine.
#[local] Existing Instance LedgerWitness.receipts.
#[local] Existing Instance LedgerWitness.deps.
#[local] Existing Instance LedgerWitness.inflate.
#[local] Existing Instance LedgerWitness.merkle.
#[local] Existing Instance LedgerWitness.text.
#[local] Existing Instance LedgerWitness.pow.
#[local] Instance sheets : SheetCodec := {| rlp_Sheet := fun _ => [Zbyte 1]; dec_Sheet := fun _ => None |}.

Definition alice : Address := to_array 32 [Zbyte 9].
Definition bob : Address := to_array 32 [Zbyte 10].
Definition key (a : Address) : bytes := vec_to_list a.
Definition keys : list bytes := [DomainBalance :: key alice; DomainBalance :: key bob].
Definition U : gset bytes := list_to_set keys.

(** alice has 7, bob 9. *)
Definition s : Txn := setBalance (setBalance ∅ None alice 7) None bob 9.

Definition tip : FullBlock :=
  let x := NewBareBlock ZERONET 5 0 [] 1 in
  set_Header x (h_set_StateRoot_BaseFee (b_Header x) (StateRoot s) []).

Definition node : Chain :=
  {| ch_Network := ZERONET; ch_State := LedgerWitness.state; ch_db := setBucket s BlockBucketName (InitFromCheckpoint ∅ tip);
     ch_volatile := {| v_snapshots := emptySnapshots; reorgRemoved := []; reorgAdded := [] |} |}.

Lemma keys_collision_free : collision_free U.
Proof. apply (no_collisions_ok keys). vm_compute. reflexivity. Qed.

Lemma alice_in_U : DomainBalance :: key alice ∈ U.
Proof. apply elem_of_list_to_set. left. Qed.

Lemma bob_in_U : DomainBalance :: key bob ∈ U.
Proof. apply elem_of_list_to_set. right. left. Qed.

Lemma s_writes : writes U ∅ s.
Proof. eapply rtc_l; [exists None; apply ws_balance, alice_in_U|]. apply rtc_once. exists None. apply ws_balance, bob_in_U. Qed.

Lemma node_state : same_state (ch_db node) s.
Proof. intros n Hb _. cbn [ch_db node]. by rewrite Bucket_setBucket, decide_False. Qed.

Lemma node_tip : bool_decide (GetLatestBlock (blocks (ch_db node)) = Ok tip) && bool_decide (StateRoot (ch_db node) = h_StateRoot (b_Header tip)) = true.
Proof. vm_compute. reflexivity. Qed.

Lemma node_facts : GetLatestBlock (blocks (ch_db node)) = Ok tip /\ StateRoot (ch_db node) = h_StateRoot (b_Header tip).
Proof. destruct (andb_prop _ _ node_tip) as [H1 H2]. split; [exact (bool_decide_eq_true_1 _ H1)|exact (bool_decide_eq_true_1 _ H2)]. Qed.

Lemma light_client_complete_and_binding_witness :
  exists served, buildTipProof node {| pq_Domain := "balance"; pq_Key := key alice; pq_Height := 0 |} = Ok served
    /\ VerifyProof (Some (b_Header tip)) (Some served) = ([Zbyte 7], true).
Proof.
  destruct (light_client_complete_and_binding U s node tip keys_collision_free s_writes node_state (proj1 node_facts) (proj2 node_facts)
    "balance" DomainBalance Addr2BalBucketName (key alice) 0 eq_refl alice_in_U) as (served & E & V & _).
  exists served. split; [exact E|]. replace [Zbyte 7] with (default [] (bGet (ch_db node) Addr2BalBucketName (key alice))); [exact V|].
  vm_compute. reflexivity.
Defined.

(** Asked for bob's balance, a peer answers with alice's. *)
Lemma proof_answers_any_question_witness :
  exists resp, VerifyProof (Some (b_Header tip)) (Some resp) = ([Zbyte 7], true) /\ ps_Key resp = key bob /\ getBalance (ch_db node) bob = 9.
Proof.
  destruct (proof_answers_any_question U s node tip keys_collision_free s_writes node_state (proj1 node_facts) (proj2 node_facts)
    {| pq_Domain := "balance"; pq_Key := key bob; pq_Height := 0 |} "balance" DomainBalance Addr2BalBucketName (key alice) eq_refl alice_in_U)
    as (resp & _ & _ & Ek & V).
  exists (relabel {| pq_Domain := "balance"; pq_Key := key bob; pq_Height := 0 |} resp). split; [|split; [exact Ek|vm_compute; reflexivity]].
  replace [Zbyte 7] with (default [] (bGet (ch_db node) Addr2BalBucketName (key alice))); [exact V|]. vm_compute. reflexivity.
Defined.

End LightWitness.
