(* ===== verification/Dandelion.v ===== *)
(** * The stem router

    ngp2p/dandelion.go: the two-phase propagation of locally submitted and
    relayed items.  The router's state is its seen set and its pending
    fail-safes; the effects it was built with (the peer list, the coin, the
    clock, the success of a stem hop and of a broadcast) are the fields of
    [Env], one per call, and what it sends is a list of events, a broadcast
    with its outcome.  The lock makes the state changes atomic; a fail-safe
    that expires is the call [fire]. *)

From S2P Require Import Prelude Params Keys Types Instances Tx.

Definition Second : Z := 10 ^ 9.
Definition DandelionEpoch : Z := 600 * Second.
Definition DandelionInitialTTL : Z := 10.
Definition dandelionStempoolCap : Z := 4096.
Definition dandelionSeenCap : Z := 65536.

Inductive Item := ItemTx (tx : FullTx) | ItemCommit (c : Commitment).

(** What the router attempts: a hop to one peer, or the public broadcast,
    with whether the broadcast went through. *)
Inductive Sent := Stem (p : bytes) (ttl : Z) (i : Item) | Fluff (i : Item) (ok : bool).

Record Env := {
  env_peers : list bytes;
  env_now : Z;
  env_coin : bool;
  env_stem : bool;
  env_fluff : bool
}.

Record DandelionRouter := {
  dr_Epoch : Z;
  dr_InitialTTL : Z;
  dr_secret : bytes;
  dr_seen : gset bytes;
  dr_timers : gmap bytes Item;
  dr_closed : bool
}.

Definition dr_set (r : DandelionRouter) (seen : gset bytes) (timers : gmap bytes Item) : DandelionRouter :=
  {| dr_Epoch := dr_Epoch r; dr_InitialTTL := dr_InitialTTL r; dr_secret := dr_secret r; dr_seen := seen; dr_timers := timers;
     dr_closed := dr_closed r |}.

Definition NewDandelionRouter (secret : bytes) : DandelionRouter :=
  {| dr_Epoch := DandelionEpoch; dr_InitialTTL := DandelionInitialTTL; dr_secret := secret; dr_seen := ∅; dr_timers := ∅; dr_closed := false |}.

Section Router.
Context `{HH : Hasher} `{SL : SigLibs} `{CD : Codec}.

Definition txKey (hash : bytes) : bytes := str "t" ++ hash.
Definition router_commitKey (hash : bytes) : bytes := str "c" ++ hash.

Definition item_key (i : Item) : bytes :=
  match i with ItemTx tx => txKey (GetHash tx) | ItemCommit c => router_commitKey (Commitment_GetUnsignedHash c) end.

(** [uint64(r.Epoch/time.Second)] as a divisor of zero panics. *)
Definition successor (r : DandelionRouter) (e : Env) : res (option bytes) :=
  match env_peers e with
  | [] => Ok None
  | _ =>
      let peers := merge_sort bytes_le (env_peers e) in
      let period := u64 (Z.quot (dr_Epoch r) Second) in
      reject period =? 0 with GoPanic ;
      let epochIndex := u64 (env_now e) / period in
      let digest := Hash256 (dr_secret r ++ PackUint64LE epochIndex) in
      let idx := le_Z (take 8 digest) mod zlen peers in
      Ok (peers !! Z.to_nat idx)
  end.

(** ** The seen set and the fail-safes *)

Definition isSeen (r : DandelionRouter) (key : bytes) : bool := bool_decide (key ∈ dr_seen r).

Definition markSeenLocked (r : DandelionRouter) (key : bytes) : DandelionRouter :=
  let seen := if dandelionSeenCap <=? Z.of_nat (size (dr_seen r)) then ∅ else dr_seen r in
  dr_set r ({[key]} ∪ seen) (dr_timers r).

Definition dismissFailsafe (r : DandelionRouter) (key : bytes) : DandelionRouter :=
  dr_set r (dr_seen r) (delete key (dr_timers r)).

Definition markSeen (r : DandelionRouter) (key : bytes) : DandelionRouter := dismissFailsafe (markSeenLocked r key) key.

(** A full stempool broadcasts at once; the outcome is dropped. *)
Definition scheduleFailsafe (r : DandelionRouter) (e : Env) (key : bytes) (i : Item) : DandelionRouter * list Sent :=
  if dr_closed r then (r, [])
  else if isSeen r key then (r, [])
  else if bool_decide (is_Some (dr_timers r !! key)) then (r, [])
  else if dandelionStempoolCap <=? Z.of_nat (size (dr_timers r)) then (markSeenLocked r key, [Fluff i (env_fluff e)])
  else (dr_set r (dr_seen r) (<[key := i]> (dr_timers r)), []).

(** The function the timer runs.  The item is marked before it is broadcast,
    and a failure only logged. *)
Definition fire (r : DandelionRouter) (e : Env) (key : bytes) : DandelionRouter * list Sent :=
  match dr_timers r !! key with
  | None => (r, [])
  | Some i =>
      let r := dismissFailsafe r key in
      if dr_closed r then (r, [])
      else if isSeen r key then (r, [])
      else (markSeenLocked r key, [Fluff i (env_fluff e)])
  end.

(** ** Routing *)

Definition stemWithFailsafe (r : DandelionRouter) (e : Env) (i : Item) (p : bytes) (ttl : Z) : bool * DandelionRouter * list Sent :=
  let '(r, sent) := scheduleFailsafe r e (item_key i) i in
  if env_stem e then (true, r, sent ++ [Stem p ttl i])
  else (false, dismissFailsafe r (item_key i), sent ++ [Stem p ttl i]).

(** [fluffQuietly], and the same two lines of [originate]. *)
Definition fluffNow (r : DandelionRouter) (e : Env) (i : Item) : DandelionRouter * list Sent :=
  (markSeen r (item_key i), [Fluff i (env_fluff e)]).

(** The first component: whether an error is returned. *)
Definition originate (r : DandelionRouter) (e : Env) (i : Item) : res (bool * DandelionRouter * list Sent) :=
  let! succ := successor r e in
  match succ with
  | None => let '(r, sent) := fluffNow r e i in Ok (env_fluff e, r, sent)
  | Some p =>
      let '(ok, r, sent) := stemWithFailsafe r e i p (dr_InitialTTL r) in
      if (ok : bool) then Ok (true, r, sent)
      else let '(r, sent') := fluffNow r e i in Ok (env_fluff e, r, sent ++ sent')
  end.

Definition relay (r : DandelionRouter) (e : Env) (i : Item) (ttl : Z) : res (DandelionRouter * list Sent) :=
  if isSeen r (item_key i) then Ok (r, [])
  else if (ttl =? 0) || env_coin e then Ok (fluffNow r e i)
  else
    let! succ := successor r e in
    match succ with
    | None => Ok (fluffNow r e i)
    | Some p =>
        let '(ok, r, sent) := stemWithFailsafe r e i p (ttl - 1) in
        if (ok : bool) then Ok (r, sent)
        else let '(r, sent') := fluffNow r e i in Ok (r, sent ++ sent')
    end.

Definition OriginateTx (r : DandelionRouter) (e : Env) (tx : FullTx) := originate r e (ItemTx tx).
Definition OriginateCommit (r : DandelionRouter) (e : Env) (c : Commitment) := originate r e (ItemCommit c).
Definition RelayTx (r : DandelionRouter) (e : Env) (tx : FullTx) (ttl : Z) := relay r e (ItemTx tx) ttl.
Definition Router_RelayCommit (r : DandelionRouter) (e : Env) (c : Commitment) (ttl : Z) := relay r e (ItemCommit c) ttl.
Definition SeenTx (r : DandelionRouter) (hash : bytes) : DandelionRouter := markSeen r (txKey hash).
Definition SeenCommit (r : DandelionRouter) (hash : bytes) : DandelionRouter := markSeen r (router_commitKey hash).

Definition Router_Close (r : DandelionRouter) : DandelionRouter :=
  {| dr_Epoch := dr_Epoch r; dr_InitialTTL := dr_InitialTTL r; dr_secret := dr_secret r; dr_seen := dr_seen r; dr_timers := ∅; dr_closed := true |}.

(** ** The choice of the successor *)

Lemma successor_in r e p : successor r e = Ok (Some p) -> p ∈ env_peers e.
Proof.
  unfold successor. destruct (env_peers e) as [|x l] eqn:E; [done|]. cbv zeta. intros H'. open_ok H'. injection H' as H'.
  apply list_elem_of_lookup_2 in H'. by rewrite merge_sort_Permutation in H'.
Qed.

(** With peers there is a successor: the index is in range. *)
Lemma successor_some r e : env_peers e <> [] -> u64 (Z.quot (dr_Epoch r) Second) <> 0 -> exists p, successor r e = Ok (Some p).
Proof.
  intros Hp He. unfold successor. destruct (env_peers e) as [|x l] eqn:E; [done|]. cbv zeta. destruct (Z.eqb_spec (u64 (dr_Epoch r ÷ Second)) 0); [done|].
  cbn [guard]. set (peers := merge_sort bytes_le (x :: l)).
  assert (Hl : 0 < zlen peers) by (unfold zlen, peers; rewrite merge_sort_Permutation; cbn; lia).
  match goal with |- context [Z.to_nat ?i] => assert (Hi : 0 <= i < zlen peers) by (by apply Z.mod_pos_bound) end.
  destruct (lookup_lt_is_Some_2 peers (Z.to_nat (le_Z (take 8 (Hash256 (dr_secret r ++ PackUint64LE (u64 (env_now e) / u64 (dr_Epoch r ÷ Second))))) mod zlen peers))) as [p Ep];
    [unfold zlen in *; lia|]. exists p. by rewrite Ep.
Qed.

(** Stem routing.  With at least one peer an item goes to one of them;
    the choice does not depend on the order the peers are listed in and does
    not change within an epoch.  A relayed item is forwarded only with a hop
    budget left, and with one hop less. *)
Theorem stem_routing r e e' i ttl r' sent :
  env_peers e ≡ₚ env_peers e' -> u64 (env_now e) / 600 = u64 (env_now e') / 600 -> dr_Epoch r = DandelionEpoch ->
  successor r e = successor r e'
  /\ (env_peers e <> [] -> exists p, successor r e = Ok (Some p) /\ p ∈ env_peers e)
  /\ (relay r e i ttl = Ok (r', sent) -> forall p t j, Stem p t j ∈ sent -> j = i /\ p ∈ env_peers e /\ ttl <> 0 /\ t = ttl - 1).
Proof.
  intros Hp Hn He. split_and!.
  - unfold successor. rewrite He. change (u64 (DandelionEpoch ÷ Second)) with 600. rewrite Hn.
    assert (Hs : merge_sort bytes_le (env_peers e) = merge_sort bytes_le (env_peers e')).
    { apply (StronglySorted_unique bytes_le); [apply Sorted_StronglySorted; [apply _|]; apply (Sorted_merge_sort _)..|].
      by rewrite !merge_sort_Permutation. }
    rewrite Hs. destruct (env_peers e) as [|x l]; [apply Permutation_nil_l in Hp; by rewrite <-Hp|].
    destruct (env_peers e'); [by apply Permutation_nil_r in Hp|done].
  - intros Hne. destruct (successor_some r e Hne) as [p Ep]; [by rewrite He|]. exists p. split; [done|by apply (successor_in r)].
  - unfold relay. destruct (isSeen r (item_key i)); [by intros [= <- <-] ??? ?%elem_of_nil|].
    destruct (Z.eqb_spec ttl 0); [by intros [= <- <-] ??? [=]%list_elem_of_singleton|]. cbn [orb].
    destruct (env_coin e); [by intros [= <- <-] ??? [=]%list_elem_of_singleton|].
    destruct (successor r e) as [[p|]|] eqn:Es; [|by intros [= <- <-] ??? [=]%list_elem_of_singleton|done]. cbn [res_bind].
    apply successor_in in Es. unfold stemWithFailsafe.
    assert (Hsched : forall q t j, Stem q t j ∈ (scheduleFailsafe r e (item_key i) i).2 -> False).
    { unfold scheduleFailsafe. intros q t j. repeat case_match; cbn; set_solver. }
    destruct (scheduleFailsafe r e (item_key i) i) as [r1 s1]. cbn [snd] in Hsched.
    destruct (env_stem e); intros [= <- <-] q t j; rewrite !elem_of_app, ?list_elem_of_singleton; naive_solver.
Qed.

(** ** Nothing is lost *)

(** The keys whose broadcast went through, and those whose broadcast failed. *)
Definition outcome (ok : bool) (sent : list Sent) : gset bytes :=
  list_to_set (omap (fun s => match s with Fluff i r => if Bool.eqb r ok then Some (item_key i) else None | Stem _ _ _ => None end) sent).

Definition flooded : list Sent -> gset bytes := outcome true.
Definition dropped : list Sent -> gset bytes := outcome false.

(** The keys of the items handed to the router, of those that are in the
    flood, broadcast by it or seen there, and of those a broadcast of which
    failed. *)
Record tally := { ta_handed : gset bytes; ta_out : gset bytes; ta_lost : gset bytes }.

Definition sent_to (sent : list Sent) (a : tally) : tally :=
  {| ta_handed := ta_handed a; ta_out := flooded sent ∪ ta_out a; ta_lost := dropped sent ∪ ta_lost a |}.
Definition hand (key : bytes) (a : tally) : tally :=
  {| ta_handed := {[key]} ∪ ta_handed a; ta_out := ta_out a; ta_lost := ta_lost a |}.
Definition sighted (key : bytes) (a : tally) : tally :=
  {| ta_handed := ta_handed a; ta_out := {[key]} ∪ ta_out a; ta_lost := ta_lost a |}.
Definition nothing : tally := {| ta_handed := ∅; ta_out := ∅; ta_lost := ∅ |}.

Inductive router_step : DandelionRouter * tally -> DandelionRouter * tally -> Prop :=
  | rs_originate r a e i ok r' sent : originate r e i = Ok (ok, r', sent) -> router_step (r, a) (r', sent_to sent (hand (item_key i) a))
  | rs_relay r a e i ttl r' sent : relay r e i ttl = Ok (r', sent) -> router_step (r, a) (r', sent_to sent (hand (item_key i) a))
  | rs_seen_tx r a hash : router_step (r, a) (SeenTx r hash, sighted (txKey hash) a)
  | rs_seen_commit r a hash : router_step (r, a) (SeenCommit r hash, sighted (router_commitKey hash) a)
  | rs_fire r a e key : router_step (r, a) ((fire r e key).1, sent_to (fire r e key).2 a)
  | rs_close r a : router_step (r, a) (Router_Close r, a).

(** Done with: in the flood, or lost. *)
Abbreviation settled a := (ta_out a ∪ ta_lost a).

Record router_ok (r : DandelionRouter) (a : tally) : Prop := {
  ro_cap : Z.of_nat (size (dr_timers r)) <= dandelionStempoolCap;
  ro_seen_cap : Z.of_nat (size (dr_seen r)) <= dandelionSeenCap;
  ro_seen : dr_seen r ⊆ settled a;
  ro_key : map_Forall (fun k i => item_key i = k) (dr_timers r);
  ro_covered : dr_closed r = false -> ta_handed a ⊆ settled a ∪ dom (dr_timers r)
}.

Lemma outcome_app ok a b : outcome ok (a ++ b) = outcome ok a ∪ outcome ok b.
Proof. unfold outcome. by rewrite omap_app, list_to_set_app_L. Qed.

Lemma outcome_Stem ok p ttl i : outcome ok [Stem p ttl i] = ∅.
Proof. done. Qed.

Lemma outcome_Fluff i ok : outcome true [Fluff i ok] ∪ outcome false [Fluff i ok] = {[item_key i]}.
Proof. unfold outcome. destruct ok; cbn; set_solver. Qed.

(** Every broadcast settles its item, one way or the other. *)
Lemma settled_sent sent a : settled (sent_to sent a) = (outcome true sent ∪ outcome false sent) ∪ settled a.
Proof. cbn. unfold flooded, dropped. set_solver. Qed.

Lemma settled_Fluff i ok a : settled (sent_to [Fluff i ok] a) = {[item_key i]} ∪ settled a.
Proof. by rewrite settled_sent, outcome_Fluff. Qed.

Lemma settled_app s1 s2 a : settled (sent_to (s1 ++ s2) a) = settled (sent_to s2 (sent_to s1 a)).
Proof. rewrite !settled_sent, !outcome_app. set_solver. Qed.

Lemma router_ok_out r a a' : router_ok r a -> settled a ⊆ settled a' -> ta_handed a' ⊆ ta_handed a ∪ settled a' ∪ dom (dr_timers r) -> router_ok r a'.
Proof. intros [? ? ? ? Hc] Ho Hh. split; [done|done|set_solver|done|]. intros E. specialize (Hc E). set_solver. Qed.

(** Marking a key that is settled. *)
Lemma markSeenLocked_ok r a key : router_ok r a -> key ∈ settled a -> router_ok (markSeenLocked r key) a.
Proof.
  intros [H1 H2 H3 H4 H5] Hk. unfold markSeenLocked. split; cbn [dr_set dr_timers dr_seen dr_closed]; [done| | |done|done].
  - destruct (Z.leb_spec dandelionSeenCap (Z.of_nat (size (dr_seen r)))) as [|Hlt].
    + rewrite union_empty_r_L, size_singleton. done.
    + pose proof (size_union_alt ({[key]} : gset bytes) (dr_seen r)) as E. rewrite size_singleton in E.
      assert (size (dr_seen r ∖ {[key]}) <= size (dr_seen r))%nat by (apply subseteq_size; set_solver). lia.
  - destruct (_ <=? _); set_solver.
Qed.

Lemma dismiss_ok r a key : router_ok r a -> key ∈ settled a -> router_ok (dismissFailsafe r key) a.
Proof.
  intros [H1 H2 H3 H4 H5] Hk. unfold dismissFailsafe. split; cbn [dr_set dr_timers dr_seen dr_closed]; [|done|done| |].
  - pose proof (map_subseteq_size (delete key (dr_timers r)) (dr_timers r) (delete_subseteq _ _)). lia.
  - by apply map_Forall_delete.
  - intros E x Hx. specialize (H5 E x Hx). rewrite dom_delete_L. destruct (decide (x = key)); set_solver.
Qed.

Lemma markSeen_ok r a key : router_ok r a -> key ∈ settled a -> router_ok (markSeen r key) a.
Proof. intros ? ?. by apply dismiss_ok; [apply markSeenLocked_ok|]. Qed.

(** After arming, the item is covered. *)
Lemma schedule_ok r e a i r' sent : router_ok r a -> scheduleFailsafe r e (item_key i) i = (r', sent) ->
  router_ok r' (sent_to sent (hand (item_key i) a)).
Proof.
  intros H E. pose proof H as [H1 H2 H3 H4 H5]. unfold scheduleFailsafe in E. destruct (dr_closed r) eqn:Ec.
  { injection E as <- <-. split; [done|done|rewrite settled_sent; set_solver|done|congruence]. }
  specialize (H5 eq_refl). unfold isSeen in E. case_bool_decide as Hs.
  { injection E as <- <-. split; [done|done|rewrite settled_sent; set_solver|done|]. intros _. rewrite settled_sent. cbn [sent_to hand ta_handed]. set_solver. }
  case_bool_decide as Ht.
  { injection E as <- <-. apply elem_of_dom in Ht. split; [done|done|rewrite settled_sent; set_solver|done|]. intros _. rewrite settled_sent. cbn [sent_to hand ta_handed]. set_solver. }
  destruct (Z.leb_spec dandelionStempoolCap (Z.of_nat (size (dr_timers r)))); injection E as <- <-.
  - apply markSeenLocked_ok; [|rewrite settled_Fluff; set_solver].
    split; [done|done|rewrite settled_Fluff; set_solver|done|]. intros _. rewrite settled_Fluff. cbn [sent_to hand ta_handed]. set_solver.
  - split; cbn [dr_set dr_timers dr_seen dr_closed]; [|done|rewrite settled_sent; set_solver|by apply map_Forall_insert_2|].
    + rewrite map_size_insert_None; [lia|]. by apply eq_None_not_Some.
    + intros _. rewrite settled_sent, dom_insert_L. cbn [sent_to hand ta_handed]. set_solver.
Qed.

Lemma fluffNow_ok r e a i r' sent : router_ok r a -> fluffNow r e i = (r', sent) -> router_ok r' (sent_to sent (hand (item_key i) a)).
Proof.
  intros H [= <- <-]. apply markSeen_ok; [|rewrite settled_Fluff; set_solver].
  eapply router_ok_out; [exact H|rewrite settled_Fluff; set_solver|]. rewrite settled_Fluff. cbn [sent_to hand ta_handed]. set_solver.
Qed.

Lemma stem_ok r e a i p ttl ok r' sent : router_ok r a -> stemWithFailsafe r e i p ttl = (ok, r', sent) ->
  if ok then router_ok r' (sent_to sent (hand (item_key i) a))
  else forall r2 s2, fluffNow r' e i = (r2, s2) -> router_ok r2 (sent_to (sent ++ s2) (hand (item_key i) a)).
Proof.
  intros H E. unfold stemWithFailsafe in E. destruct (scheduleFailsafe r e (item_key i) i) as [r1 s1] eqn:Es.
  apply (schedule_ok _ _ _ _ _ _ H) in Es as H'.
  assert (Hf : settled (sent_to (s1 ++ [Stem p ttl i]) (hand (item_key i) a)) = settled (sent_to s1 (hand (item_key i) a))).
  { rewrite settled_app, settled_sent, !outcome_Stem. set_solver. }
  destruct (env_stem e); injection E as <- <- <-.
  - eapply router_ok_out; [exact H'|by rewrite Hf|]. cbn [sent_to ta_handed]. set_solver.
  - intros r2 s2 [= <- <-]. apply markSeen_ok; [|rewrite settled_app, settled_Fluff; set_solver].
    apply (dismiss_ok _ _ (item_key i)); [|rewrite settled_app, settled_Fluff; set_solver].
    eapply router_ok_out; [exact H'|rewrite settled_app, settled_Fluff, Hf; set_solver|]. cbn [sent_to ta_handed]. set_solver.
Qed.

Lemma fire_ok r e a key : router_ok r a -> router_ok (fire r e key).1 (sent_to (fire r e key).2 a).
Proof.
  intros H. unfold fire. destruct (dr_timers r !! key) as [i|] eqn:Et; cbn [fst snd].
  2: { eapply router_ok_out; [exact H|rewrite settled_sent; set_solver|cbn [sent_to ta_handed]; set_solver]. }
  pose proof (ro_key _ _ H _ _ Et) as Hk. cbn in Hk. cbn [dismissFailsafe dr_set dr_closed]. destruct (dr_closed r) eqn:Ec; cbn [fst snd].
  - destruct H as [H1 H2 H3 H4 H5]. split; cbn [dismissFailsafe dr_set dr_timers dr_seen dr_closed].
    + pose proof (map_subseteq_size (delete key (dr_timers r)) (dr_timers r) (delete_subseteq _ _)). lia.
    + done.
    + rewrite settled_sent. set_solver.
    + by apply map_Forall_delete.
    + congruence.
  - unfold isSeen. case_bool_decide as Hs; cbn [fst snd].
    + cbn in Hs. eapply router_ok_out; [apply (dismiss_ok r a key H); destruct H; set_solver|rewrite settled_sent; set_solver|].
      cbn [sent_to ta_handed]. set_solver.
    + apply markSeenLocked_ok; [|rewrite settled_Fluff, Hk; set_solver]. apply dismiss_ok; [|rewrite settled_Fluff, Hk; set_solver].
      eapply router_ok_out; [exact H|rewrite settled_Fluff; set_solver|cbn [sent_to ta_handed]; set_solver].
Qed.

Lemma sighted_ok r a key : router_ok r a -> router_ok (markSeen r key) (sighted key a).
Proof.
  intros H. apply markSeen_ok; [|cbn; set_solver]. eapply router_ok_out; [exact H|cbn; set_solver|cbn [sighted ta_handed]; set_solver].
Qed.

Lemma router_step_ok s s' : router_step s s' -> router_ok s.1 s.2 -> router_ok s'.1 s'.2.
Proof.
  destruct 1 as [r a e i ok r' sent E|r a e i ttl r' sent E|r a hash|r a hash|r a e key|r a]; cbn [fst snd]; intros H.
  - unfold originate in E. destruct (successor r e) as [[p|]|]; cbn [res_bind] in E; [| |done].
    + destruct (stemWithFailsafe r e i p (dr_InitialTTL r)) as [[k r1] s1] eqn:Es. apply (stem_ok _ _ _ _ _ _ _ _ _ H) in Es.
      destruct k; [by injection E as <- <- <-|]. destruct (fluffNow r1 e i) as [r2 s2] eqn:Ef. injection E as <- <- <-. by apply Es.
    + destruct (fluffNow r e i) as [r2 s2] eqn:Ef. injection E as <- <- <-. exact (fluffNow_ok r e _ _ _ _ H Ef).
  - unfold relay, isSeen in E. case_bool_decide as Hs.
    + injection E as <- <-. eapply router_ok_out; [exact H|rewrite settled_sent; cbn; set_solver|]. rewrite settled_sent. cbn [sent_to hand ta_handed].
      destruct H. set_solver.
    + destruct (_ || _); [apply (fluffNow_ok r e _ i _ _ H); congruence|].
      destruct (successor r e) as [[p|]|]; cbn [res_bind] in E; [|apply (fluffNow_ok r e _ i _ _ H); congruence|done].
      destruct (stemWithFailsafe r e i p (ttl - 1)) as [[k r1] s1] eqn:Es. apply (stem_ok _ _ _ _ _ _ _ _ _ H) in Es.
      destruct k; [by injection E as <- <-|]. destruct (fluffNow r1 e i) as [r2 s2] eqn:Ef. injection E as <- <-. by apply Es.
  - by apply sighted_ok.
  - by apply sighted_ok.
  - by apply fire_ok.
  - destruct H. split; cbn; [by rewrite map_size_empty|done|done|apply map_Forall_empty|done].
Qed.

Lemma router_run_ok s s' : rtc router_step s s' -> router_ok s.1 s.2 -> router_ok s'.1 s'.2.
Proof. induction 1 as [|x y z Hs _ IH]; [done|]. intros H'. by apply IH, (router_step_ok x). Qed.

Lemma new_router_ok secret : router_ok (NewDandelionRouter secret) nothing.
Proof. by split. Qed.

(** C21 - Every item surfaces while the router runs and its broadcasts go
    through.  Over any sequence of submissions, relays, sightings, expiring
    fail-safes and a closing, with any answers of the network: an item
    handed to a router that is not closed is in the flood (broadcast with
    success or seen there), or a broadcast of it failed, or its fail-safe is
    pending.  In the last case the call of the fail-safe, when its broadcast
    goes through, puts the item in the flood unless an earlier one already
    settled it.  So without a failed broadcast nothing is lost.  At most
    4096 fail-safes are pending, and at most 65536 keys are remembered. *)
Theorem every_item_surfaces secret r a :
  rtc router_step (NewDandelionRouter secret, nothing) (r, a) ->
  Z.of_nat (size (dr_timers r)) <= 4096 /\ Z.of_nat (size (dr_seen r)) <= 65536
  /\ (dr_closed r = false -> forall key, key ∈ ta_handed a ->
        key ∈ ta_out a \/ key ∈ ta_lost a
        \/ exists i, dr_timers r !! key = Some i /\ item_key i = key
             /\ forall e, env_fluff e = true ->
                  key ∉ dom (dr_timers (fire r e key).1)
                  /\ (key ∈ flooded (fire r e key).2 \/ key ∈ ta_out a \/ key ∈ ta_lost a)).
Proof.
  intros Hr. pose proof (router_run_ok _ _ Hr (new_router_ok secret)) as H. cbn [fst snd] in H. pose proof H as [H1 H2 H3 H4 H5].
  split_and!; [done|done|]. intros Ec key Hk. specialize (H5 Ec key Hk). apply elem_of_union in H5 as [[|]%elem_of_union|Ht]; [by left|by right; left|].
  apply elem_of_dom in Ht as [i Ei]. right. right. exists i. pose proof (H4 _ _ Ei) as Hi. cbn in Hi. split; [done|]. split; [done|]. intros e He.
  unfold fire. rewrite Ei. cbn [dismissFailsafe dr_set dr_closed]. rewrite Ec. unfold isSeen. case_bool_decide as Hs; cbn [fst snd]; (split; [cbn; rewrite dom_delete_L; set_solver|]).
  - right. apply elem_of_union. apply H3. exact Hs.
  - left. unfold flooded, outcome. cbn [omap list_omap]. rewrite He, Hi. cbn. set_solver.
Qed.

(** A broadcast that fails is not repeated: the item is marked before it is
    sent, so when the fail-safe's broadcast fails no fail-safe is left and
    every later relay of the item is dropped. *)
Lemma failed_failsafe_loses r e key i : dr_closed r = false -> dr_timers r !! key = Some i -> item_key i = key -> isSeen r key = false ->
  env_fluff e = false ->
  let r' := (fire r e key).1 in
  (fire r e key).2 = [Fluff i false] /\ dr_timers r' !! key = None /\ forall e' ttl, relay r' e' i ttl = Ok (r', []).
Proof.
  intros Hc Ht Hk Hs He. cbv zeta. unfold fire. rewrite Ht. cbn [dismissFailsafe dr_set dr_closed]. rewrite Hc.
  change (isSeen (dismissFailsafe r key) key) with (isSeen r key). rewrite Hs, He. cbn [fst snd]. split; [done|]. split; [cbn; apply lookup_delete_eq|].
  intros e' ttl. unfold relay, isSeen. rewrite Hk, bool_decide_eq_true_2; [done|]. cbn. set_solver.
Qed.

End Router.

(** ** A submission *)

Module RouterWitness.

#[local] Instance hasher : Hasher := fun b => to_array 32 b.
#[local] Existing Instance toy_libs.
#[local] Existing Instance toy_codec.

Definition commit : Commitment := NewCommitment ZERONET 6 (zeros 32) (Some 7).
Definition peers : list bytes := [[Zbyte 2]; [Zbyte 1]; [Zbyte 3]].
Definition env (l : list bytes) (now : Z) : Env := {| env_peers := l; env_now := now; env_coin := false; env_stem := true; env_fluff := true |}.
Definition router : DandelionRouter := NewDandelionRouter (zeros 32).

(** The item is out on its stem and covered by a fail-safe. *)
Definition stemmed : DandelionRouter :=
  match OriginateCommit router (env peers 1000) commit with Ok (_, r, _) => r | Err _ => router end.

Lemma stem_routing_witness :
  successor router (env peers 1000) = successor router (env (reverse peers) 1100)
  /\ (exists p, successor router (env peers 1000) = Ok (Some p) /\ p ∈ peers).
Proof.
  destruct (stem_routing router (env peers 1000) (env (reverse peers) 1100) (ItemCommit commit) 3 router [])
    as (H1 & H2 & _); [cbn [env_peers env]; by rewrite reverse_Permutation|vm_compute; reflexivity|reflexivity|].
  split; [exact H1|]. apply H2. discriminate.
Defined.

Lemma submitted_ok :
  match OriginateCommit router (env peers 1000) commit with
  | Ok (_, r, sent) => negb (dr_closed r) && bool_decide (flooded sent = ∅) && bool_decide (dropped sent = ∅)
  | Err _ => false
  end = true.
Proof. vm_compute. reflexivity. Qed.

Lemma every_item_surfaces_witness : item_key (ItemCommit commit) ∈ flooded (fire stemmed (env peers 1000) (item_key (ItemCommit commit))).2.
Proof.
  pose proof submitted_ok as Hok. unfold stemmed.
  destruct (OriginateCommit router (env peers 1000) commit) as [[[ok r] sent]|] eqn:E; [|discriminate].
  apply andb_true_iff in Hok as [Hok Hd]. apply andb_true_iff in Hok as [Hc Hs].
  apply negb_true_iff in Hc. apply bool_decide_eq_true in Hs, Hd.
  destruct (every_item_surfaces (zeros 32) r (sent_to sent (hand (item_key (ItemCommit commit)) nothing))) as (_ & _ & Hall).
  { apply rtc_once. exact (rs_originate _ _ _ _ _ _ _ E). }
  assert (none : forall x, x ∈ ta_out (sent_to sent (hand (item_key (ItemCommit commit)) nothing)) \/ x ∈ ta_lost (sent_to sent (hand (item_key (ItemCommit commit)) nothing)) -> False).
  { cbn [sent_to hand ta_out ta_lost nothing]. rewrite Hs, Hd, union_empty_l_L. intros x [H|H]; exact (not_elem_of_empty x H). }
  destruct (Hall Hc (item_key (ItemCommit commit))) as [H|[H|(i & _ & _ & H)]].
  - apply elem_of_union_l, elem_of_singleton. reflexivity.
  - destruct (none _ (or_introl H)).
  - destruct (none _ (or_intror H)).
  - destruct (H (env peers 1000) eq_refl) as (_ & [H'|H']); [exact H'|destruct (none _ H')].
Defined.

End RouterWitness.
