(* ===== verification/Consensus.v ===== *)
(** * Consensus: templates, imports, the orphan buffer

    pow.go, generate_tx_builder.go and orphan_pool.go of package consensus.
    The manager owns a chain and a pool and wires the pool's hook into the
    chain, so a block that moves the tip resets the pool; the relay the hook
    starts runs later and is a step of its own (Pool.v). *)

From S2P Require Import Prelude Params StateTrie Keys Contract Types Instances Tx Block BlockStore State StateCommit Journal Ledger Snapshot Queries Chain Pool.

(** ** orphan_pool.go *)

Definition maxOrphanBlocks : Z := 128.

(** Keyed by the hex of the missing parent's hash. *)
Record orphanPool := { byPrev : gmap bytes (list FullBlock); op_count : Z }.

Definition newOrphanPool : orphanPool := {| byPrev := ∅; op_count := 0 |}.

Record PoWorkConfig := {
  cfg_Network : Network;
  cfg_StrictMode : bool;
  cfg_SnapshotMode : bool;
  cfg_MinerExtraData : bytes
}.

(** [pw_syncing]: the sync module's lock is held. *)
Record PoWork := {
  pw_cfg : PoWorkConfig;
  pw_chain : Chain;
  pw_pool : TxPool;
  pw_orphans : orphanPool;
  pw_syncing : bool
}.

Definition pw_set_chain (pw : PoWork) (c : Chain) (p : TxPool) : PoWork :=
  {| pw_cfg := pw_cfg pw; pw_chain := c; pw_pool := p; pw_orphans := pw_orphans pw; pw_syncing := pw_syncing pw |}.
Definition pw_set_orphans (pw : PoWork) (o : orphanPool) : PoWork :=
  {| pw_cfg := pw_cfg pw; pw_chain := pw_chain pw; pw_pool := pw_pool pw; pw_orphans := o; pw_syncing := pw_syncing pw |}.
Definition pw_set_syncing (pw : PoWork) (b : bool) : PoWork :=
  {| pw_cfg := pw_cfg pw; pw_chain := pw_chain pw; pw_pool := pw_pool pw; pw_orphans := pw_orphans pw; pw_syncing := b |}.

Section Consensus.
Context `{HH : Hasher} `{SL : SigLibs} `{CD : Codec} `{SC : SlotCodec} `{RC : ReceiptCodec}
  `{DC : DepsCodec} `{IF : Inflate} `{ML : MerkleLib} `{PL : PowLib} `{VM_ : ContractVM} `{SHC : SheetCodec}.

Definition orphan_add (op : orphanPool) (block : FullBlock) : bool * orphanPool :=
  if maxOrphanBlocks <=? op_count op then (false, op)
  else
    let key := hex_EncodeToString (GetPrevHash (b_Header block)) in
    let hash := Block_GetHash block in
    let waiting := default [] (byPrev op !! key) in
    if existsb (fun w => bool_decide (Block_GetHash w = hash)) waiting then (false, op)
    else (true, {| byPrev := <[key := waiting ++ [block]]> (byPrev op); op_count := op_count op + 1 |}).

Definition orphan_take (op : orphanPool) (parentHash : bytes) : list FullBlock * orphanPool :=
  let key := hex_EncodeToString parentHash in
  match byPrev op !! key with
  | None => ([], op)
  | Some children => (children, {| byPrev := delete key (byPrev op); op_count := op_count op - zlen children |})
  end.

(** ** generate_tx_builder.go *)

(** A failed signature is logged, and the transaction stays unsigned. *)
Definition CreateGenerateTx (rnd : bytes) (network : Network) (privateKey : PrivateKey) (height : Z) (extraData : bytes) : res FullTx :=
  let! addr := NewAddress privateKey in
  let gen := NewUnsignedTx network GenerateTx height addr (Some (GetBlockReward height)) (Some 0) extraData in
  match Signature rnd gen privateKey with
  | Ok gen => Ok gen
  | Err GoPanic => Err GoPanic
  | Err _ => Ok gen
  end.

(** [copy(to[:], u.Coinbase)] *)
Definition uncleRewardTx (network : Network) (nephewHeight : Z) (u : BlockHeader) : FullTx :=
  NewUnsignedTx network GenerateTx nephewHeight (to_array 32 (h_Coinbase u)) (Some (UncleReward (h_Height u) nephewHeight)) (Some 0) [].

Definition buildUncleRewardTxs (network : Network) (uncles : list BlockHeader) (nephewHeight : Z) : list FullTx :=
  uncleRewardTx network nephewHeight <$> uncles.

(** ** pow.go: templates *)

(** [now]: the clock, in unix milliseconds. *)
Definition templateBlockTime (now : Z) (parent : FullBlock) : Z :=
  let blockTime := u64 now in
  if blockTime <=? h_Timestamp (b_Header parent) then u64 (h_Timestamp (b_Header parent) + 1) else blockTime.

Definition nextBaseFeeBytes (pw : PoWork) (parent : FullBlock) : bytes :=
  big_Bytes (NextBaseFee (cfg_Network (pw_cfg pw)) (blockHeight parent) (Some (be_Z (h_BaseFee (b_Header parent)))) (BlockUsedBytes parent)).

(** The bare child of the tip, with its base fee. *)
Definition bareTemplate (now : Z) (pw : PoWork) : res (FullBlock * Z) :=
  let! currentBlock := getLatestBlock (pw_chain pw) in
  let blockTime := templateBlockTime now currentBlock in
  let height := u64 (blockHeight currentBlock + 1) in
  let! newDiff := GetNextDiff height blockTime (b_Header currentBlock) in
  let x := NewBareBlock (cfg_Network (pw_cfg pw)) height blockTime (Block_GetHash currentBlock) newDiff in
  Ok (set_Header x (h_set_StateRoot_BaseFee (b_Header x) (h_StateRoot (b_Header x)) (nextBaseFeeBytes pw currentBlock)), height).

(** A failure to collect uncles is logged. *)
Definition templateUncles (pw : PoWork) (x : FullBlock) (height : Z) : FullBlock * list FullTx :=
  match CollectUncles (blocks (ch_db (pw_chain pw))) with
  | Err _ => (x, [])
  | Ok uncles => (SetUncles x uncles, buildUncleRewardTxs (cfg_Network (pw_cfg pw)) uncles height)
  end.

Definition set_StateRoot (x : FullBlock) (root : bytes) : FullBlock :=
  set_Header x (h_set_StateRoot_BaseFee (b_Header x) root (h_BaseFee (b_Header x))).

(** The errors of the last two steps are logged and the block is returned as
    far as it got; a panic is not caught. *)
Definition GetBlockTemplate (rnd : bytes) (now : Z) (pw : PoWork) (privateKey : PrivateKey) : res FullBlock :=
  let! (x, height) := bareTemplate now pw in
  let '(x, uncleRewards) := templateUncles pw x height in
  let! addr := NewAddress privateKey in
  let x := SetCoinbase x addr in
  let! genTx := CreateGenerateTx rnd (cfg_Network (pw_cfg pw)) privateKey height (cfg_MinerExtraData (pw_cfg pw)) in
  let txsWithGen := genTx :: uncleRewards ++ GetPack (pw_pool pw) height in
  let x := SetCommits x (GetCommitPack (pw_pool pw) height) in
  let! x := match ToUnsealing x txsWithGen with Ok y => Ok y | Err GoPanic => Err GoPanic | Err _ => Ok x end in
  match DryApplyRoot (ch_State (pw_chain pw)) (ch_db (pw_chain pw)) x with
  | Ok root => Ok (set_StateRoot x root)
  | Err GoPanic => Err GoPanic
  | Err _ => Ok x
  end.

Definition GetBareBlockTemplateWithTxs (now : Z) (pw : PoWork) : res (FullBlock * list FullTx) :=
  let! (x, height) := bareTemplate now pw in
  let x := SetCommits x (GetCommitPack (pw_pool pw) height) in
  let '(x, uncleRewards) := templateUncles pw x height in
  Ok (x, uncleRewards ++ GetPack (pw_pool pw) height).

Definition AssembleWork (now : Z) (pw : PoWork) (gen : FullTx) : res FullBlock :=
  let! (bareBlock, txs) := GetBareBlockTemplateWithTxs now pw in
  let x := SetCoinbase bareBlock (tx_To gen) in
  let! x := ToUnsealing x (gen :: txs) in
  let! root := DryApplyRoot (ch_State (pw_chain pw)) (ch_db (pw_chain pw)) x in
  Ok (set_StateRoot x root).

(** ** pow.go: imports *)

Definition movesTip (ns : list notification) : bool := existsb (fun n => match n with OnTipChanged => true | _ => false end) ns.

(** [Chain.ApplyBlock] with the hook wired to the pool. *)
Definition pow_ApplyBlock (now : Z) (pw : PoWork) (block : FullBlock) : res unit * PoWork :=
  match ApplyBlock now (pw_chain pw) block with
  | (Ok ns, c) => (Ok tt, pw_set_chain pw c (if movesTip ns then OnTipChanged_reset (pw_pool pw) else pw_pool pw))
  | (Err e, c) => (Err e, pw_set_chain pw c (pw_pool pw))
  end.

(** [broadcast]: whether publishing the block succeeds. *)
Definition MinedNewBlock (now : Z) (broadcast : bool) (pw : PoWork) (block : FullBlock) : res unit * PoWork :=
  if pw_syncing pw then (Err ErrChainOnSyncing, pw)
  else
    match pow_ApplyBlock now pw block with
    | (Err e, pw) => (Err e, pw)
    | (Ok _, pw) => (if broadcast then Ok tt else Err ErrRemote, pw)
    end.

(** The queue grows by what the buffer loses, so the fuel is the number of
    blocks the queue and the buffer hold. *)
Fixpoint drainOrphans (fuel : nat) (now : Z) (pw : PoWork) (queue : list FullBlock) : res unit * PoWork :=
  match queue with
  | [] => (Ok tt, pw)
  | child :: queue =>
      match fuel with
      | O => (Err ErrOutOfFuel, pw)
      | S fuel =>
          match pow_ApplyBlock now pw child with
          | (Err GoPanic, pw) => (Err GoPanic, pw)
          | (Err _, pw) => drainOrphans fuel now pw queue
          | (Ok _, pw) =>
              let '(more, op) := orphan_take (pw_orphans pw) (Block_GetHash child) in
              drainOrphans fuel now (pw_set_orphans pw op) (queue ++ more)
          end
      end
  end.

Definition buffered (op : orphanPool) : nat := sum_list_with length ((map_to_list (byPrev op)).*2).

Definition importOrphanChildren (now : Z) (pw : PoWork) (parentHash : bytes) : res unit * PoWork :=
  let '(queue, op) := orphan_take (pw_orphans pw) parentHash in
  drainOrphans (length queue + buffered op) now (pw_set_orphans pw op) queue.

(** A panic leaves the changes made so far. *)
Definition ImportBlock (now : Z) (pw : PoWork) (block : FullBlock) : res unit * PoWork :=
  if pw_syncing pw then (Ok tt, pw_set_orphans pw (orphan_add (pw_orphans pw) block).2)
  else
    match pow_ApplyBlock now pw block with
    | (Err ErrPrevBlockNotExist, pw) =>
        let '(parked, op) := orphan_add (pw_orphans pw) block in
        (if parked then Ok tt else Err ErrPrevBlockNotExist, pw_set_orphans pw op)
    | (Err e, pw) => (Err e, pw)
    | (Ok _, pw) => importOrphanChildren now pw (Block_GetHash block)
    end.

(** The goroutine boundary: a panic becomes an error. *)
Definition safeImportBlock (now : Z) (pw : PoWork) (block : FullBlock) : res unit * PoWork := ImportBlock now pw block.

End Consensus.
