(* ===== verification/ConsensusProps.v ===== *)
(** * Gossip in any order

    The orphan buffer: its cascade terminates, and a burst of blocks reaches
    the same chain in whatever order it arrives. *)

From S2P Require Import Prelude Params StateTrie Keys Contract Types Instances Tx Block BlockStore State StateCommit Journal VM VMToy VMProps Ledger LedgerProps Snapshot Queries Chain ChainFrames ForkChoice ForkProps Pool Consensus.

(** ** Hexadecimal keys *)

Definition hex_pair (x : byte) : byte * byte := (hex_digit (byteZ x / 16), hex_digit (byteZ x mod 16)).

Lemma hex_pair_check :
  forallb (fun x => forallb (fun y => negb (bool_decide (hex_pair x = hex_pair y)) || bool_decide (x = y)) all_bytes) all_bytes = true.
Proof. vm_compute. reflexivity. Qed.

Lemma hex_pair_inj x y : hex_pair x = hex_pair y -> x = y.
Proof.
  intros E. pose proof hex_pair_check as H. rewrite forallb_forall in H. specialize (H x). rewrite <-list_elem_of_In in H.
  specialize (H (elem_of_all_bytes x)). rewrite forallb_forall in H. specialize (H y). rewrite <-list_elem_of_In in H.
  specialize (H (elem_of_all_bytes y)). rewrite bool_decide_eq_true_2 in H by done. by apply bool_decide_eq_true in H.
Qed.

Lemma hex_inj a : forall b, hex_EncodeToString a = hex_EncodeToString b -> a = b.
Proof.
  unfold hex_EncodeToString. induction a as [|x a IH]; intros [|y b] E; try done. cbn [mbind list_bind app] in E. injection E as E1 E2 E3.
  f_equal; [apply hex_pair_inj; unfold hex_pair; congruence|by apply IH].
Qed.

Section Orphans.
Context `{HH : Hasher} `{SL : SigLibs} `{CD : Codec} `{SC : SlotCodec} `{RC : ReceiptCodec}
  `{DC : DepsCodec} `{IF : Inflate} `{ML : MerkleLib} `{PL : PowLib} `{VM_ : ContractVM} `{SHC : SheetCodec}.

(** ** The cascade terminates *)

Lemma orphan_take_buffered op h l op' : orphan_take op h = (l, op') -> buffered op = (length l + buffered op')%nat.
Proof.
  unfold orphan_take. destruct (byPrev op !! _) as [ch|] eqn:E; intros [= <- <-]; [|done].
  unfold buffered. cbn [byPrev]. rewrite <-(map_to_list_delete _ _ _ E). done.
Qed.

Lemma pow_ApplyBlock_orphans now pw b : pw_orphans (pow_ApplyBlock now pw b).2 = pw_orphans pw
  /\ pw_syncing (pow_ApplyBlock now pw b).2 = pw_syncing pw.
Proof. unfold pow_ApplyBlock. by destruct (ApplyBlock _ _ _) as [[]]. Qed.

Lemma drainOrphans_fuel fuel now : forall pw queue, (length queue + buffered (pw_orphans pw) <= fuel)%nat ->
  (drainOrphans fuel now pw queue).1 <> Err ErrOutOfFuel.
Proof.
  induction fuel as [|fuel IH]; intros pw [|child queue] Hf; cbn [drainOrphans]; try done; [cbn in Hf; lia|]. cbn [length] in Hf.
  pose proof (pow_ApplyBlock_orphans now pw child) as [Ho _]. destruct (pow_ApplyBlock now pw child) as [[u|e] pw1]; cbn [snd] in Ho.
  - destruct (orphan_take (pw_orphans pw1) (Block_GetHash child)) as [more op] eqn:Et. apply orphan_take_buffered in Et.
    apply IH. cbn [pw_set_orphans pw_orphans]. rewrite length_app. rewrite <-Ho in *. lia.
  - assert (Hle : (length queue + buffered (pw_orphans pw1) <= fuel)%nat) by (rewrite Ho; lia).
    destruct e; try (by apply IH). done.
Qed.

(** The cascade of a parent: the fuel of the model is always enough. *)
Lemma importOrphanChildren_terminates now pw h : (importOrphanChildren now pw h).1 <> Err ErrOutOfFuel.
Proof.
  unfold importOrphanChildren. destruct (orphan_take _ _) as [queue op]. apply drainOrphans_fuel. cbn [pw_set_orphans pw_orphans]. lia.
Qed.

(** ** A burst of blocks *)

Section Burst.
Variables (now : Z) (bs : list FullBlock) (cs : nat -> Chain).

(** Applied in order the blocks take the chain from [cs 0] to [cs (length bs)];
    each is the parent of the next, and no chain knows a block ahead of it. *)
Record burst : Prop := {
  bu_apply : forall i b, bs !! i = Some b -> exists ns, ApplyBlock now (cs i) b = (Ok ns, cs (S i));
  bu_linked : forall i b p, bs !! S i = Some b -> bs !! i = Some p -> GetPrevHash (b_Header b) = Block_GetHash p;
  bu_unknown : forall i k p, bs !! i = Some p -> (k <= i)%nat ->
    GetLatestHash (blocks (ch_db (cs k))) <> Ok (Block_GetHash p) /\ is_ok (GetLatestHash (blocks (ch_db (cs k)))) = true
    /\ is_ok (GetBlockByHash (blocks (ch_db (cs k))) (Block_GetHash p)) = false;
  bu_distinct : NoDup ((GetPrevHash ∘ b_Header) <$> bs);
  bu_quiet : forall k, clearReorg (ch_volatile (cs k)) = ch_volatile (cs k)
}.

Hypothesis Hb : burst.

Lemma early k i b : bs !! S i = Some b -> (k <= i)%nat -> ApplyBlock now (cs k) b = (Err ErrPrevBlockNotExist, cs k).
Proof.
  intros Hi Hk. destruct (lookup_lt_is_Some_2 bs i) as [p Hp]; [apply lookup_lt_Some in Hi; lia|].
  pose proof (bu_linked Hb i b p Hi Hp) as Hl. destruct (bu_unknown Hb i k p Hp Hk) as (Hn & Hok & Hu).
  unfold ApplyBlock, run_update, importBlock, tx_bind, tx_read. destruct (GetLatestHash _) as [lh|]; [|done]. cbn.
  rewrite bool_decide_eq_false_2 by (intros E; apply Hn; by rewrite <-E, Hl).
  unfold importSide, tx_bind, tx_read. rewrite Hl. destruct (GetBlockByHash _ _) as [q|]; [done|]. cbn.
  rewrite (bu_quiet Hb). by destruct (cs k).
Qed.

Definition wait_key (b : FullBlock) : bytes := hex_EncodeToString (GetPrevHash (b_Header b)).

Lemma wait_key_inj i j b b' : bs !! i = Some b -> bs !! j = Some b' -> wait_key b = wait_key b' -> i = j.
Proof.
  intros Hi Hj E. apply hex_inj in E. eapply (NoDup_lookup _ i j); [apply (bu_distinct Hb)|..]; rewrite list_lookup_fmap.
  - by rewrite Hi.
  - rewrite Hj. cbn. by rewrite E.
Qed.

(** The buffer holds exactly the blocks of the positions [A]. *)
Record parks (op : orphanPool) (A : gset nat) : Prop := {
  pk_in : forall i b, i ∈ A -> bs !! i = Some b -> byPrev op !! wait_key b = Some [b];
  pk_out : forall k l, byPrev op !! k = Some l -> exists i b, i ∈ A /\ bs !! i = Some b /\ k = wait_key b /\ l = [b];
  pk_sub : forall i, i ∈ A -> (i < length bs)%nat;
  pk_count : op_count op = Z.of_nat (size A)
}.

Lemma parks_None op A b i : parks op A -> bs !! i = Some b -> i ∉ A -> byPrev op !! wait_key b = None.
Proof.
  intros P Hi Hn. destruct (byPrev op !! wait_key b) as [l|] eqn:E; [|done]. apply (pk_out _ _ P) in E as (j & b' & Hj & Hj' & Ek & _).
  by rewrite (wait_key_inj i j b b' Hi Hj' Ek) in Hn.
Qed.

Lemma parks_size op A : parks op A -> (size A <= length bs)%nat.
Proof.
  intros P. rewrite <-(size_set_seq (C := gset nat) 0 (length bs)). apply subseteq_size. intros i Hi.
  apply elem_of_set_seq. pose proof (pk_sub _ _ P i Hi). lia.
Qed.

Lemma park op A i b : parks op A -> zlen bs <= maxOrphanBlocks -> bs !! i = Some b -> i ∉ A ->
  exists op', orphan_add op b = (true, op') /\ parks op' ({[i]} ∪ A).
Proof.
  intros P Hl Hi Hn. assert (Hs : (size ({[i]} ∪ A) = S (size A))%nat) by (rewrite size_union, size_singleton; set_solver).
  assert (Hlt : (S (size A) <= length bs)%nat).
  { rewrite <-Hs. rewrite <-(size_set_seq (C := gset nat) 0 (length bs)). apply subseteq_size. intros j Hj. apply elem_of_set_seq.
    apply elem_of_union in Hj as [->%elem_of_singleton|Hj]; [apply lookup_lt_Some in Hi; lia|pose proof (pk_sub _ _ P j Hj); lia]. }
  unfold orphan_add. rewrite (pk_count _ _ P). destruct (Z.leb_spec maxOrphanBlocks (Z.of_nat (size A))); [unfold zlen in *; lia|].
  cbv zeta. fold (wait_key b). rewrite (parks_None op A b i P Hi Hn). cbn [default existsb app]. eexists. split; [done|]. split; cbn [byPrev op_count].
  - intros j b' Hj Hj'. destruct (decide (j = i)) as [->|Hne]; [rewrite Hi in Hj'; injection Hj' as <-; apply lookup_insert_eq|].
    rewrite lookup_insert_ne; [apply (pk_in _ _ P j); [set_solver|done]|]. intros E. by rewrite (wait_key_inj i j b b' Hi Hj' E) in Hne.
  - intros k l. destruct (decide (wait_key b = k)) as [<-|Hne].
    + rewrite lookup_insert_eq. intros [= <-]. exists i, b. split_and!; [set_solver|done..].
    + rewrite lookup_insert_ne by done. intros (j & b' & ? & ?)%(pk_out _ _ P). exists j, b'. split; [set_solver|done].
  - intros j [->%elem_of_singleton|Hj]%elem_of_union; [by apply lookup_lt_Some in Hi|by apply (pk_sub _ _ P)].
  - rewrite Hs. lia.
Qed.

(** Taking the children of a block below every waiting position. *)
Lemma take_child op A i p : parks op A -> bs !! i = Some p -> (forall j, j ∈ A -> (i < j)%nat) ->
  ((S i ∈ A) /\ exists b op', bs !! S i = Some b /\ orphan_take op (Block_GetHash p) = ([b], op') /\ parks op' (A ∖ {[S i]}))
  \/ ((S i ∉ A) /\ orphan_take op (Block_GetHash p) = ([], op)).
Proof.
  intros P Hi Hlow. unfold orphan_take. destruct (decide (S i ∈ A)) as [HA|HA]; [left|right]; (split; [done|]).
  - destruct (lookup_lt_is_Some_2 bs (S i)) as [b Hb']; [by apply (pk_sub _ _ P)|]. exists b.
    assert (Ek : hex_EncodeToString (Block_GetHash p) = wait_key b) by (unfold wait_key; by rewrite (bu_linked Hb i b p Hb' Hi)).
    rewrite Ek, (pk_in _ _ P (S i) b HA Hb'). eexists. split; [done|]. split; [done|]. split; cbn [byPrev op_count].
    + intros j b' Hj Hj'. rewrite lookup_delete_ne; [apply (pk_in _ _ P j); [set_solver|done]|].
      intros E. rewrite (wait_key_inj (S i) j b b' Hb' Hj' E) in Hj. set_solver.
    + intros k l [Hk Hl]%lookup_delete_Some. apply (pk_out _ _ P) in Hl as (j & b' & Hj & Hj' & -> & ->). exists j, b'.
      split_and!; [|done..]. apply elem_of_difference. split; [done|]. intros ->%elem_of_singleton. rewrite Hb' in Hj'. by injection Hj' as <-.
    + intros j Hj. apply (pk_sub _ _ P). set_solver.
    + rewrite (pk_count _ _ P). assert (size A = S (size (A ∖ {[S i]})))%nat; [|unfold zlen; cbn; lia].
      rewrite (union_difference_singleton_L (S i) A HA) at 1. rewrite size_union, size_singleton by set_solver. lia.
  - destruct (byPrev op !! _) as [l|] eqn:E; [|done]. exfalso. apply (pk_out _ _ P) in E as (j & b' & Hj & Hj' & Ek & _).
    pose proof (Hlow j Hj) as Hij. destruct (lookup_lt_is_Some_2 bs (S i)) as [b Hb']; [apply lookup_lt_Some in Hj'; lia|].
    apply HA. rewrite (wait_key_inj (S i) j b b' Hb' Hj'); [done|]. rewrite <-Ek. unfold wait_key. by rewrite (bu_linked Hb i b p Hb' Hi).
Qed.

Lemma apply_next pw k b : pw_chain pw = cs k -> bs !! k = Some b ->
  exists pw', pow_ApplyBlock now pw b = (Ok tt, pw') /\ pw_chain pw' = cs (S k).
Proof.
  intros Hc Hk. destruct (bu_apply Hb k b Hk) as [ns E]. unfold pow_ApplyBlock. rewrite Hc, E. by eexists.
Qed.

(** The cascade from position [k] stops at the first position not waiting. *)
Lemma drain fuel : forall pw k b A, (S (buffered (pw_orphans pw)) <= fuel)%nat -> pw_chain pw = cs k -> bs !! k = Some b ->
  parks (pw_orphans pw) A -> (forall j, j ∈ A -> (k < j)%nat) ->
  exists pw' k' A', drainOrphans fuel now pw [b] = (Ok tt, pw') /\ pw_chain pw' = cs k' /\ pw_syncing pw' = pw_syncing pw
    /\ parks (pw_orphans pw') A' /\ (k < k' <= length bs)%nat /\ (forall j, j ∈ A' -> (k' < j)%nat)
    /\ (forall j, (k < j)%nat -> ((j < k')%nat \/ j ∈ A') <-> j ∈ A).
Proof.
  induction fuel as [|fuel IH]; intros pw k b A Hf Hc Hk P Hlow; [lia|]. cbn [drainOrphans].
  destruct (apply_next pw k b Hc Hk) as (pw1 & E1 & Hc1). rewrite E1.
  pose proof (pow_ApplyBlock_orphans now pw b) as [Ho Hs]. rewrite E1 in Ho, Hs. cbn [snd] in Ho, Hs. pose proof (lookup_lt_Some _ _ _ Hk) as Hlt.
  rewrite <-Ho in P. destruct (take_child _ A k b P Hk Hlow) as [(HA & c & op & Hc' & Et & P')|(HA & Et)]; rewrite Et; cbn [app].
  - pose proof (orphan_take_buffered _ _ _ _ Et) as Hbuf. cbn in Hbuf.
    destruct (IH (pw_set_orphans pw1 op) (S k) c (A ∖ {[S k]})) as (pw' & k' & A' & E & ? & ? & ? & ? & ? & HA'); cbn [pw_set_orphans pw_orphans pw_chain]; try done.
    + rewrite Ho in Hbuf. lia.
    + intros j Hj. assert (j ∈ A) as Hj' by set_solver. pose proof (Hlow j Hj'). assert (j <> S k) by set_solver. lia.
    + exists pw', k', A'. split_and!; try done; [by rewrite <-Hs|lia|lia|]. intros j Hj. destruct (decide (j = S k)) as [->|Hne].
      * split; [done|]. left. lia.
      * rewrite HA' by lia. set_solver.
  - exists (pw_set_orphans pw1 (pw_orphans pw1)), (S k), A. destruct fuel; cbn [drainOrphans]; (split_and!; [done|done|by rewrite <-Hs|done|lia|lia| |]).
    all: try (intros j Hj; pose proof (Hlow j Hj); assert (j <> S k) by (by intros ->); lia).
    all: intros j Hj; split; [intros [|]; [lia|done]|by right].
Qed.

(** ** Arrivals *)

Record arrived (pw : PoWork) (got : list FullBlock) (k : nat) (A : gset nat) : Prop := {
  ar_chain : pw_chain pw = cs k;
  ar_sync : pw_syncing pw = false;
  ar_parks : parks (pw_orphans pw) A;
  ar_low : forall j, j ∈ A -> (k < j)%nat;
  ar_len : (k <= length bs)%nat;
  ar_got : forall j b, bs !! j = Some b -> b ∈ got <-> (j < k)%nat \/ j ∈ A
}.

Lemma bs_inj i j b : bs !! i = Some b -> bs !! j = Some b -> i = j.
Proof. intros Hi Hj. by apply (wait_key_inj i j b b). Qed.

Lemma arrive pw got k A i b : zlen bs <= maxOrphanBlocks -> arrived pw got k A -> bs !! i = Some b -> b ∉ got ->
  exists k' A', (safeImportBlock now pw b).1 = Ok tt /\ arrived (safeImportBlock now pw b).2 (got ++ [b]) k' A'.
Proof.
  intros Hl [Hc Hs P Hlow Hlen Hgot] Hi Hn. pose proof (Hgot i b Hi) as Hgi. assert (Hin : (k <= i)%nat /\ i ∉ A).
  { split; [|tauto]. destruct (decide (i < k)%nat); [|lia]. tauto. }
  destruct Hin as [Hki HiA].
  assert (Hnew : forall j c, bs !! j = Some c -> c ∈ got ++ [b] <-> c ∈ got \/ j = i).
  { intros j c Hj. rewrite elem_of_app, list_elem_of_singleton. split; (intros [|Heq]; [by left|right]).
    - subst c. by apply (bs_inj j i b).
    - subst j. congruence. }
  unfold safeImportBlock, ImportBlock. rewrite Hs. destruct (decide (i = k)) as [->|Hne].
  - destruct (apply_next pw k b Hc Hi) as (pw1 & E1 & Hc1). rewrite E1.
    destruct (drain (S (buffered (pw_orphans pw))) pw k b A) as (pw' & k' & A' & E & H1 & H2 & H3 & H4 & H5 & H6); try done.
    cbn [drainOrphans] in E. rewrite E1 in E. pose proof (pow_ApplyBlock_orphans now pw b) as [Ho _]. rewrite E1 in Ho. cbn [snd] in Ho.
    unfold importOrphanChildren. destruct (orphan_take (pw_orphans pw1) (Block_GetHash b)) as [q op] eqn:Et.
    rewrite <-Ho, (orphan_take_buffered _ _ _ _ Et) in E. cbn [app] in E. rewrite E. exists k', A'. split; [done|].
    cbn [snd]. split; [done|by rewrite H2|done|done|lia|]. intros j c Hj. rewrite (Hnew j c Hj), (Hgot j c Hj).
    destruct (decide (k < j)%nat) as [Hkj|Hkj].
    + rewrite (H6 j Hkj). split; [intros [[|]|]; [lia|done|lia]|auto].
    + split; [lia|]. intros [|HA]; [lia|]. apply H5 in HA. lia.
  - destruct i as [|i]; [lia|]. unfold pow_ApplyBlock. rewrite Hc, (early k i b Hi) by lia.
    cbn [pw_orphans pw_set_chain]. destruct (park _ A (S i) b P Hl Hi HiA) as (op' & Ea & P'). rewrite Ea. exists k, ({[S i]} ∪ A).
    split; [done|]. cbn [snd]. split; cbn; [done|done|done| |done|].
    + intros j [->%elem_of_singleton|Hj]%elem_of_union; [lia|by apply Hlow].
    + intros j c Hj. rewrite (Hnew j c Hj), (Hgot j c Hj), elem_of_union, elem_of_singleton. tauto.
Qed.

Definition importAll (pw : PoWork) (order : list FullBlock) : PoWork := foldl (fun pw b => (safeImportBlock now pw b).2) pw order.

Lemma arrive_all order : forall pw got k A, zlen bs <= maxOrphanBlocks -> arrived pw got k A -> NoDup (got ++ order) ->
  (forall b, b ∈ order -> b ∈ bs) -> exists k' A', arrived (importAll pw order) (got ++ order) k' A'.
Proof.
  induction order as [|b order IH]; intros pw got k A Hl Ha Hn Hin; [exists k, A; by rewrite app_nil_r|].
  destruct (proj1 (list_elem_of_lookup bs b) (Hin b ltac:(left))) as [i Hi].
  assert (Hb' : b ∉ got) by (apply NoDup_app in Hn as (_ & Hd & _); intros Hg; apply (Hd b Hg); left).
  destruct (arrive pw got k A i b Hl Ha Hi Hb') as (k1 & A1 & _ & Ha1).
  destruct (IH _ (got ++ [b]) k1 A1 Hl Ha1) as (k' & A' & H'); [by rewrite <-app_assoc|intros c Hc; apply Hin; by right|].
  exists k', A'. by rewrite <-app_assoc in H'.
Qed.

End Burst.

Lemma parks_empty bs op : parks bs op ∅ -> op = newOrphanPool.
Proof.
  intros P. destruct op as [m c]. pose proof (pk_count _ _ _ P) as Hc. cbn in Hc. rewrite Hc. unfold newOrphanPool. f_equal.
  apply map_eq. intros k. rewrite lookup_empty. destruct (m !! k) as [l|] eqn:E; [|done].
  destruct (pk_out _ _ _ P k l E) as (i & b & Hi & _). set_solver.
Qed.

(** C10 - Arrival order does not matter.  Blocks that extend the chain when
    applied in order, at most 128 of them, lead a node with an empty orphan
    buffer to the same chain in whatever order gossip delivers them: early
    blocks are parked and applied when their parents land, and the buffer
    ends empty. *)
Theorem gossip_order_irrelevant now bs cs pw order :
  burst now bs cs -> zlen bs <= maxOrphanBlocks -> pw_chain pw = cs O -> pw_syncing pw = false -> pw_orphans pw = newOrphanPool ->
  order ≡ₚ bs ->
  pw_chain (importAll now pw order) = cs (length bs) /\ pw_orphans (importAll now pw order) = newOrphanPool.
Proof.
  intros Hb Hl Hc Hs Ho Hp. assert (Hnb : NoDup bs) by (eapply NoDup_fmap_1, (bu_distinct _ _ _ Hb)).
  assert (Ha : arrived bs cs pw [] O ∅).
  { split; [done|done| |set_solver|lia|intros j b _; split; [set_solver|intros [|]; [lia|set_solver]]].
    rewrite Ho. split; [set_solver|intros k l; cbn; by rewrite lookup_empty|set_solver|done]. }
  destruct (arrive_all now bs cs Hb order pw [] O ∅ Hl Ha) as (k & A & [Hk _ P Hlow Hle Hgot]); [by rewrite Hp|intros b; by rewrite Hp|].
  cbn [app] in Hgot. assert (k = length bs) as ->.
  { destruct (decide (k < length bs)%nat) as [Hlt|]; [|lia]. destruct (lookup_lt_is_Some_2 bs k Hlt) as [b Ek].
    destruct (proj1 (Hgot k b Ek)) as [|HA]; [rewrite Hp; by apply list_elem_of_lookup_2 in Ek|lia|]. apply Hlow in HA. lia. }
  split; [done|]. apply (parks_empty bs). assert (A = ∅) as ->; [|done].
  apply set_eq. intros j. split; [|set_solver]. intros Hj. pose proof (Hlow j Hj). pose proof (pk_sub _ _ _ P j Hj). lia.
Qed.

End Orphans.

(** ** Two blocks, the child first *)

Section Two.
Context `{HH : Hasher} `{SL : SigLibs} `{CD : Codec} `{SC : SlotCodec} `{RC : ReceiptCodec}
  `{DC : DepsCodec} `{IF : Inflate} `{ML : MerkleLib} `{PL : PowLib} `{VM_ : ContractVM} `{SHC : SheetCodec}.

Definition quiet (c : Chain) : bool :=
  match reorgRemoved (ch_volatile c), reorgAdded (ch_volatile c) with [], [] => true | _, _ => false end.

Definition unknown (c : Chain) (b : FullBlock) : bool :=
  negb (bool_decide (GetLatestHash (blocks (ch_db c)) = Ok (Block_GetHash b))) && is_ok (GetLatestHash (blocks (ch_db c)))
  && negb (is_ok (GetBlockByHash (blocks (ch_db c)) (Block_GetHash b))).

Definition stages (now : Z) (c : Chain) (b b' : FullBlock) (k : nat) : Chain :=
  let c1 := (ApplyBlock now c b).2 in
  match k with O => c | S O => c1 | _ => (ApplyBlock now c1 b').2 end.

Definition two_ok (now : Z) (c : Chain) (b b' : FullBlock) : bool :=
  let r := ApplyBlock now c b in let r' := ApplyBlock now r.2 b' in
  is_ok r.1 && is_ok r'.1 && quiet c && quiet r.2 && quiet r'.2 && unknown c b && unknown c b' && unknown r.2 b'
  && bool_decide (GetPrevHash (b_Header b') = Block_GetHash b) && negb (bool_decide (GetPrevHash (b_Header b') = GetPrevHash (b_Header b))).

Lemma quiet_ok c : quiet c = true -> clearReorg (ch_volatile c) = ch_volatile c.
Proof. unfold quiet, clearReorg. destruct (ch_volatile c) as [s [|] [|]]; done. Qed.

Lemma unknown_ok c b : unknown c b = true -> GetLatestHash (blocks (ch_db c)) <> Ok (Block_GetHash b)
  /\ is_ok (GetLatestHash (blocks (ch_db c))) = true /\ is_ok (GetBlockByHash (blocks (ch_db c)) (Block_GetHash b)) = false.
Proof.
  unfold unknown. intros H. apply andb_true_iff in H as [[H1 H2]%andb_true_iff H3]. apply negb_true_iff in H1, H3.
  split_and!; [by apply bool_decide_eq_false in H1|done|done].
Qed.

Lemma two_burst now c b b' : two_ok now c b b' = true -> burst now [b; b'] (stages now c b b').
Proof.
  unfold two_ok. cbv zeta. intros H. repeat match goal with X : _ && _ = true |- _ => apply andb_true_iff in X as [X ?] end.
  repeat match goal with X : quiet _ = true |- _ => apply quiet_ok in X | X : unknown _ _ = true |- _ => apply unknown_ok in X end.
  match goal with X : bool_decide _ = true |- _ => apply bool_decide_eq_true in X end.
  match goal with X : negb _ = true |- _ => apply negb_true_iff, bool_decide_eq_false in X; rename X into Hne end.
  split.
  - intros [|[|i]] x Hi; [| |done]; injection Hi as <-; unfold stages.
    + destruct (ApplyBlock now c b) as [[ns|] c1]; [by exists ns|done].
    + destruct (ApplyBlock now (ApplyBlock now c b).2 b') as [[ns|] c2]; [by exists ns|done].
  - intros [|[|i]] x p Hi Hp; [|done..]. injection Hi as <-. by injection Hp as <-.
  - intros [|[|i]] [|[|k]] p Hp Hk; try lia; try done; by injection Hp as <-.
  - cbn. constructor; [|apply NoDup_singleton]. intros E%list_elem_of_singleton. by apply Hne.
  - by intros [|[|k]].
Qed.

End Two.

Module BurstWitness.

#[local] Existing Instance prefix_hasher.
#[local] Existing Instance toy_libs.
#[local] Existing Instance toy_codec.
#[local] Existing Instance toy_slot_codec.
#[local] Existing Instance toy_toll.
#[local] Existing Instance RunWitness.engine.
#[local] Existing Instance LedgerWitness.receipts.
#[local] Existing Instance LedgerWitness.deps.
#[local] Existing Instance LedgerWitness.inflate.
#[local] Existing Instance LedgerWitness.merkle.
#[local] Existing Instance LedgerWitness.text.
#[local] Existing Instance ForkWitness.pow.
#[local] Existing Instance ForkWitness.sheets.

Definition miner : PoWork :=
  {| pw_cfg := {| cfg_Network := ZERONET; cfg_StrictMode := false; cfg_SnapshotMode := false; cfg_MinerExtraData := [] |};
     pw_chain := ForkWitness.first_a.2; pw_pool := Pool_Init; pw_orphans := newOrphanPool; pw_syncing := false |}.

(** The miner's next template, on [a1]. *)
Definition a2 : FullBlock :=
  RunWitness.ok_or ForkWitness.a1 (GetBlockTemplate [] (ForkWitness.now) miner LedgerWitness.alice_key).

Definition fresh : PoWork := pw_set_chain miner ForkWitness.node Pool_Init.

Lemma a1_a2 : two_ok ForkWitness.now ForkWitness.node ForkWitness.a1 a2 = true.
Proof. vm_compute. reflexivity. Qed.

(** The child arrives first, is parked, and lands with its parent. *)
Lemma gossip_order_irrelevant_witness :
  pw_chain (importAll ForkWitness.now fresh [a2; ForkWitness.a1]) = stages ForkWitness.now ForkWitness.node ForkWitness.a1 a2 2
  /\ pw_orphans (importAll ForkWitness.now fresh [a2; ForkWitness.a1]) = newOrphanPool.
Proof.
  apply (gossip_order_irrelevant ForkWitness.now [ForkWitness.a1; a2] (stages ForkWitness.now ForkWitness.node ForkWitness.a1 a2) fresh [a2; ForkWitness.a1]).
  - exact (two_burst _ _ _ _ a1_a2).
  - apply Z.leb_le. reflexivity.
  - reflexivity.
  - reflexivity.
  - reflexivity.
  - apply perm_swap.
Defined.

End BurstWitness.
