(* ===== verification/Sync.v ===== *)
(** * Synchronisation

    The sync module of package consensus: what is known of the other nodes,
    the requests sent to them, and the four ways of following one (linear
    sync, converging, and both over a snapshot).

    A remote node is an oracle: the answer to the [n]-th request of a run is
    [net_reply n], whatever it is.  The loops that a remote can keep going
    for ever take a fuel and answer [ErrOutOfFuel] when it is used up.  The
    clock is read once per call. *)

From S2P Require Import Prelude Params StateTrie Keys Contract Types Instances Tx Block BlockStore State StateCommit Journal Ledger Snapshot Queries Chain Pool Wired Consensus.

(** ** sync_remote_record.go *)

Record RemoteRecord := {
  rr_id : PeerID;
  rr_origin : Z;
  rr_latest : Z;
  rr_checkpointHeight : Z;
  rr_checkpointHash : bytes;
  rr_checkpointActualDiff : Z;
  rr_lastChatTime : Z;
  rr_failureNum : Z;
  rr_lastFailedTime : Z
}.

(** Seconds. *)
Definition syncRetryCooldown : Z := 15.
Definition minDesiredPeerCount : Z := 3.

Definition NewRemoteRecord (now : Z) (id : PeerID) (origin latest : Z) (checkpointHash checkpointActualDiff : bytes) : RemoteRecord :=
  {| rr_id := id; rr_origin := origin; rr_latest := latest;
     rr_checkpointHeight := if latest mod BlockCheckRound =? 0 then latest else latest - latest mod BlockCheckRound;
     rr_checkpointHash := checkpointHash; rr_checkpointActualDiff := be_Z checkpointActualDiff; rr_lastChatTime := now;
     rr_failureNum := 0; rr_lastFailedTime := 0 |}.

Definition rr_update (now : Z) (r : RemoteRecord) (origin latest : Z) (checkpointHash checkpointActualDiff : bytes) : RemoteRecord :=
  {| rr_id := rr_id r; rr_origin := origin; rr_latest := latest; rr_checkpointHeight := latest - latest mod BlockCheckRound;
     rr_checkpointHash := checkpointHash; rr_checkpointActualDiff := be_Z checkpointActualDiff; rr_lastChatTime := now;
     rr_failureNum := rr_failureNum r; rr_lastFailedTime := rr_lastFailedTime r |}.

Definition rr_set_failure (r : RemoteRecord) (n t : Z) : RemoteRecord :=
  {| rr_id := rr_id r; rr_origin := rr_origin r; rr_latest := rr_latest r; rr_checkpointHeight := rr_checkpointHeight r;
     rr_checkpointHash := rr_checkpointHash r; rr_checkpointActualDiff := rr_checkpointActualDiff r;
     rr_lastChatTime := rr_lastChatTime r; rr_failureNum := n; rr_lastFailedTime := t |}.

(** A 32-bit counter. *)
Definition recordFailure (now : Z) (r : RemoteRecord) : RemoteRecord :=
  let n := (rr_failureNum r + 1) mod 2 ^ 32 in
  rr_set_failure r n (if 3 <? n then now else rr_lastFailedTime r).

Definition recordSuccess (r : RemoteRecord) : RemoteRecord := rr_set_failure r 0 0.

Definition shouldSync (now : Z) (r : RemoteRecord) (latestHeight : Z) : bool :=
  if now <? rr_lastFailedTime r + syncRetryCooldown then false
  else if rr_latest r / BlockCheckRound <=? latestHeight / BlockCheckRound then false
  else true.

(** The store of records; [upsertRemote] keeps the failures. *)
Definition upsertRemote (now : Z) (store : gmap PeerID RemoteRecord) (id : PeerID) (status : StatusPayload) : gmap PeerID RemoteRecord :=
  let r := match store !! id with
           | Some r => rr_update now r (sp_Origin status) (sp_Latest status) (sp_CheckpointHash status) (sp_CheckpointDiff status)
           | None => NewRemoteRecord now id (sp_Origin status) (sp_Latest status) (sp_CheckpointHash status) (sp_CheckpointDiff status)
           end in
  <[id := r]> store.

Definition by_chat (a b : RemoteRecord) : Prop := rr_lastChatTime b <= rr_lastChatTime a.
Definition by_latest (a b : RemoteRecord) : Prop := rr_latest b <= rr_latest a.

#[global] Instance by_chat_dec : RelDecision by_chat.
Proof. intros a b. unfold by_chat. apply _. Defined.
#[global] Instance by_latest_dec : RelDecision by_latest.
Proof. intros a b. unfold by_latest. apply _. Defined.

(** The records, the highest first and among equals the most recent first. *)
Definition ranking (slice : list RemoteRecord) : list RemoteRecord := merge_sort by_latest (merge_sort by_chat slice).

(** The other nodes, as the requests of one run meet them: a request is not
    sent, is sent and not answered, or is answered with some bytes. *)
Record Net := { net_uuid : nat -> bytes; net_reply : nat -> PeerID -> Message -> option (option bytes) }.

Section Sync.
Context `{HH : Hasher} `{SL : SigLibs} `{CD : Codec} `{SC : SlotCodec} `{RC : ReceiptCodec}
  `{DC : DepsCodec} `{IF : Inflate} `{ML : MerkleLib} `{PL : PowLib} `{VM_ : ContractVM} `{SHC : SheetCodec}
  `{WC : WireCodec} `{PK : PeerKeys}.
Variables (now : Z) (w : Wired) (net : Net).

(** A nil checkpoint is dereferenced. *)
Definition shouldConverge (r : RemoteRecord) (latestCheckPoint : option FullBlock) (latestHeight : Z) : res bool :=
  if now <? rr_lastFailedTime r + syncRetryCooldown then Ok false
  else
    match latestCheckPoint with
    | None => Err GoPanic
    | Some cp =>
        let differs := negb (bool_decide (rr_checkpointHash r = Block_GetHash cp)) in
        let level := rr_latest r / BlockCheckRound in
        if differs && (latestHeight <? rr_latest r) && (latestHeight / BlockCheckRound <? level) then Ok true
        else if differs && (latestHeight <? rr_latest r) && (level =? latestHeight / BlockCheckRound) then
          let! diff := GetActualDiff cp in Ok (diff <? rr_checkpointActualDiff r)
        else Ok false
    end.

Definition MustSync (pw : PoWork) (slice : list RemoteRecord) : list RemoteRecord :=
  filter (fun r => shouldSync now r (GetLatestBlockHeight (pw_chain pw)) = true) slice.

Fixpoint convergeable (cp : option FullBlock) (latestHeight : Z) (slice : list RemoteRecord) : res (list RemoteRecord) :=
  match slice with
  | [] => Ok []
  | r :: rest =>
      let! yes := shouldConverge r cp latestHeight in
      let! more := convergeable cp latestHeight rest in
      Ok (if (yes : bool) then r :: more else more)
  end.

Definition MustConverge (pw : PoWork) (slice : list RemoteRecord) : res (list RemoteRecord) :=
  if negb (cfg_Network (pw_cfg pw) =? ZERONET) && (zlen slice <? minDesiredPeerCount) then Ok []
  else
    let! cp := GetLatestCheckpoint (pw_chain pw) in
    convergeable cp (GetLatestBlockHeight (pw_chain pw)) slice.

(** ** sync_get.go: requests *)

Definition request (n : nat) (peer : PeerID) (t : MsgType) (payload : bytes) : res Message :=
  match signedMessage now w (net_uuid net n) t payload with
  | None => Err ErrSendFailed
  | Some msg =>
      match net_reply net n peer msg with
      | None => Err ErrSendFailed
      | Some None => Err ErrRemote
      | Some (Some raw) => ReceiveReply (net_uuid net n) peer raw
      end
  end.

(** The payload of a reply of the wanted type. *)
Definition expect {A} (want : MsgType) (dec : bytes -> option A) (reply : Message) : res A :=
  match m_Header reply with
  | None => Err GoPanic
  | Some h =>
      if mh_Type h =? want then match dec (m_Payload reply) with None => Err ErrDecode | Some a => Ok a end
      else if mh_Type h =? RejectMsg then Err ErrMsgRejected
      else Err ErrMsgTypeInvalid
  end.

Definition getRemoteChain (n : nat) (peer : PeerID) (from : list bytes) (to : bytes) : res (list FullBlock) :=
  let! reply := request n peer GetChainMsg (rlp_GetChainPayload {| gc_Type := 0; gc_From := from; gc_To := to |}) in
  let! p := expect ChainMsg dec_ChainPayload reply in
  Ok (cp_Blocks p).

(** A nil [to] is sent as the empty hash. *)
Definition getRemoteChainFromLocalLatest (n : nat) (c : Chain) (r : RemoteRecord) : res (list FullBlock) :=
  getRemoteChain n (rr_id r) [GetLatestBlockHash c] GetEmptyHash.

Definition getRemoteStateSheet (n : nat) (r : RemoteRecord) : res Sheet :=
  let! reply := request n (rr_id r) GetSheetMsg (rlp_GetSheetPayload {| gs_Height := rr_checkpointHeight r; gs_Hash := rr_checkpointHash r |}) in
  let! p := expect SheetMsg dec_SheetPayload reply in
  Ok (shp_Sheet p).

(** A ping that cannot be sent is only logged. *)
Definition getRemoteStatus (n : nat) (pw : PoWork) (store : gmap PeerID RemoteRecord) (peer : PeerID) : res (gmap PeerID RemoteRecord) :=
  let! status := localStatus (pw_chain pw) in
  match request n peer PingMsg (rlp_StatusPayload status) with
  | Err ErrSendFailed => Ok store
  | Err e => Err e
  | Ok reply => let! p := expect PongMsg dec_StatusPayload reply in Ok (upsertRemote now store peer p)
  end.

(** ** sync_normal.go *)

(** Each block is its own database transaction. *)
Fixpoint applyAll (pw : PoWork) (chain : list FullBlock) : res unit * PoWork :=
  match chain with
  | [] => (Ok tt, pw)
  | b :: rest =>
      match pow_ApplyBlock now pw b with
      | (Err e, pw) => (Err e, pw)
      | (Ok _, pw) => applyAll pw rest
      end
  end.

Fixpoint syncLoop (fuel : nat) (n : nat) (pw : PoWork) (r : RemoteRecord) : res unit * PoWork :=
  if GetLatestBlockHeight (pw_chain pw) <? rr_latest r then
    match fuel with
    | O => (Err ErrOutOfFuel, pw)
    | S fuel =>
        match getRemoteChainFromLocalLatest n (pw_chain pw) r with
        | Err e => (Err e, pw)
        | Ok [] => (Ok tt, pw)
        | Ok chain =>
            match applyAll pw chain with
            | (Err e, pw) => (Err e, pw)
            | (Ok _, pw) => syncLoop fuel (S n) pw r
            end
        end
    end
  else (Ok tt, pw).

(** The lock is held during the call and released at its end. *)
Definition locked (pw : PoWork) (f : PoWork -> res unit * PoWork) : res unit * PoWork :=
  if pw_syncing pw then (Ok tt, pw)
  else let '(r, pw) := f (pw_set_syncing pw true) in (r, pw_set_syncing pw false).

Definition doSync (fuel n : nat) (pw : PoWork) (r : RemoteRecord) : res unit * PoWork :=
  locked pw (fun pw => syncLoop fuel n pw r).

(** ** sync_converge.go *)

Definition pow_SwitchToBranch (pw : PoWork) (branch : list FullBlock) : res unit * PoWork :=
  match Chain_SwitchToBranch now (pw_chain pw) branch with
  | (Ok ns, c) => (Ok tt, pw_set_chain pw c (if movesTip ns then OnTipChanged_reset (pw_pool pw) else pw_pool pw))
  | (Err e, c) => (Err e, pw_set_chain pw c (pw_pool pw))
  end.

Definition hashAt (c : Chain) (acc : list bytes) (h : Z) : res (list bytes) :=
  let! b := getBlockByHeight c h in Ok (acc ++ [Block_GetHash b]).

(** [to] decreases, so the height is fuel enough. *)
Fixpoint convergeLoop (fuel : nat) (n : nat) (c : Chain) (r : RemoteRecord) (origin batchSize to : Z) : res (list FullBlock) :=
  match fuel with
  | O => Err ErrOutOfFuel
  | S fuel =>
      let from := if to <=? u64 (origin + batchSize) then origin else u64 (to - batchSize + 1) in
      let! blockHashes := res_fold (hashAt c) [] (heights from to) in
      let! chain := getRemoteChain n (rr_id r) blockHashes (PackUint64LE from ++ PackUint64LE to) in
      match chain with
      | _ :: _ => Ok chain
      | [] =>
          reject from <=? origin with ErrConvergeUnrelated ;
          convergeLoop fuel (S n) c r origin batchSize (u64 (from - 1))
      end
  end.

Definition getBlocksForConverging (n : nat) (c : Chain) (r : RemoteRecord) (convergeBatchSize : Z) : res (list FullBlock) :=
  let localHeight := GetLatestBlockHeight c in
  let! origin := Chain_GetOriginBlock c in
  let localOriginHeight := blockHeight origin in
  reject localHeight <=? localOriginHeight with ErrConvergeOriginOnly ;
  let batchSize := if convergeBatchSize =? 0 then MaxBlocks else convergeBatchSize in
  convergeLoop (S (Z.to_nat localHeight)) n c r localOriginHeight batchSize localHeight.

Definition doConverging (n : nat) (pw : PoWork) (r : RemoteRecord) (batch : Z) : res unit * PoWork :=
  locked pw (fun pw =>
    match getBlocksForConverging n (pw_chain pw) r batch with
    | Err e => (Err e, pw)
    | Ok chain => pow_SwitchToBranch pw chain
    end).

(** ** sync_snapshot.go *)

Fixpoint fetchLoop (fuel : nat) (n : nat) (r : RemoteRecord) (cur to : Z) (blocks : list FullBlock) : res (list FullBlock) :=
  if to <? cur then Ok blocks
  else
    match fuel with
    | O => Err ErrOutOfFuel
    | S fuel =>
        let roundTo := Z.min (u64 (cur + MaxBlocks - 1)) to in
        let! round := getRemoteChain n (rr_id r) [] (PackUint64LE cur ++ PackUint64LE roundTo) in
        match last round with
        | None => Err ErrEmptyRange
        | Some b => fetchLoop fuel (S n) r (u64 (blockHeight b + 1)) to (blocks ++ round)
        end
    end.

(** The result slice is allocated first; [make] panics on a capacity that
    cannot be addressed (8-byte elements, 48-bit addresses). *)
Definition maxSliceCap : Z := 2 ^ 45.

Definition fetchRemoteRange (fuel n : nat) (r : RemoteRecord) (from to : Z) : res (list FullBlock) :=
  reject maxSliceCap <? u64 (to - from + 1) with GoPanic ;
  fetchLoop fuel n r from to [].

Definition pow_ApplySnapshot (pw : PoWork) (segment : list FullBlock) (sheet : Sheet) : res unit * PoWork :=
  match ApplySnapshot now (pw_chain pw) segment sheet with
  | (Ok ns, c) => (Ok tt, pw_set_chain pw c (if movesTip ns then OnTipChanged_reset (pw_pool pw) else pw_pool pw))
  | (Err e, c) => (Err e, pw_set_chain pw c (pw_pool pw))
  end.

(** [fuel] also counts the requests of the range. *)
Definition doSnapshotSync (fuel n : nat) (pw : PoWork) (r : RemoteRecord) : res unit * PoWork :=
  locked pw (fun pw =>
    let localHeight := GetLatestBlockHeight (pw_chain pw) in
    if rr_checkpointHeight r <=? localHeight then (Ok tt, pw)
    else
      match (let! blocks := fetchRemoteRange fuel n r (u64 (localHeight + 1)) (rr_checkpointHeight r) in
             let! sheet := getRemoteStateSheet (n + fuel) r in Ok (blocks, sheet)) with
      | Err e => (Err e, pw)
      | Ok (blocks, sheet) => pow_ApplySnapshot pw blocks sheet
      end).

(** The branch, cut or extended to end at the remote checkpoint. *)
Definition fitBranch (fuel n : nat) (r : RemoteRecord) (branch : list FullBlock) : res (list FullBlock) :=
  match branch, last branch with
  | first :: _, Some tip =>
      let tipHeight := blockHeight tip in
      if rr_checkpointHeight r <? tipHeight then
        let cut := zlen branch - i64 (u64 (tipHeight - rr_checkpointHeight r)) in
        reject (cut <=? 0) || (rr_checkpointHeight r <? blockHeight first) with ErrForkAboveCheckpoint ;
        reject zlen branch <? cut with GoPanic ;
        Ok (take (Z.to_nat cut) branch)
      else if tipHeight <? rr_checkpointHeight r then
        let! tail := fetchRemoteRange fuel n r (u64 (tipHeight + 1)) (rr_checkpointHeight r) in
        Ok (branch ++ tail)
      else Ok branch
  | _, _ => Err ErrEmptyBranch
  end.

Definition doSnapshotConverging (fuel n : nat) (pw : PoWork) (r : RemoteRecord) (batch : Z) : res unit * PoWork :=
  locked pw (fun pw =>
    let rounds := S (Z.to_nat (GetLatestBlockHeight (pw_chain pw))) in
    match (let! branch := getBlocksForConverging n (pw_chain pw) r batch in
           let! branch := fitBranch fuel (n + rounds) r branch in
           let! sheet := getRemoteStateSheet (n + rounds + fuel) r in Ok (branch, sheet)) with
    | Err e => (Err e, pw)
    | Ok (branch, sheet) => pow_ApplySnapshot pw branch sheet
    end).

(** ** sync_fast.go *)

Definition getRemoteCheckpoint (n : nat) (pw : PoWork) (r : RemoteRecord) : res FullBlock :=
  if rr_checkpointHeight r <=? 2 * BlockCheckRound then GetGenesisBlock (cfg_Network (pw_cfg pw))
  else
    let h := rr_checkpointHeight r - 2 * BlockCheckRound in
    let! bs := getRemoteChain n (rr_id r) [] (PackUint64LE h ++ PackUint64LE h) in
    match bs with [b] => Ok b | _ => Err ErrMsgPayloadInvalid end.

Definition switchToRemoteCheckpoint (n : nat) (pw : PoWork) (r : RemoteRecord) : res unit * PoWork :=
  locked pw (fun pw =>
    match getRemoteCheckpoint n pw r with
    | Err e => (Err e, pw)
    | Ok b =>
        let c := pw_chain pw in
        (Ok tt, pw_set_chain pw {| ch_Network := ch_Network c; ch_State := ch_State c;
                                   ch_db := setBucket (ch_db c) BlockBucketName (InitFromCheckpoint (blocks (ch_db c)) b);
                                   ch_volatile := ch_volatile c |} (pw_pool pw))
    end).

(** ** sync_loop.go *)

Definition follow (fuel n : nat) (pw : PoWork) (r : RemoteRecord) : res unit * PoWork :=
  if cfg_SnapshotMode (pw_cfg pw) then doSnapshotSync fuel n pw r else doSync fuel n pw r.

Definition converge (fuel n : nat) (batch : Z) (pw : PoWork) (r : RemoteRecord) : res unit * PoWork :=
  if cfg_SnapshotMode (pw_cfg pw) then doSnapshotConverging fuel n pw r batch else doConverging n pw r batch.

(** The records in turn, until one succeeds; the error of the last attempt.
    A panic ends the process. *)
Fixpoint syncFirst (fuel n : nat) (pw : PoWork) (store : gmap PeerID RemoteRecord) (records : list RemoteRecord) (err : res unit)
    : res (res unit * PoWork * gmap PeerID RemoteRecord) :=
  match records with
  | [] => Ok (err, pw, store)
  | r :: rest =>
      match follow fuel n pw r with
      | (Err GoPanic, _) => Err GoPanic
      | (Ok _, pw) => Ok (Ok tt, pw, <[rr_id r := recordSuccess r]> store)
      | (Err e, pw) => syncFirst fuel (n + fuel + fuel) pw store rest (Err e)
      end
  end.

(** [good] is what a success does to the record. *)
Fixpoint convergeFirst (good : RemoteRecord -> RemoteRecord) (fuel n : nat) (batch : Z) (pw : PoWork) (store : gmap PeerID RemoteRecord)
    (records : list RemoteRecord) (err : res unit) : res (res unit * PoWork * gmap PeerID RemoteRecord) :=
  match records with
  | [] => Ok (err, pw, store)
  | r :: rest =>
      match converge fuel n batch pw r with
      | (Err GoPanic, _) => Err GoPanic
      | (Ok _, pw) => Ok (Ok tt, pw, <[rr_id r := good r]> store)
      | (Err e, pw) => convergeFirst good fuel (n + fuel + fuel) batch pw (<[rr_id r := recordFailure now r]> store) rest (Err e)
      end
  end.

(** One tick of the loop, after the pings. *)
Definition syncRound (fuel n : nat) (batch : Z) (pw : PoWork) (store : gmap PeerID RemoteRecord) : res (PoWork * gmap PeerID RemoteRecord) :=
  let slice := ranking ((map_to_list store).*2) in
  match syncFirst fuel n pw store (MustSync pw slice) (Ok tt) with
  | Err e => Err e
  | Ok (Ok _, pw, store) => Ok (pw, store)
  | Ok (Err e, pw, store) =>
      let! records := MustConverge pw slice in
      match convergeFirst recordSuccess fuel (n + fuel) batch pw store records (Err e) with
      | Err e => Err e
      | Ok (_, pw, store) => Ok ((importOrphanChildren now pw (GetLatestBlockHash (pw_chain pw))).2, store)
      end
  end.

(** ** sync_bootstrap.go *)

(** A node without blocks that is not strict jumps to the checkpoint first. *)
Definition jump (n : nat) (pw : PoWork) (r : RemoteRecord) : res PoWork :=
  if negb (cfg_StrictMode (pw_cfg pw)) && (GetLatestBlockHeight (pw_chain pw) =? 0) then
    match switchToRemoteCheckpoint n pw r with (Ok _, pw) => Ok pw | (Err _, _) => Err GoPanic end
  else Ok pw.

Fixpoint bootFirst (fuel n : nat) (pw : PoWork) (records : list RemoteRecord) (err : res unit) : res (res unit * PoWork) :=
  match records with
  | [] => Ok (err, pw)
  | r :: rest =>
      let! pw := jump n pw r in
      match follow fuel (S n) pw r with
      | (Err GoPanic, _) => Err GoPanic
      | (Ok _, pw) => Ok (Ok tt, pw)
      | (Err e, pw) => bootFirst fuel (S n + fuel + fuel) pw rest (Err e)
      end
  end.

(** After the pings. *)
Definition bootstrap (fuel n : nat) (batch : Z) (pw : PoWork) (store : gmap PeerID RemoteRecord) : res (PoWork * gmap PeerID RemoteRecord) :=
  let slice := ranking ((map_to_list store).*2) in
  match bootFirst fuel n pw (MustSync pw slice) (Ok tt) with
  | Err e => Err e
  | Ok (err, pw) =>
      let! records := MustConverge pw slice in
      match convergeFirst id fuel (n + fuel) batch pw store records err with
      | Err e => Err e
      | Ok (Ok _, pw, store) => Ok (pw, store)
      | Ok (Err _, _, _) => Err GoPanic
      end
  end.

End Sync.
