(* ===== verification/SyncProps.v ===== *)
(** * Following another node

    Two nodes and the protocol between them: what an honest server answers to
    a request, and that converging finds the fork. *)

From S2P Require Import Prelude Params StateTrie Keys Contract Types Instances Tx Block BlockStore State StateCommit Journal VM VMToy VMProps Ledger LedgerProps Snapshot Queries Chain ChainFrames ForkChoice ForkProps Pool Wired Consensus ConsensusProps Sync.

Section Exchange.
Context `{HH : Hasher} `{SL : SigLibs} `{CD : Codec} `{SC : SlotCodec} `{RC : ReceiptCodec}
  `{DC : DepsCodec} `{IF : Inflate} `{ML : MerkleLib} `{PL : PowLib} `{VM_ : ContractVM} `{SHC : SheetCodec}
  `{WC : WireCodec} `{PK : PeerKeys} `{RX : RejectText}.
Context `{CL : !CodecLaws} `{WL : !WireCodecLaws}.

(** A host whose signatures its peers accept under the id [p]. *)
Record signer (w : Wired) (p : PeerID) : Prop := {
  sg_key : key_peer (host_Key (w_host w)) = Some p;
  sg_sign : forall d, exists s, host_Sign (w_host w) d = Some s /\ key_verify (host_Key (w_host w)) d s = Some true;
  sg_network : 0 <= w_network w < 256
}.

(** The peer [peer] is the node [r], answering the node known as [self]. *)
Record honest (now : Z) (w : Wired) (net : Net) (self peer : PeerID) (w' : Wired) (r : Chain) : Prop := {
  ho_now : is_u64 now;
  ho_client : signer w self;
  ho_server : signer w' peer;
  ho_reply : forall n msg, net_reply net n peer msg
    = Some (match handleStream now w' r self (rlp_Message msg) with Ok (Some m, _) => Some (rlp_Message m) | _ => None end)
}.

(** ** One signed message *)

Lemma signed now w p id t payload : signer w p -> is_u64 now -> 0 <= t < 256 ->
  exists m h, signedMessage now w id t payload = Some m /\ m_Header m = Some h /\ mh_ID h = id /\ mh_Type h = t /\ m_Payload m = payload
    /\ wf_Message m /\ Message_Verify p m = Ok true.
Proof.
  intros [Hk Hs Hn] Hu Ht. unfold signedMessage. destruct (Hs (unsigned (NewHeader now (w_host w) (w_network w) id t) payload)) as (s & -> & Hv).
  eexists _, _. split; [done|]. split; [done|]. split_and!; try done. unfold Message_Verify, verifyMessageData. cbn [m_Header m_Payload].
  cbn [mh_PeerKey mh_set_Sign NewHeader mh_Sign]. rewrite Hk, bool_decide_eq_true_2 by done. cbn [negb].
  match goal with |- context [key_verify _ ?d _] => change d with (unsigned (NewHeader now (w_host w) (w_network w) id t) payload) end. by rewrite Hv.
Qed.

(** ** The exchange *)

(** A signed chain message, as the requester reads it. *)
Lemma chain_reply now w self net n peer w' from to blocks m msg : signer w self -> signer w' peer -> is_u64 now -> Forall wf_block blocks ->
  signedMessage now w (net_uuid net n) GetChainMsg (rlp_GetChainPayload {| gc_Type := 0; gc_From := from; gc_To := to |}) = Some msg ->
  signedMessage now w' (net_uuid net n) ChainMsg (rlp_ChainPayload {| cp_Type := 0; cp_Headers := []; cp_Blocks := blocks |}) = Some m ->
  net_reply net n peer msg = Some (Some (rlp_Message m)) -> getRemoteChain now w net n peer from to = Ok blocks.
Proof.
  intros Hc Hs Hu Hw Em Er Hr. unfold getRemoteChain, request. rewrite Em, Hr.
  destruct (signed now w' peer (net_uuid net n) ChainMsg (rlp_ChainPayload {| cp_Type := 0; cp_Headers := []; cp_Blocks := blocks |}) Hs Hu)
    as (m' & h' & E & Hh' & Hi' & Ht' & Hp' & Hwf' & Hv'); [done|]. rewrite Er in E. injection E as <-.
  unfold ReceiveReply. rewrite dec_rlp_Message by done. rewrite Hh', Ht', Hi'.
  change (ChainMsg =? InvalidMsg) with false. rewrite bool_decide_eq_true_2 by done. cbn [guard negb]. rewrite Hv'. cbn [res_bind guard negb].
  unfold expect. rewrite Hh', Ht', Hp'. change (ChainMsg =? ChainMsg) with true. cbv iota.
  rewrite dec_rlp_ChainPayload; [done|done|constructor|done].
Qed.

Lemma exchange now w net self peer w' r n from to blocks : honest now w net self peer w' r -> Forall wf_block blocks ->
  onGetChain r (rlp_GetChainPayload {| gc_Type := 0; gc_From := from; gc_To := to |}) = Ok (sendChain blocks) ->
  getRemoteChain now w net n peer from to = Ok blocks.
Proof.
  intros [Hu Hc Hs Hr] Hw Hg.
  destruct (signed now w self (net_uuid net n) GetChainMsg (rlp_GetChainPayload {| gc_Type := 0; gc_From := from; gc_To := to |}) Hc Hu)
    as (m & h & Em & Hh & Hi & Ht & Hp & Hwf & Hv); [done|].
  destruct (signed now w' peer (net_uuid net n) ChainMsg (rlp_ChainPayload {| cp_Type := 0; cp_Headers := []; cp_Blocks := blocks |}) Hs Hu)
    as (m' & h' & Er & _); [done|].
  apply (chain_reply now w self net n peer w' from to blocks m' m Hc Hs Hu Hw Em Er). rewrite Hr.
  unfold handleStream. rewrite dec_rlp_Message by done. rewrite Hv. cbn [res_bind]. rewrite Hh. cbn [negb]. rewrite Ht, Hp.
  change (dispatch w' r GetChainMsg ?p) with (let! a := onGetChain r p in Ok (a, @None stemItem)). rewrite Hg. cbn [res_bind]. unfold reply, sendChain.
  by rewrite Hi, Er.
Qed.

End Exchange.

(** ** Reading a canonical chain *)

Section Fork.
Context `{HH : Hasher} `{SL : SigLibs} `{CD : Codec} `{SC : SlotCodec} `{RC : ReceiptCodec}
  `{DC : DepsCodec} `{IF : Inflate} `{ML : MerkleLib} `{PL : PowLib} `{VM_ : ContractVM} `{SHC : SheetCodec}
  `{WC : WireCodec} `{PK : PeerKeys} `{RX : RejectText}.
Context `{CL : !CodecLaws} `{WL : !WireCodecLaws}.

(** A node that has the chain from the genesis block. *)
Record holds (c : Chain) (chain : list FullBlock) : Prop := {
  hd_canonical : canonical_chain (blocks (ch_db c)) 0 chain;
  hd_genesis : exists g, head chain = Some g /\ GetGenesisBlock (ch_Network c) = Ok g
}.

Section Held.
Variables (c : Chain) (chain : list FullBlock).
Hypothesis H : holds c chain.

Lemma held_height i b : chain !! i = Some b -> getBlockByHeight c (Z.of_nat i) = Ok b /\ blockHeight b = Z.of_nat i /\ wf_block b.
Proof.
  destruct H as [C (g & Hg & G)]. intros Hi. destruct (cc_block _ _ _ C i b Hi) as (Hh & Hw & _). split; [|by split].
  unfold getBlockByHeight. destruct (Z.eqb_spec (Z.of_nat i) 0) as [E|].
  - assert (i = O) as -> by lia. rewrite head_lookup in Hg. congruence.
  - apply (canonical_get_height _ _ _ _ _ C Hi).
Qed.

Lemma held_above i : (length chain <= i)%nat -> Z.of_nat i < two64 -> is_ok (getBlockByHeight c (Z.of_nat i)) = false.
Proof.
  destruct H as [C (g & Hg & G)]. intros Hi Hu. unfold getBlockByHeight, GetBlockByHeight. destruct chain as [|x l] eqn:E; [done|].
  destruct (Z.eqb_spec (Z.of_nat i) 0); [cbn in Hi; lia|]. rewrite (cc_above _ _ _ C); [done|]. unfold zlen. lia.
Qed.

Lemma held_hash i b : chain !! i = Some b -> getBlockByHash c (Block_GetHash b) = Ok b.
Proof.
  destruct H as [C (g & Hg & G)]. intros Hi. unfold getBlockByHash. rewrite G. cbn [res_bind].
  destruct (cc_block _ _ _ C i b Hi) as (_ & Hw & _ & Hb). rewrite head_lookup in Hg. destruct (cc_block _ _ _ C _ g Hg) as (_ & Hw' & _ & Hb').
  case_bool_decide as E.
  - rewrite E, Hb' in Hb. injection Hb as Hb. f_equal. by apply rlp_FullBlock_inj.
  - destruct (Z.eqb_spec (zlen (Block_GetHash b)) 32) as [|Hn]; [|unfold zlen in Hn; rewrite length_Block_GetHash in Hn; lia].
    cbn [negb guard]. unfold GetBlockByHash. by rewrite Hb, dec_rlp_FullBlock.
Qed.

Lemma held_width : zlen chain < two64.
Proof. destruct H as [C _]. pose proof (cc_width _ _ _ C). lia. Qed.

Lemma held_latest : GetLatestBlockHeight c = zlen chain - 1 /\ chain <> [].
Proof. destruct H as [C _]. unfold GetLatestBlockHeight. destruct (canonical_latest _ _ _ C) as [-> ?]. split; [lia|done]. Qed.

Lemma held_origin : exists g, Chain_GetOriginBlock c = Ok g /\ blockHeight g = 0.
Proof.
  destruct H as [C (g & Hg & G)]. unfold Chain_GetOriginBlock. rewrite head_lookup in Hg. destruct (cc_block _ _ _ C _ g Hg) as (Hh & Hw & _ & Hb).
  destruct (GetOriginBlock (blocks (ch_db c))) as [b|] eqn:E; [|by exists g]. exists b. split; [done|]. unfold GetOriginBlock, GetOriginHash in E.
  destruct (cc_first _ _ _ C) as (f & Hf & Ho & _). rewrite Ho in E. cbn [res_bind] in E. rewrite head_lookup in Hf.
  destruct (cc_block _ _ _ C _ f Hf) as (Hhf & Hwf & _ & Hbf). unfold GetBlockByHash in E. rewrite Hbf, dec_rlp_FullBlock in E by done.
  injection E as <-. lia.
Qed.

(** The blocks above a position. *)
Lemma blocksAbove_held n : forall i b, chain !! i = Some b -> blocksAbove n c (blockHeight b) = take n (drop (S i) chain).
Proof.
  induction n as [|n IH]; intros i b Hi; [done|]. cbn [blocksAbove]. pose proof (lookup_lt_Some _ _ _ Hi) as Hlt. pose proof held_width as Hw. unfold zlen in Hw.
  destruct (held_height i b Hi) as (_ & -> & _). rewrite u64_id by (unfold is_u64; lia). replace (Z.of_nat i + 1) with (Z.of_nat (S i)) by lia.
  destruct (chain !! S i) as [x|] eqn:Ex.
  - destruct (held_height (S i) x Ex) as (-> & _). rewrite (drop_S _ _ _ Ex). cbn [firstn take]. by rewrite (IH (S i) x Ex).
  - apply lookup_ge_None in Ex. pose proof (held_above (S i) Ex ltac:(lia)) as Hn. rewrite drop_ge, take_nil by done. by destruct (getBlockByHeight c _).
Qed.

(** The hashes of a segment. *)
Lemma hashes_held m : forall a acc, (a + m <= length chain)%nat ->
  res_fold (hashAt c) acc (seqZ (Z.of_nat a) (Z.of_nat m)) = Ok (acc ++ (Block_GetHash <$> take m (drop a chain))).
Proof.
  induction m as [|m IH]; intros a acc Hl; [by rewrite take_0, app_nil_r|]. rewrite seqZ_cons by lia. cbn [res_fold].
  destruct (lookup_lt_is_Some_2 chain a) as [x Ex]; [lia|]. unfold hashAt at 1. destruct (held_height a x Ex) as (-> & _). cbn [res_bind].
  replace (Z.pred (Z.of_nat (S m))) with (Z.of_nat m) by lia. replace (Z.succ (Z.of_nat a)) with (Z.of_nat (S a)) by lia.
  rewrite IH by lia. rewrite (drop_S _ _ _ Ex). cbn [firstn take fmap list_fmap]. by rewrite <-app_assoc.
Qed.

End Held.

(** ** The common block *)

Lemma samepoint_app r l l' : (forall x, x ∈ l' -> is_ok (getBlockByHash r x) = false) -> samepoint r (l ++ l') = samepoint r l.
Proof.
  intros Hn. unfold samepoint. rewrite foldr_app. f_equal. induction l' as [|x l' IH]; [done|]. cbn [foldr]. rewrite IH by (intros y Hy; apply Hn; by right).
  pose proof (Hn x ltac:(left)). by destruct (getBlockByHash r x).
Qed.

Lemma samepoint_snoc r l x b : getBlockByHash r x = Ok b -> samepoint r (l ++ [x]) = Some b.
Proof. intros E. unfold samepoint. rewrite foldr_app. cbn [foldr]. rewrite E. by induction l as [|y l IH]; [|cbn [foldr]; rewrite IH]. Qed.

(** What the server makes of a batch of hashes. *)
Lemma batch_answer now w net self peer w' r chain n from to x l i b :
  honest now w net self peer w' r -> holds r chain -> length to = 16%nat -> from = x :: l ->
  match samepoint r from with None => True | Some y => y = b /\ blockHeight y = Z.of_nat i end ->
  (samepoint r from <> None -> (i < length chain)%nat) ->
  getRemoteChain now w net n peer from to
  = Ok (match samepoint r from with None => [] | Some _ => take (Z.to_nat MaxBlocks) (drop (S i) chain) end).
Proof.
  intros Hh Hr Ht -> Hsp Hi. apply (exchange now w net self peer w' r); [done| |].
  - destruct (samepoint r (x :: l)); [|constructor]. apply Forall_take, Forall_drop. apply Forall_lookup. intros k y Hk.
    by destruct (held_height r chain Hr k y Hk) as (_ & _ & ?).
  - unfold onGetChain. rewrite dec_rlp_GetChainPayload by done. cbn [gc_To gc_From]. unfold zlen. rewrite Ht. cbn [Z.eqb Z.of_nat Pos.of_succ_nat negb andb].
    change (Z.of_nat 16 =? 16) with true. change (Z.of_nat 16 =? 32) with false. cbn [negb andb].
    destruct (samepoint r (x :: l)) as [y|] eqn:Es; [|done]. destruct Hsp as [-> Hb]. do 3 f_equal.
    destruct (lookup_lt_is_Some_2 chain i) as [z Hz]; [by apply Hi|].
    destruct (held_height r chain Hr i z Hz) as (_ & Hzh & _). rewrite Hb, <-Hzh. by apply blocksAbove_held.
Qed.


(** ** Two nodes with a common prefix *)

Section Converge.
Variables (now : Z) (w : Wired) (net : Net) (self : PeerID) (w' : Wired) (r : Chain) (rec : RemoteRecord) (c : Chain).
Variables (common mine theirs : list FullBlock).
Hypothesis Hh : honest now w net self (rr_id rec) w' r.
Hypothesis Hc : holds c (common ++ mine).
Hypothesis Hr : holds r (common ++ theirs).
Hypothesis Hcommon : common <> [].

Lemma range_16 a b : length (PackUint64LE a ++ PackUint64LE b) = 16%nat.
Proof. by rewrite length_app, !length_PackUint64LE. Qed.

Lemma last_common : exists b, last common = Some b /\ (common ++ theirs) !! (length common - 1)%nat = Some b.
Proof.
  destruct (last common) as [b|] eqn:E; [|by apply last_None in E]. exists b. split; [done|]. rewrite last_lookup in E.
  rewrite lookup_app_l by (destruct common; [done|cbn; lia]). by replace (length common - 1)%nat with (Nat.pred (length common)) by lia.
Qed.

(** The segment a round sends. *)
Definition seg (a m : nat) : list FullBlock := take m (drop a (common ++ mine)).

Lemma seg_hashes a m : (a + m <= length (common ++ mine))%nat -> (0 < m)%nat ->
  exists x l, Block_GetHash <$> seg a m = x :: l
    /\ res_fold (hashAt c) [] (heights (Z.of_nat a) (Z.of_nat a + Z.of_nat m - 1)) = Ok (x :: l).
Proof.
  intros Hl Hm. unfold heights. replace (Z.of_nat a + Z.of_nat m - 1 - Z.of_nat a + 1) with (Z.of_nat m) by lia.
  rewrite (hashes_held c _ Hc m a [] Hl). unfold seg. destruct (Block_GetHash <$> take m (drop a (common ++ mine))) as [|x l] eqn:E; [|by exists x, l].
  apply (f_equal length) in E. rewrite length_fmap, length_take, length_drop in E. cbn in E. lia.
Qed.

(** From the top of the batch down to the last common block. *)
Lemma seg_split a m : (a < length common)%nat -> (length common - a <= m)%nat ->
  exists pre b, last common = Some b /\ seg a m = pre ++ [b] ++ take (m - (length common - a)) mine.
Proof.
  intros Ha Hm. destruct last_common as (b & Hb & _). exists (take (length common - 1 - a) (drop a common)), b. split; [done|].
  unfold seg. rewrite drop_app_le by lia. rewrite take_app. rewrite length_drop. rewrite take_ge by (rewrite length_drop; lia).
  rewrite app_assoc. f_equal. apply last_Some in Hb as [l' El]. rewrite El. rewrite length_app in *. cbn [length] in *.
  rewrite drop_app_le by (rewrite El, length_app in Ha; cbn in Ha; lia). f_equal.
  rewrite take_app_le by (rewrite length_drop; lia). rewrite take_ge; [done|]. rewrite length_drop. lia.
Qed.

Lemma seg_mine a m : (length common <= a)%nat -> forall b, b ∈ seg a m -> b ∈ mine.
Proof.
  intros Ha b Hb. unfold seg in Hb. rewrite drop_app_ge in Hb by done. apply elem_of_take in Hb as (i & Hi & _).
  rewrite lookup_drop in Hi. by apply list_elem_of_lookup_2 in Hi.
Qed.

Section Unknown.
Hypothesis Hmine : forall b, b ∈ mine -> is_ok (getBlockByHash r (Block_GetHash b)) = false.

Lemma samepoint_seg a m : (0 < m)%nat -> (length common <= a + m)%nat ->
  samepoint r (Block_GetHash <$> seg a m) = (if decide (a < length common)%nat then last common else None).
Proof.
  intros Hm0 Hm. case_decide as Ha.
  - destruct (seg_split a m Ha ltac:(lia)) as (pre & b & Hb & ->). rewrite Hb, !fmap_app, app_assoc.
    rewrite samepoint_app; [|intros x (y & -> & (i & Hi & _)%elem_of_take)%list_elem_of_fmap; apply Hmine; by apply list_elem_of_lookup_2 in Hi].
    apply samepoint_snoc. destruct last_common as (b' & Hb' & Hi). assert (b' = b) as -> by congruence. by apply (held_hash r _ Hr _ b Hi).
  - rewrite <-(app_nil_l (Block_GetHash <$> seg a m)). rewrite samepoint_app; [done|].
    intros x (y & -> & Hy)%list_elem_of_fmap. apply Hmine, (seg_mine a m); [lia|done].
Qed.

Lemma drop_theirs : drop (S (length common - 1)) (common ++ theirs) = theirs.
Proof. destruct common as [|x l]; [done|]. cbn [length]. rewrite Nat.sub_0_r || idtac. rewrite drop_app_ge by (cbn; lia). cbn. by rewrite Nat.sub_0_r, Nat.sub_diag. Qed.

Lemma convergeLoop_finds fuel : forall n to B, (to < fuel)%nat -> 1 <= B < two64 -> (length common <= S to)%nat -> (to < length (common ++ mine))%nat ->
  theirs <> [] -> convergeLoop now w net fuel n c rec 0 B (Z.of_nat to) = Ok (take (Z.to_nat MaxBlocks) theirs).
Proof.
  induction fuel as [|fuel IH]; intros n to B Hf HB Hto Hlen Ht; [lia|]. cbn [convergeLoop]. pose proof (held_width c _ Hc) as Hw. unfold zlen in Hw.
  replace (u64 (0 + B)) with B by (rewrite u64_id; [lia|unfold is_u64; lia]).
  set (a := if Z.of_nat to <=? B then O else (to - Z.to_nat B + 1)%nat).
  assert (Ea : (if Z.of_nat to <=? B then 0 else u64 (Z.of_nat to - B + 1)) = Z.of_nat a).
  { unfold a. destruct (Z.leb_spec (Z.of_nat to) B); [done|]. rewrite u64_id by (unfold is_u64; lia). lia. }
  rewrite Ea. assert (Hle : (a <= to)%nat) by (unfold a; destruct (Z.leb_spec (Z.of_nat to) B); lia).
  set (m := (to - a + 1)%nat). replace (Z.of_nat to) with (Z.of_nat a + Z.of_nat m - 1) by lia.
  destruct (seg_hashes a m) as (x & l & El & ->); [lia|lia|]. cbn [res_bind].
  destruct last_common as (b & Hb & Hi). pose proof (samepoint_seg a m ltac:(lia) ltac:(lia)) as Hsp. rewrite El in Hsp.
  destruct (held_height r _ Hr _ b Hi) as (_ & Hbh & _).
  rewrite (batch_answer now w net self (rr_id rec) w' r (common ++ theirs) n (x :: l) _ x l (length common - 1)%nat b Hh Hr (range_16 _ _) eq_refl).
  - rewrite Hsp. cbn [res_bind]. destruct (decide (a < length common)%nat) as [Ha|Ha].
    + rewrite Hb, drop_theirs. by destruct theirs.
    + destruct (Z.leb_spec (Z.of_nat a) 0) as [|Hpos]; [destruct common; [done|cbn in Ha; lia]|]. cbn [guard].
      replace (u64 (Z.of_nat a - 1)) with (Z.of_nat (a - 1)) by (rewrite u64_id; [lia|unfold is_u64; lia]).
      apply IH; [lia|done|lia|lia|done].
  - rewrite Hsp. case_decide; [|done]. rewrite Hb. done.
  - intros _. rewrite length_app. destruct common; [done|cbn; lia].
Qed.

(** C12 - Converging finds the fork.  A node asks an honest peer that shares
    its chain up to some block and knows none of the node's blocks after it:
    whatever the batch size and however deep the fork, the blocks obtained
    are the peer's next blocks after the last common one, up to 1000. *)
Theorem converging_finds_fork n batch : theirs <> [] -> (1 < length (common ++ mine))%nat -> 0 <= batch < two64 ->
  getBlocksForConverging now w net n c rec batch = Ok (take (Z.to_nat MaxBlocks) theirs).
Proof.
  intros Ht Hl Hb. unfold getBlocksForConverging. destruct (held_latest c _ Hc) as [-> _]. destruct (held_origin c _ Hc) as (g & -> & Hg). cbn [res_bind].
  rewrite Hg. unfold zlen. destruct (Z.leb_spec (Z.of_nat (length (common ++ mine)) - 1) 0); [lia|]. cbn [guard].
  replace (Z.of_nat (length (common ++ mine)) - 1) with (Z.of_nat (length (common ++ mine) - 1)) by lia.
  apply convergeLoop_finds; [lia| |rewrite length_app; lia|lia|done].
  destruct (Z.eqb_spec batch 0); [|lia]. split; [done|reflexivity].
Qed.

End Unknown.
End Converge.
End Fork.
