(* ===== verification/SyncRuns.v ===== *)
(** * Runs of the synchronisation

    Linear sync: with an honest peer ahead of the node it ends at the peer's
    tip; with a peer that keeps the node's tip as a side block neither linear
    sync nor converging gets anywhere; and a peer that answers with a block
    the node already has holds it in the loop for ever.  The concrete nodes
    of the witnesses are at the end. *)

From S2P Require Import Prelude Params StateTrie Keys Contract Types Instances Tx Block BlockStore State StateCommit Journal VM VMToy VMProps Ledger LedgerProps Snapshot Queries Chain ChainFrames ForkChoice ForkProps Pool Wired Consensus ConsensusProps Sync SyncProps.

Section Runs.
Context `{HH : Hasher} `{SL : SigLibs} `{CD : Codec} `{SC : SlotCodec} `{RC : ReceiptCodec}
  `{DC : DepsCodec} `{IF : Inflate} `{ML : MerkleLib} `{PL : PowLib} `{VM_ : ContractVM} `{SHC : SheetCodec}
  `{WC : WireCodec} `{PK : PeerKeys} `{RX : RejectText}.
Context `{CL : !CodecLaws} `{WL : !WireCodecLaws}.

(** ** The answer to a request from the local tip *)

Lemma take_own {A} m (l : list A) : take m l = take (length (take m l)) l.
Proof.
  rewrite length_take. destruct (decide (m <= length l)%nat); [by rewrite Nat.min_l|]. rewrite Nat.min_r by lia. by rewrite !take_ge by lia.
Qed.

Lemma blocksUntil_above to n c : (forall h b, is_u64 h -> getBlockByHeight c h = Ok b -> Block_GetHash b <> to) ->
  forall b, Block_GetHash b <> to -> blocksUntil n c b to = blocksAbove n c (blockHeight b).
Proof.
  intros Hto. induction n as [|n IH]; intros b Hb; [done|]. cbn [blocksUntil blocksAbove]. rewrite bool_decide_eq_false_2 by done.
  destruct (getBlockByHeight c _) as [x|] eqn:E; [|done]. rewrite IH; [done|]. eapply Hto; [|done]. apply u64_range.
Qed.

Section Peer.
Variables (now : Z) (w : Wired) (net : Net) (self : PeerID) (w' : Wired) (r : Chain) (rec : RemoteRecord).
Hypothesis Hh : honest now w net self (rr_id rec) w' r.

(** The peer has no block whose hash is the 32 zero bytes that stand for
    "to the tip". *)
Hypothesis Hzero : forall h b, is_u64 h -> getBlockByHeight r h = Ok b -> Block_GetHash b <> GetEmptyHash.

Lemma tip_answer n c chain i t b : holds r chain -> GetLatestBlockHash c = Block_GetHash t -> Block_GetHash t <> GetEmptyHash ->
  getBlockByHash r (Block_GetHash t) = Ok t -> chain !! i = Some b -> blockHeight t = blockHeight b ->
  getRemoteChainFromLocalLatest now w net n c rec = Ok (take (Z.to_nat MaxBlocks) (drop (S i) chain)).
Proof.
  intros Hr Ht Hz Hg Hi Hb. unfold getRemoteChainFromLocalLatest. apply (exchange now w net self (rr_id rec) w' r); [done| |].
  - apply Forall_take, Forall_drop, Forall_lookup. intros k y Hk. by destruct (held_height r chain Hr k y Hk) as (_ & _ & ?).
  - unfold onGetChain. rewrite dec_rlp_GetChainPayload by done. cbn [gc_To gc_From]. rewrite Ht, Hg.
    change (zlen GetEmptyHash =? 16) with false. change (zlen GetEmptyHash =? 32) with true. cbn [negb andb]. do 3 f_equal.
    rewrite (blocksUntil_above _ _ _ Hzero) by done. rewrite Hb. by apply blocksAbove_held.
Qed.

(** ** Linear sync *)

Section Linear.
Variables (common theirs : list FullBlock) (cs : nat -> Chain).
Hypothesis Hr : holds r (common ++ theirs).
Hypothesis Hcommon : common <> [].

(** The peer's further blocks apply one after the other, and the node then
    has them. *)
Hypothesis Happly : forall i b, theirs !! i = Some b -> exists ns, ApplyBlock now (cs i) b = (Ok ns, cs (S i)).
Hypothesis Hhold : forall i, (i <= length theirs)%nat -> holds (cs i) (common ++ take i theirs).

Lemma applyAll_stages l : forall i pw, pw_chain pw = cs i -> l = take (length l) (drop i theirs) ->
  exists pw', applyAll now pw l = (Ok tt, pw') /\ pw_chain pw' = cs (i + length l)%nat.
Proof.
  induction l as [|b l IH]; intros i pw Hc El; [exists pw; by rewrite Nat.add_0_r|].
  destruct (theirs !! i) as [x|] eqn:Ex; [|apply lookup_ge_None in Ex; rewrite drop_ge in El by done; done].
  rewrite (drop_S _ _ _ Ex) in El. cbn [length firstn take] in El. injection El as -> El. destruct (Happly i x Ex) as [ns E].
  cbn [applyAll]. unfold pow_ApplyBlock. rewrite Hc, E. cbn [length]. rewrite <-Nat.add_succ_comm. apply (IH (S i)); [done|exact El].
Qed.

Lemma stage_tip i : (i <= length theirs)%nat ->
  exists t, (common ++ theirs) !! (length common + i - 1)%nat = Some t /\ GetLatestBlockHash (cs i) = Block_GetHash t.
Proof.
  intros Hi. assert (Hpos : (0 < length common)%nat) by (destruct common; [done|cbn; lia]).
  destruct (hd_canonical _ _ (Hhold i Hi)) as [_ _ _ _ _ (t & Hl & Hh' & _) _]. exists t.
  rewrite last_lookup, length_app, length_take in Hl. split; [|unfold GetLatestBlockHash, GetLatestHash; by rewrite Hh'].
  replace (Nat.pred (length common + i `min` length theirs)) with (length common + i - 1)%nat in Hl by lia.
  destruct (decide (length common + i - 1 < length common)%nat).
  - rewrite lookup_app_l in Hl |- * by lia. done.
  - rewrite lookup_app_r in Hl |- * by lia. by rewrite lookup_take_lt in Hl by lia.
Qed.

Lemma stage_answer n i : (i <= length theirs)%nat ->
  getRemoteChainFromLocalLatest now w net n (cs i) rec = Ok (take (Z.to_nat MaxBlocks) (drop i theirs)).
Proof.
  intros Hi. assert (Hpos : (0 < length common)%nat) by (destruct common; [done|cbn; lia]). destruct (stage_tip i Hi) as (t & Ht & Hl).
  destruct (held_height r _ Hr _ t Ht) as (Hg & _). 
  assert (Hu : is_u64 (Z.of_nat (length common + i - 1))).
  { apply lookup_lt_Some in Ht. pose proof (held_width r _ Hr) as Hw. unfold zlen in Hw. unfold is_u64. lia. }
  rewrite (tip_answer n (cs i) _ _ t t Hr Hl (Hzero _ _ Hu Hg) (held_hash r _ Hr _ t Ht) Ht eq_refl).
  rewrite drop_app_ge by lia. by replace (S (length common + i - 1) - length common)%nat with i by lia.
Qed.

Lemma syncLoop_reaches fuel : forall n i pw, pw_chain pw = cs i -> (i <= length theirs)%nat -> (length theirs - i <= fuel * Z.to_nat MaxBlocks)%nat ->
  rr_latest rec = zlen (common ++ theirs) - 1 ->
  exists pw', syncLoop now w net fuel n pw rec = (Ok tt, pw') /\ pw_chain pw' = cs (length theirs).
Proof.
  induction fuel as [|fuel IH]; intros n i pw Hc Hi Hf Hlat; cbn [syncLoop]; rewrite Hc, Hlat;
    destruct (held_latest (cs i) _ (Hhold i Hi)) as [-> _]; unfold zlen; rewrite !length_app, length_take, Nat.min_l by done;
    (destruct (Z.ltb_spec (Z.of_nat (length common + i) - 1) (Z.of_nat (length common + length theirs) - 1)) as [Hlt|Hge];
      [|exists pw; split; [done|by replace (length theirs) with i by lia]]); [lia|].
  rewrite (stage_answer n i Hi). remember (take (Z.to_nat MaxBlocks) (drop i theirs)) as l eqn:El.
  assert (Hlen : length l = (Z.to_nat MaxBlocks `min` (length theirs - i))%nat) by (rewrite El, length_take, length_drop; done).
  assert (Hmax : (1 <= Z.to_nat MaxBlocks)%nat) by (change MaxBlocks with 1000; lia).
  destruct (applyAll_stages l i pw Hc) as (pw' & E & Hc'); [rewrite El; apply take_own|].
  destruct l as [|x l']; [cbn [length] in Hlen; lia|]. rewrite E. apply (IH (S n) _ pw' Hc'); [lia|lia|done].
Qed.

(** C11 - Linear sync catches up.  With an honest peer whose chain extends the
    node's, the sync ends after at most one request per thousand missing
    blocks, with every one of them applied, the sync lock released and no
    error. *)
Theorem linear_sync_catches_up n pw fuel :
  pw_chain pw = cs O -> pw_syncing pw = false -> rr_latest rec = zlen (common ++ theirs) - 1 ->
  (length theirs <= fuel * Z.to_nat MaxBlocks)%nat ->
  exists pw', doSync now w net fuel n pw rec = (Ok tt, pw') /\ pw_chain pw' = cs (length theirs) /\ pw_syncing pw' = false
    /\ GetLatestBlockHeight (pw_chain pw') = rr_latest rec /\ GetLatestBlockHash (pw_chain pw') = GetLatestBlockHash r.
Proof.
  intros Hc Hs Hlat Hf. unfold doSync, locked. rewrite Hs.
  destruct (syncLoop_reaches fuel n O (pw_set_syncing pw true)) as (pw' & -> & Hc'); [done|lia|lia|done|].
  eexists. split; [done|]. split; [done|]. split; [done|]. cbn [pw_chain pw_set_syncing]. rewrite Hc'.
  pose proof (Hhold (length theirs) ltac:(lia)) as Hend. rewrite take_ge in Hend by done. destruct (held_latest _ _ Hend) as [-> _]. split; [done|].
  destruct (hd_canonical _ _ Hend) as [_ _ _ _ _ (t & Hl & Hlh & _) _], (hd_canonical _ _ Hr) as [_ _ _ _ _ (t' & Hl' & Hlh' & _) _].
  unfold GetLatestBlockHash, GetLatestHash. rewrite Hlh, Hlh'. congruence.
Qed.

End Linear.

(** ** A tip the peer knows as a side block *)

Section Side.
Variables (c : Chain) (common mine theirs : list FullBlock) (t p : FullBlock).
Hypothesis Hc : holds c (common ++ mine).
Hypothesis Hr : holds r (common ++ theirs).
Hypothesis Hcommon : common <> [].
Hypothesis Ht : last mine = Some t.
Hypothesis Hside : getBlockByHash r (Block_GetHash t) = Ok t.
Hypothesis Hlonger : (length mine < length theirs)%nat.

(** The peer's block at the height of the node's tip, which the node lacks. *)
Hypothesis Hp : theirs !! (length mine - 1)%nat = Some p.
Hypothesis Hlacks : is_ok (GetBlockByHash (blocks (ch_db c)) (Block_GetHash p)) = false.

Lemma side_positions : (0 < length mine)%nat /\ (0 < length common)%nat
  /\ (common ++ mine) !! (length common + length mine - 1)%nat = Some t /\ (common ++ theirs) !! (length common + length mine - 1)%nat = Some p.
Proof.
  rewrite last_lookup in Ht. apply lookup_lt_Some in Ht as Hlt.
  assert (0 < length common)%nat by (destruct common; [done|cbn; lia]). split; [lia|]. split; [done|].
  rewrite !lookup_app_r by lia. replace (length common + length mine - 1 - length common)%nat with (length mine - 1)%nat by lia.
  split; [|done]. by rewrite Nat.sub_1_r.
Qed.

Lemma drop_side : drop (S (length common + length mine - 1)) (common ++ theirs) = drop (length mine) theirs.
Proof. destruct side_positions as (? & ? & _). rewrite drop_app_ge by lia. f_equal. lia. Qed.

(** What comes back starts above [p]. *)
Lemma side_first : exists b rest, take (Z.to_nat MaxBlocks) (drop (length mine) theirs) = b :: rest /\ GetPrevHash (b_Header b) = Block_GetHash p
  /\ Block_GetHash p <> GetLatestBlockHash c.
Proof.
  destruct side_positions as (Hm & Hpos & Hi & Hj). destruct (lookup_lt_is_Some_2 theirs (length mine) Hlonger) as [b Hb].
  rewrite (drop_S _ _ _ Hb). change (Z.to_nat MaxBlocks) with (S 999). cbn [firstn take]. eexists _, _. split; [done|]. split.
  - apply (cc_link _ _ _ (hd_canonical _ _ Hr) (length common + length mine - 1)%nat p b Hj).
    rewrite lookup_app_r by lia. by replace (S (length common + length mine - 1) - length common)%nat with (length mine) by lia.
  - destruct (cc_latest _ _ _ (hd_canonical _ _ Hc)) as (tip & Hl & Hlh & _). unfold GetLatestBlockHash, GetLatestHash. rewrite Hlh. intros E.
    rewrite last_lookup in Hl. destruct (cc_block _ _ _ (hd_canonical _ _ Hc) _ tip Hl) as (_ & Hw & _ & Hs).
    unfold GetBlockByHash in Hlacks. by rewrite E, Hs, dec_rlp_FullBlock in Hlacks.
Qed.

Lemma side_tip : GetLatestBlockHash c = Block_GetHash t /\ blockHeight t = blockHeight p.
Proof.
  destruct side_positions as (Hm & Hpos & Hi & Hj). destruct (held_height c _ Hc _ t Hi) as (_ & -> & _), (held_height r _ Hr _ p Hj) as (_ & -> & _).
  split; [|done]. destruct (cc_latest _ _ _ (hd_canonical _ _ Hc)) as (tip & Hl & Hlh & _). unfold GetLatestBlockHash, GetLatestHash. rewrite Hlh.
  rewrite last_app, Ht in Hl. congruence.
Qed.

Lemma orphan_ApplyBlock b : GetPrevHash (b_Header b) = Block_GetHash p -> Block_GetHash p <> GetLatestBlockHash c ->
  exists c', ApplyBlock now c b = (Err ErrPrevBlockNotExist, c') /\ ch_db c' = ch_db c.
Proof.
  intros Hl Hn. unfold ApplyBlock, run_update, importBlock, tx_bind, tx_read.
  destruct (cc_latest _ _ _ (hd_canonical _ _ Hc)) as (tip & _ & Hlh & _). unfold GetLatestBlockHash, GetLatestHash in *. rewrite Hlh in Hn |- *.
  cbn. rewrite Hl, bool_decide_eq_false_2 by done. unfold importSide, tx_bind, tx_read. rewrite Hl.
  destruct (GetBlockByHash _ _) as [q|]; [done|]. by eexists.
Qed.

Lemma orphan_SwitchToBranch b rest : GetPrevHash (b_Header b) = Block_GetHash p ->
  exists e c', Chain_SwitchToBranch now c (b :: rest) = (Err e, c') /\ ch_db c' = ch_db c.
Proof.
  intros Hl. unfold Chain_SwitchToBranch, run_update, convergeTxn. destruct (last (b :: rest)) as [tip|] eqn:E; [|by apply last_None in E].
  unfold tx_bind, tx_read. rewrite Hl. destruct (GetBlockByHash _ _) as [q|]; [done|]. cbn. by eexists _, _.
Qed.

Lemma side_converging n batch : (1 < length (common ++ mine))%nat -> 0 <= batch < two64 ->
  getBlocksForConverging now w net n c rec batch = Ok (take (Z.to_nat MaxBlocks) (drop (length mine) theirs)).
Proof.
  intros Hl Hb. unfold getBlocksForConverging. destruct (held_latest c _ Hc) as [-> _]. destruct (held_origin c _ Hc) as (g & -> & Hg). cbn [res_bind].
  rewrite Hg. pose proof (held_width c _ Hc) as Hw. unfold zlen in *. destruct (Z.leb_spec (Z.of_nat (length (common ++ mine)) - 1) 0); [lia|]. cbn [guard].
  cbn [convergeLoop]. set (B := if batch =? 0 then MaxBlocks else batch).
  assert (HB : 1 <= B < two64) by (unfold B; destruct (Z.eqb_spec batch 0); [split; [done|reflexivity]|lia]).
  set (to := (length (common ++ mine) - 1)%nat). replace (Z.of_nat (length (common ++ mine)) - 1) with (Z.of_nat to) by lia.
  replace (u64 (0 + B)) with B by (rewrite u64_id; [lia|unfold is_u64; lia]).
  set (a := if Z.of_nat to <=? B then O else (to - Z.to_nat B + 1)%nat).
  assert (Ea : (if Z.of_nat to <=? B then 0 else u64 (Z.of_nat to - B + 1)) = Z.of_nat a).
  { unfold a. destruct (Z.leb_spec (Z.of_nat to) B); [done|]. rewrite u64_id by (unfold is_u64; lia). lia. }
  rewrite Ea. assert (Hle : (a <= to)%nat) by (unfold a; destruct (Z.leb_spec (Z.of_nat to) B); lia).
  destruct (seg_hashes c common mine Hc a (to - a + 1)) as (x & l & El & Ef); [lia|lia|].
  replace (Z.of_nat a + Z.of_nat (to - a + 1) - 1) with (Z.of_nat to) in Ef by lia. rewrite Ef. cbn [res_bind].
  destruct side_positions as (Hm & Hpos & Hi & Hj). destruct side_tip as [_ Hth].
  assert (Hsp : samepoint r (x :: l) = Some t).
  { rewrite <-El. unfold seg. replace (to - a + 1)%nat with (S (to - a)) by lia.
    rewrite (take_S_r _ _ t) by (rewrite lookup_drop; replace (a + (to - a))%nat with to by lia; unfold to; by rewrite length_app).
    rewrite fmap_app. by apply samepoint_snoc. }
  destruct (held_height r _ Hr _ p Hj) as (_ & Hph & _).
  rewrite (batch_answer now w net self (rr_id rec) w' r (common ++ theirs) n (x :: l) _ x l (length common + length mine - 1)%nat t Hh Hr (range_16 _ _) eq_refl).
  - rewrite Hsp. cbn [res_bind]. rewrite drop_side. by destruct side_first as (b & rest & -> & _).
  - rewrite Hsp. split; [done|congruence].
  - intros _. by apply lookup_lt_Some in Hj.
Qed.

(** C36 - A side block hides the fork.  When the peer stores the node's tip as
    a side block and is ahead on another branch the node lacks, the peer
    takes that tip for the fork point: linear sync and converging both obtain
    blocks whose parent the node does not have and fail, whatever the batch
    size, and the node stays on its chain. *)
Theorem side_block_hides_fork n pw fuel batch :
  pw_chain pw = c -> pw_syncing pw = false -> Block_GetHash t <> GetEmptyHash ->
  GetLatestBlockHeight c < rr_latest rec -> (0 < fuel)%nat -> (1 < length (common ++ mine))%nat -> 0 <= batch < two64 ->
  (exists pw', doSync now w net fuel n pw rec = (Err ErrPrevBlockNotExist, pw') /\ ch_db (pw_chain pw') = ch_db c)
  /\ (exists e pw', doConverging now w net n pw rec batch = (Err e, pw') /\ ch_db (pw_chain pw') = ch_db c).
Proof.
  intros Hpc Hs Hz Hlat Hf Hl Hb. destruct side_positions as (Hm & Hpos & Hi & Hj). destruct side_tip as [Hlt Hth].
  destruct side_first as (b & rest & Eb & Hprev & Hne). unfold doSync, doConverging, locked. rewrite Hs. split.
  - destruct fuel as [|fuel]; [lia|]. cbn [syncLoop]. cbn [pw_chain pw_set_syncing]. rewrite Hpc. destruct (Z.ltb_spec (GetLatestBlockHeight c) (rr_latest rec)); [|lia].
    rewrite (tip_answer n c (common ++ theirs) _ t p Hr Hlt Hz Hside Hj Hth), drop_side, Eb. cbn [applyAll]. unfold pow_ApplyBlock. cbn [pw_chain pw_set_syncing]. rewrite Hpc.
    destruct (orphan_ApplyBlock b Hprev Hne) as (c' & -> & Hd). by eexists.
  - cbn [pw_chain pw_set_syncing]. rewrite Hpc, (side_converging n batch Hl Hb), Eb. unfold pow_SwitchToBranch. cbn [pw_chain pw_set_syncing]. rewrite Hpc.
    destruct (orphan_SwitchToBranch b rest Hprev) as (e & c' & -> & Hd). by eexists _, _.
Qed.

End Side.
End Peer.

(** ** A peer that never moves the node *)

(** The sync loop has no progress check.  A peer that claims a greater
    height and answers every request with one block whose import changes
    nothing - the node's own tip, from the second time on - keeps the node in
    the loop, which holds the sync lock: no number of rounds ends it. *)
Theorem sync_loop_never_ends now w net rec pw ns b :
  (forall n, getRemoteChainFromLocalLatest now w net n (pw_chain pw) rec = Ok [b]) ->
  ApplyBlock now (pw_chain pw) b = (Ok ns, pw_chain pw) ->
  GetLatestBlockHeight (pw_chain pw) < rr_latest rec ->
  forall fuel n, (syncLoop now w net fuel n pw rec).1 = Err ErrOutOfFuel
    /\ pw_chain (syncLoop now w net fuel n pw rec).2 = pw_chain pw.
Proof.
  intros Hr Ha Hlt fuel. revert pw Hr Ha Hlt. induction fuel as [|fuel IH]; intros pw Hr Ha Hlt n; cbn [syncLoop].
  - by destruct (Z.ltb_spec (GetLatestBlockHeight (pw_chain pw)) (rr_latest rec)); [|lia].
  - destruct (Z.ltb_spec (GetLatestBlockHeight (pw_chain pw)) (rr_latest rec)); [|lia]. rewrite Hr. cbn [applyAll]. unfold pow_ApplyBlock. rewrite Ha.
    apply (IH (pw_set_chain pw (pw_chain pw) _)); done.
Qed.

Lemma tx_work_volatile b t v x v' : tx_work b t v = (x, v') -> v' = v.
Proof. unfold tx_work. destruct (cumulativeWork _ _) as [[? ?]|]; by intros [= _ <-]. Qed.

(** ** Crashes *)

(** A snapshot node allocates room for as many blocks as the remote claims to
    have. *)
Lemma claimed_height_crashes now w net fuel n pw rec :
  pw_syncing pw = false -> 0 <= GetLatestBlockHeight (pw_chain pw) -> GetLatestBlockHeight (pw_chain pw) + maxSliceCap < rr_checkpointHeight rec < two64 ->
  (doSnapshotSync now w net fuel n pw rec).1 = Err GoPanic.
Proof.
  unfold maxSliceCap. intros Hs Hl Hc. unfold doSnapshotSync, locked. rewrite Hs. cbn [pw_chain pw_set_syncing].
  destruct (Z.leb_spec (rr_checkpointHeight rec) (GetLatestBlockHeight (pw_chain pw))); [lia|]. unfold fetchRemoteRange, maxSliceCap.
  assert (two64 = 2 ^ 64) by reflexivity. rewrite (u64_id (GetLatestBlockHeight (pw_chain pw) + 1)), u64_id by (unfold is_u64; lia).
  destruct (Z.ltb_spec (2 ^ 45) (rr_checkpointHeight rec - (GetLatestBlockHeight (pw_chain pw) + 1) + 1)); [done|lia].
Qed.

(** A node that knows one remote, asks it for blocks at the start and gets
    none stops. *)
Lemma one_silent_peer_stops_start now w net fuel n batch pw rec e :
  pw_syncing pw = false -> cfg_SnapshotMode (pw_cfg pw) = false -> cfg_StrictMode (pw_cfg pw) = true -> cfg_Network (pw_cfg pw) <> ZERONET ->
  shouldSync now rec (GetLatestBlockHeight (pw_chain pw)) = true -> GetLatestBlockHeight (pw_chain pw) < rr_latest rec -> (0 < fuel)%nat ->
  getRemoteChainFromLocalLatest now w net (S n) (pw_chain pw) rec = Err e ->
  bootstrap now w net fuel n batch pw {[rr_id rec := rec]} = Err GoPanic.
Proof.
  intros Hs Hm Hst Hn Hsh Hlt Hf He. unfold bootstrap. rewrite map_to_list_singleton. cbn [fmap list_fmap snd].
  change (ranking [rec]) with [rec]. unfold MustSync. rewrite filter_cons_True by done. cbn [bootFirst filter]. unfold jump. rewrite Hst. cbn [negb andb res_bind].
  unfold follow. rewrite Hm. unfold doSync, locked. rewrite Hs. destruct fuel as [|fuel]; [lia|]. cbn [syncLoop]. cbn [pw_chain pw_set_syncing].
  destruct (Z.ltb_spec (GetLatestBlockHeight (pw_chain pw)) (rr_latest rec)); [|lia]. rewrite He.
  assert (M : forall pw', pw_cfg pw' = pw_cfg pw -> MustConverge now pw' [rec] = Ok []).
  { intros pw' E. unfold MustConverge. rewrite E. destruct (Z.eqb_spec (cfg_Network (pw_cfg pw)) ZERONET); [done|]. done. }
  destruct e; cbn; rewrite ?M by done; done.
Qed.

(** A block that is only stored aside, and is stored already. *)
Lemma stored_aside now c b c' : ApplyBlock now c b = (Ok [], c') -> ch_db c' = ch_db c -> clearReorg (ch_volatile c) = ch_volatile c -> c' = c.
Proof.
  unfold ApplyBlock, run_update. destruct (importBlock now (ch_State c) b (ch_db c) _) as [[[x t]|e] v] eqn:E; [|done]. intros Ha Hd Hq.
  destruct x; [destruct (notify _) as [ns c1] eqn:En in Ha; unfold notify in En; cbn [ch_volatile] in En; destruct (notifyReorg v); injection En as <- _; by destruct l|].
  injection Ha as <-. cbn in Hd. subst t. assert (v = ch_volatile c) as ->; [|by destruct c].
  unfold importBlock in E. open_tx E. rewrite Hq in *. case_bool_decide.
  - unfold extendTip in E. open_tx E.
  - unfold importSide in E. open_tx E. 
    repeat match goal with X : tx_work _ _ _ = _ |- _ => apply tx_work_volatile in X as -> end.
    destruct (loses _ _ _ _) in E; [unfold tx_ret in E; by simplify_eq|]. open_tx E. case_match; [done|]. cbv zeta in E.
    case_match; [done|]. open_tx E.
Qed.

End Runs.

(** ** Concrete peers *)

Section Concrete.
Context `{HH : Hasher} `{SL : SigLibs} `{CD : Codec} `{SC : SlotCodec} `{RC : ReceiptCodec}
  `{DC : DepsCodec} `{IF : Inflate} `{ML : MerkleLib} `{PL : PowLib} `{VM_ : ContractVM} `{SHC : SheetCodec}.
Context `{CL : !CodecLaws}.
Variable ob : FullBlock.

Lemma links_1 x : links [x].
Proof. intros [|i] p q Hp Hq; done. Qed.

Lemma links_cons x y l : h_PrevBlockHash (b_Header y) = Block_GetHash x -> links (y :: l) -> links (x :: y :: l).
Proof. intros Hxy Hl [|i] p q Hp Hq; [|by apply (Hl i)]. cbn in Hp, Hq. congruence. Qed.

Lemma imports_holds c acc l tip : imports ob c acc -> l ⊆ acc -> links l -> last l = Some tip -> blockHeight tip = zlen l - 1 ->
  GetLatestHash (blocks (ch_db c)) = Ok (Block_GetHash tip) -> blockHeight ob = 0 -> GetGenesisBlock (ch_Network c) = Ok ob -> holds c l.
Proof.
  intros Him Hl Hlk Ht Hth Hlat Ho Hg. destruct (imports_inv ob c acc Him) as (chain & tip' & F). pose proof (fi_sound _ _ _ _ _ F) as S.
  pose proof (fi_tip _ _ _ _ _ F) as Hc. destruct (sound_tip ob _ _ _ _ S Hc) as (Hin & Hh' & Hgh & _).
  assert (Htin : tip ∈ acc) by (apply Hl; rewrite last_lookup in Ht; by eapply list_elem_of_lookup_2).
  assert (tip' = tip) as -> by (apply (adm_hash _ (led_adm _ _ (so_ledger _ _ _ _ S))); [done|done|congruence]).
  assert (chain = l) as -> by (eapply chain_is; eauto; unfold zlen in *; lia).
  destruct (so_store _ _ _ _ S) as [C _]. rewrite Ho in C. split; [done|]. exists ob. split; [|done]. apply (so_head _ _ _ _ S).
Qed.

Lemma holds_nonzero c chain : holds c chain -> Forall (fun b => Block_GetHash b <> GetEmptyHash) chain ->
  forall h b, is_u64 h -> getBlockByHeight c h = Ok b -> Block_GetHash b <> GetEmptyHash.
Proof.
  intros Hc Hf h b Hu E. rewrite Forall_lookup in Hf. unfold is_u64 in Hu. destruct (chain !! Z.to_nat h) as [x|] eqn:Ex.
  - destruct (held_height c chain Hc _ x Ex) as (Hg & _). rewrite Z2Nat.id in Hg by lia. rewrite Hg in E. injection E as <-. by eapply Hf.
  - apply lookup_ge_None in Ex. pose proof (held_above c chain Hc (Z.to_nat h) Ex ltac:(lia)) as Hn. rewrite Z2Nat.id in Hn by lia. by rewrite E in Hn.
Qed.

(** *** Two forks

    [nd] starts at [g]; [a] and [b] are its children, [a2] the child of [a]. *)

Section Scene.
Variables (now : Z) (nd : Chain) (a b a2 : FullBlock).

(** After [a]; after [b]; after [a], [b] and [a2]. *)
Definition on_a : Chain := (ApplyBlock now nd a).2.
Definition on_b : Chain := (ApplyBlock now nd b).2.
Definition on_a2 : Chain := (ApplyBlock now (ApplyBlock now on_a b).2 a2).2.

Definition at_tip (c : Chain) (tip : FullBlock) : bool :=
  bool_decide (GetLatestHash (blocks (ch_db c)) = Ok (Block_GetHash tip)) && bool_decide (GetGenesisBlock (ch_Network c) = Ok ob).

Definition nonzero (x : FullBlock) : bool := negb (bool_decide (Block_GetHash x = GetEmptyHash)).

Definition scene : bool :=
  let ra := ApplyBlock now nd a in
  let rb := ApplyBlock now nd b in
  let rab := ApplyBlock now ra.2 b in
  let r2 := ApplyBlock now rab.2 a2 in
  is_ok ra.1 && is_ok rb.1 && is_ok rab.1 && is_ok r2.1
  && at_tip nd ob && at_tip ra.2 a && at_tip rb.2 b && at_tip r2.2 a2
  && (blockHeight ob =? 0) && (blockHeight a =? 1) && (blockHeight b =? 1) && (blockHeight a2 =? 2)
  && bool_decide (h_PrevBlockHash (b_Header a) = Block_GetHash ob) && bool_decide (h_PrevBlockHash (b_Header b) = Block_GetHash ob)
  && bool_decide (h_PrevBlockHash (b_Header a2) = Block_GetHash a)
  && nonzero ob && nonzero a && nonzero b && nonzero a2
  && negb (is_ok (getBlockByHash rb.2 (Block_GetHash a))) && bool_decide (getBlockByHash r2.2 (Block_GetHash b) = Ok b)
  && negb (is_ok (GetBlockByHash (blocks (ch_db rb.2)) (Block_GetHash a))).

Hypothesis Hstart : imports ob nd [ob].
Hypothesis Hadm : admissible [a2; b; a; ob].
Hypothesis Hscene : scene = true.

Lemma subs4 {A} (v x y z : A) : [y; z] ⊆ [v; x; y; z] /\ [x; z] ⊆ [v; x; y; z] /\ [x; y; z] ⊆ [v; x; y; z] /\ [z; y; v] ⊆ [v; x; y; z]
  /\ forall p q : A, [q; p] ⊆ [p; q].
Proof. split_and!; set_solver. Qed.

Lemma at_tip_ok c tip : at_tip c tip = true -> GetLatestHash (blocks (ch_db c)) = Ok (Block_GetHash tip) /\ GetGenesisBlock (ch_Network c) = Ok ob.
Proof. unfold at_tip. intros [H1 H2]%andb_prop. by apply bool_decide_eq_true_1 in H1, H2. Qed.

Lemma step_imports c acc x : imports ob c acc -> admissible (x :: acc) -> is_ok (ApplyBlock now c x).1 = true -> imports ob (ApplyBlock now c x).2 (x :: acc).
Proof.
  intros Hi Ha Hok. destruct (ApplyBlock now c x) as [res c'] eqn:E. cbn [fst snd] in *. apply is_ok_Ok in Hok as [ns ->]. by eapply im_apply.
Qed.

Record scene_facts : Prop := {
  sf_nd : holds nd [ob];
  sf_a : holds on_a [ob; a];
  sf_b : holds on_b [ob; b];
  sf_a2 : holds on_a2 [ob; a; a2];
  sf_apply : is_ok (ApplyBlock now nd a).1 = true;
  sf_nonzero : Forall (fun x => Block_GetHash x <> GetEmptyHash) [ob; a; b; a2];
  sf_unknown : is_ok (getBlockByHash on_b (Block_GetHash a)) = false;
  sf_side : getBlockByHash on_a2 (Block_GetHash b) = Ok b;
  sf_lacks : is_ok (GetBlockByHash (blocks (ch_db on_b)) (Block_GetHash a)) = false
}.

Lemma scene_ok : scene_facts.
Proof.
  pose proof Hscene as E. unfold scene in E. cbv zeta in E. repeat match type of E with _ && _ = true => let X := fresh "X" in apply andb_prop in E as [E X] end.
  repeat match goal with
  | H : bool_decide _ = true |- _ => apply bool_decide_eq_true_1 in H
  | H : (_ =? _) = true |- _ => apply Z.eqb_eq in H
  | H : at_tip _ _ = true |- _ => apply at_tip_ok in H as [? ?]
  | H : negb _ = true |- _ => apply negb_true_iff in H
  | H : nonzero _ = true |- _ => apply negb_true_iff, bool_decide_eq_false_1 in H
  end.
  destruct (subs4 a2 b a ob) as (S1 & S2 & S3 & S4 & Sw).
  assert (Ia : imports ob on_a [a; ob]) by (apply step_imports; [exact Hstart|exact (admissible_sub _ _ S1 Hadm)|assumption]).
  assert (Ib : imports ob on_b [b; ob]) by (apply step_imports; [exact Hstart|exact (admissible_sub _ _ S2 Hadm)|assumption]).
  assert (I2 : imports ob on_a2 [a2; b; a; ob]).
  { apply step_imports; [|exact Hadm|assumption]. apply step_imports; [exact Ia|exact (admissible_sub _ _ S3 Hadm)|assumption]. }
  split; [..|assumption|assumption|assumption].
  - eapply (imports_holds nd [ob] [ob] ob Hstart); [reflexivity|apply links_1|reflexivity|assumption..].
  - eapply (imports_holds on_a [a; ob] [ob; a] a Ia); [apply Sw|apply links_cons; [assumption|apply links_1]|reflexivity|assumption..].
  - eapply (imports_holds on_b [b; ob] [ob; b] b Ib); [apply Sw|apply links_cons; [assumption|apply links_1]|reflexivity|assumption..].
  - eapply (imports_holds on_a2 [a2; b; a; ob] [ob; a; a2] a2 I2);
      [exact S4|apply links_cons; [assumption|apply links_cons; [assumption|apply links_1]]|reflexivity|assumption..].
  - assumption.
  - repeat constructor; assumption.
Qed.

End Scene.
End Concrete.

Module SyncWitness.

#[local] Existing Instance prefix_hasher.
#[local] Existing Instance toy_libs.
#[local] Existing Instance toy_codec.
#[local] Existing Instance toy_codec_laws.
#[local] Existing Instance toy_slot_codec.
#[local] Existing Instance toy_toll.
#[local] Existing Instance RunWitness.engine.
#[local] Existing Instance LedgerWitness.receipts.
#[local] Existing Instance LedgerWitness.deps.
#[local] Existing Instance LedgerWitness.inflate.
#[local] Existing Instance LedgerWitness.merkle.
#[local] Existing Instance LedgerWitness.text.
#[local] Existing Instance ForkWitness.pow.
#[local] Existing Instance ForkWitness.sheets.

(** *** A wire codec *)

Definition enc_message (m : Message) : bytes :=
  match m_Header m with
  | None => []
  | Some h => enc_fields [big_Bytes (mh_Network h); mh_ID h; big_Bytes (mh_Type h); big_Bytes (mh_Timestamp h); mh_PeerKey h; mh_Sign h; m_Payload m]
  end.

Definition dec_message (b : bytes) : option Message :=
  match fields_of b with
  | [a; b; c; d; e; f; g] =>
      Some {| m_Header := Some {| mh_Network := be_Z a; mh_ID := b; mh_Type := be_Z c; mh_Timestamp := be_Z d; mh_PeerKey := e; mh_Sign := f |};
              m_Payload := g |}
  | _ => None
  end.

Definition enc_getchain (p : GetChainPayload) : bytes := enc_fields [big_Bytes (gc_Type p); enc_fields (gc_From p); gc_To p].

Definition dec_getchain (b : bytes) : option GetChainPayload :=
  match fields_of b with [a; b; c] => Some {| gc_Type := be_Z a; gc_From := fields_of b; gc_To := c |} | _ => None end.

Definition enc_chain (p : ChainPayload) : bytes :=
  enc_fields [big_Bytes (cp_Type p); enc_fields (toy_header <$> cp_Headers p); enc_fields (toy_block <$> cp_Blocks p)].

Definition dec_chain (b : bytes) : option ChainPayload :=
  match fields_of b with
  | [a; b; c] =>
      hs ← mapM toy_dec_header (fields_of b);
      bs ← mapM toy_dec_block (fields_of c);
      Some {| cp_Type := be_Z a; cp_Headers := hs; cp_Blocks := bs |}
  | _ => None
  end.

#[local] Instance wire : WireCodec := {|
  rlp_Message := enc_message; dec_Message := dec_message; rlp_GetChainPayload := enc_getchain; dec_GetChainPayload := dec_getchain;
  rlp_ChainPayload := enc_chain; dec_ChainPayload := dec_chain;
  rlp_StatusPayload := fun _ => []; dec_StatusPayload := fun _ => None; rlp_GetSheetPayload := fun _ => []; dec_GetSheetPayload := fun _ => None;
  rlp_SheetPayload := fun _ => []; dec_SheetPayload := fun _ => None; rlp_StemPayload := fun _ => []; dec_StemPayload := fun _ => None;
  rlp_ProofRequest := fun _ => []; dec_ProofRequest := fun _ => None; rlp_ProofResponse := fun _ => []; dec_ProofResponse := fun _ => None |}.

#[local] Instance wire_laws : WireCodecLaws.
Proof.
  split; cbn [rlp_Message dec_Message rlp_GetChainPayload dec_GetChainPayload rlp_ChainPayload dec_ChainPayload wire].
  - intros [[h|] p]; unfold wf_Message, dec_message, enc_message; cbn [m_Header m_Payload]; [|done]. intros (Hn & Ht & Hu). unfold is_u64 in Hu.
    rewrite fields_of_enc, !be_Z_big_Bytes by lia. by destruct h.
  - intros [t f to] Ht. cbn [gc_Type] in Ht. unfold dec_getchain, enc_getchain. cbn [gc_Type gc_From gc_To]. by rewrite fields_of_enc, fields_of_enc, be_Z_big_Bytes by lia.
  - intros [t hs bs] Ht Hh Hb. cbn [cp_Type cp_Headers cp_Blocks] in Ht, Hh, Hb. unfold dec_chain, enc_chain. cbn [cp_Type cp_Headers cp_Blocks]. rewrite fields_of_enc, !fields_of_enc.
    rewrite (mapM_fmap_ok wf_header _ _ _ toy_dec_header_ok Hh). rewrite (mapM_fmap_ok wf_block toy_block toy_dec_block _ (@dec_rlp_FullBlock _ toy_codec_laws) Hb).
    cbn. by rewrite be_Z_big_Bytes by lia.
Qed.

(** *** Peers whose signature is the signed text *)

#[local] Instance keys : PeerKeys := {| key_peer := Some; key_verify := fun _ d s => Some (bool_decide (s = d)) |}.
#[local] Instance rejects : RejectText := fun _ => [].

Definition wired (id : PeerID) : Wired :=
  {| w_network := ZERONET; w_host := {| host_Key := id; host_Sign := Some |}; w_OnStemTx := false; w_OnStemCommit := false |}.

Definition client : PeerID := [Byte.x01].
Definition server : PeerID := [Byte.x02].

Definition served_by (now : Z) (r : Chain) : Net :=
  {| net_uuid := fun _ => [];
     net_reply := fun _ _ msg => Some (match handleStream now (wired server) r client (rlp_Message msg) with Ok (Some m, _) => Some (rlp_Message m) | _ => None end) |}.

Lemma wired_signer id : signer (wired id) id.
Proof. split; [done| |done]. intros d. exists d. split; [done|]. cbn. by rewrite bool_decide_eq_true_2. Qed.

Lemma served now r rec : is_u64 now -> rr_id rec = server -> honest now (wired client) (served_by now r) client (rr_id rec) (wired server) r.
Proof. intros Hu ->. split; [done|apply wired_signer|apply wired_signer|done]. Qed.

Definition ahead (latest : Z) : RemoteRecord := NewRemoteRecord 0 server 0 latest [] [].

(** *** The nodes *)

Abbreviation genesis := ForkWitness.genesis.
Abbreviation a1 := ForkWitness.a1.
Abbreviation b1 := ForkWitness.b1.
Abbreviation a2 := BurstWitness.a2.
Abbreviation now := ForkWitness.now.
Abbreviation start := ForkWitness.node.

Lemma scene_true : scene genesis now start a1 b1 a2 = true.
Proof. vm_compute. reflexivity. Qed.

Lemma four_usable :
  forallb ForkWitness.usable [a2; b1; a1; genesis] && bool_decide (NoDup (Block_GetHash <$> [a2; b1; a1; genesis])) = true.
Proof. vm_compute. reflexivity. Qed.

Lemma the_scene : scene_facts genesis now start a1 b1 a2.
Proof. exact (scene_ok genesis now start a1 b1 a2 ForkWitness.start_imports (ForkWitness.usable_admissible _ four_usable) scene_true). Qed.

(** The stages of a linear sync by one block. *)
Definition one_step (i : nat) : Chain := match i with O => start | S _ => on_a now start a1 end.

Lemma now_u64 : is_u64 now.
Proof. vm_compute. split; [discriminate|reflexivity]. Qed.

Lemma in_singleton {A} (P : A -> Prop) x : P x -> forall y, y ∈ [x] -> P y.
Proof. by intros Hx y ->%list_elem_of_singleton. Qed.

Lemma not_nil {A} (x : A) l : x :: l <> [].
Proof. done. Qed.

Lemma nonzero_2 {A} (P : A -> Prop) p q r s : Forall P [p; q; r; s] -> Forall P [p; q].
Proof. rewrite !Forall_cons, Forall_nil. tauto. Qed.

Lemma nonzero_3 {A} (P : A -> Prop) p q r s : Forall P [p; q; r; s] -> Forall P [p; q; s].
Proof. rewrite !Forall_cons, ?Forall_nil. tauto. Qed.

Lemma nonzero_third {A} (P : A -> Prop) p q r s : Forall P [p; q; r; s] -> P r.
Proof. rewrite !Forall_cons, ?Forall_nil. tauto. Qed.

(** A node on [a1] asks a node on [b1]. *)
Lemma converging_finds_fork_witness :
  getBlocksForConverging now (wired client) (served_by now (on_b now start b1)) O (on_a now start a1) (ahead 1) 0 = Ok (take (Z.to_nat MaxBlocks) [b1]).
Proof.
  apply (converging_finds_fork now (wired client) (served_by now (on_b now start b1)) client (wired server) (on_b now start b1) (ahead 1) (on_a now start a1)
    [genesis] [a1] [b1] (served now _ (ahead 1) now_u64 eq_refl) (sf_a _ _ _ _ _ _ the_scene) (sf_b _ _ _ _ _ _ the_scene) (not_nil genesis [])
    (in_singleton (fun b => is_ok (getBlockByHash (on_b now start b1) (Block_GetHash b)) = false) a1 (sf_unknown _ _ _ _ _ _ the_scene))).
  - apply not_nil.
  - exact (le_n 2).
  - split; [discriminate|reflexivity].
Defined.

Definition follower (c : Chain) : PoWork := pw_set_chain BurstWitness.miner c Pool_Init.

Lemma follower_chain c : pw_chain (follower c) = c.
Proof. reflexivity. Qed.

Lemma follower_idle c : pw_syncing (follower c) = false.
Proof. reflexivity. Qed.

Lemma one_step_apply : is_ok (ApplyBlock now start a1).1 = true ->
  forall i b, [a1] !! i = Some b -> exists ns, ApplyBlock now (one_step i) b = (Ok ns, one_step (S i)).
Proof.
  intros Hok [|i] b Hb; [|done]. injection Hb as <-. unfold one_step, on_a.
  generalize dependent (ApplyBlock now start a1). intros [[ns|e] c']; [by exists ns|done].
Qed.

Lemma one_step_holds i : (i <= length [a1])%nat -> holds (one_step i) ([genesis] ++ take i [a1]).
Proof.
  intros _. destruct i as [|i]; [exact (sf_nd _ _ _ _ _ _ the_scene)|]. cbn [app take]. rewrite take_nil. exact (sf_a _ _ _ _ _ _ the_scene).
Qed.

(** A node with the genesis block follows a node on [a1]. *)
Lemma linear_sync_catches_up_witness :
  exists pw', doSync now (wired client) (served_by now (on_a now start a1)) 1 O (follower start) (ahead 1) = (Ok tt, pw')
    /\ pw_chain pw' = on_a now start a1.
Proof.
  destruct (linear_sync_catches_up now (wired client) (served_by now (on_a now start a1)) client (wired server) (on_a now start a1) (ahead 1)
    (served now _ (ahead 1) now_u64 eq_refl)
    (holds_nonzero _ _ (sf_a _ _ _ _ _ _ the_scene) (nonzero_2 _ _ _ _ _ (sf_nonzero _ _ _ _ _ _ the_scene)))
    [genesis] [a1] one_step (sf_a _ _ _ _ _ _ the_scene) (not_nil genesis []) (one_step_apply (sf_apply _ _ _ _ _ _ the_scene))
    one_step_holds
    O (follower start) 1%nat (follower_chain _) (follower_idle _) eq_refl (le_S_n _ _ (le_n_S _ _ (le_n_S _ _ (Nat.le_0_l 999))))) as (pw' & Hd & Hc & _).
  exists pw'. split; [exact Hd|exact Hc].
Defined.

(** A node on [b1] and a node that preferred [a1], kept [b1] aside and went
    on to [a2]. *)
Lemma side_block_hides_fork_witness :
  (exists pw', doSync now (wired client) (served_by now (on_a2 now start a1 b1 a2)) 1 O (follower (on_b now start b1)) (ahead 2)
     = (Err ErrPrevBlockNotExist, pw'))
  /\ (exists e pw', doConverging now (wired client) (served_by now (on_a2 now start a1 b1 a2)) O (follower (on_b now start b1)) (ahead 2) 0 = (Err e, pw')).
Proof.
  destruct (side_block_hides_fork now (wired client) (served_by now (on_a2 now start a1 b1 a2)) client (wired server) (on_a2 now start a1 b1 a2) (ahead 2)
    (served now _ (ahead 2) now_u64 eq_refl)
    (holds_nonzero _ _ (sf_a2 _ _ _ _ _ _ the_scene) (nonzero_3 _ _ _ _ _ (sf_nonzero _ _ _ _ _ _ the_scene)))
    (on_b now start b1) [genesis] [b1] [a1; a2] b1 a1 (sf_b _ _ _ _ _ _ the_scene) (sf_a2 _ _ _ _ _ _ the_scene) (not_nil genesis [])
    eq_refl (sf_side _ _ _ _ _ _ the_scene) (le_n 2) eq_refl (sf_lacks _ _ _ _ _ _ the_scene)
    O (follower (on_b now start b1)) 1%nat 0 (follower_chain _) (follower_idle _) (nonzero_third _ _ _ _ _ (sf_nonzero _ _ _ _ _ _ the_scene)))
    as [(pw' & Hd & _) (e & pw'' & He & _)].
  - rewrite (proj1 (held_latest _ _ (sf_b _ _ _ _ _ _ the_scene))). reflexivity.
  - exact (le_n 1).
  - exact (le_n 2).
  - split; [discriminate|reflexivity].
  - split; [exists pw'; exact Hd|exists e, pw''; exact He].
Defined.

(** A peer that answers with the same block whatever it is asked. *)
Definition liar (now : Z) (b : FullBlock) : Net :=
  {| net_uuid := fun _ => [];
     net_reply := fun _ _ _ =>
       match signedMessage now (wired server) [] ChainMsg (rlp_ChainPayload {| cp_Type := 0; cp_Headers := []; cp_Blocks := [b] |}) with
       | Some m => Some (Some (rlp_Message m))
       | None => None
       end |}.

Lemma liar_answer now b c latest n : wf_block b -> is_u64 now ->
  getRemoteChainFromLocalLatest now (wired client) (liar now b) n c (ahead latest) = Ok [b].
Proof.
  intros Hw Hu. unfold getRemoteChainFromLocalLatest.
  destruct (signed now (wired client) client [] GetChainMsg (rlp_GetChainPayload {| gc_Type := 0; gc_From := [GetLatestBlockHash c]; gc_To := GetEmptyHash |})
    (wired_signer client) Hu) as (msg & _ & Em & _); [done|].
  destruct (signed now (wired server) server [] ChainMsg (rlp_ChainPayload {| cp_Type := 0; cp_Headers := []; cp_Blocks := [b] |})
    (wired_signer server) Hu) as (m & _ & Er & _); [done|].
  eapply (chain_reply now (wired client) client _ n _ (wired server) _ _ [b] m msg (wired_signer client) (wired_signer server) Hu); [by constructor|exact Em|exact Er|].
  cbn [net_reply liar]. by rewrite Er.
Qed.

(** The node on [a1], sent [a1] once more. *)
Definition again : Chain := (ApplyBlock now (on_a now start a1) a1).2.

Definition settled (now : Z) (c : Chain) (b : FullBlock) (height : Z) : bool :=
  let x := ApplyBlock now c b in
  match x.1 with Ok [] => bool_decide (ch_db x.2 = ch_db c) | _ => false end && quiet c && (GetLatestBlockHeight c <? height) && ForkWitness.usable b.

Lemma settled_ok now c b height : settled now c b height = true ->
  ApplyBlock now c b = (Ok [], c) /\ GetLatestBlockHeight c < height /\ wf_block b.
Proof.
  unfold settled. cbv zeta. intros [[[H Hq]%andb_prop Hl]%andb_prop Hu]%andb_prop. split; [|split; [by apply Z.ltb_lt|by apply ForkWitness.usable_ok]].
  destruct (ApplyBlock now c b) as [[[|]|] c'] eqn:E; try done. cbn [fst snd] in H. apply bool_decide_eq_true_1 in H.
  by rewrite (stored_aside now c b c' E H (quiet_ok _ Hq)).
Qed.

Lemma again_settled : settled now again a1 5 = true.
Proof. vm_compute. reflexivity. Qed.

Lemma sync_loop_never_ends_witness :
  (syncLoop now (wired client) (liar now a1) 1000 O (follower again) (ahead 5)).1 = Err ErrOutOfFuel.
Proof.
  destruct (settled_ok _ _ _ _ again_settled) as (Ha & Hl & Hw).
  exact (proj1 (sync_loop_never_ends now (wired client) (liar now a1) (ahead 5) (follower again) [] a1
    (fun n => liar_answer now a1 again 5 n Hw now_u64) Ha Hl 1000%nat O)).
Defined.

End SyncWitness.
