(* ===== verification/Rpc.v ===== *)
(** * The RPC calls that change something

    Package jsonrpc: the mining calls and the pool of handed-out work, the
    submission of transactions, and the subscription hub.  A request arrives
    as its decoded parameters ([params]): JSON is the transport's.  Replies
    that are text in JSON are records of the same fields. *)

From stdpp Require Import pretty.
From S2P Require Import Prelude Params StateTrie Keys Contract Types Instances Tx Block BlockStore State StateCommit Journal Ledger Snapshot Queries Chain Pool Consensus.

(** ** Parameters and text *)

Inductive params (A : Type) := NoParams | BadParams | Params (p : A).
Arguments NoParams {A}.
Arguments BadParams {A}.
Arguments Params {A} _.

(** A missing object is dereferenced. *)
Definition unmarshal {A} (p : params A) : res A :=
  match p with NoParams => Err GoPanic | BadParams => Err ErrDecode | Params p => Ok p end.

(** encoding/hex: either case, an even number of digits. *)
Definition hex_value (c : byte) : option Z :=
  let n := byteZ c in
  if (48 <=? n) && (n <=? 57) then Some (n - 48)
  else if (97 <=? n) && (n <=? 102) then Some (n - 87)
  else if (65 <=? n) && (n <=? 70) then Some (n - 55)
  else None.

Fixpoint hex_DecodeString (s : bytes) : option bytes :=
  match s with
  | [] => Some []
  | [_] => None
  | a :: b :: rest =>
      match hex_value a, hex_value b, hex_DecodeString rest with
      | Some x, Some y, Some r => Some (Zbyte (16 * x + y) :: r)
      | _, _, _ => None
      end
  end.

(** utils/serialize.go *)
Definition HexRLPDecode {A} (dec : bytes -> option A) (s : bytes) : res A :=
  match hex_DecodeString s with
  | None => Err ErrDecode
  | Some raw => match dec raw with None => Err ErrDecode | Some a => Ok a end
  end.

(** ** workpool/expirable_map.go, workpool/pool.go *)

Record Entry := { en_Timestamp : Z; en_Value : FullBlock }.

Abbreviation ExpirableMap := (gmap string Entry).

(** [now]: unix seconds. *)
Definition em_Put (now : Z) (m : ExpirableMap) (k : string) (v : FullBlock) : ExpirableMap :=
  <[k := {| en_Timestamp := now; en_Value := v |}]> m.

(** A read refreshes the timestamp. *)
Definition em_Get (now : Z) (m : ExpirableMap) (k : string) : option FullBlock * ExpirableMap :=
  match m !! k with
  | Some it => (Some (en_Value it), <[k := {| en_Timestamp := now; en_Value := en_Value it |}]> m)
  | None => (None, m)
  end.

(** The background sweep, at the tick of a second. *)
Definition em_sweep (expire : Z -> Entry -> bool) (tick : Z) (m : ExpirableMap) : ExpirableMap :=
  filter (fun kv : string * Entry => expire tick kv.2 = false) m.

(** The predicate of the work pool: [now] is the clock when it runs, and the
    entry is not looked at. *)
Definition workExpire (now : Z) (tick : Z) (_ : Entry) : bool := 60 * 10 <? now - tick.

Definition wp_Get (now : Z) (m : ExpirableMap) (k : string) : res FullBlock * ExpirableMap :=
  match em_Get now m k with (Some v, m) => (Ok v, m) | (None, m) => (Err ErrBlockNotExists, m) end.

Definition wp_Put (now : Z) (m : ExpirableMap) (k : string) (v : FullBlock) : ExpirableMap := em_Put now m k v.

(** strconv.FormatUint(id, 10) *)
Definition FormatUint (id : Z) : string := pretty (Z.to_N id).

(** ** The subscription hub: data *)

Inductive subKind := subNewHeads | subLogs | subPendingTxs.

#[export] Instance subKind_eq_dec : EqDecision subKind.
Proof. solve_decision. Defined.

Record subscription := {
  sub_id : Z;
  sub_sess : nat;
  sub_kind : subKind;
  sub_address : option Address;
  sub_topic : option bytes
}.

Record subHub := { nextID : Z; subs : gmap Z subscription }.

Definition newSubHub : subHub := {| nextID := 0; subs := ∅ |}.

Record wsHead := { wh_Height : Z; wh_Hash : bytes; wh_PrevHash : bytes; wh_Timestamp : Z }.

Record logReply := {
  lr_Height : Z;
  lr_TxHash : bytes;
  lr_Contract : string;
  lr_Topic : bytes;
  lr_Data : bytes;
  lr_RunIndex : nat;
  lr_LogIndex : nat;
  lr_Removed : bool
}.

(** What a subscriber is sent. *)
Inductive subResult := HeadResult (h : wsHead) | LogResult (l : logReply) | TxResult (hash : bytes).
Record subNotification := { sn_id : Z; sn_result : subResult }.

(** The send channel of each session. *)
Abbreviation Channels := (gmap nat (list subNotification)).

Definition sendBuffer : nat := 64.

Definition queued (ch : Channels) (sess : nat) : list subNotification := default [] (ch !! sess).

(** A full channel drops the message. *)
Definition push (ch : Channels) (m : nat * subNotification) : Channels :=
  if (length (queued ch m.1) <? sendBuffer)%nat then <[m.1 := queued ch m.1 ++ [m.2]]> ch else ch.

(** One step of a session's writer. *)
Definition writeLoop (ch : Channels) (sess : nat) : option subNotification * Channels :=
  match queued ch sess with [] => (None, ch) | m :: rest => (Some m, <[sess := rest]> ch) end.

(** *** Ids as text *)

(** The digits of [fmt.Sprintf("%x")]; 16 are enough for 64 bits. *)
Fixpoint hex_digits (fuel : nat) (n : Z) (acc : bytes) : bytes :=
  match fuel with
  | O => acc
  | S fuel => let acc := hex_digit (n mod 16) :: acc in if n / 16 =? 0 then acc else hex_digits fuel (n / 16) acc
  end.

Definition subIDString (id : Z) : bytes := str "0x" ++ hex_digits 16 id [].

(** strconv.ParseUint for base 10 and 16: no digits, a foreign character and
    a value over 64 bits are errors. *)
Fixpoint parse_digits (base : Z) (s : bytes) (acc : Z) : res Z :=
  match s with
  | [] => Ok acc
  | c :: rest =>
      match hex_value c with
      | None => Err ErrSubID
      | Some d =>
          reject base <=? d with ErrSubID ;
          reject two64 <=? acc * base + d with ErrSubID ;
          parse_digits base rest (acc * base + d)
      end
  end.

Definition ParseUint (s : bytes) (base : Z) : res Z :=
  match s with [] => Err ErrSubID | _ => parse_digits base s 0 end.

Definition parseSubID (s : bytes) : res Z :=
  if (2 <? zlen s) && bool_decide (take 2 s = str "0x") then ParseUint (drop 2 s) 16 else ParseUint s 10.

(** *** Registration *)

Record subscribeParams := { sp_Type : bytes; sp_Address : string; sp_Topic : bytes }.

Definition parseKind (t : bytes) : option subKind :=
  if bool_decide (t = str "newHeads") then Some subNewHeads
  else if bool_decide (t = str "logs") then Some subLogs
  else if bool_decide (t = str "pendingTxs") then Some subPendingTxs
  else None.

(** The optional filters of a request; empty means any. *)
Definition optTopic (topic : bytes) : option bytes := match topic with [] => None | _ => Some topic end.

(** [subs] counts up; a 64-bit counter. *)
Definition addSub (h : subHub) (mk : Z -> subscription) : Z * subHub :=
  let id := u64 (nextID h + 1) in
  (id, {| nextID := id; subs := <[id := mk id]> (subs h) |}).

Definition unsubscribe (h : subHub) (sess : nat) (p : params bytes) : res bool * subHub :=
  match p with
  | BadParams => (Err ErrDecode, h)
  | _ =>
      match parseSubID (match p with Params s => s | _ => [] end) with
      | Err e => (Err e, h)
      | Ok id =>
          match subs h !! id with
          | Some sub =>
              if bool_decide (sub_sess sub = sess) then (Ok true, {| nextID := nextID h; subs := delete id (subs h) |}) else (Ok false, h)
          | None => (Ok false, h)
          end
      end
  end.

Definition removeSession (h : subHub) (sess : nat) : subHub :=
  {| nextID := nextID h; subs := filter (fun e : Z * subscription => sub_sess e.2 <> sess) (subs h) |}.

(** [order]: the subscriptions as the iteration over the map yields them. *)
Definition snapshot (order : list subscription) (kind : subKind) : list subscription := filter (fun s => sub_kind s = kind) order.

Definition sub_matches (s : subscription) (l : Log) : bool :=
  match sub_address s with Some a => bool_decide (ev_Contract (log_Event l) = vec_to_list a) | None => true end
  && match sub_topic s with Some t => bool_decide (ev_Topic (log_Event l) = t) | None => true end.

(** ** The handlers *)

Record GetWorkReply := { gw_WorkID : Z; gw_Block : bytes }.
Record SubmitWorkParams := { sw_WorkID : Z; sw_Nonce : bytes }.
Record getLogsParams := { gl_FromHeight : Z; gl_ToHeight : Z; gl_Address : string; gl_Topic : bytes }.
Record sendPrivateTxParams := { pt_RawCommitment : bytes; pt_RawReveal : bytes }.

Record Server := { sv_pow : PoWork; sv_work : ExpirableMap }.

(** regiser_handlers.go: the calls refused while the node syncs. *)
Definition requireSynced {A} (f : Server -> res A * Server) (s : Server) : res A * Server :=
  if pw_syncing (sv_pow s) then (Err ErrChainOnSyncing, s) else f s.

Section Rpc.
Context `{HH : Hasher} `{SL : SigLibs} `{CD : Codec} `{SC : SlotCodec} `{RC : ReceiptCodec}
  `{DC : DepsCodec} `{IF : Inflate} `{ML : MerkleLib} `{PL : PowLib} `{VM_ : ContractVM} `{SHC : SheetCodec} `{RT : Router}.

(** *** mining.go *)

(** [now] in milliseconds, [sec] in seconds, [nano] in nanoseconds. *)
Definition getWorkFunc (now sec nano : Z) (s : Server) (p : params bytes) : res GetWorkReply * Server :=
  match p with
  | BadParams => (Err ErrDecode, s)
  | _ =>
      match (let! genTx := HexRLPDecode dec_FullTx (match p with Params g => g | _ => [] end) in
             AssembleWork now (sv_pow s) genTx) with
      | Err e => (Err e, s)
      | Ok block =>
          let id := u64 nano in
          (Ok {| gw_WorkID := id; gw_Block := hex_EncodeToString (rlp_FullBlock block) |},
           {| sv_pow := sv_pow s; sv_work := wp_Put sec (sv_work s) (FormatUint id) block |})
      end
  end.

(** The stored block is copied before the nonce is put in. *)
Definition submitWorkFunc (now sec : Z) (broadcast : bool) (s : Server) (p : params SubmitWorkParams) : res unit * Server :=
  match unmarshal p with
  | Err e => (Err e, s)
  | Ok p =>
      let '(stored, work) := wp_Get sec (sv_work s) (FormatUint (sw_WorkID p)) in
      let s := {| sv_pow := sv_pow s; sv_work := work |} in
      match (let! tmpl := stored in
             let! nonce := match hex_DecodeString (sw_Nonce p) with None => Err ErrDecode | Some n => Ok n end in
             ToSealed tmpl nonce) with
      | Err e => (Err e, s)
      | Ok block => let '(r, pw) := MinedNewBlock now broadcast (sv_pow s) block in (r, {| sv_pow := pw; sv_work := sv_work s |})
      end
  end.

(** *** state_tx.go *)

Definition sv_set_pool (s : Server) (pool : TxPool) : Server :=
  {| sv_pow := pw_set_chain (sv_pow s) (pw_chain (sv_pow s)) pool; sv_work := sv_work s |}.

Definition sendTxFunc (s : Server) (p : params bytes) : res bytes * Server :=
  match (let! raw := unmarshal p in HexRLPDecode dec_FullTx raw) with
  | Err e => (Err e, s)
  | Ok tx =>
      let '(r, pool) := PutNewTxFromLocal (pw_chain (sv_pow s)) (pw_pool (sv_pow s)) tx in
      ((let! _ := r in Ok (hex_EncodeToString (GetHash tx))), sv_set_pool s pool)
  end.

Definition sendCommitmentFunc (s : Server) (p : params bytes) : res bytes * Server :=
  match (let! raw := unmarshal p in HexRLPDecode dec_Commitment raw) with
  | Err e => (Err e, s)
  | Ok commit =>
      let '(r, pool) := PutNewCommitmentFromLocal (pw_chain (sv_pow s)) (pw_pool (sv_pow s)) commit in
      ((let! _ := r in Ok (hex_EncodeToString (c_Hash commit))), sv_set_pool s pool)
  end.

Definition sendRevealFunc (s : Server) (p : params bytes) : res bytes * Server :=
  match (let! raw := unmarshal p in HexRLPDecode dec_FullTx raw) with
  | Err e => (Err e, s)
  | Ok reveal =>
      match RelayReveal (pw_chain (sv_pow s)) (pw_pool (sv_pow s)) reveal with
      | Err e => (Err e, s)
      | Ok pool => (Ok (hex_EncodeToString (UnheightedHash reveal)), sv_set_pool s pool)
      end
  end.

(** The commitment is queued first; a refused reveal does not take it back. *)
Definition sendPrivateTxFunc (s : Server) (p : params sendPrivateTxParams) : res bytes * Server :=
  match (let! p := unmarshal p in
         let! commit := HexRLPDecode dec_Commitment (pt_RawCommitment p) in
         let! reveal := HexRLPDecode dec_FullTx (pt_RawReveal p) in Ok (commit, reveal)) with
  | Err e => (Err e, s)
  | Ok (commit, reveal) =>
      match RelayCommit (pw_chain (sv_pow s)) (pw_pool (sv_pow s)) commit with
      | Err e => (Err e, s)
      | Ok pool =>
          match RelayReveal (pw_chain (sv_pow s)) pool reveal with
          | Err e => (Err e, sv_set_pool s pool)
          | Ok pool => (Ok (hex_EncodeToString (c_Hash commit)), sv_set_pool s pool)
          end
      end
  end.

(** *** logs.go *)

Definition logToReply (l : Log) : logReply :=
  {| lr_Height := log_Height l; lr_TxHash := hex_EncodeToString (log_TxHash l);
     lr_Contract := Address_BS58 (to_array 32 (ev_Contract (log_Event l))); lr_Topic := ev_Topic (log_Event l);
     lr_Data := hex_EncodeToString (ev_Data (log_Event l)); lr_RunIndex := log_RunIndex l; lr_LogIndex := log_LogIndex l;
     lr_Removed := false |}.

Definition optAddress (s : string) : res (option Address) :=
  match s with EmptyString => Ok None | _ => let! a := NewAddressFromBS58 s in Ok (Some a) end.

Definition getLogsFunc (s : Server) (p : params getLogsParams) : res (list logReply) :=
  let! p := unmarshal p in
  let! addr := optAddress (gl_Address p) in
  let c := pw_chain (sv_pow s) in
  let! logs := GetLogs (ch_State c) (ch_db c)
    {| lf_FromHeight := gl_FromHeight p; lf_ToHeight := gl_ToHeight p; lf_Address := addr; lf_Topic := optTopic (gl_Topic p) |} in
  Ok (logToReply <$> logs).

(** *** subscribe.go *)

Definition subscribe (h : subHub) (sess : nat) (p : params subscribeParams) : res bytes * subHub :=
  match p with
  | NoParams => (Err ErrSubscribeParams, h)
  | BadParams => (Err ErrDecode, h)
  | Params p =>
      match parseKind (sp_Type p) with
      | None => (Err ErrSubscribeType, h)
      | Some kind =>
          match (if bool_decide (kind = subLogs) then let! a := optAddress (sp_Address p) in Ok (a, optTopic (sp_Topic p)) else Ok (None, None)) with
          | Err e => (Err e, h)
          | Ok (addr, topic) =>
              let '(id, h) := addSub h (fun id => {| sub_id := id; sub_sess := sess; sub_kind := kind; sub_address := addr; sub_topic := topic |}) in
              (Ok (subIDString id), h)
          end
      end
  end.

Definition headOf (block : FullBlock) : wsHead :=
  {| wh_Height := blockHeight block; wh_Hash := hex_EncodeToString (Block_GetHash block);
     wh_PrevHash := hex_EncodeToString (GetPrevHash (b_Header block)); wh_Timestamp := h_Timestamp (b_Header block) |}.

Definition note (s : subscription) (r : subResult) : nat * subNotification := (sub_sess s, {| sn_id := sub_id s; sn_result := r |}).

(** The logs of the tip, as one subscriber asked for them. *)
Definition tipLogs (c : Chain) (height : Z) (s : subscription) : list Log :=
  match GetLogs (ch_State c) (ch_db c) {| lf_FromHeight := height; lf_ToHeight := height; lf_Address := sub_address s; lf_Topic := sub_topic s |} with
  | Ok logs => logs
  | Err _ => []
  end.

Definition hub_onTipChanged (c : Chain) (heads logSubs : list subscription) (ch : Channels) : res Channels :=
  let! block := getLatestBlock c in
  let heads := snapshot heads subNewHeads in
  let ch := foldl push ch ((fun s => note s (HeadResult (headOf block))) <$> heads) in
  Ok (foldl push ch (snapshot logSubs subLogs ≫= fun s => (fun l => note s (LogResult (logToReply l))) <$> tipLogs c (blockHeight block) s)).

Definition lr_set_Removed (r : logReply) (b : bool) : logReply :=
  {| lr_Height := lr_Height r; lr_TxHash := lr_TxHash r; lr_Contract := lr_Contract r; lr_Topic := lr_Topic r; lr_Data := lr_Data r;
     lr_RunIndex := lr_RunIndex r; lr_LogIndex := lr_LogIndex r; lr_Removed := b |}.

(** The inner loop for one log. *)
Definition emitLog (targets : list subscription) (wasRemoved : bool) (l : Log) : list (nat * subNotification) :=
  (fun s => note s (LogResult (lr_set_Removed (logToReply l) wasRemoved))) <$> filter (fun s => sub_matches s l = true) targets.

Definition hub_onReorg (order : list subscription) (ch : Channels) (removed added : list Log) : Channels :=
  let targets := snapshot order subLogs in
  foldl push ch ((removed ≫= emitLog targets true) ++ (added ≫= emitLog targets false)).

Definition hub_onNewTx (order : list subscription) (ch : Channels) (tx : FullTx) : Channels :=
  foldl push ch ((fun s => note s (TxResult (hex_EncodeToString (GetHash tx)))) <$> snapshot order subPendingTxs).

End Rpc.
