(* ===== verification/RpcProps.v ===== *)
(** * What the RPC promises

    Text forms round trip; the block a miner was handed is the block its
    nonce seals, however long that takes; a full pack makes templates no node
    accepts; and a subscriber gets its matching logs in order. *)

From stdpp Require Import pretty.
From S2P Require Import Prelude Params StateTrie Keys Contract Types Instances Tx Block BlockStore State StateCommit Journal VM VMToy VMProps Ledger LedgerProps Snapshot Queries Chain ChainFrames ForkChoice ForkProps Pool PoolProps Consensus ConsensusProps Rpc.

(** ** Text *)

Lemma hex_value_digit d : 0 <= d < 16 -> hex_value (hex_digit d) = Some d.
Proof.
  intros Hd. unfold hex_value, hex_digit. destruct (Z.ltb_spec d 10).
  - rewrite byteZ_Zbyte, Z.mod_small by lia. destruct (Z.leb_spec 48 (48 + d)), (Z.leb_spec (48 + d) 57); try lia. cbn. f_equal. lia.
  - rewrite byteZ_Zbyte, Z.mod_small by lia. destruct (Z.leb_spec 48 (87 + d)), (Z.leb_spec (87 + d) 57), (Z.leb_spec 97 (87 + d)), (Z.leb_spec (87 + d) 102); try lia.
    cbn. f_equal. lia.
Qed.

Lemma hex_roundtrip b : hex_DecodeString (hex_EncodeToString b) = Some b.
Proof.
  unfold hex_EncodeToString. induction b as [|x b IH]; [done|]. cbn [mbind list_bind app hex_DecodeString]. pose proof (byteZ_range x) as Hx.
  rewrite !hex_value_digit by (split; [apply Z.div_pos || apply Z.mod_pos_bound|apply Z.div_lt_upper_bound || apply Z.mod_pos_bound]; lia).
  cbn [mbind list_bind] in IH. rewrite IH. f_equal. f_equal. rewrite <-Z.div_mod by lia. apply Zbyte_byteZ.
Qed.

Lemma parse_hex_digits fuel : forall n acc, 0 <= n < 16 ^ Z.of_nat fuel -> n < two64 -> (0 < fuel)%nat ->
  parse_digits 16 (hex_digits fuel n acc) 0 = parse_digits 16 acc n.
Proof.
  assert (Step : forall a d acc, 0 <= d < 16 -> a * 16 + d < two64 -> parse_digits 16 (hex_digit d :: acc) a = parse_digits 16 acc (a * 16 + d)).
  { intros a d acc Hd Ha. cbn [parse_digits]. rewrite hex_value_digit by done.
    destruct (Z.leb_spec 16 d); [lia|]. cbn [guard]. destruct (Z.leb_spec two64 (a * 16 + d)); [lia|done]. }
  induction fuel as [|fuel IH]; intros n acc Hn Hu Hf; [lia|]. cbn [hex_digits]. cbv zeta. pose proof (Z.mod_pos_bound n 16 ltac:(lia)) as Hm.
  pose proof (Z.div_mod n 16 ltac:(lia)) as Hdm. rewrite Nat2Z.inj_succ, Z.pow_succ_r in Hn by lia.
  destruct (Z.eqb_spec (n / 16) 0) as [E|E].
  - rewrite Step by lia. f_equal. lia.
  - assert (0 <= n / 16 < 16 ^ Z.of_nat fuel) by (split; [apply Z.div_pos; lia|apply Z.div_lt_upper_bound; lia]).
    rewrite IH; [|done|lia|destruct fuel; [cbn in *; lia|lia]]. rewrite Step by lia. f_equal. lia.
Qed.

Lemma hex_digits_cons fuel : forall n acc, (0 < fuel)%nat -> exists x l, hex_digits fuel n acc = x :: l.
Proof.
  induction fuel as [|fuel IH]; intros n acc Hf; [lia|]. cbn [hex_digits]. cbv zeta. destruct (_ =? 0); [by eexists _, _|].
  destruct fuel; [by eexists _, _|]. apply IH. lia.
Qed.

(** A subscription id reads back from its text. *)
Lemma subID_roundtrip id : is_u64 id -> parseSubID (subIDString id) = Ok id.
Proof.
  unfold is_u64. intros Hid. unfold parseSubID, subIDString. destruct (hex_digits_cons 16 id [] ltac:(lia)) as (x & l & E).
  assert (Hl : (2 <? zlen (str "0x" ++ hex_digits 16 id [])) = true) by (apply Z.ltb_lt; rewrite E; unfold zlen; cbn; lia).
  rewrite Hl. change (take 2 (str "0x" ++ hex_digits 16 id [])) with (str "0x"). change (drop 2 (str "0x" ++ hex_digits 16 id [])) with (hex_digits 16 id []).
  rewrite bool_decide_eq_true_2 by done. cbn [andb]. unfold ParseUint. rewrite E, <-E.
  rewrite parse_hex_digits; [done| |lia|lia]. change (16 ^ Z.of_nat 16) with two64. lia.
Qed.

(** ** Handed-out work *)

Lemma FormatUint_inj a b : 0 <= a -> 0 <= b -> FormatUint a = FormatUint b -> a = b.
Proof. intros Ha Hb E. unfold FormatUint in E. apply (inj pretty) in E. lia. Qed.

(** What happens to the work pool while the miner searches: work under other
    ids is put in (an id is the time in nanoseconds, so work handed out later
    has another one), work is read, and the sweep runs.  The sweep compares
    the clock with the tick that woke it: it is assumed to get to run within
    600 seconds of its tick. *)
Inductive work_step (id : Z) : ExpirableMap -> ExpirableMap -> Prop :=
  | ws_put sec id' v m : is_u64 id' -> id' <> id -> work_step id m (wp_Put sec m (FormatUint id') v)
  | ws_get sec id' m : work_step id m (wp_Get sec m (FormatUint id')).2
  | ws_sweep now tick m : now - tick <= 600 -> work_step id m (em_sweep (workExpire now) tick m).

Definition has_work (m : ExpirableMap) (k : string) (b : FullBlock) : Prop := exists it, m !! k = Some it /\ en_Value it = b.

Lemma wp_Get_has sec m k k' b : has_work m k b -> has_work (wp_Get sec m k').2 k b.
Proof.
  intros (it & Hi & Hv). unfold wp_Get, em_Get. destruct (m !! k') as [it'|] eqn:E; [|by exists it]. cbn.
  destruct (decide (k' = k)) as [->|]; [|exists it; by rewrite lookup_insert_ne].
  rewrite Hi in E. injection E as <-. eexists. by rewrite lookup_insert_eq.
Qed.

Lemma work_step_has id b m m' : is_u64 id -> work_step id m m' -> has_work m (FormatUint id) b -> has_work m' (FormatUint id) b.
Proof.
  intros Hid [sec id' v m1 Hu Hne|sec id' m1|now tick m1 Hn] Hw.
  - destruct Hw as (it & Hi & Hv). exists it. unfold wp_Put, em_Put, is_u64 in *. rewrite lookup_insert_ne; [done|]. intros E%FormatUint_inj; lia.
  - by apply wp_Get_has.
  - destruct Hw as (it & Hi & Hv). exists it. split; [|done]. unfold em_sweep. apply map_lookup_filter_Some. split; [done|].
    unfold workExpire. apply Z.ltb_ge. lia.
Qed.

Lemma work_kept id b m m' : is_u64 id -> rtc (work_step id) m m' -> has_work m (FormatUint id) b -> has_work m' (FormatUint id) b.
Proof. intros Hid. induction 1 as [|m1 m2 m3 Hs _ IH]; [done|]. intros Hw. apply IH. by eapply work_step_has. Qed.

Lemma wp_Put_has sec m k b : has_work (wp_Put sec m k b) k b.
Proof. eexists. unfold wp_Put, em_Put. by rewrite lookup_insert_eq. Qed.

Section Work.
Context `{HH : Hasher} `{SL : SigLibs} `{CD : Codec} `{SC : SlotCodec} `{RC : ReceiptCodec}
  `{DC : DepsCodec} `{IF : Inflate} `{ML : MerkleLib} `{PL : PowLib} `{VM_ : ContractVM} `{SHC : SheetCodec}.

Lemma getWork_Ok now sec nano s p reply s1 : getWorkFunc now sec nano s p = (Ok reply, s1) ->
  exists gen block, HexRLPDecode dec_FullTx (match p with Params g => g | _ => [] end) = Ok gen /\ AssembleWork now (sv_pow s) gen = Ok block
    /\ reply = {| gw_WorkID := u64 nano; gw_Block := hex_EncodeToString (rlp_FullBlock block) |}
    /\ s1 = {| sv_pow := sv_pow s; sv_work := wp_Put sec (sv_work s) (FormatUint (u64 nano)) block |}.
Proof.
  unfold getWorkFunc. intros Hg. destruct (HexRLPDecode dec_FullTx _) as [gen|e] eqn:Ed; [|by destruct p]. cbn [res_bind] in Hg.
  destruct (AssembleWork now (sv_pow s) gen) as [block|e] eqn:Ea; [|by destruct p]. exists gen, block. destruct p; [|done|]; by simplify_eq.
Qed.

(** C22 - The nonce seals the block that was handed out.  After [getWork] the
    reply carries the assembled block, and whatever the work pool goes
    through since then - other work, reads, any number of sweeps - submitting
    a nonce under its id seals and imports exactly that block, on whatever
    chain the node has by then, and leaves the stored block unsealed for
    another try.  In particular the sweep never expires work. *)
Theorem nonce_seals_handed_out_work now sec nano s p reply s1 work :
  getWorkFunc now sec nano s p = (Ok reply, s1) -> is_u64 nano ->
  rtc (work_step nano) (sv_work s1) work ->
  exists gen block, HexRLPDecode dec_FullTx (match p with Params g => g | _ => [] end) = Ok gen
    /\ AssembleWork now (sv_pow s) gen = Ok block
    /\ gw_WorkID reply = nano /\ hex_DecodeString (gw_Block reply) = Some (rlp_FullBlock block)
    /\ forall now' sec' bc pw nonce, exists work',
         has_work work' (FormatUint nano) block
         /\ submitWorkFunc now' sec' bc {| sv_pow := pw; sv_work := work |} (Params {| sw_WorkID := nano; sw_Nonce := hex_EncodeToString nonce |})
            = match ToSealed block nonce with
              | Err e => (Err e, {| sv_pow := pw; sv_work := work' |})
              | Ok b => ((MinedNewBlock now' bc pw b).1, {| sv_pow := (MinedNewBlock now' bc pw b).2; sv_work := work' |})
              end.
Proof.
  intros Hg Hu Hr. destruct (getWork_Ok _ _ _ _ _ _ _ Hg) as (gen & block & Ed & Ea & -> & ->). rewrite u64_id in Hr |- * by done.
  cbn [sv_work gw_WorkID gw_Block] in *. exists gen, block. split_and!; [done|done|done|apply hex_roundtrip|]. intros now' sec' bc pw nonce.
  pose proof (work_kept _ _ _ _ Hu Hr (wp_Put_has sec (sv_work s) (FormatUint nano) block)) as Hw.
  exists (wp_Get sec' work (FormatUint nano)).2. split; [by apply wp_Get_has|].
  destruct Hw as (it & Hi & Hv). unfold submitWorkFunc. cbn [unmarshal sv_work sw_WorkID sw_Nonce]. unfold wp_Get, em_Get. rewrite Hi. cbn [sv_pow sv_work].
  rewrite Hv. cbn [res_bind]. rewrite hex_roundtrip. cbn [res_bind]. destruct (ToSealed block nonce) as [b|e]; [|done].
  by destruct (MinedNewBlock now' bc pw b).
Qed.

End Work.

(** ** Subscriptions *)

(** The channel of a session after a run of pushes: its old content and what
    was meant for it, cut at the buffer. *)
Lemma push_all ms : forall ch sess, (length (queued ch sess) <= sendBuffer)%nat ->
  queued (foldl push ch ms) sess = take sendBuffer (queued ch sess ++ (filter (fun m => m.1 = sess) ms).*2).
Proof.
  induction ms as [|m ms IH]; intros ch sess Hl; [by rewrite app_nil_r, take_ge|]. cbn [foldl].
  assert (Hq : queued (push ch m) sess = (if decide (m.1 = sess) then if (length (queued ch sess) <? sendBuffer)%nat then queued ch sess ++ [m.2] else queued ch sess
                                          else queued ch sess)).
  { unfold push. case_decide as E; [subst sess|].
    - destruct (Nat.ltb_spec (length (queued ch m.1)) sendBuffer); [|done]. unfold queued at 1. by rewrite lookup_insert_eq.
    - destruct (Nat.ltb_spec (length (queued ch m.1)) sendBuffer); [|done]. unfold queued at 1. by rewrite lookup_insert_ne. }
  rewrite IH, Hq.
  - case_decide as E; [rewrite filter_cons_True by done|by rewrite filter_cons_False]. cbn [fmap list_fmap].
    destruct (Nat.ltb_spec (length (queued ch sess)) sendBuffer); [by rewrite <-app_assoc|].
    by rewrite !take_app_le by lia.
  - rewrite Hq. case_decide; [|done]. destruct (Nat.ltb_spec (length (queued ch sess)) sendBuffer); [rewrite length_app; cbn; lia|done].
Qed.

Section Hub.
Context `{HH : Hasher} `{SL : SigLibs} `{CD : Codec} `{SC : SlotCodec} `{RC : ReceiptCodec}
  `{DC : DepsCodec} `{IF : Inflate} `{ML : MerkleLib} `{PL : PowLib} `{VM_ : ContractVM} `{SHC : SheetCodec}.

(** The registrations a hub goes through; the 64-bit counter is far from its
    end. *)
Inductive hub_step : subHub -> subHub -> Prop :=
  | hs_subscribe h sess p : nextID h + 1 < two64 -> hub_step h (subscribe h sess p).2
  | hs_unsubscribe h sess p : hub_step h (unsubscribe h sess p).2
  | hs_remove h sess : hub_step h (removeSession h sess).

Record hub_ok (h : subHub) : Prop := {
  hk_next : 0 <= nextID h;
  hk_id : forall id s, subs h !! id = Some s -> sub_id s = id /\ 0 < id <= nextID h
}.

Lemma hub_step_ok h h' : hub_step h h' -> hub_ok h -> hub_ok h'.
Proof.
  intros [h0 sess p Hn|h0 sess p|h0 sess] [Hx Hi].
  - unfold subscribe. destruct p as [| |p]; [by split..|]. destruct (parseKind _) as [kind|]; [|by split].
    destruct (if bool_decide _ then _ else _) as [[a t]|e]; [|by split]. unfold addSub. cbn. rewrite u64_id by (unfold is_u64; lia). split; cbn; [lia|].
    intros id s [[<- <-]|[Hne E]]%lookup_insert_Some; [cbn; lia|]. destruct (Hi id s E). split; [done|lia].
  - unfold unsubscribe. destruct p as [| |p]; [|by split|];
      (destruct (parseSubID _) as [id|]; [|by split]; destruct (subs h0 !! id) as [s|] eqn:E; [|by split]; case_bool_decide; [|by split]; split; cbn; [lia|];
       intros id' s' [Hne E']%lookup_delete_Some; by apply Hi).
  - split; cbn; [lia|]. intros id s [E _]%map_lookup_filter_Some. by apply Hi.
Qed.

Lemma hub_run_ok h h' : rtc hub_step h h' -> hub_ok h -> hub_ok h'.
Proof. induction 1 as [|h1 h2 h3 Hs _ IH]; [done|]. intros Hok. apply IH. by eapply hub_step_ok. Qed.

(** The messages of one subscription among what is sent. *)
Definition picked (sess : nat) (id : Z) (ms : list (nat * subNotification)) : list subResult :=
  sn_result <$> filter (fun m => sn_id m = id) ((filter (fun m : nat * subNotification => m.1 = sess) ms).*2).

Lemma picked_app sess id a b : picked sess id (a ++ b) = picked sess id a ++ picked sess id b.
Proof. unfold picked. by rewrite filter_app, fmap_app, filter_app, fmap_app. Qed.

Definition marked (removed : bool) (l : Log) : subResult := LogResult (lr_set_Removed (logToReply l) removed).

Lemma picked_cons sess id m ms : picked sess id (m :: ms) = (if decide (m.1 = sess /\ sn_id m.2 = id) then [sn_result m.2] else []) ++ picked sess id ms.
Proof.
  unfold picked. destruct (decide (m.1 = sess)) as [E|E].
  - rewrite filter_cons_True by done. cbn [fmap list_fmap]. destruct (decide (sn_id m.2 = id)) as [E'|E'].
    + rewrite filter_cons_True by done. rewrite decide_True by done. done.
    + rewrite filter_cons_False by done. rewrite decide_False by tauto. done.
  - rewrite filter_cons_False by done. rewrite decide_False by tauto. done.
Qed.

Lemma picked_emit_none sess id targets b l : id ∉ (sub_id <$> targets) -> picked sess id (emitLog targets b l) = [].
Proof.
  unfold emitLog. induction targets as [|t ts IH]; intros Hn; [done|]. rewrite fmap_cons, not_elem_of_cons in Hn. destruct Hn as [Hne Hn].
  destruct (decide (sub_matches t l = true)); [rewrite filter_cons_True by done|rewrite filter_cons_False by done; by apply IH].
  rewrite fmap_cons, picked_cons, decide_False by (cbn; naive_solver). by apply IH.
Qed.

Lemma picked_emit s targets b l : NoDup (sub_id <$> targets) -> s ∈ targets ->
  picked (sub_sess s) (sub_id s) (emitLog targets b l) = (if sub_matches s l then [marked b l] else []).
Proof.
  unfold emitLog. induction targets as [|t ts IH]; intros Hd Hin; [by apply elem_of_nil in Hin|]. rewrite fmap_cons, NoDup_cons in Hd. destruct Hd as [Hn Hd].
  apply elem_of_cons in Hin as [->|Hin].
  - pose proof (picked_emit_none (sub_sess t) (sub_id t) ts b l Hn) as Hnone. unfold emitLog in Hnone. destruct (sub_matches t l) eqn:E.
    + rewrite filter_cons_True by done. rewrite fmap_cons, picked_cons, decide_True by done. by rewrite Hnone.
    + rewrite filter_cons_False by (by rewrite E). done.
  - assert (Hne : sub_id t <> sub_id s) by (intros E; apply Hn; rewrite E; by apply list_elem_of_fmap_2).
    destruct (decide (sub_matches t l = true)); [rewrite filter_cons_True by done|rewrite filter_cons_False by done; by apply IH].
    rewrite fmap_cons, picked_cons, decide_False by (cbn; naive_solver). by apply IH.
Qed.

Lemma picked_logs s targets b logs : NoDup (sub_id <$> targets) -> s ∈ targets ->
  picked (sub_sess s) (sub_id s) (logs ≫= emitLog targets b) = marked b <$> filter (fun l => sub_matches s l = true) logs.
Proof.
  intros Hd Hin. induction logs as [|l logs IH]; [done|]. rewrite bind_cons, picked_app, IH, (picked_emit s targets b l Hd Hin).
  destruct (sub_matches s l) eqn:E; [rewrite filter_cons_True by done|rewrite filter_cons_False by (by rewrite E)]; done.
Qed.

Lemma targets_ids h order : hub_ok h -> order ≡ₚ (map_to_list (subs h)).*2 -> NoDup (sub_id <$> snapshot order subLogs).
Proof.
  intros [_ Hi] Hp. assert (Hd : NoDup (sub_id <$> order)).
  { rewrite Hp, <-list_fmap_compose. rewrite (list_fmap_ext _ fst (map_to_list (subs h))); [apply NoDup_fst_map_to_list|].
    intros k [id s] Hk. apply list_elem_of_lookup_2, elem_of_map_to_list in Hk. by destruct (Hi id s Hk). }
  unfold snapshot. clear Hp. induction order as [|t ts IH]; [done|]. rewrite fmap_cons, NoDup_cons in Hd. destruct Hd as [Hn Hd].
  destruct (decide (sub_kind t = subLogs)); [rewrite filter_cons_True by done|rewrite filter_cons_False by done; by apply IH].
  rewrite fmap_cons, NoDup_cons. split; [|by apply IH]. intros (u & E & [_ Hu]%list_elem_of_filter)%list_elem_of_fmap. apply Hn. rewrite E. by apply list_elem_of_fmap_2.
Qed.

Lemma elem_emit order b logs m : m ∈ (logs ≫= emitLog (snapshot order subLogs) b) ->
  exists s, s ∈ order /\ sub_kind s = subLogs /\ m.1 = sub_sess s /\ sn_id m.2 = sub_id s.
Proof.
  intros (l & Hm & _)%list_elem_of_bind. unfold emitLog in Hm. apply list_elem_of_fmap in Hm as (s & -> & [_ Hs]%list_elem_of_filter).
  apply list_elem_of_filter in Hs as [Hk Hs]. by exists s.
Qed.

(** C25 - A subscriber gets its logs.  In any hub the registrations lead to,
    and in whatever order the map is walked, a reorganisation queues for each
    log subscription exactly the orphaned logs its filter matches, marked
    removed, and after them the matching re-added ones, in order; a session
    is only ever sent messages of its own live subscriptions; and what does
    not fit into the 64 places of the channel is dropped from the end. *)
Theorem subscriber_gets_its_logs h order ch removed added sess :
  rtc hub_step newSubHub h -> order ≡ₚ (map_to_list (subs h)).*2 -> (length (queued ch sess) <= sendBuffer)%nat ->
  exists sent, queued (hub_onReorg order ch removed added) sess = take sendBuffer (queued ch sess ++ sent)
    /\ (forall m, m ∈ sent -> exists s, subs h !! sn_id m = Some s /\ sub_sess s = sess /\ sub_kind s = subLogs)
    /\ (forall id s, subs h !! id = Some s -> sub_sess s = sess -> sub_kind s = subLogs ->
          sn_result <$> filter (fun m => sn_id m = id) sent
          = (marked true <$> filter (fun l => sub_matches s l = true) removed) ++ (marked false <$> filter (fun l => sub_matches s l = true) added)).
Proof.
  intros Hr Hp Hl. assert (Hok : hub_ok h) by (apply (hub_run_ok _ _ Hr); split; cbn; [done|intros id s; by rewrite lookup_empty]).
  eexists. split; [apply push_all, Hl|]. split.
  - intros m (mm & -> & [E Hm]%list_elem_of_filter)%list_elem_of_fmap.
    assert (exists s, s ∈ order /\ sub_kind s = subLogs /\ mm.1 = sub_sess s /\ sn_id mm.2 = sub_id s) as (s & Hs & Hk & H1 & H2)
      by (apply elem_of_app in Hm as [Hm|Hm]; by eapply elem_emit).
    rewrite Hp in Hs. apply list_elem_of_fmap in Hs as ([id s'] & -> & Hid%elem_of_map_to_list). cbn in *. destruct (hk_id _ Hok id s' Hid) as [<- _].
    exists s'. rewrite H2. split; [done|]. split; [congruence|done].
  - intros id s Hs Hse Hk. destruct (hk_id _ Hok id s Hs) as [Hid _]. pose proof (targets_ids h order Hok Hp) as Hd.
    assert (Hin : s ∈ snapshot order subLogs).
    { apply list_elem_of_filter. split; [done|]. rewrite Hp. apply list_elem_of_fmap. exists (id, s). split; [done|]. by apply elem_of_map_to_list. }
    rewrite <-(picked_logs s _ true removed Hd Hin), <-(picked_logs s _ false added Hd Hin), <-picked_app. by rewrite <-Hid, <-Hse.
Qed.

End Hub.

(** ** Templates of a full pool *)

Section FullPack.
Context `{HH : Hasher} `{SL : SigLibs} `{CD : Codec} `{SC : SlotCodec} `{RC : ReceiptCodec}
  `{DC : DepsCodec} `{IF : Inflate} `{ML : MerkleLib} `{PL : PowLib} `{VM_ : ContractVM} `{SHC : SheetCodec}.

Lemma oversized_CheckError now b : MaxBlockTxCount < zlen (b_Txs b) -> CheckError now b = Err ErrBlockTxsExcess.
Proof. intros H. unfold CheckError. cbv zeta. by destruct (Z.ltb_spec MaxBlockTxCount (zlen (b_Txs b))); [|lia]. Qed.

(** No import path takes a block its own check refuses. *)
Lemma unsound_refused now bc pw b e0 : CheckError now b = Err e0 -> IsGenesis b <> Ok true ->
  exists e, (MinedNewBlock now bc pw b).1 = Err e /\ ch_db (pw_chain (MinedNewBlock now bc pw b).2) = ch_db (pw_chain pw).
Proof.
  intros Hc Hg. unfold MinedNewBlock. destruct (pw_syncing pw); [by eexists|].
  assert (E : exists e v, importBlock now (ch_State (pw_chain pw)) b (ch_db (pw_chain pw)) (clearReorg (ch_volatile (pw_chain pw))) = (Err e, v)).
  { unfold importBlock, tx_bind, tx_read. destruct (GetLatestHash _) as [lh|]; [|by eexists _, _]. case_bool_decide.
    - unfold extendTip, tx_bind, tx_read, checkBlockTxn. destruct (IsGenesis b) as [[|]|]; [done| |by eexists _, _]. cbn [res_bind]. rewrite Hc. by eexists _, _.
    - unfold importSide, tx_bind, tx_read. destruct (GetBlockByHash _ _) as [q|]; [|by eexists _, _]. unfold checkBranchBlock. rewrite Hc. by eexists _, _. }
  destruct E as (e & v & E). unfold pow_ApplyBlock, ApplyBlock, run_update. rewrite E. by eexists.
Qed.

Lemma ToUnsealing_txs x txs y : ToUnsealing x txs = Ok y -> zlen (b_Txs y) = zlen txs.
Proof.
  unfold ToUnsealing. destruct txs as [|gen rest]; [done|]. destruct (negb _); [done|]. cbn [guard]. destruct (checkUnsealingTxs _ _); [|done]. cbn [res_bind].
  intros [= <-]. cbn [b_Txs]. unfold NewTxTrie, zlen. by rewrite sort_by_perm.
Qed.

Lemma template_txs rnd now pw k x y h : bareTemplate now pw = Ok (y, h) -> GetBlockTemplate rnd now pw k = Ok x -> b_Txs x <> [] ->
  zlen (GetPack (pw_pool pw) h) < zlen (b_Txs x).
Proof.
  intros Hb Ht Hn. unfold GetBlockTemplate in Ht. rewrite Hb in Ht. cbn [res_bind] in Ht. assert (Ey : b_Txs y = []).
  { unfold bareTemplate in Hb. destruct (getLatestBlock _); [|done]. cbn [res_bind] in Hb. destruct (GetNextDiff _ _ _); [|done]. by injection Hb as <- _. }
  destruct (templateUncles pw y h) as [u rewards] eqn:Eu. assert (Ex : b_Txs u = []).
  { unfold templateUncles in Eu. destruct (CollectUncles _); injection Eu as <- _; done. }
  destruct (NewAddress k) as [addr|]; [|done]. cbn [res_bind] in Ht. destruct (CreateGenerateTx _ _ _ _ _) as [gen|]; [|done]. cbn [res_bind] in Ht.
  set (z := SetCommits (SetCoinbase u addr) _) in Ht. assert (Ez : b_Txs z = []) by done. clearbody z.
  assert (G : forall v, match DryApplyRoot (ch_State (pw_chain pw)) (ch_db (pw_chain pw)) v with
      | Ok root => Ok (set_StateRoot v root) | Err GoPanic => Err GoPanic | Err _ => Ok v end = Ok x -> b_Txs x = b_Txs v).
  { intros v. destruct (DryApplyRoot _ _ v) as [root|e]; [by intros [= <-]|]. by destruct e; try (intros [= <-]). }
  destruct (ToUnsealing z _) as [v|e] eqn:Et.
  - cbn [res_bind] in Ht. rewrite (G v Ht), (ToUnsealing_txs _ _ _ Et). unfold zlen. rewrite length_cons, length_app. lia.
  - exfalso. apply Hn. rewrite <-Ez. apply G. destruct e; cbn [res_bind] in Ht; done.
Qed.

Lemma assembled_txs now pw gen x y h : bareTemplate now pw = Ok (y, h) -> AssembleWork now pw gen = Ok x -> zlen (GetPack (pw_pool pw) h) < zlen (b_Txs x).
Proof.
  intros Hb Ha. unfold AssembleWork, GetBareBlockTemplateWithTxs in Ha. rewrite Hb in Ha. cbn [res_bind] in Ha.
  destruct (templateUncles pw _ h) as [u rewards]. cbn [res_bind] in Ha. destruct (ToUnsealing _ _) as [v|] eqn:Et; [|done]. cbn [res_bind] in Ha.
  destruct (DryApplyRoot _ _ _) as [root|]; [|done]. injection Ha as <-. change (b_Txs (set_StateRoot v root)) with (b_Txs v).
  rewrite (ToUnsealing_txs _ _ _ Et). unfold zlen. rewrite length_cons, length_app. lia.
Qed.

(** Whatever nonce seals the template, every import path refuses it. *)
Definition hopeless (pw : PoWork) (x : FullBlock) : Prop :=
  forall now bc nonce b, ToSealed x nonce = Ok b -> IsGenesis b <> Ok true ->
    CheckError now b = Err ErrBlockTxsExcess
    /\ exists e, (MinedNewBlock now bc pw b).1 = Err e /\ ch_db (pw_chain (MinedNewBlock now bc pw b).2) = ch_db (pw_chain pw).

Lemma oversized_hopeless pw x : MaxBlockTxCount < zlen (b_Txs x) -> hopeless pw x.
Proof.
  intros Hl now bc nonce b Hs Hg.
  assert (Hbx : b_Txs b = b_Txs x) by (unfold ToSealed in Hs; destruct (negb (IsUnsealing x)); [done|]; cbn [guard] in Hs; destruct (negb _); [done|]; by injection Hs as <-).
  rewrite <-Hbx in Hl. pose proof (oversized_CheckError now b Hl) as Hc. split; [done|by eapply unsound_refused].
Qed.

(** C37 - A full pack stops mining.  When the pool fills a pack, a template
    adds the generate of the miner to it and so holds more transactions than
    a block may, on both ways of making one: whatever nonce seals it, every
    import path refuses the block and the chain stays where it is. *)
Theorem full_pack_stops_mining now pw y h :
  bareTemplate now pw = Ok (y, h) -> zlen (GetPack (pw_pool pw) h) = MaxTxsPerPack ->
  (forall rnd k x, GetBlockTemplate rnd now pw k = Ok x -> b_Txs x = [] \/ hopeless pw x)
  /\ (forall gen x, AssembleWork now pw gen = Ok x -> hopeless pw x).
Proof.
  intros Hb Hp. change MaxTxsPerPack with MaxBlockTxCount in Hp. split.
  - intros rnd k x Ht. destruct (decide (b_Txs x = [])) as [|Hn]; [by left|right]. apply oversized_hopeless. rewrite <-Hp. by eapply template_txs.
  - intros gen x Ha. apply oversized_hopeless. rewrite <-Hp. by eapply assembled_txs.
Qed.

End FullPack.

(** ** Concrete calls *)

Module RpcWitness.

#[local] Existing Instance prefix_hasher.
#[local] Existing Instance toy_libs.
#[local] Existing Instance toy_codec.
#[local] Existing Instance toy_slot_codec.
#[local] Existing Instance toy_toll.
#[local] Existing Instance RunWitness.engine.
#[local] Existing Instance LedgerWitness.receipts.
#[local] Existing Instance LedgerWitness.deps.
#[local] Existing Instance LedgerWitness.inflate.
#[local] Existing Instance LedgerWitness.merkle.
#[local] Existing Instance LedgerWitness.text.
#[local] Existing Instance ForkWitness.pow.
#[local] Existing Instance ForkWitness.sheets.

(** 512 transactions for the next block, one per address. *)
Definition crowd : list (Address * FullTx) :=
  (fun i => (to_array 32 (be_bytes 2 i), NewUnsignedTx ZERONET TransactTx 1 (to_array 32 (be_bytes 2 i)) (Some i) (Some i) [])) <$> seqZ 0 512.

Definition busy : PoWork := pw_set_chain BurstWitness.miner ForkWitness.node (p_set_txMap Pool_Init (list_to_map crowd)).

Fixpoint ascending (l : list Z) : bool :=
  match l with a :: ((b :: _) as rest) => (a <? b) && ascending rest | _ => true end.

Lemma ascending_NoDup {A} (f : A -> Z) l : ascending (f <$> l) = true -> NoDup l.
Proof.
  intros H. apply (NoDup_fmap_1 f). assert (Hs : StronglySorted Z.lt (f <$> l)).
  { apply Sorted_StronglySorted; [intros ? ? ?; apply Z.lt_trans|]. induction (f <$> l) as [|a [|b r] IH]; [constructor|repeat constructor|].
    cbn [ascending] in H. apply andb_prop in H as [H1%Z.ltb_lt H2]. constructor; [by apply IH|by constructor]. }
  clear H. induction Hs as [|a r _ IH Hf]; constructor; [|done]. intros Hin. rewrite Forall_forall in Hf. specialize (Hf a Hin). lia.
Qed.

Lemma dedup_all {A} (key : A -> bytes) l : forall seen, NoDup (key <$> l) -> (forall x, x ∈ l -> key x ∉ seen) -> dedupByKey key seen l = l.
Proof.
  induction l as [|x l IH]; intros seen Hd Hn; [done|]. cbn [dedupByKey]. rewrite fmap_cons, NoDup_cons in Hd. destruct Hd as [Hx Hd].
  rewrite bool_decide_eq_false_2 by (apply Hn; left). f_equal. apply IH; [done|]. intros y Hy [E%elem_of_singleton|E]%elem_of_union.
  - apply Hx. rewrite <-E. by apply list_elem_of_fmap_2.
  - apply (Hn y); [by right|done].
Qed.

Definition crowded (kvs : list (Address * FullTx)) (h : Z) : bool :=
  ascending ((fun kv => be_Z (vec_to_list kv.1)) <$> kvs) && ascending ((fun kv => be_Z (GetHash kv.2)) <$> kvs)
  && forallb (fun kv => tx_Height kv.2 =? h) kvs && (zlen kvs =? MaxTxsPerPack).

Lemma crowded_full kvs h p : crowded kvs h = true -> zlen (GetPack (p_set_txMap p (list_to_map kvs)) h) = MaxTxsPerPack.
Proof.
  unfold crowded. intros [[[H1 H2]%andb_prop H3]%andb_prop H4%Z.eqb_eq]%andb_prop. rewrite forallb_forall in H3.
  assert (N1 : NoDup kvs.*1) by (apply (ascending_NoDup (fun k => be_Z (vec_to_list k))); by rewrite <-list_fmap_compose).
  assert (N2 : NoDup (GetHash <$> kvs.*2)) by (apply (ascending_NoDup be_Z); by rewrite <-!list_fmap_compose).
  set (order := values (txMap (p_set_txMap p (list_to_map kvs)))).
  assert (Ho : order ≡ₚ kvs.*2) by (unfold order, values; cbn [txMap p_set_txMap]; by rewrite (map_to_list_to_map kvs N1)).
  assert (Hf : filter (fun tx => tx_Height tx = h) order ≡ₚ kvs.*2).
  { rewrite Ho. apply reflexive_eq. clear -H3. induction kvs as [|kv kvs IH]; [done|]. rewrite fmap_cons, filter_cons_True.
    - f_equal. apply IH. intros x Hx. apply H3. by right.
    - apply Z.eqb_eq, H3. by left. }
  unfold GetPack. fold order. rewrite GetPack_take. unfold NewTxTrie, zlen. rewrite sort_by_perm, length_take. unfold ranked.
  rewrite dedup_all; [|by rewrite merge_sort_Permutation, Hf|intros x _; apply not_elem_of_empty]. rewrite merge_sort_Permutation, Hf, length_fmap. unfold zlen in H4. change MaxTxsPerPack with 512 in *. lia.
Qed.

Lemma crowd_crowded : crowded crowd 1 = true.
Proof. vm_compute. reflexivity. Qed.

Definition next_is (now : Z) (pw : PoWork) (height : Z) : bool := match bareTemplate now pw with Ok (_, h) => h =? height | Err _ => false end.

Lemma next_is_ok now pw height : next_is now pw height = true -> exists y, bareTemplate now pw = Ok (y, height).
Proof. unfold next_is. destruct (bareTemplate now pw) as [[y h]|]; [|done]. intros ->%Z.eqb_eq. by exists y. Qed.

Lemma busy_next : next_is ForkWitness.now busy 1 = true.
Proof. vm_compute. reflexivity. Qed.

Lemma full_pack_stops_mining_witness :
  zlen (GetPack (pw_pool busy) 1) = MaxTxsPerPack /\ (forall gen x, AssembleWork ForkWitness.now busy gen = Ok x -> hopeless busy x).
Proof.
  destruct (next_is_ok _ _ _ busy_next) as [y Hb]. split; [exact (crowded_full crowd 1 Pool_Init crowd_crowded)|].
  exact (proj2 (full_pack_stops_mining ForkWitness.now busy y 1 Hb (crowded_full crowd 1 Pool_Init crowd_crowded))).
Defined.

(** A miner asks for work on the genesis block, a sweep runs, and it comes
    back. *)
Definition server : Server := {| sv_pow := BurstWitness.fresh; sv_work := ∅ |}.
Definition asked : params bytes := Params (hex_EncodeToString (rlp_FullTx ForkWitness.reward)).

Lemma work_given : is_ok (getWorkFunc ForkWitness.now 7 5 server asked).1 = true.
Proof. vm_compute. reflexivity. Qed.

Lemma nonce_seals_handed_out_work_witness :
  exists reply s1 block, getWorkFunc ForkWitness.now 7 5 server asked = (Ok reply, s1)
    /\ gw_WorkID reply = 5 /\ hex_DecodeString (gw_Block reply) = Some (rlp_FullBlock block).
Proof.
  pose proof work_given as H. destruct (getWorkFunc ForkWitness.now 7 5 server asked) as [r s1] eqn:E. apply is_ok_Ok in H as [reply Er]. cbn [fst] in Er. subst r.
  destruct (nonce_seals_handed_out_work ForkWitness.now 7 5 server asked reply s1 (em_sweep (workExpire 9) 9 (sv_work s1)) E)
    as (gen & block & _ & _ & Hid & Hb & _).
  - split; [discriminate|reflexivity].
  - apply rtc_once. apply ws_sweep. discriminate.
  - exists reply, s1, block. split; [reflexivity|]. split; [exact Hid|exact Hb].
Defined.

(** One log subscription of session 3, without a filter. *)
Definition anyLogs : params subscribeParams := Params {| sp_Type := str "logs"; sp_Address := ""%string; sp_Topic := [] |}.
Definition hub : subHub := (subscribe newSubHub 3 anyLogs).2.
Definition orphaned : Log :=
  {| log_Height := 1; log_TxHash := []; log_RunIndex := 0; log_LogIndex := 0; log_Event := {| ev_Contract := []; ev_Topic := str "t"; ev_Data := [] |} |}.

Lemma subscriber_gets_its_logs_witness :
  exists sent, queued (hub_onReorg ((map_to_list (subs hub)).*2) ∅ [orphaned] []) 3 = take sendBuffer sent
    /\ sn_result <$> filter (fun m => sn_id m = 1) sent = [marked true orphaned].
Proof.
  destruct (subscriber_gets_its_logs hub ((map_to_list (subs hub)).*2) ∅ [orphaned] [] 3) as (sent & Hq & _ & Hs).
  - apply rtc_once, hs_subscribe. reflexivity.
  - reflexivity.
  - apply Nat.le_0_l.
  - exists sent. split; [exact Hq|].
    exact (Hs 1 {| sub_id := 1; sub_sess := 3; sub_kind := subLogs; sub_address := None; sub_topic := None |} eq_refl eq_refl eq_refl).
Defined.

End RpcWitness.
