(* ===== verification/Amount.v ===== *)
(** * Amounts as text

    How the RPC server and the wallet read an amount of NG: [ngAmount] of
    jsonrpc/utils.go and its copy [parseNG] of cmd/ngcore/cli_tools.go, over
    math/big's [Rat.SetString] and [Int.SetString] (number scanning of
    natconv.go, ratconv.go and intconv.go of the standard library). *)

From Stdlib Require Import QArith.Qcanon QArith.QArith.
From S2P Require Import Prelude.

Global Open Scope Z_scope.

(** ** Scanning *)

Definition chr (s : String.string) : byte := default Byte.x00 (head (str s)).

(** The value of a digit or letter; larger than any base otherwise. *)
Definition digit_value (c : byte) : Z :=
  let n := byteZ c in
  if (48 <=? n) && (n <=? 57) then n - 48
  else if (97 <=? n) && (n <=? 122) then n - 97 + 10
  else if (65 <=? n) && (n <=? 90) then n - 65 + 10
  else 63.

(** [sc_prev]: a digit is "0", a separator "_", anything else ".". *)
Record scanState := {
  sc_val : Z; sc_count : Z; sc_dp : Z; sc_prev : byte; sc_inval : bool; sc_frac : bool
}.

(** The digits of one number; the rest is unread. *)
Fixpoint scan_loop (base b : Z) (s : bytes) (st : scanState) : scanState * bytes :=
  match s with
  | [] => (st, [])
  | ch :: rest =>
      if bool_decide (ch = chr ".") && sc_frac st then
        scan_loop base b rest
          {| sc_val := sc_val st; sc_count := sc_count st; sc_dp := sc_count st; sc_prev := chr ".";
             sc_inval := sc_inval st || bool_decide (sc_prev st = chr "_"); sc_frac := false |}
      else if bool_decide (ch = chr "_") && (base =? 0) then
        scan_loop base b rest
          {| sc_val := sc_val st; sc_count := sc_count st; sc_dp := sc_dp st; sc_prev := chr "_";
             sc_inval := sc_inval st || negb (bool_decide (sc_prev st = chr "0")); sc_frac := sc_frac st |}
      else if b <=? digit_value ch then (st, s)
      else
        scan_loop base b rest
          {| sc_val := sc_val st * b + digit_value ch; sc_count := sc_count st + 1; sc_dp := sc_dp st; sc_prev := chr "0";
             sc_inval := sc_inval st; sc_frac := sc_frac st |}
  end.

Inductive numPrefix := NoPrefix | OctalZero | LetterPrefix.

(** The base a number announces, and what is left of the text. *)
Definition scan_base (s : bytes) (base : Z) (fracOk : bool) : Z * numPrefix * Z * byte * bytes :=
  if negb (base =? 0) then (base, NoPrefix, 0, chr ".", s)
  else
    match s with
    | z :: rest =>
        if negb (bool_decide (z = chr "0")) then (10, NoPrefix, 0, chr ".", s)
        else
          match rest with
          | [] => (10, NoPrefix, 1, chr "0", [])
          | c :: rest' =>
              if bool_decide (c = chr "b") || bool_decide (c = chr "B") then (2, LetterPrefix, 0, chr "0", rest')
              else if bool_decide (c = chr "o") || bool_decide (c = chr "O") then (8, LetterPrefix, 0, chr "0", rest')
              else if bool_decide (c = chr "x") || bool_decide (c = chr "X") then (16, LetterPrefix, 0, chr "0", rest')
              else if negb fracOk then (8, OctalZero, 0, chr "0", rest)
              else (10, NoPrefix, 1, chr "0", rest)
          end
    | [] => (10, NoPrefix, 0, chr ".", s)
    end.

(** [nat.scan]: the value, the base, the digits after the point (negated) or
    the digits read, and the unread text. *)
Definition nat_scan (s : bytes) (base : Z) (fracOk : bool) : option (Z * Z * Z * bytes) :=
  let '(b, prefix, count, prev, s) := scan_base s base fracOk in
  let '(st, rest) := scan_loop base b s
    {| sc_val := 0; sc_count := count; sc_dp := -1; sc_prev := prev; sc_inval := false; sc_frac := fracOk |} in
  if sc_inval st || bool_decide (sc_prev st = chr "_") then None
  else if sc_count st =? 0 then
    match prefix with OctalZero => Some (0, 10, 1, rest) | _ => None end
  else Some (sc_val st, b, if 0 <=? sc_dp st then sc_dp st - sc_count st else sc_count st, rest).

Definition scanSign (s : bytes) : option (bool * bytes) :=
  match s with
  | [] => None
  | c :: rest =>
      if bool_decide (c = chr "-") then Some (true, rest)
      else if bool_decide (c = chr "+") then Some (false, rest)
      else Some (false, s)
  end.

(** [Int.SetString]: everything must be read. *)
Definition Int_SetString (s : bytes) (base : Z) : option Z :=
  match scanSign s with
  | None => None
  | Some (neg, s) =>
      match nat_scan s base false with
      | Some (v, _, _, []) => Some (if neg : bool then - v else v)
      | _ => None
      end
  end.

(** The decimal digits of an exponent, with separators. *)
Fixpoint exp_loop (s : bytes) (val : Z) (hasDigits : bool) (prev : byte) (inval : bool) : Z * bool * bool * bytes :=
  match s with
  | [] => (val, hasDigits, inval || bool_decide (prev = chr "_"), [])
  | ch :: rest =>
      if digit_value ch <? 10 then exp_loop rest (val * 10 + digit_value ch) true (chr "0") inval
      else if bool_decide (ch = chr "_") then
        exp_loop rest val hasDigits (chr "_") (inval || negb (bool_decide (prev = chr "0")))
      else (val, hasDigits, inval || bool_decide (prev = chr "_"), s)
  end.

(** [scanExponent] with binary exponents and separators allowed. *)
Definition scanExponent (s : bytes) : option (Z * Z * bytes) :=
  match s with
  | [] => Some (0, 10, [])
  | c :: rest =>
      let ebase := if bool_decide (c = chr "e") || bool_decide (c = chr "E") then Some 10
                   else if bool_decide (c = chr "p") || bool_decide (c = chr "P") then Some 2 else None in
      match ebase with
      | None => Some (0, 10, s)
      | Some ebase =>
          let '(neg, digits) := match rest with
                                | c :: tl => if bool_decide (c = chr "-") then (true, tl)
                                             else if bool_decide (c = chr "+") then (false, tl) else (false, rest)
                                | [] => (false, rest)
                                end in
          let '(val, hasDigits, inval, rest) := exp_loop digits 0 false (chr ".") false in
          let e := if neg : bool then - val else val in
          if negb hasDigits || (e <? - 2 ^ 63) || (2 ^ 63 <=? e) || inval then None else Some (e, ebase, rest)
      end
  end.

(** [Rat.SetString]; the powers of ten of the point and the exponent are
    split in powers of five and of two, each with its limit, which an int64
    that wrapped would also exceed. *)
Definition ratio (num den : Z) : Q := Qred (Qmake num (Z.to_pos den)).

Definition rat_scale (mant exp5 exp2 : Z) : option Q :=
  if 10 ^ 6 <? Z.abs exp5 then None
  else if (exp2 <? - 10 ^ 7) || (10 ^ 7 <? exp2) then None
  else Some (ratio (mant * (if 0 <? exp5 then 5 ^ exp5 else 1) * (if 0 <? exp2 then 2 ^ exp2 else 1))
                   ((if exp5 <? 0 then 5 ^ (- exp5) else 1) * (if exp2 <? 0 then 2 ^ (- exp2) else 1))).

(** The position of a slash. *)
Fixpoint split_slash (s : bytes) : option (bytes * bytes) :=
  match s with
  | [] => None
  | c :: rest =>
      if bool_decide (c = chr "/") then Some ([], rest)
      else match split_slash rest with Some (a, b) => Some (c :: a, b) | None => None end
  end.

Definition Rat_SetString (s : bytes) : option Q :=
  match s with
  | [] => None
  | _ =>
      match split_slash s with
      | Some (a, b) =>
          match Int_SetString a 0, nat_scan b 0 false with
          | Some num, Some (den, _, _, []) => if den =? 0 then None else Some (ratio num den)
          | _, _ => None
          end
      | None =>
          match scanSign s with
          | None => None
          | Some (neg, s) =>
              match nat_scan s 0 true with
              | None => None
              | Some (mant, base, fcount, rest) =>
                  match scanExponent rest with
                  | Some (e, ebase, []) =>
                      if mant =? 0 then Some (ratio 0 1)
                      else
                        let mant := if neg : bool then - mant else mant in
                        let d := if fcount <? 0 then fcount else 0 in
                        let exp5 := (if base =? 10 then d else 0) + (if ebase =? 10 then e else 0) in
                        let exp2 := (if (base =? 10) || (base =? 2) then d else if base =? 8 then d * 3 else d * 4) + e in
                        rat_scale mant exp5 exp2
                  | _ => None
                  end
              end
          end
      end
  end.

(** ** jsonrpc/utils.go, cmd/ngcore/cli_tools.go *)

Definition ngAmount (s : bytes) : res Z :=
  match s with
  | [] => Ok 0
  | _ =>
      match Rat_SetString s with
      | None => Err ErrAmountInvalid
      | Some r =>
          let r := Qred (Qmult r (inject_Z (10 ^ 18))) in
          reject negb (Z.pos (Qden r) =? 1) with ErrAmountDecimals ;
          reject Qnum r <? 0 with ErrAmountNegative ;
          Ok (Qnum r)
      end
  end.

(** The same text in the wallet. *)
Definition parseNG (s : bytes) : res Z := ngAmount s.

(** ** Decimal text *)

Definition decimal (c : byte) : Prop := 48 <= byteZ c <= 57.

Definition digits_from (v : Z) (ds : bytes) : Z := foldl (fun v c => v * 10 + digit_value c) v ds.
Definition dval (ds : bytes) : Z := digits_from 0 ds.

Lemma decimal_value c : decimal c -> digit_value c = byteZ c - 48.
Proof. unfold decimal, digit_value. intros. by rewrite !(proj2 (Z.leb_le _ _)) by lia. Qed.

(** A decimal digit is none of the characters outside the digits. *)
Lemma decimal_ne c (s : String.string) : decimal c -> (byteZ (chr s) < 48 \/ 57 < byteZ (chr s)) -> bool_decide (c = chr s) = false.
Proof. intros Hc Hs. apply bool_decide_eq_false_2. intros ->. unfold decimal in Hc. lia. Qed.

Ltac not_char :=
  match goal with H : decimal ?c |- context [bool_decide (?c = chr ?s)] =>
    rewrite (decimal_ne c s H) by (solve [left; by vm_compute|right; by vm_compute]) end.

Definition after_digits (st : scanState) (ds : bytes) : scanState :=
  match ds with
  | [] => st
  | _ => {| sc_val := digits_from (sc_val st) ds; sc_count := sc_count st + zlen ds; sc_dp := sc_dp st; sc_prev := chr "0";
            sc_inval := sc_inval st; sc_frac := sc_frac st |}
  end.

Lemma scan_digits base ds rest st :
  Forall decimal ds -> scan_loop base 10 (ds ++ rest) st = scan_loop base 10 rest (after_digits st ds).
Proof.
  intros H. revert st. induction H as [|c ds Hc H IH]; intros st; [done|]. cbn [app scan_loop]. do 2 not_char. cbn [andb].
  rewrite decimal_value by done. unfold decimal in Hc. rewrite (proj2 (Z.leb_gt _ _)) by lia.
  rewrite IH. f_equal. destruct ds as [|d ds]; unfold after_digits, digits_from, zlen; cbn [foldl length sc_val sc_count sc_dp sc_inval sc_frac].
  - by rewrite decimal_value by done.
  - rewrite (decimal_value c) by done. f_equal. lia.
Qed.

(** A number starting with a decimal digit is read in base ten. *)
Lemma nat_scan_decimal ds tail :
  Forall decimal ds -> ds <> [] -> (forall c rest, tail = c :: rest -> c = chr "." ) ->
  nat_scan (ds ++ tail) 0 true =
    let '(st, rest) := scan_loop 0 10 tail {| sc_val := dval ds; sc_count := zlen ds; sc_dp := -1; sc_prev := chr "0"; sc_inval := false; sc_frac := true |} in
    if sc_inval st || bool_decide (sc_prev st = chr "_") then None
    else if sc_count st =? 0 then None
    else Some (sc_val st, 10, if 0 <=? sc_dp st then sc_dp st - sc_count st else sc_count st, rest).
Proof.
  intros H Hne Ht. destruct ds as [|z ds]; [done|]. inversion_clear H as [|? ? Hz Hds].
  unfold nat_scan, scan_base. cbn [negb Z.eqb app]. case_bool_decide as E; cbn [negb].
  - subst z. destruct (ds ++ tail) as [|c rest] eqn:Ec.
    { apply app_eq_nil in Ec as [-> ->]. done. }
    assert (Hc : forall s, s ∈ ["b"; "B"; "o"; "O"; "x"; "X"]%string -> bool_decide (c = chr s) = false).
    { intros s Hs. destruct ds as [|d ds].
      - cbn in Ec. subst tail. rewrite (Ht c rest eq_refl). revert s Hs. apply Forall_forall. by repeat constructor.
      - cbn in Ec. injection Ec as <- _. inversion_clear Hds as [|? ? Hd _]. apply decimal_ne; [done|].
        revert s Hs. apply Forall_forall. repeat constructor; solve [left; by vm_compute|right; by vm_compute]. }
    rewrite !Hc by set_solver. cbn [orb]. rewrite <-Ec, scan_digits by done.
    destruct ds as [|d ds]; [done|]. unfold after_digits, dval, digits_from, zlen. cbn [sc_val sc_count sc_dp sc_inval sc_frac].
    replace (1 + Z.of_nat (length (d :: ds))) with (Z.of_nat (length (chr "0" :: d :: ds))) by (cbn [length]; lia). done.
  - change (z :: ds ++ tail) with ((z :: ds) ++ tail). rewrite scan_digits by (by constructor). done.
Qed.

Lemma dval_app ds fs : dval (ds ++ fs) = digits_from (dval ds) fs.
Proof. unfold dval, digits_from. apply foldl_app. Qed.

Lemma digits_from_nonneg ds v : Forall decimal ds -> 0 <= v -> 0 <= digits_from v ds.
Proof.
  intros H. revert v. induction H as [|c ds Hc H IH]; intros v Hv; [done|]. apply IH. rewrite decimal_value by done.
  unfold decimal in Hc. lia.
Qed.

Lemma split_slash_decimal s : Forall (fun c => c <> chr "/") s -> split_slash s = None.
Proof. induction 1 as [|c s Hc _ IH]; [done|]. cbn [split_slash]. by rewrite bool_decide_eq_false_2, IH. Qed.

Lemma decimal_not_slash ds : Forall decimal ds -> Forall (fun c => c <> chr "/") ds.
Proof. intros H. eapply Forall_impl; [exact H|]. intros c Hc ->. revert Hc. unfold decimal. cbv. intros [Hl _]. by apply Hl. Qed.

Lemma nat_scan_point ds fs :
  Forall decimal ds -> Forall decimal fs -> ds <> [] ->
  nat_scan (ds ++ chr "." :: fs) 0 true = Some (dval (ds ++ fs), 10, - zlen fs, []).
Proof.
  intros Hd Hf Hne. rewrite nat_scan_decimal; [|done|done|by intros ? ? [= <- _]]. cbn [scan_loop]. rewrite bool_decide_eq_true_2 by done.
  cbn [andb sc_frac]. rewrite <-(app_nil_r fs) at 1. rewrite scan_digits by done. cbn [scan_loop].
  assert (Hl : 0 < zlen ds) by (destruct ds; [done|]; unfold zlen; cbn [length]; lia).
  assert (0 <= zlen fs) by (unfold zlen; lia). rewrite dval_app.
  destruct fs as [|f fs]; cbn [after_digits sc_val sc_count sc_dp sc_prev sc_inval];
    rewrite bool_decide_eq_false_2 by done; cbn [orb].
  - rewrite (proj2 (Z.eqb_neq _ _)), (proj2 (Z.leb_le _ _)) by lia. repeat f_equal. unfold zlen. cbn [length]. lia.
  - rewrite (proj2 (Z.eqb_neq _ _)), (proj2 (Z.leb_le _ _)) by lia. repeat f_equal. lia.
Qed.

(** The exact product of a ratio and an integer. *)
Lemma ratio_mult m d n :
  0 < d -> Qeq (Qred (Qmult (ratio m d) (inject_Z n))) (Qmake (m * n) (Z.to_pos d)).
Proof.
  intros Hd. unfold ratio. rewrite !Qred_correct. unfold Qeq, Qmult, inject_Z. cbn [Qnum Qden].
  rewrite Pos.mul_1_r. lia.
Qed.

Lemma ratio_mult_int m d n :
  0 < d -> (d | m * n) -> Qred (Qmult (ratio m d) (inject_Z n)) = inject_Z (m * n / d).
Proof.
  intros Hd [q Hq]. rewrite Hq, Z.div_mul by lia.
  transitivity (Qred (inject_Z q)); [|apply Qred_identity; cbn; apply Z.gcd_1_r].
  apply Qred_complete. pose proof (ratio_mult m d n Hd) as E. rewrite Qred_correct in E. rewrite E, Hq.
  unfold Qeq, inject_Z. cbn [Qnum Qden]. rewrite Z2Pos.id by done. lia.
Qed.

Lemma ratio_mult_den m d n :
  0 < d -> Qden (Qred (Qmult (ratio m d) (inject_Z n))) = 1%positive -> (d | m * n).
Proof.
  intros Hd H1. pose proof (ratio_mult m d n Hd) as E. unfold Qeq in E. cbn [Qnum Qden] in E.
  rewrite H1, Z2Pos.id in E by done. exists (Qnum (Qred (Qmult (ratio m d) (inject_Z n)))). lia.
Qed.

Lemma ngAmount_ratio m d :
  0 <= m -> 0 < d ->
  (let r := Qred (Qmult (ratio m d) (inject_Z (10 ^ 18))) in
   reject negb (Z.pos (Qden r) =? 1) with ErrAmountDecimals ; reject Qnum r <? 0 with ErrAmountNegative ; Ok (Qnum r))
  = if (m * 10 ^ 18) mod d =? 0 then Ok (m * 10 ^ 18 / d) else Err ErrAmountDecimals.
Proof.
  intros Hm Hd. cbv zeta. destruct (Z.eqb_spec ((m * 10 ^ 18) mod d) 0) as [E|E].
  - rewrite ratio_mult_int by (try done; apply Z.mod_divide; lia). cbn [inject_Z Qden Qnum negb Z.eqb Pos.eqb guard].
    rewrite (proj2 (Z.ltb_ge _ _)); [done|]. apply Z.div_pos; lia.
  - destruct (Z.eqb_spec (Z.pos (Qden (Qred (Qmult (ratio m d) (inject_Z (10 ^ 18)))))) 1) as [H1|]; [|done].
    destruct E. apply Z.mod_divide; [lia|]. apply ratio_mult_den; [done|]. by injection H1.
Qed.

(** ** Digits beyond the eighteenth *)

Lemma digits_from_shift ds v : Forall decimal ds -> digits_from v ds = v * 10 ^ zlen ds + dval ds.
Proof.
  intros H. revert v. induction H as [|c ds Hc H IH]; intros v; unfold dval; cbn [digits_from foldl]; [unfold zlen; cbn; lia|].
  fold (digits_from (v * 10 + digit_value c) ds) (digits_from (0 * 10 + digit_value c) ds). rewrite IH, (IH (0 * 10 + digit_value c)).
  replace (zlen (c :: ds)) with (1 + zlen ds) by (unfold zlen; cbn [length]; lia). rewrite Z.pow_add_r by (unfold zlen; lia). lia.
Qed.

Lemma dval_bound ds : Forall decimal ds -> 0 <= dval ds < 10 ^ zlen ds.
Proof.
  induction 1 as [|c ds Hc H IH]; [done|]. unfold dval. cbn [digits_from foldl]. fold (digits_from (0 * 10 + digit_value c) ds).
  rewrite digits_from_shift by done. rewrite decimal_value by done. unfold decimal in Hc.
  replace (zlen (c :: ds)) with (1 + zlen ds) by (unfold zlen; cbn [length]; lia). rewrite Z.pow_add_r by (unfold zlen; lia). nia.
Qed.

Lemma dval_zero ds : Forall decimal ds -> dval ds = 0 <-> Forall (fun c => c = chr "0") ds.
Proof.
  induction 1 as [|c ds Hc H IH]; [done|]. unfold dval. cbn [digits_from foldl]. fold (digits_from (0 * 10 + digit_value c) ds).
  rewrite digits_from_shift, Forall_cons, <-IH by done. pose proof (dval_bound ds H) as Hb. rewrite decimal_value by done.
  assert (Hv : c = chr "0" <-> byteZ c - 48 = 0).
  { split; [by intros ->|]. intros E. rewrite <-(Zbyte_byteZ c). by replace (byteZ c) with 48 by lia. }
  rewrite Hv. unfold decimal in Hc. split; [|intros [-> ->]; lia]. intros E.
  assert (byteZ c - 48 = 0) by nia. nia.
Qed.

(** A whole number of units: every digit beyond the eighteenth is zero. *)
Lemma whole_units ds fs : Forall decimal ds -> Forall decimal fs ->
  (dval (ds ++ fs) * 10 ^ 18) mod 10 ^ zlen fs = 0 <-> Forall (fun c => c = chr "0") (drop 18 fs).
Proof.
  intros Hd Hf. destruct (decide (length fs <= 18)%nat) as [Hl|Hl].
  - rewrite drop_ge by done. split; [constructor|]. intros _. replace 18 with (18 - zlen fs + zlen fs) by lia.
    rewrite Z.pow_add_r by (unfold zlen; lia). rewrite Z.mul_assoc. apply Z.mod_mul, Z.pow_nonzero; unfold zlen; lia.
  - rewrite <-(take_drop 18 fs) in Hf |- * at 1. apply Forall_app in Hf as [Ha Hz]. rewrite app_assoc, dval_app, digits_from_shift by done.
    rewrite <-dval_zero by done. pose proof (dval_bound _ Hz) as Hb. set (m := dval (ds ++ take 18 fs)). set (z := dval (drop 18 fs)) in *.
    assert (Hzl : zlen fs = zlen (drop 18 fs) + 18) by (unfold zlen; rewrite length_drop; lia). rewrite Hzl, Z.pow_add_r by (unfold zlen; lia).
    rewrite Z.mul_mod_distr_r by (apply Z.pow_nonzero; unfold zlen; lia).
    rewrite (Z.add_comm _ z), Z.mod_add by (apply Z.pow_nonzero; unfold zlen; lia). rewrite Z.mod_small by done. lia.
Qed.

(** A decimal amount, with or without a point. *)
Definition decimal_text (ds : bytes) (frac : option bytes) : bytes :=
  ds ++ match frac with None => [] | Some fs => chr "." :: fs end.

Lemma nat_scan_integer ds : Forall decimal ds -> ds <> [] -> nat_scan ds 0 true = Some (dval ds, 10, zlen ds, []).
Proof.
  intros Hd Hne. rewrite <-(app_nil_r ds) at 1. rewrite nat_scan_decimal by done. cbn [scan_loop sc_inval sc_prev sc_count sc_dp sc_val].
  rewrite bool_decide_eq_false_2 by done. cbn [orb]. rewrite (proj2 (Z.eqb_neq _ _)); [done|]. destruct ds; [done|]. unfold zlen. cbn [length]. lia.
Qed.

Lemma nat_scan_text ds frac : Forall decimal ds -> Forall decimal (default [] frac) -> ds <> [] ->
  exists n, nat_scan (decimal_text ds frac) 0 true = Some (dval (ds ++ default [] frac), 10, n, [])
    /\ (if n <? 0 then n else 0) = - zlen (default [] frac).
Proof.
  intros Hd Hf Hne. unfold decimal_text. destruct frac as [fs|]; cbn [default from_option id].
  - exists (- zlen fs). split; [by apply nat_scan_point|]. destruct (Z.ltb_spec (- zlen fs) 0); unfold zlen in *; lia.
  - exists (zlen ds). rewrite !app_nil_r. split; [by apply nat_scan_integer|]. rewrite (proj2 (Z.ltb_ge _ _)) by (unfold zlen; lia). done.
Qed.

(** A decimal text is read as the ratio it denotes. *)
Lemma Rat_SetString_decimal ds frac :
  Forall decimal ds -> Forall decimal (default [] frac) -> ds <> [] -> zlen (default [] frac) <= 10 ^ 6 ->
  Rat_SetString (decimal_text ds frac) = Some (ratio (dval (ds ++ default [] frac)) (10 ^ zlen (default [] frac))).
Proof.
  intros Hd Hf Hne Hl. assert (Hs : scanSign (decimal_text ds frac) = Some (false, decimal_text ds frac)).
  { unfold decimal_text. destruct ds as [|z ds]; [done|]. inversion_clear Hd as [|? ? Hz _]. cbn [app scanSign]. by do 2 not_char. }
  unfold Rat_SetString. destruct (decimal_text ds frac) as [|c s] eqn:Ec; [by destruct ds|]. rewrite <-Ec in *. rewrite split_slash_decimal.
  2: { unfold decimal_text. apply Forall_app. split; [by apply decimal_not_slash|]. destruct frac; [constructor; [done|by apply decimal_not_slash]|constructor]. }
  rewrite Hs. destruct (nat_scan_text ds frac Hd Hf Hne) as (n & -> & Hn). cbn [scanExponent]. set (fs := default [] frac) in *.
  assert (0 <= zlen fs) by (unfold zlen; lia). destruct (Z.eqb_spec (dval (ds ++ fs)) 0) as [->|Hv].
  { unfold ratio. rewrite (Qred_complete (0 # Z.to_pos 1) (0 # Z.to_pos (10 ^ zlen fs))) by done. done. }
  cbn [Z.eqb Pos.eqb orb]. rewrite Hn. unfold rat_scale. rewrite !Z.add_0_r, Z.abs_opp, Z.abs_eq by lia. rewrite (proj2 (Z.ltb_ge (10 ^ 6) _)) by lia.
  rewrite (proj2 (Z.ltb_ge (- zlen fs) (- 10 ^ 7))), (proj2 (Z.ltb_ge (10 ^ 7) _)), (proj2 (Z.ltb_ge 0 _)) by lia. cbn [orb]. f_equal.
  rewrite !Z.mul_1_r, Z.opp_involutive. f_equal. destruct (Z.ltb_spec (- zlen fs) 0); [by rewrite <-Z.pow_mul_l|]. by replace (zlen fs) with 0 by lia.
Qed.

(** C27 - Amounts are exact.  A decimal amount of NG, with or without a
    point, any number of digits before it and up to a million after it, is
    taken for exactly its value in units of 10^-18 NG; it is refused, and
    never rounded, if and only if a digit beyond the eighteenth decimal is
    not zero.  Further zeros are accepted, although the comment of the
    function announces that more than 18 decimals are rejected. *)
Theorem ngAmount_exact ds frac :
  let fs := default [] frac in
  Forall decimal ds -> Forall decimal fs -> ds <> [] -> zlen fs <= 10 ^ 6 ->
  ngAmount (decimal_text ds frac)
  = (if (dval (ds ++ fs) * 10 ^ 18) mod 10 ^ zlen fs =? 0 then Ok (dval (ds ++ fs) * 10 ^ 18 / 10 ^ zlen fs)
     else Err ErrAmountDecimals)
  /\ ((dval (ds ++ fs) * 10 ^ 18) mod 10 ^ zlen fs = 0 <-> Forall (fun c => c = chr "0") (drop 18 fs)).
Proof.
  intros fs Hd Hf Hne Hl. split; [|by apply whole_units]. unfold ngAmount.
  destruct (decimal_text ds frac) as [|c s] eqn:Ec; [by destruct ds|]. rewrite <-Ec, Rat_SetString_decimal by done. cbn [res_bind].
  apply ngAmount_ratio; [|unfold zlen; lia]. apply digits_from_nonneg; [|done]. by apply Forall_app.
Qed.

Lemma ngAmount_exact_witness : ngAmount (str "1.5") = Ok (15 * 10 ^ 17) /\ ngAmount (str "100") = Ok (10 ^ 20).
Proof.
  split.
  - change (str "1.5") with (decimal_text [Zbyte 49] (Some [Zbyte 53])).
    rewrite (proj1 (ngAmount_exact [Zbyte 49] (Some [Zbyte 53]) ltac:(repeat constructor; by vm_compute) ltac:(repeat constructor; by vm_compute)
      ltac:(discriminate) ltac:(by vm_compute))). by vm_compute.
  - change (str "100") with (decimal_text [Zbyte 49; Zbyte 48; Zbyte 48] None).
    rewrite (proj1 (ngAmount_exact [Zbyte 49; Zbyte 48; Zbyte 48] None ltac:(repeat constructor; by vm_compute) ltac:(constructor)
      ltac:(discriminate) ltac:(by vm_compute))). by vm_compute.
Defined.

(** Fractions, prefixed bases, exponents and separators are amounts too, and
    so are more than eighteen decimals if the rest are zeros. *)
Example ngAmount_takes_more :
  ngAmount (str "1/2") = Ok (5 * 10 ^ 17) /\ ngAmount (str "0x10") = Ok (16 * 10 ^ 18) /\ ngAmount (str "1_000e-3") = Ok (10 ^ 18)
  /\ ngAmount (str "1.0000000000000000000") = Ok (10 ^ 18) /\ ngAmount (str "010/1") = Ok (8 * 10 ^ 18)
  /\ ngAmount (str "0.0000000000000000001") = Err ErrAmountDecimals /\ ngAmount (str "-1") = Err ErrAmountNegative
  /\ ngAmount (str "1_") = Err ErrAmountInvalid.
Proof. by vm_compute. Qed.
