(* ===== verification/RpcReads.v ===== *)
(** * The RPC calls that read

    Package jsonrpc: blocks and transactions (chain.go), balances, contracts
    and sheets (state_sheet.go), the state root and its proofs
    (state_root.go), dry runs and receipts (state_vm.go), traces (trace.go),
    node status and fees (node.go), and the composition of unsigned
    transactions (state_tx.go).  As in Rpc.v a reply is a record of the
    fields of its JSON form, with amounts as integers. *)

From stdpp Require Import pretty.
From S2P Require Import Prelude Params StateTrie Keys Contract Types Instances Tx Block BlockStore State StateCommit VM Journal Ledger Snapshot Queries Chain Pool Consensus Rpc Amount.

(** RLP of a whole slot, and compress/flate's writer. *)
Class ContractCodec := {
  rlp_Contract : Contract -> bytes;
  dec_Contract : bytes -> option Contract
}.
Class Deflate := deflate_writer : bytes -> option bytes.

Definition hex_bytes (s : bytes) : res bytes := match hex_DecodeString s with Some b => Ok b | None => Err ErrDecode end.

(** ** Parameters and replies *)

Record getTxsByAddressParams := { ta_Address : string; ta_FromHeight : Z; ta_ToHeight : Z; ta_Limit : Z }.
Record getTxsByAddressReply := { tr_Count : Z; tr_Txs : list FullTx }.
Record blockRefParams := { br_Height : option Z; br_Hash : bytes }.
Record getTxByBlockAndIndexParams := { bi_Height : option Z; bi_Hash : bytes; bi_Index : Z }.
Record getTxByHashReply := {
  th_OnChain : bool; th_Tx : FullTx; th_BlockHash : bytes; th_BlockHeight : Z; th_Confirmations : Z
}.

Record getHeadReply := { hd_Network : Z; hd_Height : Z; hd_BlockHash : bytes; hd_Timestamp : Z }.
Record addressParams := { ap_Address : string; ap_Height : option Z }.
Record getAddressStateReply := { as_Exists : bool; as_Balance : Z; as_Contract : bytes }.
Record getSheetReply := { gs_Network : Z; gs_Height : Z; gs_BlockHash : bytes; gs_Timestamp : Z; gs_Sheet : bytes }.
Record getContractStorageParams := { gp_Address : string; gp_Key : bytes; gp_Height : option Z }.
Record getContractStorageReply := { cs_Value : bytes; cs_Len : Z; cs_U64 : option Z; cs_U256 : option Z }.
(** A historical reply has the total only. *)
Record balanceReply := { br_Total : Z; br_Mature : option Z; br_Locked : option Z }.

Record getStateRootReply := { sr_Height : Z; sr_StateRoot : bytes }.
Record getStateProofParams := { gpr_Domain : string; gpr_Key : string }.
Record getStateProofReply := {
  sp_StateRoot : bytes; sp_Path : bytes; sp_ValueHash : bytes; sp_Value : bytes; sp_Proof : list bytes
}.

Record callContractParams := {
  cp_Contract : string; cp_Value : bytes; cp_Entry : bytes; cp_Extra : bytes; cp_Height : option Z
}.
Record callContractResult := {
  cc_Ok : bool; cc_Error : bytes; cc_GasUsed : Z; cc_Events : list Event; cc_Trace : list TraceCall
}.
Record jsonContractRun := {
  jr_Contract : string; jr_Entry : bytes; jr_Ok : bool; jr_Error : bytes; jr_GasUsed : Z; jr_Events : list Event
}.
Record getReceiptResult := {
  rr_OnChain : bool; rr_BlockHash : bytes; rr_BlockHeight : Z; rr_Confirmations : Z; rr_Runs : list jsonContractRun
}.
Record traceTransactionReply := { tt_OnChain : bool; tt_BlockHeight : Z; tt_Runs : list ContractRun }.
Record txTrace := { xt_TxHash : bytes; xt_Runs : list ContractRun }.
Record traceBlockReply := { tb_Height : Z; tb_BlockHash : bytes; tb_Txs : list txTrace }.

Record difficultyReply := { df_Height : Z; df_Difficulty : Z; df_Actual : Z; df_BlockReward : Z; df_NextReward : Z }.
Record syncingReply := { sy_Syncing : bool; sy_Height : Z }.
Record suggestFeeReply := { sf_MinFeePerByte : Z; sf_BaseFee : Z; sf_MinFee : option Z }.
Record pendingTxsReply := { pd_Count : Z; pd_Txs : list FullTx }.

Record genTransactionParams := { gt_To : string; gt_Value : bytes; gt_Fee : bytes; gt_Entry : bytes; gt_Extra : bytes }.
Record genCommitParams := { gc_Fee : bytes; gc_Wasm : bytes }.

Section RpcReads.
Context `{HH : Hasher} `{SL : SigLibs} `{CD : Codec} `{SC : SlotCodec} `{RC : ReceiptCodec}
  `{DC : DepsCodec} `{IF : Inflate} `{ML : MerkleLib} `{PL : PowLib} `{VM_ : ContractVM} `{SHC : SheetCodec}
  `{CC : ContractCodec} `{DF : Deflate}.

Definition sv_chain (s : Server) : Chain := pw_chain (sv_pow s).
Definition sv_db (s : Server) : Txn := ch_db (sv_chain s).
Definition sv_state (s : Server) : State := ch_State (sv_chain s).

(** ** chain.go *)

Definition getLatestBlockHeightFunc (s : Server) : Z := GetLatestBlockHeight (sv_chain s).

Definition getLatestBlockHashFunc (s : Server) : bytes := hex_EncodeToString (GetLatestBlockHash (sv_chain s)).

Definition getLatestBlockFunc (s : Server) : res FullBlock := getLatestBlock (sv_chain s).

Definition getBlockByHeightFunc (s : Server) (p : params Z) : res FullBlock :=
  let! height := unmarshal p in getBlockByHeight (sv_chain s) height.

Definition getBlockByHashFunc (s : Server) (p : params bytes) : res FullBlock :=
  let! p := unmarshal p in
  let! hash := hex_bytes p in
  getBlockByHash (sv_chain s) hash.

Definition getTxsByAddressFunc (s : Server) (p : params getTxsByAddressParams) : res getTxsByAddressReply :=
  let! p := unmarshal p in
  let! addr := NewAddressFromBS58 (ta_Address p) in
  let! l := GetTxsByAddress (txs (sv_db s)) addr (ta_FromHeight p) (ta_ToHeight p) (ta_Limit p) in
  Ok {| tr_Count := zlen l; tr_Txs := l |}.

(** Height wins over hash. *)
Definition blockByRef (s : Server) (p : blockRefParams) : res FullBlock :=
  match br_Height p with
  | Some h => getBlockByHeight (sv_chain s) h
  | None => let! hash := hex_bytes (br_Hash p) in getBlockByHash (sv_chain s) hash
  end.

Definition getBlockTransactionCountFunc (s : Server) (p : params blockRefParams) : res Z :=
  let! p := unmarshal p in
  let! block := blockByRef s p in
  Ok (zlen (b_Txs block)).

Definition getTxByBlockAndIndexFunc (s : Server) (p : params getTxByBlockAndIndexParams) : res FullTx :=
  let! p := unmarshal p in
  let! block := blockByRef s {| br_Height := bi_Height p; br_Hash := bi_Hash p |} in
  reject (bi_Index p <? 0) || (zlen (b_Txs block) <=? bi_Index p) with ErrTxIndexRange ;
  match b_Txs block !! Z.to_nat (bi_Index p) with Some tx => Ok tx | None => Err GoPanic end.

(** The blocks from [height] to the tip; the subtraction is guarded. *)
Definition confirmations (s : Server) (height : Z) : Z :=
  let latest := GetLatestBlockHeight (sv_chain s) in
  if height <=? latest then u64 (latest - height + 1) else 0.

Definition onChainReply (s : Server) (hash : bytes) (tx : FullTx) : getTxByHashReply :=
  match GetTxLocation (sv_chain s) hash with
  | Ok (blockHash, height) =>
      {| th_OnChain := true; th_Tx := tx; th_BlockHash := hex_EncodeToString blockHash; th_BlockHeight := height;
         th_Confirmations := confirmations s height |}
  | Err _ => {| th_OnChain := true; th_Tx := tx; th_BlockHash := []; th_BlockHeight := 0; th_Confirmations := 0 |}
  end.

Definition getTxByHashFunc (s : Server) (p : params bytes) : res getTxByHashReply :=
  let! p := unmarshal p in
  let! hash := hex_bytes p in
  match GetTxByHash (txs (sv_db s)) hash with
  | Ok tx => Ok (onChainReply s hash tx)
  | Err e =>
      reject negb (bool_decide (e = ErrKeyNotFound)) with e ;
      match IsInPool (pw_pool (sv_pow s)) hash with
      | Some tx => Ok {| th_OnChain := false; th_Tx := tx; th_BlockHash := []; th_BlockHeight := 0; th_Confirmations := 0 |}
      | None => Err e
      end
  end.

(** ** state_sheet.go *)

Definition getHeadFunc (s : Server) : res getHeadReply :=
  let! latest := getLatestBlock (sv_chain s) in
  Ok {| hd_Network := st_Network (sv_state s); hd_Height := blockHeight latest;
        hd_BlockHash := hex_EncodeToString (Block_GetHash latest); hd_Timestamp := h_Timestamp (b_Header latest) |}.

(** A slot now or at a past height. *)
Definition contractAt (s : Server) (addr : Address) (height : option Z) : res Contract :=
  match height with
  | Some h => GetContractAt (sv_state s) (sv_db s) addr h
  | None => getContract (sv_db s) addr
  end.

(** A slot that cannot be read is no slot; a panic is a panic. *)
Definition getAddressStateFunc (s : Server) (p : params addressParams) : res getAddressStateReply :=
  let! p := unmarshal p in
  let! addr := NewAddressFromBS58 (ap_Address p) in
  let! balance := match ap_Height p with
                  | Some h => GetBalanceByAddressAt (sv_state s) (sv_db s) addr h
                  | None => Ok (GetTotalBalanceByAddress (sv_db s) addr)
                  end in
  let! account := match contractAt s addr (ap_Height p) with
                  | Ok acc => Ok (Some acc)
                  | Err GoPanic => Err GoPanic
                  | Err _ => Ok None
                  end in
  let raw := match account with Some acc => hex_EncodeToString (rlp_Contract acc) | None => [] end in
  Ok {| as_Exists := (0 <? balance) || negb (bool_decide (raw = [])); as_Balance := balance; as_Contract := raw |}.

Definition sheetReply (sheet : Sheet) (timestamp : Z) : getSheetReply :=
  {| gs_Network := sh_Network sheet; gs_Height := sh_Height sheet; gs_BlockHash := hex_EncodeToString (sh_BlockHash sheet);
     gs_Timestamp := timestamp; gs_Sheet := hex_EncodeToString (rlp_Sheet sheet) |}.

(** [height]: the optional parameter; an absent object is no height. *)
Definition getSheetFunc (s : Server) (p : params (option Z)) : res getSheetReply :=
  match p with
  | BadParams => Err ErrDecode
  | Params (Some h) =>
      let! block := getBlockByHeight (sv_chain s) h in
      let! stxn := ReconstructAt (sv_state s) (v_snapshots (ch_volatile (sv_chain s))) (sv_db s) h in
      let! sheet := DumpSheetAt (st_Network (sv_state s)) stxn h (Block_GetHash block) in
      Ok (sheetReply sheet (h_Timestamp (b_Header block)))
  | _ =>
      let! sheet := DumpSheetTxn (st_Network (sv_state s)) (sv_db s) in
      let! latest := getLatestBlock (sv_chain s) in
      Ok (sheetReply sheet (h_Timestamp (b_Header latest)))
  end.

Definition getContractInfoFunc (s : Server) (p : params addressParams) : res Contract :=
  let! p := unmarshal p in
  let! addr := NewAddressFromBS58 (ap_Address p) in
  contractAt s addr (ap_Height p).

(** Reserved keys read as unset. *)
Definition storageValue (account : Contract) (key : bytes) : bytes :=
  match Context' account with
  | Some ctx => if (zlen key =? 0) || negb (bool_decide (head key = Some (chr "_"))) then (Get ctx key).1 else []
  | None => []
  end.

(** A short value is padded with zeros, and the widths of an integer are
    decoded. *)
Definition storageReply (val : bytes) : getContractStorageReply :=
  {| cs_Value := hex_EncodeToString val; cs_Len := zlen val;
     cs_U64 := if (0 <? zlen val) && (zlen val <=? 8) then Some (UnpackUint64LE (vec_to_list (to_array 8 val))) else None;
     cs_U256 := if zlen val =? 32 then Some (be_Z (reverse val)) else None |}.

Definition getContractStorageFunc (s : Server) (p : params getContractStorageParams) : res getContractStorageReply :=
  let! p := unmarshal p in
  let! addr := NewAddressFromBS58 (gp_Address p) in
  let! key := hex_bytes (gp_Key p) in
  let! account := contractAt s addr (gp_Height p) in
  Ok (storageReply (storageValue account key)).

Definition sv_set_snapshots (s : Server) (sm : SnapshotManager) : Server :=
  let c := sv_chain s in
  {| sv_pow := pw_set_chain (sv_pow s)
       {| ch_Network := ch_Network c; ch_State := ch_State c; ch_db := ch_db c; ch_volatile := v_set_snapshots (ch_volatile c) sm |}
       (pw_pool (sv_pow s));
     sv_work := sv_work s |}.

(** The mature balance is read from a snapshot, which the manager caches. *)
Definition getBalanceByAddressFunc (s : Server) (p : params addressParams) : res balanceReply * Server :=
  match (let! p := unmarshal p in
         let! addr := NewAddressFromBS58 (ap_Address p) in Ok (p, addr)) with
  | Err e => (Err e, s)
  | Ok (p, addr) =>
      match ap_Height p with
      | Some h =>
          ((let! bal := GetBalanceByAddressAt (sv_state s) (sv_db s) addr h in
            Ok {| br_Total := bal; br_Mature := None; br_Locked := None |}), s)
      | None =>
          let total := GetTotalBalanceByAddress (sv_db s) addr in
          match GetMatureBalanceByAddress (sv_state s) (v_snapshots (ch_volatile (sv_chain s))) (sv_db s) addr with
          | Err e => (Err e, s)
          | Ok (mature, sm) =>
              (Ok {| br_Total := total; br_Mature := Some mature; br_Locked := Some (total - mature) |}, sv_set_snapshots s sm)
          end
      end
  end.

(** ** state_root.go *)

Definition getStateRootFunc (s : Server) : res getStateRootReply :=
  let! latest := getLatestBlock (sv_chain s) in
  Ok {| sr_Height := blockHeight latest; sr_StateRoot := hex_EncodeToString (StateRoot (sv_db s)) |}.

Definition decodeStateKey (domain key : string) : res bytes :=
  if bool_decide (domain = "commit"%string) then hex_bytes (str key)
  else
    match NewAddressFromBS58 key with
    | Ok addr => Ok (vec_to_list addr)
    | Err _ => hex_bytes (str key)
    end.

Definition getStateProofFunc (s : Server) (p : params getStateProofParams) : res getStateProofReply :=
  let! p := unmarshal p in
  let! rawKey := decodeStateKey (gpr_Domain p) (gpr_Key p) in
  let! pr := StateProof (sv_db s) (gpr_Domain p) rawKey in
  Ok {| sp_StateRoot := hex_EncodeToString (pr_root pr); sp_Path := hex_EncodeToString (pr_path pr);
        sp_ValueHash := hex_EncodeToString (pr_valueHash pr); sp_Value := hex_EncodeToString (pr_value pr);
        sp_Proof := hex_EncodeToString <$> pr_proof pr |}.

(** ** state_vm.go *)

(** [DryRun]: the run without the flush.  The transaction is unsigned. *)
Definition dryRunContract (s : Server) (txn : Txn) (account : Contract) (height blockTime value : Z) (entry extra : bytes)
    : res callContractResult :=
  let fakeTx := NewUnsignedTx (cfg_Network (pw_cfg (sv_pow s))) TransactTx height (Owner account) (Some value) (Some 0)
                  (EncodeCallData entry extra) in
  let! made := NewVM txn account fakeTx blockTime in
  match made with
  | inl _ => Err ErrRunFailed
  | inr vm =>
      let! (run, vm) := EntryFor vm EntryOnTx in
      let! (err, vm) := vm_call vm run in
      Ok match err with
         | Some (text, _) => {| cc_Ok := false; cc_Error := text; cc_GasUsed := GasUsed vm; cc_Events := []; cc_Trace := Trace vm |}
         | None => {| cc_Ok := true; cc_Error := []; cc_GasUsed := GasUsed vm; cc_Events := Events vm; cc_Trace := Trace vm |}
         end
  end.

Definition callContractFunc (s : Server) (p : params callContractParams) : res callContractResult :=
  let! p := unmarshal p in
  let! contractAddr := NewAddressFromBS58 (cp_Contract p) in
  let! value := ngAmount (cp_Value p) in
  match cp_Height p with
  | Some h =>
      let! block := getBlockByHeight (sv_chain s) h in
      let! stxn := ReconstructAt (sv_state s) (v_snapshots (ch_volatile (sv_chain s))) (sv_db s) h in
      let! account := getContract stxn contractAddr in
      dryRunContract s stxn account (u64 (h + 1)) (h_Timestamp (b_Header block)) value (cp_Entry p) (cp_Extra p)
  | None =>
      let! account := getContract (sv_db s) contractAddr in
      let! latest := getLatestBlock (sv_chain s) in
      dryRunContract s (sv_db s) account (u64 (blockHeight latest + 1)) (h_Timestamp (b_Header latest)) value (cp_Entry p) (cp_Extra p)
  end.

Definition runReply (run : ContractRun) : jsonContractRun :=
  {| jr_Contract := FastBase58Encoding (run_Contract run); jr_Entry := run_Entry run; jr_Ok := run_Ok run;
     jr_Error := run_Error run; jr_GasUsed := run_GasUsed run; jr_Events := run_Events run |}.

Definition getReceiptFunc (s : Server) (p : params bytes) : res getReceiptResult :=
  let! p := unmarshal p in
  let! txHash := hex_bytes p in
  let location := GetTxLocation (sv_chain s) txHash in
  let! runs := GetTxRuns (sv_db s) txHash in
  Ok match location with
     | Ok (blockHash, height) =>
         {| rr_OnChain := true; rr_BlockHash := hex_EncodeToString blockHash; rr_BlockHeight := height;
            rr_Confirmations := confirmations s height; rr_Runs := runReply <$> runs |}
     | Err _ => {| rr_OnChain := false; rr_BlockHash := []; rr_BlockHeight := 0; rr_Confirmations := 0; rr_Runs := runReply <$> runs |}
     end.

(** ** trace.go *)

(** The trace of a transaction below the retention floor is refused. *)
Definition traceTransactionFunc (s : Server) (p : params bytes) : res traceTransactionReply :=
  let! p := unmarshal p in
  let! txHash := hex_bytes p in
  let! (onChain, height) :=
    match GetTxLocation (sv_chain s) txHash with
    | Ok (_, height) =>
        let! floor := ReceiptRetainedFloor (sv_state s) (sv_db s) in
        reject height <? floor with ErrTracePruned ;
        Ok (true, height)
    | Err _ => Ok (false, 0)
    end in
  let! runs := GetTxRuns (sv_db s) txHash in
  Ok {| tt_OnChain := onChain; tt_BlockHeight := height; tt_Runs := runs |}.

(** Transactions that ran nothing are left out. *)
Definition traceTx (s : Server) (out : list txTrace) (tx : FullTx) : res (list txTrace) :=
  let txHash := GetHash tx in
  let! runs := GetTxRuns (sv_db s) txHash in
  Ok (if (length runs =? 0)%nat then out else out ++ [{| xt_TxHash := hex_EncodeToString txHash; xt_Runs := runs |}]).

Definition traceBlockFunc (s : Server) (p : params Z) : res traceBlockReply :=
  let! height := unmarshal p in
  let! floor := ReceiptRetainedFloor (sv_state s) (sv_db s) in
  reject height <? floor with ErrTracePruned ;
  let! block := getBlockByHeight (sv_chain s) height in
  let! out := res_fold (traceTx s) [] (b_Txs block) in
  Ok {| tb_Height := height; tb_BlockHash := hex_EncodeToString (Block_GetHash block); tb_Txs := out |}.

(** ** node.go *)

Definition getDifficultyFunc (s : Server) : res difficultyReply :=
  let! tip := getLatestBlock (sv_chain s) in
  let! actual := GetActualDiff tip in
  let height := blockHeight tip in
  Ok {| df_Height := height; df_Difficulty := be_Z (h_Difficulty (b_Header tip)); df_Actual := actual;
        df_BlockReward := GetBlockReward height; df_NextReward := GetBlockReward (u64 (height + 1)) |}.

Definition syncingFunc (s : Server) : syncingReply :=
  {| sy_Syncing := pw_syncing (sv_pow s); sy_Height := GetLatestBlockHeight (sv_chain s) |}.

(** A nil policy counts as zero. *)
Definition suggestFeeFunc (s : Server) (p : params bytes) : res suggestFeeReply :=
  let perByte := default 0 (MinFeePerByte (pw_pool (sv_pow s))) in
  let! tip := getLatestBlock (sv_chain s) in
  let network := h_Network (b_Header tip) in
  let baseFee := NextBaseFee network (blockHeight tip) (Some (be_Z (h_BaseFee (b_Header tip)))) (BlockUsedBytes tip) in
  let baseFeeEnforced := IsForkActive network ForkFeeMarket (u64 (blockHeight tip + 1)) in
  let floorPerByte := if baseFeeEnforced && (perByte <? baseFee) then baseFee else perByte in
  let! minFee := match p with
                 | NoParams => Ok None
                 | BadParams => Err ErrDecode
                 | Params [] => Ok None
                 | Params rawTx => let! raw := hex_bytes rawTx in Ok (Some (floorPerByte * zlen raw))
                 end in
  Ok {| sf_MinFeePerByte := perByte; sf_BaseFee := baseFee; sf_MinFee := minFee |}.

Definition getPendingTxsFunc (s : Server) : pendingTxsReply :=
  let l := Pool_List (pw_pool (sv_pow s)) in {| pd_Count := zlen l; pd_Txs := l |}.

(** ** utils.go *)

Definition publicKeyToAddressFunc (p : params (list string)) : res Address :=
  let! keys := unmarshal p in
  match keys with
  | [k] =>
      match FastBase58Decoding k with
      | None => Err ErrLibrary
      | Some bPriv => let! privKey := ParsePrivateKey bPriv in NewAddress privKey
      end
  | _ => Err ErrKeyCount
  end.

(** ** state_tx.go: unsigned transactions *)

Definition genTransactionFunc (s : Server) (p : params genTransactionParams) : res bytes :=
  let! p := unmarshal p in
  let! to := NewAddressFromBS58 (gt_To p) in
  let! value := ngAmount (gt_Value p) in
  let! fee := ngAmount (gt_Fee p) in
  let! args := hex_bytes (gt_Extra p) in
  let tx := NewUnsignedTx (cfg_Network (pw_cfg (sv_pow s))) TransactTx (u64 (GetLatestBlockHeight (sv_chain s) + 1)) to
              (Some value) (Some fee) (EncodeCallData (gt_Entry p) args) in
  Ok (hex_EncodeToString (rlp_FullTx tx)).

Definition buildSimpleTx (s : Server) (txType : TxType) (feeNG extra : bytes) : res bytes :=
  let! fee := ngAmount feeNG in
  let tx := NewUnsignedTx (cfg_Network (pw_cfg (sv_pow s))) txType (u64 (GetLatestBlockHeight (sv_chain s) + 1)) zeroAddress
              None (Some fee) extra in
  Ok (hex_EncodeToString (rlp_FullTx tx)).

Definition genDeployFunc (s : Server) (p : params genCommitParams) : res bytes :=
  let! p := unmarshal p in
  let! module := hex_bytes (gc_Wasm p) in
  buildSimpleTx s DeployTx (gc_Fee p) (EncodeCommitCode deflate_writer module).

End RpcReads.

(** ** state_vm.go: the exports of a contract, which the engine lists *)

Section Exports.
Context `{HH : Hasher} `{SL : SigLibs} `{CD : Codec} `{SC : SlotCodec} `{RC : ReceiptCodec}
  `{DC : DepsCodec} `{IF : Inflate} `{ML : MerkleLib} `{PL : PowLib} `{WM : Wasman} `{TS : TollStation} `{ET : !ErrorText}
  `{SHC : SheetCodec}.

Definition getContractExportsFunc (s : Server) (p : params addressParams) : res (werr + list ContractExport) :=
  let! p := unmarshal p in
  let! addr := NewAddressFromBS58 (ap_Address p) in
  let! account := contractAt s addr (ap_Height p) in
  ContractExports (Source account).

End Exports.
