(* ===== verification/JsonForms.v ===== *)
(** * The JSON forms of the types

    ngtypes/tx_json.go, block_json.go, contract_json.go and the JSON methods
    of address.go: the records the JSON encoder writes and reads, and the
    conversions around it.  The text of numbers, strings and objects is the
    encoder's; a record holds the values of its fields, an address the
    string its own method writes. *)

From S2P Require Import Prelude Params StateTrie Keys Contract Types Instances Tx Block State StateCommit VMToy VMProps Ledger LedgerProps Snapshot Rpc RpcProps Amount RpcReads.

(** ** Decimal integers: [big.Int.String] *)

Fixpoint dec_digits (fuel : nat) (n : Z) (acc : bytes) : bytes :=
  match fuel with
  | O => acc
  | S fuel => let acc := Zbyte (48 + n mod 10) :: acc in if n / 10 =? 0 then acc else dec_digits fuel (n / 10) acc
  end.

Definition big_String (z : Z) : bytes :=
  let ds := dec_digits (S (Z.to_nat (Z.log2 (Z.abs z)))) (Z.abs z) [] in
  if z <? 0 then chr "-" :: ds else ds.

Lemma digit_decimal d : 0 <= d < 10 -> decimal (Zbyte (48 + d)) /\ digit_value (Zbyte (48 + d)) = d.
Proof.
  intros Hd. assert (Hz : byteZ (Zbyte (48 + d)) = 48 + d) by (rewrite byteZ_Zbyte; apply Z.mod_small; lia).
  assert (Hc : decimal (Zbyte (48 + d))) by (unfold decimal; lia). split; [done|]. rewrite decimal_value by done. lia.
Qed.

(** The digits in front of [acc] stand for the number. *)
Lemma dec_digits_spec fuel : forall n acc, 0 <= n < 2 ^ Z.of_nat fuel -> (0 < fuel)%nat -> Forall decimal acc ->
  exists ds, dec_digits fuel n acc = ds ++ acc /\ ds <> [] /\ Forall decimal ds /\ dval ds = n.
Proof.
  induction fuel as [|fuel IH]; intros n acc Hn Hf Ha; [lia|]. cbn [dec_digits].
  pose proof (Z.mod_pos_bound n 10 ltac:(lia)) as Hm. pose proof (Z.div_mod n 10 ltac:(lia)) as Hd.
  destruct (digit_decimal (n mod 10) Hm) as [Hdc Hdv]. destruct (Z.eqb_spec (n / 10) 0) as [Hz|Hz].
  - exists [Zbyte (48 + n mod 10)]. split_and!; [done|done|by apply Forall_singleton|]. unfold dval, digits_from. cbn [foldl]. lia.
  - assert (Hq : 0 <= n / 10) by (apply Z.div_pos; lia).
    assert (Hb : n / 10 < 2 ^ Z.of_nat fuel).
    { rewrite Nat2Z.inj_succ, Z.pow_succ_r in Hn by lia. apply Z.div_lt_upper_bound; lia. }
    assert (Hf' : (0 < fuel)%nat) by (destruct fuel; [cbn in Hb; lia|lia]).
    destruct (IH (n / 10) (Zbyte (48 + n mod 10) :: acc)) as (ds & E & Hne & Hds & Hv); [lia|done|by constructor|].
    exists (ds ++ [Zbyte (48 + n mod 10)]). split_and!.
    + rewrite E. by rewrite <-app_assoc.
    + by destruct ds.
    + apply Forall_app. split; [done|by apply Forall_singleton].
    + rewrite dval_app, Hv. unfold digits_from. cbn [foldl]. lia.
Qed.

Lemma nat_scan_ten ds : Forall decimal ds -> ds <> [] -> nat_scan ds 10 false = Some (dval ds, 10, zlen ds, []).
Proof.
  intros Hd Hne. unfold nat_scan, scan_base. cbn [negb Z.eqb Pos.eqb]. rewrite <-(app_nil_r ds) at 1. rewrite scan_digits by done. cbn [scan_loop].
  destruct ds as [|c ds]; [done|]. cbn [after_digits sc_val sc_count sc_dp sc_prev sc_inval]. rewrite bool_decide_eq_false_2 by done.
  cbn [orb]. rewrite (proj2 (Z.eqb_neq _ _)) by (unfold zlen; cbn [length]; lia). done.
Qed.

Lemma big_String_parses z : 0 <= z -> Int_SetString (big_String z) 10 = Some z.
Proof.
  intros Hz. unfold big_String. rewrite Z.abs_eq, (proj2 (Z.ltb_ge _ _)) by lia.
  destruct (dec_digits_spec (S (Z.to_nat (Z.log2 z))) z []) as (ds & -> & Hne & Hds & Hv); [|lia|constructor|].
  { rewrite Nat2Z.inj_succ, Z2Nat.id by apply Z.log2_nonneg. destruct (Z.eq_dec z 0) as [->|]; [cbn; lia|]. pose proof (Z.log2_spec z ltac:(lia)). lia. }
  rewrite app_nil_r. unfold Int_SetString, scanSign. destruct ds as [|c ds]; [done|]. inversion_clear Hds as [|? ? Hc Hd].
  do 2 not_char. rewrite nat_scan_ten; [by rewrite Hv|by constructor|done].
Qed.

(** ** tx_json.go *)

(** Base58 of the library: what was encoded is read back; the empty text is
    an error. *)
Class Base58Law `{SL : SigLibs} : Prop := {
  base58_roundtrip b : b <> [] -> FastBase58Decoding (FastBase58Encoding b) = Some b
}.

(** Nil-able amounts are options. *)
Record jsonTx := {
  jt_Network : string; jt_Type : Z; jt_Height : Z; jt_To : string; jt_Value : option Z; jt_Fee : option Z;
  jt_Extra : bytes; jt_Sign : bytes; jt_Hash : bytes
}.

Section Json.
Context `{HH : Hasher} `{SL : SigLibs} `{CD : Codec} `{PL : PowLib}.

(** address.go *)
Definition Address_MarshalJSON (a : Address) : string := FastBase58Encoding (vec_to_list a).

Definition Address_UnmarshalJSON (bs58Addr : string) : res Address :=
  match FastBase58Decoding bs58Addr with
  | None => Err ErrLibrary
  | Some addr => if negb (zlen addr =? AddressSize) then Err ErrAddressLenInvalid else Ok (to_array 32 addr)
  end.

Definition tx_toJSON (x : FullTx) : res jsonTx :=
  let! network := Network_String (tx_Network x) in
  Ok {| jt_Network := network; jt_Type := tx_Type x; jt_Height := tx_Height x; jt_To := Address_MarshalJSON (tx_To x); jt_Value := Some (tx_Value x);
        jt_Fee := Some (tx_Fee x); jt_Extra := hex_EncodeToString (tx_Extra x); jt_Sign := hex_EncodeToString (tx_Sign x);
        jt_Hash := hex_EncodeToString (GetHash x) |}.

Definition negative (v : option Z) : bool := match v with Some v => v <? 0 | None => false end.

(** The recipient is decoded with the record, before the other fields. *)
Definition tx_fromJSON (j : jsonTx) : res FullTx :=
  let! to := Address_UnmarshalJSON (jt_To j) in
  let! extra := hex_bytes (jt_Extra j) in
  let! sign := hex_bytes (jt_Sign j) in
  let! network := ParseNetwork (jt_Network j) in
  reject negative (jt_Value j) || negative (jt_Fee j) with ErrAmountNegative ;
  Ok (NewTx network (jt_Type j) (jt_Height j) to (jt_Value j) (jt_Fee j) extra sign).

(** ** block_json.go *)

Record jsonUncle := { ju_Hash : bytes; ju_Height : Z; ju_Difficulty : bytes }.

Record jsonBlock := {
  jb_Network : string; jb_Height : Z; jb_Timestamp : Z;
  jb_PrevBlockHash : bytes; jb_TxTrieHash : bytes; jb_WitnessRoot : bytes; jb_StateRoot : bytes;
  jb_Difficulty : bytes; jb_BaseFee : bytes; jb_Nonce : bytes;
  jb_Txs : list jsonTx; jb_UnclesHash : bytes; jb_Uncles : list jsonUncle;
  jb_Hash : bytes; jb_PoWHash : bytes; jb_Txn : Z
}.

Definition uncle_toJSON (u : BlockHeader) : jsonUncle :=
  {| ju_Hash := hex_EncodeToString (Header_GetHash u); ju_Height := h_Height u;
     ju_Difficulty := big_String (be_Z (h_Difficulty u)) |}.

Definition block_toJSON (x : FullBlock) : res jsonBlock :=
  let h := b_Header x in
  let! network := Network_String (h_Network h) in
  let! txs := mapM_res tx_toJSON (b_Txs x) in
  Ok {| jb_Network := network; jb_Height := h_Height h; jb_Timestamp := h_Timestamp h;
        jb_PrevBlockHash := hex_EncodeToString (h_PrevBlockHash h); jb_TxTrieHash := hex_EncodeToString (h_TxTrieHash h);
        jb_WitnessRoot := hex_EncodeToString (h_WitnessRoot h); jb_StateRoot := hex_EncodeToString (h_StateRoot h);
        jb_Difficulty := big_String (be_Z (h_Difficulty h)); jb_BaseFee := big_String (be_Z (h_BaseFee h));
        jb_Nonce := hex_EncodeToString (h_Nonce h); jb_Txs := txs;
        jb_UnclesHash := hex_EncodeToString (h_UnclesHash h); jb_Uncles := uncle_toJSON <$> b_Uncles x;
        jb_Hash := hex_EncodeToString (Block_GetHash x); jb_PoWHash := hex_EncodeToString (PowHash h); jb_Txn := zlen (b_Txs x) |}.

Definition h_set_decoded (h : BlockHeader) (stateRoot baseFee : bytes) : BlockHeader :=
  {| h_Network := h_Network h; h_Height := h_Height h; h_Timestamp := h_Timestamp h; h_PrevBlockHash := h_PrevBlockHash h;
     h_TxTrieHash := h_TxTrieHash h; h_WitnessRoot := h_WitnessRoot h; h_Difficulty := h_Difficulty h; h_Coinbase := h_Coinbase h;
     h_UnclesHash := h_UnclesHash h; h_StateRoot := stateRoot; h_BaseFee := baseFee; h_Nonce := h_Nonce h |}.

(** The transactions are decoded with the record; a base fee that is no
    integer leaves the default. *)
Definition block_fromJSON (b : jsonBlock) : res FullBlock :=
  let! txs := mapM_res tx_fromJSON (jb_Txs b) in
  let! prevBlockHash := hex_bytes (jb_PrevBlockHash b) in
  let! txTrieHash := hex_bytes (jb_TxTrieHash b) in
  let! witnessRoot := hex_bytes (jb_WitnessRoot b) in
  let! stateRoot := hex_bytes (jb_StateRoot b) in
  match Int_SetString (jb_Difficulty b) 10 with
  | None => Err ErrDecode
  | Some bigDifficulty =>
      let! nonce := hex_bytes (jb_Nonce b) in
      let! network := ParseNetwork (jb_Network b) in
      let x := NewBlock network (jb_Height b) (jb_Timestamp b) prevBlockHash txTrieHash witnessRoot (big_Bytes bigDifficulty) nonce txs in
      let h := b_Header x in
      let root := if 0 <? zlen stateRoot then stateRoot else h_StateRoot h in
      let baseFee := match Int_SetString (jb_BaseFee b) 10 with Some v => big_Bytes v | None => h_BaseFee h end in
      Ok {| b_Header := h_set_decoded h root baseFee; b_Txs := b_Txs x; b_Uncles := b_Uncles x; b_Commits := b_Commits x |}
  end.

(** ** contract_json.go *)

Record jsonContract := { jc_Owner : string; jc_Source : bytes; jc_Context : option ContractContext }.

Definition contract_toJSON (x : Contract) : jsonContract :=
  {| jc_Owner := Address_MarshalJSON (Owner x); jc_Source := hex_EncodeToString (Source x); jc_Context := Context' x |}.

Definition contract_fromJSON (j : jsonContract) : res Contract :=
  let! owner := Address_UnmarshalJSON (jc_Owner j) in
  let! source := hex_bytes (jc_Source j) in
  Ok (NewContract owner source (jc_Context j)).

(** ** Round trips *)

Context `{B58 : !Base58Law}.

Lemma address_json_roundtrip a : Address_UnmarshalJSON (Address_MarshalJSON a) = Ok a.
Proof.
  unfold Address_UnmarshalJSON, Address_MarshalJSON. pose proof (length_vec_to_list a) as Hl.
  rewrite base58_roundtrip by (intros E; by rewrite E in Hl). unfold zlen. rewrite Hl. change (negb (Z.of_nat 32 =? AddressSize)) with false. cbv iota. by rewrite to_array_vec.
Qed.

(** Anything else than the text of 32 bytes is refused. *)
Lemma address_json_errors s :
  (FastBase58Decoding s = None -> Address_UnmarshalJSON s = Err ErrLibrary)
  /\ (forall b, FastBase58Decoding s = Some b -> length b <> 32%nat -> Address_UnmarshalJSON s = Err ErrAddressLenInvalid).
Proof.
  unfold Address_UnmarshalJSON. split; [by intros ->|]. intros b -> Hb. unfold zlen, AddressSize.
  by rewrite (proj2 (Z.eqb_neq _ _)) by lia.
Qed.

Lemma contract_json_roundtrip c : contract_fromJSON (contract_toJSON c) = Ok (NewContract (Owner c) (Source c) (Context' c)).
Proof. unfold contract_fromJSON. cbn [contract_toJSON jc_Owner jc_Source jc_Context]. rewrite address_json_roundtrip. cbn [res_bind]. unfold hex_bytes. by rewrite hex_roundtrip. Qed.

Definition known_network (n : Network) : Prop := n = ZERONET \/ n = TESTNET \/ n = MAINNET.

Lemma network_roundtrip n : known_network n -> exists s, Network_String n = Ok s /\ ParseNetwork s = Ok n.
Proof. intros [->|[->| ->]]; eexists; split; reflexivity. Qed.

Definition unsalted (x : FullTx) : FullTx := tx_set_Salt x [].

Lemma hex_ok b : hex_bytes (hex_EncodeToString b) = Ok b.
Proof. unfold hex_bytes. by rewrite hex_roundtrip. Qed.

Lemma tx_json_roundtrip x : wf_tx x -> known_network (tx_Network x) ->
  exists j, tx_toJSON x = Ok j /\ tx_fromJSON j = Ok (unsalted x).
Proof.
  intros (_ & _ & _ & Hv & Hf) Hn. destruct (network_roundtrip _ Hn) as (s & Es & Ep). unfold tx_toJSON. rewrite Es. cbn [res_bind].
  eexists. split; [reflexivity|]. unfold tx_fromJSON. cbn [jt_To jt_Extra jt_Sign jt_Network jt_Value jt_Fee negative]. rewrite address_json_roundtrip, !hex_ok. cbn [res_bind].
  rewrite Ep. cbn [res_bind]. rewrite !(proj2 (Z.ltb_ge _ _)) by done. cbn [orb guard]. by destruct x.
Qed.

Lemma mapM_json l : Forall (fun x => wf_tx x /\ known_network (tx_Network x)) l ->
  exists js, mapM_res tx_toJSON l = Ok js /\ mapM_res tx_fromJSON js = Ok (unsalted <$> l).
Proof.
  induction 1 as [|x l [Hw Hn] _ (js & E1 & E2)]; [by exists []|]. destruct (tx_json_roundtrip x Hw Hn) as (j & F1 & F2).
  exists (j :: js). cbn [mapM_res]. rewrite F1, E1. cbn [res_bind]. split; [done|]. cbn [mapM_res]. rewrite F2, E2. done.
Qed.

(** What is left of a block. *)
Definition json_image (x : FullBlock) : FullBlock :=
  let h := b_Header x in
  {| b_Header := {| h_Network := h_Network h; h_Height := h_Height h; h_Timestamp := h_Timestamp h; h_PrevBlockHash := h_PrevBlockHash h;
       h_TxTrieHash := h_TxTrieHash h; h_WitnessRoot := h_WitnessRoot h; h_Difficulty := h_Difficulty h; h_Coinbase := zeros 32;
       h_UnclesHash := zeros 32; h_StateRoot := if 0 <? zlen (h_StateRoot h) then h_StateRoot h else zeros 32;
       h_BaseFee := h_BaseFee h; h_Nonce := h_Nonce h |};
     b_Txs := unsalted <$> b_Txs x; b_Uncles := []; b_Commits := [] |}.

Definition minimal (b : bytes) : Prop := big_Bytes (be_Z b) = b.

(** C31 - The JSON form of a block, read back.  For a block of a known
    network whose amounts are not negative and whose difficulty and base fee
    are minimally encoded, writing and reading its JSON form succeeds and
    (the base58 of the recipients included) returns the same header but for the coinbase and the uncles hash, which
    become zero, and the same transactions but for their salts; uncles and
    commitments are gone.  So any block with a coinbase, and any reveal,
    comes back as another one. *)
Theorem block_json_roundtrip x :
  wf_block x -> known_network (h_Network (b_Header x)) -> Forall (fun t => known_network (tx_Network t)) (b_Txs x) ->
  minimal (h_Difficulty (b_Header x)) -> minimal (h_BaseFee (b_Header x)) ->
  exists j, block_toJSON x = Ok j /\ block_fromJSON j = Ok (json_image x).
Proof.
  intros (_ & Hw & _) Hn Hns Hd Hb. destruct (network_roundtrip _ Hn) as (s & Es & Ep).
  destruct (mapM_json (b_Txs x)) as (js & E1 & E2).
  { rewrite Forall_forall in *. intros t Ht. split; [by apply Hw|by apply Hns]. }
  unfold block_toJSON. rewrite Es, E1. cbn [res_bind]. eexists. split; [reflexivity|]. unfold block_fromJSON.
  cbn [jb_Txs jb_PrevBlockHash jb_TxTrieHash jb_WitnessRoot jb_StateRoot jb_Difficulty jb_Nonce jb_Network jb_BaseFee jb_Height jb_Timestamp].
  rewrite E2, !hex_ok, !big_String_parses by apply be_Z_nonneg. cbn [res_bind]. rewrite Ep. cbn [res_bind].
  unfold minimal in *. by rewrite Hd, Hb.
Qed.

End Json.

Module JsonWitness.

#[local] Existing Instance prefix_hasher.
#[local] Existing Instance toy_codec.
#[local] Existing Instance LedgerWitness.pow.

(** The libraries of Instances.v with a text of their own for base58: the
    bytes as characters, none of them the empty text. *)
#[local] Instance text_libs : SigLibs := {|
  secp_priv := @secp_priv toy_libs; mldsa_pub := @mldsa_pub toy_libs; mldsa_priv := @mldsa_priv toy_libs; slh_pub := @slh_pub
  toy_libs; slh_priv := @slh_priv toy_libs; shake256 := @shake256 toy_libs; secp_PrivKeyFromBytes := @secp_PrivKeyFromBytes
  toy_libs; secp_IsZero := @secp_IsZero toy_libs; secp_SerializeCompressed := @secp_SerializeCompressed toy_libs; secp_SignCompact
  := @secp_SignCompact toy_libs; secp_RecoverCompact := @secp_RecoverCompact toy_libs; fndsa_KeyGen := @fndsa_KeyGen toy_libs;
  fndsa_Sign := @fndsa_Sign toy_libs; fndsa_Verify := @fndsa_Verify toy_libs; mldsa_SeedSize := @mldsa_SeedSize toy_libs;
  mldsa_NewKeyFromSeed := @mldsa_NewKeyFromSeed toy_libs; mldsa_MarshalBinary := @mldsa_MarshalBinary toy_libs;
  mldsa_UnmarshalBinary := @mldsa_UnmarshalBinary toy_libs; mldsa_SignTo := @mldsa_SignTo toy_libs; mldsa_Verify := @mldsa_Verify
  toy_libs; slh_GenerateKey := @slh_GenerateKey toy_libs; slh_MarshalBinary := @slh_MarshalBinary toy_libs; slh_UnmarshalBinary :=
  @slh_UnmarshalBinary toy_libs; slh_SignDeterministic := @slh_SignDeterministic toy_libs; slh_Verify := @slh_Verify toy_libs;
  p256_Verify := @p256_Verify toy_libs;
  FastBase58Encoding := String.string_of_list_byte;
  FastBase58Decoding := fun s => if bool_decide (s = ""%string) then None else Some (String.list_byte_of_string s)
|}.

#[local] Instance text_base58 : Base58Law.
Proof.
  split. intros [|x b] Hb; [done|]. cbn [FastBase58Decoding FastBase58Encoding text_libs].
  rewrite bool_decide_eq_false_2 by done. by rewrite String.list_byte_of_string_of_list_byte.
Qed.

(** The block of LedgerProps.v, with a coinbase and a salted payment. *)
Lemma block_json_roundtrip_witness :
  exists j, block_toJSON LedgerWitness.block = Ok j /\ block_fromJSON j = Ok (json_image LedgerWitness.block).
Proof.
  apply (block_json_roundtrip LedgerWitness.block LedgerWitness.block_wf).
  - left. vm_compute. reflexivity.
  - assert (E : tx_Network <$> b_Txs LedgerWitness.block = [ZERONET; ZERONET]) by (vm_compute; reflexivity).
    apply (Forall_fmap tx_Network known_network). rewrite E. repeat (constructor; [by left|]). constructor.
  - vm_compute. reflexivity.
  - vm_compute. reflexivity.
Defined.

Example image_differs : h_Coinbase (b_Header (json_image LedgerWitness.block)) <> h_Coinbase (b_Header LedgerWitness.block)
  /\ (tx_Salt <$> b_Txs (json_image LedgerWitness.block)) <> (tx_Salt <$> b_Txs LedgerWitness.block).
Proof. split; vm_compute; discriminate. Qed.

End JsonWitness.
