(* ===== verification/RpcReadsProps.v ===== *)
(** * What the reading calls guarantee

    The fee a wallet is told, amounts, locations and traces. *)

From stdpp Require Import pretty.
From S2P Require Import Prelude Params StateTrie Keys Contract Types Instances Tx Block BlockStore State StateCommit VM VMToy VMProps Journal Ledger Supply Spending LedgerProps Snapshot Queries Chain ChainFrames ForkChoice ForkProps Pool Consensus ConsensusProps Rpc RpcProps Amount RpcReads.

Section Fees.
Context `{HH : Hasher} `{SL : SigLibs} `{CD : Codec} `{SC : SlotCodec} `{RC : ReceiptCodec}
  `{DC : DepsCodec} `{IF : Inflate} `{ML : MerkleLib} `{PL : PowLib} `{VM_ : ContractVM} `{SHC : SheetCodec}.

Lemma hex_bytes_roundtrip b : hex_bytes (hex_EncodeToString b) = Ok b.
Proof. unfold hex_bytes. by rewrite hex_roundtrip. Qed.

Lemma hex_nonempty b : b <> [] -> hex_EncodeToString b <> [].
Proof. by destruct b. Qed.

(** C26 - The fee the node suggests is the fee its pool asks for.  For a transaction
    a wallet submits in full, the suggested minimum is a fee of the pool's
    own floor: the pool's fee check passes exactly from that fee on, a
    transaction for the next height that pays less is refused as below the
    floor, and once the fee market is active the minimum also covers the
    base fee of the next block for the transaction's size. *)
Theorem suggested_fee_is_admission_floor s tx r :
  rlp_FullTx tx <> [] -> 0 <= default 0 (MinFeePerByte (pw_pool (sv_pow s))) -> 0 <= tx_Fee tx ->
  suggestFeeFunc s (Params (hex_EncodeToString (rlp_FullTx tx))) = Ok r ->
  exists m perByte tip,
    sf_MinFee r = Some m
    /\ effectiveFloorPerByte (pw_chain (sv_pow s)) (pw_pool (sv_pow s)) = Ok perByte
    /\ (checkFloor perByte (zlen (rlp_FullTx tx)) (tx_Fee tx) = Ok tt <-> m <= tx_Fee tx)
    /\ (tx_Height tx = nextHeight (pw_chain (sv_pow s)) -> tx_Fee tx < m ->
        PutTx (pw_chain (sv_pow s)) (pw_pool (sv_pow s)) tx = Err ErrTxFeeBelowFloor)
    /\ getLatestBlock (pw_chain (sv_pow s)) = Ok tip
    /\ (IsForkActive (h_Network (b_Header tip)) ForkFeeMarket (u64 (blockHeight tip + 1)) = true ->
        sf_BaseFee r * zlen (rlp_FullTx tx) <= m).
Proof.
  intros Hne Hp Hf E. unfold suggestFeeFunc, sv_chain in E. cbv zeta in E.
  destruct (getLatestBlock (pw_chain (sv_pow s))) as [tip|] eqn:Et; [|done]. cbn [res_bind] in E.
  pose proof (hex_nonempty _ Hne) as Hh. destruct (hex_EncodeToString (rlp_FullTx tx)) as [|x hx] eqn:Ex; [done|].
  rewrite <-Ex, hex_bytes_roundtrip in E. cbn [res_bind] in E. injection E as <-. cbn [sf_MinFee sf_BaseFee].
  set (n := zlen (rlp_FullTx tx)). assert (Hn : 0 < n).
  { unfold n, zlen. destruct (rlp_FullTx tx); [done|]. cbn [length]. lia. }
  set (base := NextBaseFee _ _ _ _). set (on := IsForkActive _ _ _). set (pol := MinFeePerByte (pw_pool (sv_pow s))) in *.
  set (m := (if on && (default 0 pol <? base) then base else default 0 pol) * n).
  set (perByte := if on then Some (match pol with Some p => if 0 <? p then (if p <? base then base else p) else base | None => base end)
                  else match pol with Some p => if 0 <? p then Some p else None | None => None end).
  assert (Ee : effectiveFloorPerByte (pw_chain (sv_pow s)) (pw_pool (sv_pow s)) = Ok perByte).
  { unfold effectiveFloorPerByte. rewrite Et. cbn [res_bind]. fold pol. unfold perByte, on, base. destruct (IsForkActive _ _ _); [|done].
    f_equal. destruct pol as [p|]; [|done]. destruct (0 <? p); [|done]. by destruct (p <? _). }
  assert (Hfloor : checkFloor perByte n (tx_Fee tx) = if tx_Fee tx <? m then Err ErrTxFeeBelowFloor else Ok tt).
  { unfold checkFloor, perByte, m. destruct on, pol as [p|]; cbn [andb from_option] in *; unfold id in *.
    - destruct (Z.ltb_spec 0 p) as [P|P], (Z.ltb_spec p base) as [B|B].
      + by rewrite (proj2 (Z.ltb_lt 0 base)) by lia.
      + by rewrite (proj2 (Z.ltb_lt 0 p)) by lia.
      + by rewrite (proj2 (Z.ltb_lt 0 base)) by lia.
      + rewrite (proj2 (Z.ltb_ge 0 base)), (proj2 (Z.ltb_ge (tx_Fee tx) _)) by nia. done.
    - destruct (Z.ltb_spec 0 base) as [B|B]; [done|]. by rewrite (proj2 (Z.ltb_ge (tx_Fee tx) _)) by lia.
    - destruct (Z.ltb_spec 0 p) as [P|P]; [by rewrite (proj2 (Z.ltb_lt 0 p)) by lia|].
      by rewrite (proj2 (Z.ltb_ge (tx_Fee tx) _)) by nia.
    - by rewrite (proj2 (Z.ltb_ge (tx_Fee tx) _)) by lia. }
  exists m, perByte, tip. split_and!; [done|done| | |done|].
  - rewrite Hfloor. destruct (Z.ltb_spec (tx_Fee tx) m); split; try done; lia.
  - intros Hh' Hm. unfold PutTx. rewrite Hh', Z.eqb_refl. cbn [negb guard]. rewrite Ee. cbn [res_bind]. fold n. rewrite Hfloor.
    by rewrite (proj2 (Z.ltb_lt _ _) Hm).
  - fold on. intros Hon. unfold m. rewrite Hon. cbn [andb]. destruct (Z.ltb_spec (default 0 pol) base); nia.
Qed.

(** The locked balance is the total less what the mature snapshot held, so it
    is negative for an address that spent since then. *)
Lemma locked_balance_sign s p r s' :
  getBalanceByAddressFunc s (Params p) = (Ok r, s') -> ap_Height p = None ->
  exists mature locked, br_Mature r = Some mature /\ br_Locked r = Some locked /\ (locked < 0 <-> br_Total r < mature).
Proof.
  unfold getBalanceByAddressFunc. cbn [unmarshal res_bind]. intros E Hh. destruct (NewAddressFromBS58 _) as [addr|]; [|done].
  cbn [res_bind] in E. rewrite Hh in E. destruct (GetMatureBalanceByAddress _ _ _ _) as [[m sm]|]; [|done].
  injection E as <- _. do 2 eexists. split_and!; [done|done|cbn [br_Total]; lia..].
Qed.

End Fees.

(** ** Witnesses *)

Module ReadsWitness.

#[local] Existing Instance prefix_hasher.
#[local] Existing Instance toy_libs.
#[local] Existing Instance toy_codec.
#[local] Existing Instance toy_slot_codec.
#[local] Existing Instance toy_toll.
#[local] Existing Instance RunWitness.engine.
#[local] Existing Instance LedgerWitness.receipts.
#[local] Existing Instance LedgerWitness.deps.
#[local] Existing Instance LedgerWitness.inflate.
#[local] Existing Instance LedgerWitness.merkle.
#[local] Existing Instance LedgerWitness.text.
#[local] Existing Instance ForkWitness.pow.
#[local] Existing Instance ForkWitness.sheets.

Definition ask : params bytes := Params (hex_EncodeToString (rlp_FullTx ForkWitness.reward)).

(** A free transaction on the genesis block. *)
Lemma suggestion : (match suggestFeeFunc RpcWitness.server ask with Ok r => match sf_MinFee r with Some m => 0 <? m | None => false end | Err _ => false end)
  && (tx_Height ForkWitness.reward =? nextHeight (pw_chain (sv_pow RpcWitness.server))) = true.
Proof. vm_compute. reflexivity. Qed.

Lemma suggested_fee_is_admission_floor_witness :
  exists r m, suggestFeeFunc RpcWitness.server ask = Ok r /\ sf_MinFee r = Some m
    /\ PutTx (pw_chain (sv_pow RpcWitness.server)) (pw_pool (sv_pow RpcWitness.server)) ForkWitness.reward = Err ErrTxFeeBelowFloor.
Proof.
  pose proof suggestion as H. apply andb_prop in H as [H Hh]. destruct (suggestFeeFunc RpcWitness.server ask) as [r|] eqn:E; [|discriminate H].
  destruct (sf_MinFee r) as [m|] eqn:Em; [|discriminate H]. exists r, m. split; [reflexivity|]. split; [exact Em|].
  destruct (suggested_fee_is_admission_floor RpcWitness.server ForkWitness.reward r) as (m' & perByte & tip & Hm & _ & _ & Hp & _).
  - discriminate.
  - apply Z.leb_le. reflexivity.
  - apply Z.leb_le. reflexivity.
  - exact E.
  - rewrite Em in Hm. injection Hm as <-. apply Hp; [apply Z.eqb_eq; exact Hh|]. apply Z.ltb_lt. exact H.
Defined.

End ReadsWitness.
