(* ===== verification/Wallet.v ===== *)
(** * The wallet

    Packages keytools and utils (key files), and the client side of
    cmd/ngcore/cli_tools.go: composing, salting, committing to and signing an
    effect transaction.  A file system is a map from names to contents; the
    calls to a node go to the handlers of Rpc.v and RpcReads.v. *)

From stdpp Require Import pretty.
From S2P Require Import Prelude Params StateTrie Keys Contract Types Instances Tx Block BlockStore State StateCommit VM VMToy VMProps Journal Ledger Supply Spending LedgerProps Snapshot Queries Chain Pool Consensus Rpc RpcProps Amount RpcReads.

(** ** Key files *)

(** crypto/aes, crypto/cipher and sha3: authenticated encryption under the
    hash of a password. *)
Class AEAD := {
  sha3_Sum256 : bytes -> bytes;
  gcm_NonceSize : nat;
  gcm_Seal : bytes -> bytes -> bytes -> bytes;
  gcm_Open : bytes -> bytes -> bytes -> option bytes
}.

Class AEADLaws `{AEAD} : Prop :=
  gcm_Open_Seal : forall key nonce plain, length nonce = gcm_NonceSize -> gcm_Open key nonce (gcm_Seal key nonce plain) = Some plain.

Section KeyTools.
Context `{HH : Hasher} `{SL : SigLibs} `{AE : AEAD}.

(** The nonce [crypto/rand] returned is an argument. *)
Definition AES256GCMEncrypt (nonce raw password : bytes) : bytes := nonce ++ gcm_Seal (sha3_Sum256 password) nonce raw.

Definition AES256GCMDecrypt (raw password : bytes) : res bytes :=
  reject (length raw <? gcm_NonceSize)%nat with GoPanic ;
  match gcm_Open (sha3_Sum256 password) (take gcm_NonceSize raw) (drop gcm_NonceSize raw) with
  | Some plain => Ok plain
  | None => Err GoPanic
  end.

Abbreviation FS := (gmap string bytes).

(** [fallback]: the default file, of an empty name. *)
Definition keyFile (fallback filename : string) : string :=
  if bool_decide (filename = ""%string) then fallback else filename.

Definition saveKey (nonce : bytes) (fs : FS) (filename : string) (password : bytes) (key : PrivateKey) : FS :=
  <[filename := AES256GCMEncrypt nonce (Serialize key) password]> fs.

(** [rnd]: the seed drawn. *)
Definition CreateLocalKeyWithScheme (rnd nonce : bytes) (fallback : string) (fs : FS) (filename : string) (password : bytes)
    (scheme : SigScheme) : res (PrivateKey * FS) :=
  match GenerateSchemeKey rnd scheme with
  | Err _ => Err GoPanic
  | Ok key => Ok (key, saveKey nonce fs (keyFile fallback filename) password key)
  end.

Definition CreateLocalKey (rnd nonce : bytes) (fallback : string) (fs : FS) (filename : string) (password : bytes)
    : res (PrivateKey * FS) :=
  CreateLocalKeyWithScheme rnd nonce fallback fs filename password SchemeDefault.

(** A missing file is created with a fresh key. *)
Definition ReadLocalKey (rnd nonce : bytes) (fallback : string) (fs : FS) (filename : string) (password : bytes)
    : res (PrivateKey * FS) :=
  let filename := keyFile fallback filename in
  match fs !! filename with
  | None => CreateLocalKey rnd nonce fallback fs filename password
  | Some raw =>
      let! rawPK := AES256GCMDecrypt raw password in
      match ParsePrivateKey rawPK with Ok key => Ok (key, fs) | Err _ => Err GoPanic end
  end.

Definition RecoverLocalKey (nonce : bytes) (fallback : string) (fs : FS) (filename : string) (password : bytes) (privateKey : string)
    : res (PrivateKey * FS) :=
  match FastBase58Decoding privateKey with
  | None => Err GoPanic
  | Some bKey =>
      match ParsePrivateKey bKey with
      | Err _ => Err GoPanic
      | Ok key => Ok (key, saveKey nonce fs (keyFile fallback filename) password key)
      end
  end.

Definition NewLocalKey (rnd : bytes) : res PrivateKey :=
  match GenerateKey rnd with Ok key => Ok key | Err _ => Err GoPanic end.

(** cli_tools.go: the names of the schemes. *)
Definition schemeByName : gmap string SigScheme :=
  list_to_map [("secp256k1"%string, SchemeSecp256k1); ("fndsa512"%string, SchemeFNDSA512);
               ("mldsa44"%string, SchemeMLDSA44); ("slhdsa128"%string, SchemeSLHDSA128)].

Definition nameByScheme (scheme : SigScheme) : string :=
  if bool_decide (scheme = SchemeSecp256k1) then "secp256k1"
  else if bool_decide (scheme = SchemeFNDSA512) then "fndsa512"
  else if bool_decide (scheme = SchemeMLDSA44) then "mldsa44"
  else if bool_decide (scheme = SchemeSLHDSA128) then "slhdsa128"
  else "".

(** The command [key]: the scheme's name and the address. *)
Definition wallet_key (rnd nonce : bytes) (fallback : string) (fs : FS) (filename : string) (password : bytes) (new : bool) (scheme : string)
    : res (string * Address * FS) :=
  let! (key, fs) :=
    if new then
      match schemeByName !! scheme with
      | None => Err ErrUnknownName
      | Some scheme => CreateLocalKeyWithScheme rnd nonce fallback fs filename password scheme
      end
    else ReadLocalKey rnd nonce fallback fs filename password in
  let! addr := NewAddress key in
  Ok (nameByScheme (Scheme key), addr, fs).

End KeyTools.

(** ** cli_tools.go *)

Section Wallet.
Context `{HH : Hasher} `{SL : SigLibs} `{CD : Codec} `{SC : SlotCodec} `{RC : ReceiptCodec}
  `{DC : DepsCodec} `{IF : Inflate} `{ML : MerkleLib} `{PL : PowLib} `{VM_ : ContractVM} `{SHC : SheetCodec}
  `{RT : Router} `{DF : Deflate}.

(** [salt], [rnd], [rnd']: what [crypto/rand] and the two signatures draw. *)
Definition sealReveal (salt rnd : bytes) (key : PrivateKey) (unsigned : FullTx) : res FullTx :=
  Signature rnd (tx_set_Salt unsigned salt) key.

Definition sealCommit (salt rnd' : bytes) (key : PrivateKey) (reveal : FullTx) (height commitFee : Z) : res Commitment :=
  let preimage := UnheightedHash reveal ++ salt in
  Commitment_Signature rnd' (NewCommitment (tx_Network reveal) (u64 (height + 1)) (Hash256 preimage) (Some commitFee)) key.

(** Both halves go to the node in one call; [latest] answers the height. *)
Definition sealAndRelay (salt rnd rnd' : bytes) (key : PrivateKey) (commitFeeNG : bytes) (s : Server) (unsignedHex : bytes)
    : res bytes * Server :=
  match (let! rawTx := hex_bytes unsignedHex in
         let! unsigned := match dec_FullTx rawTx with Some x => Ok x | None => Err ErrDecode end in
         let! reveal := sealReveal salt rnd key unsigned in
         let! height := if pw_syncing (sv_pow s) then Err ErrChainOnSyncing else Ok (getLatestBlockHeightFunc s) in
         let! commitFee := parseNG commitFeeNG in
         let! commit := sealCommit salt rnd' key reveal height commitFee in
         Ok (commit, reveal)) with
  | Err e => (Err e, s)
  | Ok (commit, reveal) =>
      sendPrivateTxFunc s (Params {| pt_RawCommitment := hex_EncodeToString (rlp_Commitment commit);
                                     pt_RawReveal := hex_EncodeToString (rlp_FullTx reveal) |})
  end.

(** The commands [send], [deploy] and [destroy]. *)
Definition wallet_send (salt rnd rnd' : bytes) (key : PrivateKey) (commitFeeNG : bytes) (s : Server) (p : genTransactionParams)
    : res bytes * Server :=
  match genTransactionFunc s (Params p) with
  | Err e => (Err e, s)
  | Ok unsigned => sealAndRelay salt rnd rnd' key commitFeeNG s unsigned
  end.

Definition wallet_deploy (salt rnd rnd' : bytes) (key : PrivateKey) (commitFeeNG : bytes) (s : Server) (fee module : bytes)
    : res bytes * Server :=
  match genDeployFunc s (Params {| gc_Fee := fee; gc_Wasm := hex_EncodeToString module |}) with
  | Err e => (Err e, s)
  | Ok unsigned => sealAndRelay salt rnd rnd' key commitFeeNG s unsigned
  end.

Definition wallet_destroy (salt rnd rnd' : bytes) (key : PrivateKey) (commitFeeNG : bytes) (s : Server) (fee : bytes)
    : res bytes * Server :=
  wallet_deploy salt rnd rnd' key commitFeeNG s fee [].

(** The commands that read: an address left out is the key's own. *)
Definition ownAddress (key : PrivateKey) : res string := let! addr := NewAddress key in Ok (Address_BS58 addr).

Definition addressOrOwn (key : PrivateKey) (of_ : string) : res string :=
  if bool_decide (of_ = ""%string) then ownAddress key else Ok of_.

Definition wallet_balance (key : PrivateKey) (s : Server) (of_ : string) : res balanceReply * Server :=
  match addressOrOwn key of_ with
  | Err e => (Err e, s)
  | Ok address => getBalanceByAddressFunc s (Params {| ap_Address := address; ap_Height := None |})
  end.

Definition wallet_contract (key : PrivateKey) (s : Server) (of_ : string) : res Contract :=
  let! address := addressOrOwn key of_ in
  getContractInfoFunc s (Params {| ap_Address := address; ap_Height := None |}).

Definition wallet_call (s : Server) (contract : string) (entry args value : bytes) : res callContractResult :=
  callContractFunc s (Params {| cp_Contract := contract; cp_Value := value; cp_Entry := entry; cp_Extra := args; cp_Height := None |}).

Definition wallet_tx (s : Server) (hash : bytes) : res (getTxByHashReply * getReceiptResult) :=
  let! tx := getTxByHashFunc s (Params hash) in
  let! receipt := getReceiptFunc s (Params hash) in
  Ok (tx, receipt).

End Wallet.

(** ** Key files come back *)

Section KeyFiles.
Context `{HH : Hasher} `{SL : SigLibs} `{AE : AEAD} `{AL : !AEADLaws}.

Lemma Decrypt_Encrypt nonce raw password :
  length nonce = gcm_NonceSize -> AES256GCMDecrypt (AES256GCMEncrypt nonce raw password) password = Ok raw.
Proof.
  intros Hn. unfold AES256GCMDecrypt, AES256GCMEncrypt. rewrite length_app, Hn.
  rewrite (proj2 (Nat.ltb_ge _ _)) by lia. cbn [guard]. rewrite <-Hn, take_app_length, drop_app_length. by rewrite AL.
Qed.

(** A saved key is read back, and reading it changes nothing. *)
Lemma saved_key_read sc sd key rnd nonce nonce' fallback fs filename password :
  NewKeyFromSeed sc sd = Ok key -> length nonce = gcm_NonceSize ->
  ReadLocalKey rnd nonce' fallback (saveKey nonce fs (keyFile fallback filename) password key) filename password
  = Ok (key, saveKey nonce fs (keyFile fallback filename) password key).
Proof.
  intros Hk Hn. unfold ReadLocalKey, saveKey. rewrite lookup_insert_eq, Decrypt_Encrypt by done. cbn [res_bind].
  by rewrite (Parse_Serialize _ _ _ Hk).
Qed.

End KeyFiles.

(** ** What a wallet's submission can rely on *)

Section WalletProps.
Context `{HH : Hasher} `{SL : SigLibs} `{CD : Codec} `{SC : SlotCodec} `{RC : ReceiptCodec}
  `{DC : DepsCodec} `{IF : Inflate} `{ML : MerkleLib} `{PL : PowLib} `{VM_ : ContractVM} `{SHC : SheetCodec}.

Lemma findCommit_found t from hash rh h :
  0 <= h -> rh - CommitWindow <= h < rh -> bGet t CommitBucketName (commitKey h hash) = Some (vec_to_list from) ->
  is_Some (findCommit t from hash rh).
Proof.
  intros H0 Hw Hb. unfold findCommit. cbv zeta. rewrite head_is_Some. intros E.
  assert (Hin : h ∈ filter (fun h => commit_at t from hash h = true)
    (scan_heights (if CommitWindow <? rh then rh - CommitWindow else 0) rh)); [|rewrite E in Hin; by apply not_elem_of_nil in Hin].
  apply list_elem_of_filter. split; [unfold commit_at; by rewrite bool_decide_eq_true_2|].
  unfold scan_heights. apply elem_of_seqZ. destruct (_ <? _); lia.
Qed.

(** Signing does not look at the height of an effect transaction or of a
    commitment. *)
Lemma Signature_retarget rnd x key y h :
  tx_Type x = TransactTx \/ tx_Type x = DeployTx -> Signature rnd x key = Ok y ->
  Signature rnd (tx_set_Height x h) key = Ok (tx_set_Height y h).
Proof.
  intros Ht. unfold Signature. intros E. open_ok E. injection E as <-.
  assert (Hs : SigningHash (tx_set_Sign (tx_set_Height x h) []) = SigningHash (tx_set_Sign x [])).
  { unfold SigningHash. change (tx_Type (tx_set_Sign (tx_set_Height x h) [])) with (tx_Type x).
    change (tx_Type (tx_set_Sign x [])) with (tx_Type x). by destruct Ht as [-> | ->]. }
  by rewrite Hs, Hr.
Qed.

Lemma Commitment_Signature_retarget rnd c key d h :
  Commitment_Signature rnd c key = Ok d -> Commitment_Signature rnd (c_set_Height c h) key = Ok (c_set_Height d h).
Proof.
  unfold Commitment_Signature. intros E. open_ok E. injection E as <-.
  change (Commitment_SigningHash (c_set_Sign (c_set_Height c h) [])) with (Commitment_SigningHash (c_set_Sign c [])). by rewrite Hr.
Qed.

Lemma Commitment_signed rnd c d sc sd key lookup :
  SigLaws -> NewKeyFromSeed sc sd = Ok key -> Commitment_Signature rnd c key = Ok d ->
  Commitment_Verify d lookup = Ok tt /\ Commitment_From d = NewAddress key /\ c_Hash d = c_Hash c /\ c_Fee d = c_Fee c.
Proof.
  intros HL Hk E. unfold Commitment_Signature in E. open_ok E. injection E as <-. rename r into env.
  destruct (NewKeyFromSeed_scheme _ _ _ Hk) as [Hsc _].
  destruct (split_envelope_sign ErrCommitUnsigned ErrCommitSignInvalid _ _ _ _ _ _ lookup HL Hk Hr) as (pub & sig & He & Hv & Hp).
  split_and!; [| |done|done].
  - unfold Commitment_Verify. change (c_Sign (c_set_Sign (c_set_Sign c []) env)) with env.
    rewrite (sign_envelope_nonempty _ _ _ _ Hr). cbn [guard].
    change (Commitment_envelope (c_set_Sign (c_set_Sign c []) env) lookup)
      with (split_envelope ErrCommitUnsigned ErrCommitSignInvalid env (Commitment_SigningHash (c_set_Sign c [])) lookup).
    rewrite He. cbn [res_bind]. change (Commitment_SigningHash (c_set_Sign (c_set_Sign c []) env)) with (Commitment_SigningHash (c_set_Sign c [])).
    by rewrite Hv.
  - unfold NewAddress. rewrite Hp. cbn [res_bind]. rewrite Hsc.
    exact (split_envelope_from ErrCommitUnsigned ErrCommitUnsigned ErrCommitSignInvalid _ _ lookup _ _ _ He).
Qed.

(** C15 - What a wallet seals, the chain takes.  From an unsigned effect
    transaction the wallet makes a reveal and a commitment.  At whatever
    height the commitment is included, its sender being able to pay and not
    having it pending already, the state accepts it and records it for the
    wallet's address; and while the record stands, the reveal retargeted to
    any of the next [CommitWindow] heights is signed by that address,
    passes the admission check of the pool and of a block, and consumes a
    commitment - although the wallet signed both before either height was
    known. *)
Theorem wallet_pair_lands sc sd key addr salt rnd rnd' unsigned reveal commit height fee :
  SigLaws -> NewKeyFromSeed sc sd = Ok key -> NewAddress key = Ok addr ->
  tx_Type unsigned = TransactTx \/ tx_Type unsigned = DeployTx ->
  zlen (tx_Extra unsigned) <= TxMaxExtraSize -> MinSaltSize <= zlen salt ->
  sealReveal salt rnd key unsigned = Ok reveal -> sealCommit salt rnd' key reveal height fee = Ok commit ->
  forall t cs lookup hc h, 0 <= hc -> hc < h <= hc + CommitWindow ->
    (commitFromPending t addr (c_Hash commit) hc = false -> fee <= getBalance t addr ->
     handleCommit cs t (c_set_Height commit hc)
     = Ok (putCommit (setBalance t cs addr (getBalance t addr - fee)) hc (c_Hash commit) addr))
    /\ (bGet t CommitBucketName (commitKey hc (c_Hash commit)) = Some (vec_to_list addr) ->
        let r := tx_set_Height reveal h in
        Verify r lookup = Ok tt /\ From r = Ok addr /\ checkReveal t r = Ok tt /\ exists t', consumeReveal t r = Ok t').
Proof.
  intros HL Hk Ha Ht Hx Hsalt Hre Hco t cs lookup hc h H0 Hw. unfold sealCommit in Hco. split.
  - intros Hpend Hfee. apply (Commitment_Signature_retarget _ _ _ _ hc) in Hco.
    destruct (Commitment_signed _ _ _ _ _ _ (keyResolver t) HL Hk Hco) as (Hv & Hf & Hh & Hfe).
    unfold handleCommit. rewrite Hv, Hf, Ha. cbn [res_bind]. change (c_Height (c_set_Height commit hc)) with hc.
    change (c_Hash (c_set_Height commit hc)) with (c_Hash commit) in *. rewrite Hpend. cbn [guard]. change (c_Fee (c_set_Height commit hc) = Some fee) in Hfe. rewrite Hfe.
    by rewrite (proj2 (Z.ltb_ge _ _) Hfee).
  - intros Hb. cbv zeta.
    assert (Hsa : tx_Salt (tx_set_Height reveal h) = salt).
    { unfold sealReveal, Signature in Hre. open_ok Hre. by injection Hre as <-. }
    apply (Signature_retarget _ _ _ _ h) in Hre; [|done].
    destruct (Signature_Verify _ _ _ _ _ _ lookup HL Hk Hre Hx) as [Hv Hf].
    assert (Hfr : From (tx_set_Height reveal h) = Ok addr) by (rewrite Ha in Hf; by destruct (From _)).
    assert (Hc : c_Hash commit = revealHash (tx_set_Height reveal h)).
    { destruct (Commitment_signed _ _ _ _ _ _ lookup HL Hk Hco) as (_ & _ & Eh & _). rewrite Eh. unfold revealHash. by rewrite Hsa. }
    rewrite Hc in Hb. destruct (findCommit_found t addr _ h hc H0 ltac:(lia) Hb) as [h' Hh'].
    assert (Hsz : (zlen salt <? MinSaltSize) = false) by (by apply Z.ltb_ge). assert (Hne : (zlen salt =? 0) = false).
    { apply Z.eqb_neq. unfold MinSaltSize in Hsalt. lia. }
    assert (Hh0 : (tx_Height (tx_set_Height reveal h) =? 0) = false) by (apply Z.eqb_neq; cbn; lia).
    split_and!; [done|done| |].
    + unfold checkReveal. rewrite Hh0, Hsa, Hne, Hsz. cbn [guard]. rewrite Hfr. cbn [res_bind].
      change (tx_Height (tx_set_Height reveal h)) with h. by rewrite Hh'.
    + unfold consumeReveal. rewrite Hh0, Hsa, Hsz. cbn [guard]. rewrite Hfr. cbn [res_bind].
      change (tx_Height (tx_set_Height reveal h)) with h. rewrite Hh'. by eexists.
Qed.

End WalletProps.

(** ** Witnesses *)

Module WalletWitness.

#[local] Existing Instance prefix_hasher.
#[local] Existing Instance toy_libs.
#[local] Existing Instance toy_codec.
#[local] Existing Instance toy_laws.

Definition salt : bytes := replicate 32 (Zbyte 3).
Definition pay : FullTx := NewUnsignedTx ZERONET TransactTx 9 (to_array 32 [Zbyte 9]) (Some 10) (Some 3) [].
Definition wallet : PrivateKey := LedgerWitness.alice_key.
Definition pair : res (Commitment * FullTx) :=
  let! reveal := sealReveal salt [] wallet pay in
  let! commit := sealCommit salt [] wallet reveal 8 1 in Ok (commit, reveal).

Lemma pair_ok : is_ok pair = true.
Proof. vm_compute. reflexivity. Qed.

(** Sealed at height 8, included in block 10, revealed in block 12. *)
Lemma wallet_pair_lands_witness :
  exists commit reveal, pair = Ok (commit, reveal)
    /\ exists t', consumeReveal (putCommit ∅ 10 (c_Hash commit) LedgerWitness.alice) (tx_set_Height reveal 12) = Ok t'.
Proof.
  pose proof pair_ok as Hp. unfold pair in *. destruct (sealReveal salt [] wallet pay) as [reveal|] eqn:Er; [|discriminate Hp].
  cbn [res_bind] in *. destruct (sealCommit salt [] wallet reveal 8 1) as [commit|] eqn:Ec; [|discriminate Hp].
  exists commit, reveal. split; [reflexivity|].
  destruct (wallet_pair_lands SchemeFNDSA512 Tx.Witness.seed32 wallet LedgerWitness.alice salt [] [] pay reveal commit 8 1) with
    (t := putCommit ∅ 10 (c_Hash commit) LedgerWitness.alice) (cs := @None changeset) (lookup := @None (Address -> bytes)) (hc := 10) (h := 12) as [_ H].
  - exact toy_laws.
  - apply Tx.Witness.key_of_ok. vm_compute. reflexivity.
  - vm_compute. reflexivity.
  - left. reflexivity.
  - apply Z.leb_le. vm_compute. reflexivity.
  - apply Z.leb_le. vm_compute. reflexivity.
  - exact Er.
  - exact Ec.
  - apply Z.leb_le. reflexivity.
  - split; [apply Z.ltb_lt; reflexivity|apply Z.leb_le; reflexivity].
  - destruct H as (_ & _ & _ & H); [|exact H]. unfold putCommit. cbv zeta. unfold trieSetCommit.
    rewrite bGet_trieSetLeaf by discriminate. rewrite bGet_bPut, decide_True by (split; reflexivity). reflexivity.
Defined.

End WalletWitness.
