(* ===== verification/ForkTool.v ===== *)
(** * The fork tool and the scenario runner

    cmd/ngcore/fork.go, an instantly sealing copy of a chain for debugging
    contracts, cmd/ngcore/contracttest.go, which runs scripted calls against
    a fresh chain, and ngstate/remote_fallback.go, the read-through hook of a
    lazy fork.  Requests are their decoded parameters, replies the records of
    their fields; the server's lock serialises the handlers.  The file system
    is a map, and each request is given the outcomes of its file
    operations. *)

From stdpp Require Import pretty.
From S2P Require Import Prelude Params StateTrie Keys Contract Types Instances Tx Block BlockStore State StateCommit VM Journal Ledger Snapshot Queries Chain Pool Consensus Rpc Amount RpcReads.

(** ** contracttest.go: the byte-part language *)

(** [strings.HasPrefix] and the rest. *)
Fixpoint cut_prefix (p s : string) : option string :=
  match p, s with
  | EmptyString, _ => Some s
  | String a p, String b s => if bool_decide (a = b) then cut_prefix p s else None
  | _, _ => None
  end.

Definition leU64 (b : bytes) : Z :=
  if (length b <? 8)%nat then UnpackUint64LE (vec_to_list (to_array 8 b)) else UnpackUint64LE b.

(** Writing past the 32 bytes panics. *)
Definition beToLE32 (be : bytes) : res bytes :=
  reject (32 <? length be)%nat with GoPanic ;
  Ok (reverse be ++ zeros (32 - length be)).

Definition leToBE (le : bytes) : bytes := reverse le.

Section ForkTool.
Context `{HH : Hasher} `{SL : SigLibs} `{CD : Codec} `{SC : SlotCodec} `{RC : ReceiptCodec}
  `{DC : DepsCodec} `{IF : Inflate} `{ML : MerkleLib} `{VM_ : ContractVM} `{DF : Deflate}.

Definition namedAddr (s : string) : Address := to_array 32 (Hash256 (str s)).

Definition packPart (addrs : gmap string Address) (p : string) : res bytes :=
  match cut_prefix "@" p with
  | Some name => match addrs !! name with Some a => Ok (vec_to_list a) | None => Err ErrUnknownName end
  | None =>
  match cut_prefix "u64:" p with
  | Some n => let! v := ParseUint (str n) 10 in Ok (PackUint64LE v)
  | None =>
  match cut_prefix "u256:" p with
  | Some n => match Int_SetString (str n) 10 with
              | Some v => reject v <? 0 with ErrBadPart ; beToLE32 (big_Bytes v)
              | None => Err ErrBadPart
              end
  | None =>
  match cut_prefix "str:" p with
  | Some x => Ok (str x)
  | None =>
  match cut_prefix "hex:" p with
  | Some x => hex_bytes (str x)
  | None => Err ErrBadPart
  end end end end end.

Definition packParts (parts : list string) (addrs : gmap string Address) : res bytes :=
  res_fold (fun out p => let! b := packPart addrs p in Ok (out ++ b)) [] parts.

(** The deterministic key of a name. *)
Definition signer_key (name : string) : res PrivateKey :=
  NewKeyFromSeed SchemeSecp256k1 (Hash256 (str ("signer:" ++ name))).

(** ** fork.go *)

(** A file holds a database, or what an interrupted write left of one. *)
Inductive fileContent := FileDB (t : Txn) | FileTorn.

(** The outcomes of the file operations of a request; [io_halfClosed]: what
    a failed close leaves of the handle. *)
Record fileIO := {
  io_create : bool; io_write : bool; io_close : bool; io_halfClosed : bool;
  io_source : bool; io_dest : bool; io_copy : bool; io_open : bool
}.

Record devSnapshot := { sn_path : string; sn_height : Z; sn_blockTime : Z }.

(** [fc_opened]: whether the handle [db] is open; through it the database is
    the content of the file [dbPath]. *)
Record forkChain := {
  fc_network : Network;
  fc_dbPath : string;
  fc_files : gmap string fileContent;
  fc_opened : bool;
  fc_state : State;
  fc_height : Z;
  fc_blockTime : Z;
  fc_names : gmap string Address;
  fc_keys : gmap string PrivateKey;
  fc_fund : Z;
  fc_snapshots : gmap Z devSnapshot;
  fc_nextSnap : Z
}.

Definition fc_db (d : forkChain) : Txn :=
  match fc_files d !! fc_dbPath d with Some (FileDB t) => t | _ => ∅ end.

Definition fc_set_files (d : forkChain) (files : gmap string fileContent) (opened : bool) (state : State) : forkChain :=
  {| fc_network := fc_network d; fc_dbPath := fc_dbPath d; fc_files := files; fc_opened := opened; fc_state := state;
     fc_height := fc_height d; fc_blockTime := fc_blockTime d; fc_names := fc_names d; fc_keys := fc_keys d; fc_fund := fc_fund d;
     fc_snapshots := fc_snapshots d; fc_nextSnap := fc_nextSnap d |}.

Definition fc_set_clock (d : forkChain) (height blockTime : Z) : forkChain :=
  {| fc_network := fc_network d; fc_dbPath := fc_dbPath d; fc_files := fc_files d; fc_opened := fc_opened d; fc_state := fc_state d;
     fc_height := height; fc_blockTime := blockTime; fc_names := fc_names d; fc_keys := fc_keys d; fc_fund := fc_fund d;
     fc_snapshots := fc_snapshots d; fc_nextSnap := fc_nextSnap d |}.

(** A committed transaction, in the file of the database. *)
Definition fc_commit (d : forkChain) (db : Txn) : forkChain :=
  fc_set_files d (<[fc_dbPath d := FileDB db]> (fc_files d)) (fc_opened d) (fc_state d).

Definition fc_advance (d : forkChain) (db : Txn) (height blockTime : Z) : forkChain := fc_set_clock (fc_commit d db) height blockTime.

Definition fc_register (d : forkChain) (name : string) (addr : Address) (key : PrivateKey) : forkChain :=
  {| fc_network := fc_network d; fc_dbPath := fc_dbPath d; fc_files := fc_files d; fc_opened := fc_opened d; fc_state := fc_state d;
     fc_height := fc_height d; fc_blockTime := fc_blockTime d; fc_names := <[name := addr]> (fc_names d); fc_keys := <[name := key]> (fc_keys d);
     fc_fund := fc_fund d; fc_snapshots := fc_snapshots d; fc_nextSnap := fc_nextSnap d |}.

(** Handlers: a result or an error, and the chain they leave behind. *)
Definition D (A : Type) : Type := forkChain -> res A * forkChain.
Definition dret {A} (a : A) : D A := fun d => (Ok a, d).
Definition dbind {A B} (m : D A) (f : A -> D B) : D B :=
  fun d => match m d with (Ok a, d) => f a d | (Err e, d) => (Err e, d) end.
Definition dlift {A} (r : res A) : D A := fun d => (r, d).
Definition dget : D forkChain := fun d => (Ok d, d).
Definition dput (d : forkChain) : D unit := fun _ => (Ok tt, d).

Notation "'d!' x := m 'in' k" := (dbind m (fun x => k))
  (at level 10, x pattern, m at level 100, k at level 200).
Notation "'also!' m ';' k" := (dbind m (fun _ => k))
  (at level 10, m at level 100, k at level 200).

(** [open] on a database: the handle has neither archive nor recorder. *)
Definition fc_open (network : Network) : State := {| st_Network := network; st_Archive := false |}.

(** state.go: the network of the handle is left unset. *)
Definition InitStateFromSheet (db : Txn) (sheet : Sheet) : res (State * Txn) :=
  match initFromSheet db sheet with
  | Ok db => Ok ({| st_Network := 0; st_Archive := true |}, db)
  | Err _ => Err GoPanic
  end.

(** A transaction of the database; on a closed handle it is an error. *)
Definition dtxn {A} (f : Txn -> res A) : D A :=
  d! d := dget in
  if fc_opened d then dlift (f (fc_db d)) else dlift (Err ErrLibrary).

(** [os.Create] makes the file or truncates it. *)
Definition os_Create (path : string) : D unit :=
  d! d := dget in dput (fc_set_files d (<[path := FileTorn]> (fc_files d)) (fc_opened d) (fc_state d)).

Definition os_Write (path : string) (c : fileContent) : D unit :=
  d! d := dget in dput (fc_set_files d (<[path := c]> (fc_files d)) (fc_opened d) (fc_state d)).

(** The source is read after the destination was truncated. *)
Definition copyFile (io : fileIO) (src dst : string) : D unit :=
  d! d := dget in
  if negb (io_source io) || bool_decide (fc_files d !! src = None) then dlift (Err ErrLibrary)
  else if negb (io_dest io) then dlift (Err ErrLibrary)
  else
    also! os_Create dst ;
    if negb (io_copy io) then dlift (Err ErrLibrary)
    else
      d! d := dget in
      os_Write dst (default FileTorn (fc_files d !! src)).

(** [open]: a missing file becomes an empty database, a torn one is refused. *)
Definition dopen (io : fileIO) : D unit :=
  if negb (io_open io) then dlift (Err ErrLibrary)
  else
    d! d := dget in
    match fc_files d !! fc_dbPath d with
    | Some FileTorn => dlift (Err ErrLibrary)
    | Some (FileDB _) => dput (fc_set_files d (fc_files d) true (fc_open (fc_network d)))
    | None => dput (fc_set_files d (<[fc_dbPath d := FileDB ∅]> (fc_files d)) true (fc_open (fc_network d)))
    end.

Definition dclose (io : fileIO) : D unit :=
  d! d := dget in
  if io_close io then dput (fc_set_files d (fc_files d) false (fc_state d))
  else
    also! dput (fc_set_files d (fc_files d) (fc_opened d && negb (io_halfClosed io)) (fc_state d)) ;
    dlift (Err ErrLibrary).

(** A failed transaction of the database leaves it as it was. *)
Definition seal (blockTime : Z) (txs : list FullTx) : D unit :=
  d! d := dget in
  let blockTime := if blockTime =? 0 then u64 (fc_blockTime d + 1) else blockTime in
  d! (db, _) := dtxn (fun txn => HandleTxs (fc_state d) None txn blockTime txs) in
  dput (fc_advance d db (u64 (fc_height d + 1)) blockTime).

(** [rnd]: the randomness of the signature. *)
Definition newAddress (rnd : bytes) (name : string) : D Address :=
  d! d := dget in
  match fc_names d !! name with
  | Some addr => dret addr
  | None =>
      d! key := dlift (signer_key name) in
      d! addr := dlift (NewAddress key) in
      d! mint := dlift (Signature rnd (NewTx (fc_network d) GenerateTx (fc_height d) addr (Some (fc_fund d)) None [] []) key) in
      also! seal 0 [mint] ;
      d! d := dget in
      also! dput (fc_register d name addr key) ;
      dret addr
  end.

Definition after_at (s : string) : option string :=
  match cut_prefix "@" s with Some EmptyString => None | o => o end.

Definition resolve (who : string) : D Address :=
  d! d := dget in
  match after_at who with
  | Some name => match fc_names d !! name with Some addr => dret addr | None => dlift (Err ErrUnknownName) end
  | None => dlift (NewAddressFromBS58 who)
  end.

(** An unnamed key has the zero address. *)
Definition signerOf (by_ : string) : D (PrivateKey * Address) :=
  d! d := dget in
  let name := default by_ (after_at by_) in
  match fc_keys d !! name with
  | Some key => dret (key, default zeroAddress (fc_names d !! name))
  | None => dlift (Err ErrNoDevKey)
  end.

(** *** The methods *)

Record devAddress := { da_Name : string; da_Address : Address; da_Balance : Z }.

(** A read of the database that failed counts as zero. *)
Definition balanceOr0 (d : forkChain) (addr : Address) : Z :=
  if fc_opened d then GetTotalBalanceByAddress (fc_db d) addr else 0.

(** In the order of the map. *)
Definition rpcAddresses : D (list devAddress) :=
  d! d := dget in
  dret ((fun kv => let addr := default zeroAddress (fc_names d !! kv.1) in
                   {| da_Name := ("@" ++ kv.1)%string; da_Address := addr; da_Balance := balanceOr0 d addr |})
        <$> map_to_list (fc_keys d)).

Definition rpcNewAddress (rnd : bytes) (name : string) : D (string * Address) :=
  if bool_decide (name = ""%string) then dlift (Err ErrNameRequired)
  else d! addr := newAddress rnd name in dret (("@" ++ name)%string, addr).

Record deployParams := { dp_Name : string; dp_Path : string; dp_Wasm : bytes }.
Record deployReply := { dr_Address : Address; dr_CodeSize : Z; dr_Height : Z; dr_Runs : list ContractRun }.

(** [readFile]: the file system. *)
Definition deployCode (readFile : string -> res bytes) (p : deployParams) : res bytes :=
  if negb (bool_decide (dp_Path p = ""%string)) then readFile (dp_Path p)
  else if negb (zlen (dp_Wasm p) =? 0) then hex_bytes (dp_Wasm p)
  else Err ErrNoCode.

Definition rpcDeploy (rnd : bytes) (readFile : string -> res bytes) (p : deployParams) : D deployReply :=
  if bool_decide (dp_Name p = ""%string) then dlift (Err ErrNameRequired)
  else
    d! code := dlift (deployCode readFile p) in
    d! addr := newAddress rnd (dp_Name p) in
    d! d := dget in
    d! key := dlift (match fc_keys d !! dp_Name p with Some key => Ok key | None => Err GoPanic end) in
    d! deploy := dlift (Signature rnd (NewTx (fc_network d) DeployTx (fc_height d) zeroAddress None (Some 1)
                                         (EncodeCommitCode deflate_writer code) []) key) in
    also! seal 0 [deploy] ;
    d! d := dget in
    let runs := match GetTxRuns (fc_db d) (GetHash deploy) with Ok runs => runs | Err _ => [] end in
    dret {| dr_Address := addr; dr_CodeSize := zlen code; dr_Height := fc_height d; dr_Runs := runs |}.

Record callParams := {
  cp_To : string; cp_By : string; cp_Method : bytes; cp_Args : list string; cp_Value : bytes; cp_At : Z; cp_Dry : bool
}.
Record callReply := { cr_TxHash : bytes; cr_Height : Z; cr_Time : Z; cr_Dry : bool; cr_Runs : list ContractRun }.

Definition callValue (p : callParams) : res Z :=
  if zlen (cp_Value p) =? 0 then Ok 0
  else match Int_SetString (cp_Value p) 10 with Some v => Ok v | None => Err ErrBadValue end.

(** A dry call runs and is rolled back. *)
Definition rpcCall (rnd : bytes) (p : callParams) : D callReply :=
  d! to := resolve (cp_To p) in
  d! (key, _) := signerOf (cp_By p) in
  d! value := dlift (callValue p) in
  d! d := dget in
  d! args := dlift (packParts (cp_Args p) (fc_names d)) in
  d! tx := dlift (Signature rnd (NewTx (fc_network d) TransactTx (fc_height d) to (Some value) None
                                   (EncodeCallData (cp_Method p) args) []) key) in
  let blockTime := if cp_At p =? 0 then u64 (fc_blockTime d + 1) else cp_At p in
  d! (db, _) := dtxn (fun txn => HandleTxs (fc_state d) None txn blockTime [tx]) in
  let runs := match GetTxRuns db (GetHash tx) with Ok runs => runs | Err _ => [] end in
  also! dput (if cp_Dry p then d else fc_advance d db (u64 (fc_height d + 1)) blockTime) ;
  d! d := dget in
  dret {| cr_TxHash := GetHash tx; cr_Height := fc_height d; cr_Time := blockTime; cr_Dry := cp_Dry p; cr_Runs := runs |}.

Record kvReply := { kr_Value : bytes; kr_Len : Z; kr_U64 : option Z; kr_U256 : option Z }.

(** A slot without a context panics. *)
Definition contextValue (acc : Contract) (key : bytes) : res bytes :=
  match Context' acc with Some ctx => Ok (Get ctx key).1 | None => Err GoPanic end.

Definition rpcKV (contract : string) (key : list string) : D kvReply :=
  d! addr := resolve contract in
  d! d := dget in
  d! keyBytes := dlift (packParts key (fc_names d)) in
  d! acc := dtxn (fun txn => getContract txn addr) in
  d! val := dlift (contextValue acc keyBytes) in
  dret {| kr_Value := hex_EncodeToString val; kr_Len := zlen val;
          kr_U64 := if (0 <? zlen val) && (zlen val <=? 8) then Some (leU64 val) else None;
          kr_U256 := if zlen val =? 32 then Some (be_Z (leToBE val)) else None |}.

Definition rpcBalance (who : string) : D (Address * Z) :=
  d! addr := resolve who in
  d! bal := dtxn (fun txn => Ok (GetTotalBalanceByAddress txn addr)) in
  dret (addr, bal).

(** Zero stands for one; the counters wrap. *)
Definition rpcMine (blocks interval : Z) : D (Z * Z) :=
  let blocks := if blocks =? 0 then 1 else blocks in
  let interval := if interval =? 0 then 1 else interval in
  d! d := dget in
  let d := fc_set_clock d (u64 (fc_height d + blocks)) (u64 (fc_blockTime d + u64 (blocks * interval))) in
  also! dput d ;
  dret (fc_height d, fc_blockTime d).

Definition rpcSetTime (time : Z) : D (Z * Z) :=
  d! d := dget in
  if time <=? fc_blockTime d then dlift (Err ErrTimeBackwards)
  else
    let d := fc_set_clock d (fc_height d) time in
    also! dput d ;
    dret (fc_height d, fc_blockTime d).

Definition snapPath (d : forkChain) (id : Z) : string := (fc_dbPath d ++ ".snap" ++ pretty id)%string.

(** [View] with [WriteTo]: on a closed handle, or when writing fails, the
    file stays as created and the number is not used up. *)
Definition rpcSnapshot (io : fileIO) : D Z :=
  d! d := dget in
  let id := fc_nextSnap d in
  let path := snapPath d id in
  if negb (io_create io) then dlift (Err ErrLibrary)
  else
    also! os_Create path ;
    d! db := dtxn (fun txn => if io_write io then Ok txn else Err ErrLibrary) in
    also! os_Write path (FileDB db) ;
    d! d := dget in
    also! dput {| fc_network := fc_network d; fc_dbPath := fc_dbPath d; fc_files := fc_files d; fc_opened := fc_opened d;
               fc_state := fc_state d; fc_height := fc_height d; fc_blockTime := fc_blockTime d; fc_names := fc_names d;
               fc_keys := fc_keys d; fc_fund := fc_fund d;
               fc_snapshots := <[id := {| sn_path := path; sn_height := fc_height d; sn_blockTime := fc_blockTime d |}]> (fc_snapshots d);
               fc_nextSnap := fc_nextSnap d + 1 |} ;
    dret id.

(** The names and keys stay; an error after the close leaves the handle
    closed. *)
Definition rpcRevert (io : fileIO) (id : Z) : D (Z * Z) :=
  d! d := dget in
  match fc_snapshots d !! id with
  | None => dlift (Err ErrUnknownSnapshot)
  | Some snap =>
      also! dclose io ;
      also! copyFile io (sn_path snap) (fc_dbPath d) ;
      also! dopen io ;
      d! d := dget in
      also! dput (fc_set_clock d (sn_height snap) (sn_blockTime snap)) ;
      dret (sn_height snap, sn_blockTime snap)
  end.

(** *** Starting *)

(** The sources of a fork; a sheet fetched over RPC comes with the time of
    the head.  [lazy] forks read through the hook below. *)
Inductive forkMode :=
  | ForkEager (sheet : Sheet) (timestamp : Z)
  | ForkDB (path : string)
  | ForkFresh.

(** [files]: the file system at the start, [path] the working file. *)
Definition forkBase (files : gmap string fileContent) (path : string) (fund time : Z) : forkChain :=
  {| fc_network := ZERONET; fc_dbPath := path; fc_files := files; fc_opened := false; fc_state := fc_open ZERONET; fc_height := 1;
     fc_blockTime := time; fc_names := ∅; fc_keys := ∅; fc_fund := fund; fc_snapshots := ∅; fc_nextSnap := 1 |}.

Definition fc_source (d : forkChain) (network : Network) (db : Txn) (state : State) (height blockTime : Z) : forkChain :=
  {| fc_network := network; fc_dbPath := fc_dbPath d; fc_files := <[fc_dbPath d := FileDB db]> (fc_files d); fc_opened := fc_opened d;
     fc_state := state; fc_height := height; fc_blockTime := blockTime; fc_names := fc_names d; fc_keys := fc_keys d; fc_fund := fc_fund d;
     fc_snapshots := fc_snapshots d; fc_nextSnap := fc_nextSnap d |}.

(** [sheet]: an empty sheet of the network. *)
Definition emptySheet (network : Network) : Sheet :=
  {| sh_Network := network; sh_Height := 0; sh_BlockHash := []; sh_Balances := []; sh_Contracts := []; sh_Keys := []; sh_Beacon := [] |}.

Definition forkSource (io : fileIO) (m : forkMode) : D unit :=
  match m with
  | ForkEager sheet timestamp =>
      also! dopen io ;
      d! d := dget in
      d! (state, db) := dlift (InitStateFromSheet (fc_db d) sheet) in
      dput (fc_source d (sh_Network sheet) db state (u64 (sh_Height sheet + 1)) timestamp)
  | ForkDB path =>
      d! d := dget in
      also! copyFile io path (fc_dbPath d) ;
      dopen io
  | ForkFresh =>
      also! dopen io ;
      d! d := dget in
      d! (state, db) := dlift (InitStateFromSheet (fc_db d) (emptySheet (fc_network d))) in
      dput (fc_source d (fc_network d) db state (fc_height d) (fc_blockTime d))
  end.

Fixpoint prefund (rnd : bytes) (n i : nat) : D unit :=
  match n with
  | O => dret tt
  | S n => also! newAddress rnd ("dev" ++ pretty i)%string ; prefund rnd n (S i)
  end.

Definition runFork (rnd : bytes) (io : fileIO) (files : gmap string fileContent) (path : string) (m : forkMode) (fund time : Z)
    (addresses : nat) : res forkChain :=
  match (also! forkSource io m ; prefund rnd addresses 0) (forkBase files path fund time) with (Ok _, d) => Ok d | (Err e, _) => Err e end.

(** ** remote_fallback.go: lazy forks *)

(** What the hook answers for an address it finds: its slot and its balance. *)
Definition RemoteHook : Type := Address -> option (option Contract * option Z).

Definition fetchRemoteState (hook : option RemoteHook) (writable : bool) (txn : Txn) (addr : Address)
    : option (option Contract * option Z) * Txn :=
  match hook with
  | None => (None, txn)
  | Some f =>
      match f addr with
      | None => (None, txn)
      | Some (acc, bal) =>
          let txn := match acc with
                     | Some acc => if writable then match setContract txn None acc with Ok txn => txn | Err _ => txn end else txn
                     | None => txn
                     end in
          let txn := match bal with
                     | Some bal => if writable && (0 <? bal) then setBalance txn None addr bal else txn
                     | None => txn
                     end in
          (Some (acc, bal), txn)
      end
  end.

(** state_helper.go with a hook installed; State.v has the readers of a node. *)
Definition lazyGetContract (hook : option RemoteHook) (writable : bool) (txn : Txn) (addr : Address) : res Contract * Txn :=
  match bGet txn ContractBucketName (vec_to_list addr) with
  | Some raw => (decodeStoredContract txn raw, txn)
  | None =>
      match fetchRemoteState hook writable txn addr with
      | (Some (Some acc, _), txn) => (Ok acc, txn)
      | (_, txn) => (Err ErrKeyNotFound, txn)
      end
  end.

Definition lazyContractExists (hook : option RemoteHook) (writable : bool) (txn : Txn) (addr : Address) : bool * Txn :=
  match bGet txn ContractBucketName (vec_to_list addr) with
  | Some _ => (true, txn)
  | None =>
      match fetchRemoteState hook writable txn addr with
      | (Some (Some _, _), txn) => (true, txn)
      | (_, txn) => (false, txn)
      end
  end.

Definition lazyGetBalance (hook : option RemoteHook) (writable : bool) (txn : Txn) (addr : Address) : Z * Txn :=
  match bGet txn Addr2BalBucketName (vec_to_list addr) with
  | Some raw => (be_Z raw, txn)
  | None =>
      match fetchRemoteState hook writable txn addr with
      | (Some (_, Some bal), txn) => (bal, txn)
      | (_, txn) => (0, txn)
      end
  end.

(** fork.go [installLazyFetcher]: the hook, with its cache.  [ask] is the
    remote call; the last component tells whether it was made. *)
Record cached := { ca_acc : option Contract; ca_bal : option Z; ca_found : bool }.

Definition cached_answer (c : cached) : option (option Contract * option Z) :=
  if ca_found c then Some (ca_acc c, ca_bal c) else None.

Definition no_entry : cached := {| ca_acc := None; ca_bal := None; ca_found := false |}.

Definition lazyEntry `{ContractCodec} (reply : res getAddressStateReply) : cached :=
  match reply with
  | Err _ => no_entry
  | Ok r =>
      if negb (as_Exists r) then no_entry
      else {| ca_acc := if zlen (as_Contract r) =? 0 then None else hex_DecodeString (as_Contract r) ≫= dec_Contract;
              ca_bal := if 0 <? as_Balance r then Some (as_Balance r) else None;
              ca_found := true |}
  end.

Definition lazyFetch `{ContractCodec} (ask : Address -> res getAddressStateReply) (cache : gmap Address cached) (addr : Address)
    : option (option Contract * option Z) * gmap Address cached * bool :=
  match cache !! addr with
  | Some hit => (cached_answer hit, cache, false)
  | None => let entry := lazyEntry (ask addr) in (cached_answer entry, <[addr := entry]> cache, true)
  end.

(** ** contracttest.go: scenarios *)

Record scenarioStep := { ss_To : string; ss_By : string; ss_Call : bytes; ss_Args : list string; ss_At : Z }.
Record scenarioExpect := { se_In : string; se_Key : list string; se_U64 : Z; se_U256 : bytes }.
Record scenario := {
  sc_Contracts : gmap string string;
  sc_Steps : list scenarioStep;
  sc_Expect : list scenarioExpect
}.

(** The names of a scenario and the keys behind them. *)
Record scenarioNames := { sn_addrs : gmap string Address; sn_keys : gmap string PrivateKey }.

Definition signer (ns : scenarioNames) (name : string) : res (PrivateKey * Address * scenarioNames) :=
  match sn_keys ns !! name with
  | Some k => Ok (k, default zeroAddress (sn_addrs ns !! name), ns)
  | None =>
      let! k := signer_key name in
      let! a := NewAddress k in
      Ok (k, a, {| sn_addrs := <[name := a]> (sn_addrs ns); sn_keys := <[name := k]> (sn_keys ns) |})
  end.

Definition resolveName (ns : scenarioNames) (name : string) : res scenarioNames :=
  match sn_addrs ns !! name with
  | Some _ => Ok ns
  | None => let! (_, _, ns) := signer ns name in Ok ns
  end.

Definition resolvePart (ns : scenarioNames) (p : string) : res scenarioNames :=
  match cut_prefix "@" p with Some name => resolveName ns name | None => Ok ns end.

Definition resolveStep (ns : scenarioNames) (st : scenarioStep) : res scenarioNames :=
  let! ns := if bool_decide (ss_By st = ""%string) then Ok ns else resolveName ns (ss_By st) in
  res_fold resolvePart ns (ss_Args st).

Definition contractNames (sc : scenario) : scenarioNames :=
  {| sn_addrs := map_imap (fun name _ => Some (namedAddr ("contract:" ++ name))) (sc_Contracts sc); sn_keys := ∅ |}.

Definition resolveNames (sc : scenario) : res scenarioNames :=
  let! ns := res_fold resolveStep (contractNames sc) (sc_Steps sc) in
  res_fold (fun ns ex => res_fold resolvePart ns (se_Key ex)) ns (sc_Expect sc).

(** Every contract deployed and active, in the order of the map.
    [readFile] resolves a relative path. *)
Definition scenarioSheet (readFile : string -> res bytes) (ns : scenarioNames) (sc : scenario) : res Sheet :=
  let! accs := mapM_res (fun kv =>
      let! code := readFile kv.2 in
      Ok (SetActive (NewContract (default zeroAddress (sn_addrs ns !! kv.1)) code None) true)) (map_to_list (sc_Contracts sc)) in
  let s := emptySheet ZERONET in
  Ok {| sh_Network := sh_Network s; sh_Height := sh_Height s; sh_BlockHash := sh_BlockHash s; sh_Balances := sh_Balances s;
        sh_Contracts := accs; sh_Keys := sh_Keys s; sh_Beacon := sh_Beacon s |}.

(** The machine run to its end and its journal written, nothing recorded. *)
Definition runStepVM (txn : Txn) (acc : Contract) (tx : FullTx) (blockTime : Z) : res (Txn * Z) :=
  let! r := NewVM txn acc tx blockTime in
  match r with
  | inl _ => Err ErrRunFailed
  | inr vm =>
      let! (entry, vm) := EntryFor vm EntryOnTx in
      let! (err, vm) := vm_call vm entry in
      match err with
      | Some _ => Err ErrRunFailed
      | None => let! txn := flush (journal vm) txn None in Ok (txn, GasUsed vm)
      end
  end.

(** A key that cannot be made leaves the transaction unsigned. *)
Definition stepKey (ns : scenarioNames) (name : string) : option PrivateKey * scenarioNames :=
  if bool_decide (name = ""%string) then (None, ns)
  else match signer ns name with Ok (k, _, ns) => (Some k, ns) | Err _ => (None, ns) end.

Definition runStep (rnd : bytes) (s : Txn * scenarioNames) (st : scenarioStep) : res (Txn * scenarioNames) :=
  let '(txn, ns) := s in
  match sn_addrs ns !! ss_To st with
  | None => Err ErrUnknownContract
  | Some target =>
      let! args := packParts (ss_Args st) (sn_addrs ns) in
      let '(key, ns) := stepKey ns (ss_By st) in
      let! acc := getContract txn target in
      let tx := NewTx ZERONET TransactTx 1 target None None (EncodeCallData (ss_Call st) args) [] in
      let! tx := match key with Some key => Signature rnd tx key | None => Ok tx end in
      let! (txn, _) := runStepVM txn acc tx (if ss_At st =? 0 then 1 else ss_At st) in
      Ok (txn, ns)
  end.

Definition checkExpect (txn : Txn) (ns : scenarioNames) (ex : scenarioExpect) : res bool :=
  match sn_addrs ns !! se_In ex with
  | None => Err ErrUnknownContract
  | Some target =>
      let! keyBytes := packParts (se_Key ex) (sn_addrs ns) in
      let! acc := getContract txn target in
      let! stored := contextValue acc keyBytes in
      if negb (zlen (se_U256 ex) =? 0) then
        match Int_SetString (se_U256 ex) 10 with
        | None => Err ErrBadPart
        | Some want => Ok (be_Z (leToBE stored) =? want)
        end
      else Ok (leU64 stored =? se_U64 ex)
  end.

(** The number of expectations that failed. *)
Definition checkExpects (txn : Txn) (ns : scenarioNames) (l : list scenarioExpect) : res nat :=
  res_fold (fun fails ex => let! ok := checkExpect txn ns ex in Ok (if ok : bool then fails else S fails)) 0%nat l.

Definition runScenario (rnd : bytes) (readFile : string -> res bytes) (sc : scenario) : res unit :=
  let! ns := resolveNames sc in
  let! sheet := scenarioSheet readFile ns sc in
  let! (_, txn) := InitStateFromSheet ∅ sheet in
  let! (txn, ns) := res_fold (runStep rnd) (txn, ns) (sc_Steps sc) in
  let! fails := checkExpects txn ns (sc_Expect sc) in
  reject (0 <? fails)%nat with ErrExpectFailed ;
  Ok tt.

End ForkTool.
