(* ===== verification/ForkToolProps.v ===== *)
(** * The fork tool: the theorems

    What a debugging session can rely on (snapshots come back, whatever ran
    in between) and what it cannot (sealing an effect transaction, lazy
    balances, signing as a contract). *)

From stdpp Require Import pretty.
From S2P Require Import Prelude Params StateTrie Keys Contract Types Instances Tx Block BlockStore State StateCommit VM VMToy VMProps Journal Ledger Supply LedgerProps Snapshot Queries Chain Pool Consensus Rpc Amount RpcReads ForkTool.

(** ** Byte parts *)

Lemma be_Z_zeros n b : be_Z (zeros n ++ b) = be_Z b.
Proof. unfold zeros. induction n as [|n IH]; [done|]. cbn [replicate app]. by rewrite be_Z_leading_zero. Qed.

Lemma reverse_zeros n : reverse (zeros n) = zeros n.
Proof. unfold zeros. by rewrite reverse_replicate. Qed.

Lemma length_big_Bytes v : 0 <= v -> (length (big_Bytes v) <= 32)%nat <-> v < 2 ^ 256.
Proof.
  intros Hv. unfold big_Bytes. destruct (Z.eqb_spec v 0) as [->|Hn]; [cbn [length]; lia|].
  rewrite length_reverse, length_le_bytes, Z.abs_eq by lia. rewrite Z.log2_lt_pow2 by lia.
  pose proof (Z.log2_nonneg v). pose proof (Z.div_mod (Z.log2 v) 8 ltac:(lia)). pose proof (Z.mod_pos_bound (Z.log2 v) 8 ltac:(lia)). lia.
Qed.

(** The 32 bytes of an amount and back; larger amounts panic. *)
Lemma beToLE32_value v : 0 <= v ->
  (v < 2 ^ 256 -> exists b, beToLE32 (big_Bytes v) = Ok b /\ length b = 32%nat /\ be_Z (leToBE b) = v)
  /\ (2 ^ 256 <= v -> beToLE32 (big_Bytes v) = Err GoPanic).
Proof.
  intros Hv. pose proof (length_big_Bytes v Hv) as Hl. unfold beToLE32, guard.
  destruct (Nat.ltb_spec 32 (length (big_Bytes v))) as [Hlt|Hle]; (split; [|done || (intros; lia)]); intros Hb; [lia|].
  eexists. split; [done|]. unfold leToBE. rewrite length_app, length_reverse. unfold zeros at 1. rewrite length_replicate. split; [lia|].
  by rewrite reverse_app, reverse_zeros, reverse_involutive, be_Z_zeros, be_Z_big_Bytes.
Qed.

Create HintDb keeps.

Section Props.
Context `{HH : Hasher} `{SL : SigLibs} `{CD : Codec} `{SC : SlotCodec} `{RC : ReceiptCodec}
  `{DC : DepsCodec} `{IF : Inflate} `{ML : MerkleLib} `{VM_ : ContractVM} `{DF : Deflate}.

(** ** Sessions *)

(** One request of a session, whatever its outcome. *)
Inductive dev_rpc (rnd : bytes) (readFile : string -> res bytes) (d : forkChain) : forkChain -> Prop :=
  | rq_addresses : dev_rpc rnd readFile d (rpcAddresses d).2
  | rq_newAddress name : dev_rpc rnd readFile d (rpcNewAddress rnd name d).2
  | rq_deploy p : dev_rpc rnd readFile d (rpcDeploy rnd readFile p d).2
  | rq_call p : dev_rpc rnd readFile d (rpcCall rnd p d).2
  | rq_kv c k : dev_rpc rnd readFile d (rpcKV c k d).2
  | rq_balance who : dev_rpc rnd readFile d (rpcBalance who d).2
  | rq_mine n i : dev_rpc rnd readFile d (rpcMine n i d).2
  | rq_setTime time : dev_rpc rnd readFile d (rpcSetTime time d).2
  | rq_snapshot io : dev_rpc rnd readFile d (rpcSnapshot io d).2
  | rq_revert io id : dev_rpc rnd readFile d (rpcRevert io id d).2.

(** ** The files of a session *)

Lemma string_app_length a b : String.length (a ++ b)%string = (String.length a + String.length b)%nat.
Proof. induction a as [|c a IH]; [done|]. change (S (String.length (a ++ b)%string) = S (String.length a + String.length b)). by rewrite IH. Qed.

Lemma string_app_inj a b c : (a ++ b)%string = (a ++ c)%string -> b = c.
Proof. induction a as [|x a IH]; [done|]. intros [= E]. by apply IH. Qed.

(** Every snapshot has a file of its own, beside the working one. *)
Lemma snapPath_inj d i j : snapPath d i = snapPath d j -> i = j.
Proof. unfold snapPath. intros E%string_app_inj%string_app_inj. by apply (inj pretty). Qed.

Lemma snapPath_other d i : snapPath d i <> fc_dbPath d.
Proof. unfold snapPath. intros E. apply (f_equal String.length) in E. rewrite !string_app_length in E. cbn [String.length] in E. lia. Qed.

(** Snapshots are only added, under new numbers, and their files stay. *)
Record grows (d d' : forkChain) : Prop := {
  gr_path : fc_dbPath d' = fc_dbPath d;
  gr_next : fc_nextSnap d <= fc_nextSnap d';
  gr_old : forall id, id < fc_nextSnap d -> fc_snapshots d' !! id = fc_snapshots d !! id;
  gr_file : forall id, id < fc_nextSnap d -> fc_files d' !! snapPath d id = fc_files d !! snapPath d id
}.

Lemma snapPath_path d d' id : fc_dbPath d' = fc_dbPath d -> snapPath d' id = snapPath d id.
Proof. unfold snapPath. by intros ->. Qed.

#[global] Instance grows_preorder : PreOrder grows.
Proof.
  split; [done|]. intros x y z [P1 H1 H2 F1] [P2 H3 H4 F2]. split; [congruence|lia| |].
  - intros id Hid. rewrite H4 by lia. by apply H2.
  - intros id Hid. rewrite <-F1 by done. rewrite <-(snapPath_path x y id P1). apply F2. lia.
Qed.

(** A handler that leaves the snapshots alone. *)
Definition keeps {A} (m : D A) : Prop := forall d, grows d (m d).2.

Lemma keeps_ret {A} (a : A) : keeps (dret a). Proof. by intros d. Qed.
Lemma keeps_lift {A} (r : res A) : keeps (dlift r). Proof. by intros d. Qed.
Lemma keeps_get : keeps dget. Proof. by intros d. Qed.
Lemma keeps_bind {A B} (m : D A) (f : A -> D B) : keeps m -> (forall a, keeps (f a)) -> keeps (dbind m f).
Proof.
  intros Hm Hf d. unfold dbind. specialize (Hm d). destruct (m d) as [[a|e] d']; [|done]. cbn [snd] in *. etrans; [exact Hm|apply Hf].
Qed.

(** Reading the chain and writing it back with more. *)
Lemma keeps_get_bind {A} (f : forkChain -> D A) : (forall d, grows d (f d d).2) -> keeps (dbind dget f).
Proof. intros Hf d. exact (Hf d). Qed.

#[local] Hint Resolve keeps_ret keeps_lift keeps_get keeps_bind : keeps.

Lemma grows_same d d' : fc_dbPath d' = fc_dbPath d -> fc_snapshots d' = fc_snapshots d -> fc_nextSnap d' = fc_nextSnap d ->
  (fc_files d' = fc_files d \/ exists c, fc_files d' = <[fc_dbPath d := c]> (fc_files d)) -> grows d d'.
Proof.
  intros P H1 H2 HF. split; [done|lia|intros id _; by rewrite H1|]. intros id _. destruct HF as [->|[c ->]]; [done|].
  apply lookup_insert_ne. intros E. by apply (snapPath_other d id).
Qed.

Lemma grows_advance d db h t : grows d (fc_advance d db h t).
Proof. apply grows_same; [done..|]. right. by eexists. Qed.

Lemma grows_clock d h t : grows d (fc_set_clock d h t).
Proof. apply grows_same; [done..|]. by left. Qed.

Lemma dtxn_same {A} (f : Txn -> res A) d : (dtxn f d).2 = d.
Proof. unfold dtxn, dbind, dget. by destruct (fc_opened d). Qed.

Lemma keeps_dtxn {A} (f : Txn -> res A) : keeps (dtxn f).
Proof. intros d. by rewrite dtxn_same. Qed.

#[local] Hint Resolve keeps_dtxn : keeps.

(** The working file may be written at will. *)
Lemma keeps_write d c opened st : grows d (fc_set_files d (<[fc_dbPath d := c]> (fc_files d)) opened st).
Proof. apply grows_same; [done..|]. right. by eexists. Qed.

Lemma grows_handle d opened st : grows d (fc_set_files d (fc_files d) opened st).
Proof. apply grows_same; [done..|]. by left. Qed.

Lemma keeps_seal t txs : keeps (seal t txs).
Proof.
  intros d. unfold seal, dbind at 1, dget at 1. cbv zeta. unfold dbind. pose proof (dtxn_same (fun txn => HandleTxs (fc_state d) None txn (if t =? 0 then u64 (fc_blockTime d + 1) else t) txs) d) as Hs.
  destruct (dtxn _ d) as [[[db g]|e] d']; cbn [snd] in Hs; subst d'; [apply grows_advance|done].
Qed.

Lemma keeps_newAddress rnd name : keeps (newAddress rnd name).
Proof.
  unfold newAddress. apply keeps_bind; [auto with keeps|]. intros d0. destruct (fc_names d0 !! name); [auto with keeps|].
  apply keeps_bind; [auto with keeps|]. intros key. apply keeps_bind; [auto with keeps|]. intros addr.
  apply keeps_bind; [auto with keeps|]. intros mint. apply keeps_bind; [apply keeps_seal|]. intros _.
  apply keeps_get_bind. intros d. cbn. apply grows_same; [done..|by left].
Qed.

Lemma keeps_resolve who : keeps (resolve who).
Proof. unfold resolve. apply keeps_bind; [auto with keeps|]. intros d. destruct (after_at who); [destruct (_ !! _)|]; auto with keeps. Qed.

Lemma keeps_signerOf who : keeps (signerOf who).
Proof. unfold signerOf. apply keeps_bind; [auto with keeps|]. intros d. cbv zeta. destruct (_ !! _); auto with keeps. Qed.

Lemma keeps_deploy rnd readFile p : keeps (rpcDeploy rnd readFile p).
Proof.
  unfold rpcDeploy. destruct (bool_decide _); [auto with keeps|]. apply keeps_bind; [auto with keeps|]. intros code.
  apply keeps_bind; [apply keeps_newAddress|]. intros addr. apply keeps_bind; [auto with keeps|]. intros d.
  apply keeps_bind; [auto with keeps|]. intros key. apply keeps_bind; [auto with keeps|]. intros deploy.
  apply keeps_bind; [apply keeps_seal|]. intros _. apply keeps_bind; [auto with keeps|]. intros d'. auto with keeps.
Qed.

Lemma keeps_call rnd p : keeps (rpcCall rnd p).
Proof.
  unfold rpcCall. apply keeps_bind; [apply keeps_resolve|]. intros to. apply keeps_bind; [apply keeps_signerOf|]. intros [key a].
  apply keeps_bind; [auto with keeps|]. intros value. apply keeps_get_bind. intros d.
  unfold dbind at 1, dlift at 1. destruct (packParts _ _) as [args|]; [|done]. unfold dbind at 1, dlift at 1.
  destruct (Signature _ _ _) as [tx|]; [|done]. cbv zeta. unfold dbind at 1.
  match goal with |- context [dtxn ?f d] => pose proof (dtxn_same f d) as Hs; destruct (dtxn f d) as [[[db gas]|e] d'] end; cbn [snd] in Hs; subst d'; [|done].
  unfold dbind, dput, dget, dret. cbn [snd]. destruct (cp_Dry p); [done|apply grows_advance].
Qed.

(** What a snapshot leaves, whether it succeeds or not. *)
Lemma grows_snapshot io d : grows d (rpcSnapshot io d).2.
Proof.
  assert (Hf : forall c id, id < fc_nextSnap d -> <[snapPath d (fc_nextSnap d) := c]> (fc_files d) !! snapPath d id = fc_files d !! snapPath d id).
  { intros c id Hid. apply lookup_insert_ne. intros E%snapPath_inj. lia. }
  unfold rpcSnapshot, dbind at 1, dget at 1. cbv zeta. destruct (negb _); [done|].
  unfold os_Create, os_Write, dtxn, dbind, dget, dput, dlift, dret. cbn [fc_set_files fc_opened fc_files fc_dbPath fc_nextSnap fc_snapshots fst snd].
  destruct (fc_opened d); [destruct (io_write io)|]; cbn [snd]; (split; cbn; [done|lia| |]); try done; try (intros id Hid; by apply Hf).
  - intros id Hid. apply lookup_insert_ne. lia.
  - intros id Hid. rewrite insert_insert_eq. by apply Hf.
Qed.

Lemma keeps_close io : keeps (dclose io).
Proof. intros d. unfold dclose, dbind, dget, dput, dlift. destruct (io_close io); apply grows_handle. Qed.

Lemma keeps_open io : keeps (dopen io).
Proof.
  intros d. unfold dopen, dbind, dget, dput, dlift. destruct (negb _); [done|].
  destruct (fc_files d !! fc_dbPath d) as [[t|]|]; [apply grows_handle|done|apply keeps_write].
Qed.

Lemma grows_copy io src d : grows d (copyFile io src (fc_dbPath d) d).2.
Proof.
  unfold copyFile, os_Create, os_Write, dbind, dget, dput, dlift. destruct (_ || _); [done|]. destruct (negb (io_dest io)); [done|].
  destruct (negb (io_copy io)); cbn [snd]; [apply keeps_write|]. etrans; [apply (keeps_write d FileTorn (fc_opened d) (fc_state d))|].
  apply (keeps_write (fc_set_files d _ _ _)).
Qed.

Lemma keeps_revert io id : keeps (rpcRevert io id).
Proof.
  unfold rpcRevert. apply keeps_get_bind. intros d. destruct (fc_snapshots d !! id) as [snap|]; [|done]. unfold dbind at 1.
  pose proof (keeps_close io d) as Hc. destruct (dclose io d) as [[u|e] d1]; cbn [snd] in Hc; [|done]. etrans; [exact Hc|].
  rewrite <-(gr_path _ _ Hc). unfold dbind at 1. pose proof (grows_copy io (sn_path snap) d1) as Hg.
  destruct (copyFile io (sn_path snap) (fc_dbPath d1) d1) as [[v|e] d2]; cbn [snd] in Hg; [|done]. etrans; [exact Hg|].
  unfold dbind at 1. pose proof (keeps_open io d2) as Ho. destruct (dopen io d2) as [[w|e] d3]; cbn [snd] in Ho; [|done].
  etrans; [exact Ho|]. apply grows_clock.
Qed.

Lemma dev_rpc_grows rnd readFile d d' : dev_rpc rnd readFile d d' -> grows d d'.
Proof.
  destruct 1 as [|name|p|p|c k|who|n i|time|io|io id].
  - done.
  - unfold rpcNewAddress. destruct (bool_decide _); [done|]. apply (keeps_bind (newAddress rnd name)); [apply keeps_newAddress|auto with keeps].
  - apply keeps_deploy.
  - apply keeps_call.
  - unfold rpcKV. apply (keeps_bind (resolve c)); [apply keeps_resolve|]. intros a. repeat (apply keeps_bind; [auto with keeps|]; intros ?). auto with keeps.
  - unfold rpcBalance. apply (keeps_bind (resolve who)); [apply keeps_resolve|]. intros a. repeat (apply keeps_bind; [auto with keeps|]; intros ?). auto with keeps.
  - apply grows_clock.
  - unfold rpcSetTime, dbind, dget. destruct (_ <=? _); [done|]. apply grows_clock.
  - apply grows_snapshot.
  - apply keeps_revert.
Qed.

(** All file operations of a request succeed. *)
Definition io_fine (io : fileIO) : Prop :=
  io_close io = true /\ io_source io = true /\ io_dest io = true /\ io_copy io = true /\ io_open io = true.

(** What a successful snapshot has written. *)
Lemma snapshot_written io d id d1 : rpcSnapshot io d = (Ok id, d1) ->
  id < fc_nextSnap d1 /\ fc_dbPath d1 = fc_dbPath d /\ fc_files d1 !! snapPath d1 id = Some (FileDB (fc_db d))
  /\ fc_snapshots d1 !! id = Some {| sn_path := snapPath d1 id; sn_height := fc_height d; sn_blockTime := fc_blockTime d |}.
Proof.
  unfold rpcSnapshot, dbind at 1, dget at 1. cbv zeta. destruct (negb _); [done|].
  unfold os_Create, os_Write, dtxn, dbind, dget, dput, dlift, dret. cbn [fc_set_files fc_opened]. destruct (fc_opened d); [|done].
  destruct (io_write io); [|done]. intros [= <- <-]. unfold fc_db at 1, snapPath. cbn. split; [lia|]. split; [done|]. rewrite !lookup_insert_eq. split; [|done].
  do 2 f_equal. unfold fc_db. cbn [fc_set_files fc_files fc_dbPath]. rewrite lookup_insert_ne; [done|]. apply (snapPath_other d (fc_nextSnap d)).
Qed.

(** The revert to a snapshot whose file is whole. *)
Lemma revert_succeeds io d id snap t : io_fine io -> fc_snapshots d !! id = Some snap -> sn_path snap <> fc_dbPath d ->
  fc_files d !! sn_path snap = Some (FileDB t) ->
  exists d', rpcRevert io id d = (Ok (sn_height snap, sn_blockTime snap), d') /\ fc_opened d' = true /\ fc_db d' = t
    /\ fc_height d' = sn_height snap /\ fc_blockTime d' = sn_blockTime snap.
Proof.
  intros (H1 & H2 & H3 & H4 & H5) Es Hp Ef. unfold rpcRevert, dclose, copyFile, dopen, os_Create, os_Write, dbind, dget, dput, dlift, dret.
  rewrite Es, H1, H2, H3, H4, H5. cbn [negb orb fc_set_files fc_files fc_dbPath]. rewrite bool_decide_eq_false_2 by (by rewrite Ef).
  assert (E2 : <[fc_dbPath d := FileTorn]> (fc_files d) !! sn_path snap = Some (FileDB t)) by (by rewrite lookup_insert_ne by congruence).
  cbn [fc_files fc_dbPath fc_set_files]. rewrite lookup_insert_eq, E2. cbn [default from_option].
  eexists. split; [reflexivity|]. split_and!; [done| |done|done]. unfold fc_db. cbn. by rewrite lookup_insert_eq.
Qed.

(** C32 - A snapshot of a debugging session comes back.  Take a snapshot of
    a forked chain, then send any requests whatsoever (calls, deployments,
    mining, moving the clock, other snapshots and reverts), the file
    operations of any of them failing at any point: the snapshot's file is
    still whole, and a revert to its number whose own file operations
    succeed closes the handle, copies the file over the working one and
    reopens it, and so restores the database, the height and the clock of
    the moment the snapshot was taken. *)
Theorem snapshot_revert_roundtrip rnd readFile io io' d id d1 d2 :
  rpcSnapshot io d = (Ok id, d1) -> rtc (dev_rpc rnd readFile) d1 d2 -> io_fine io' ->
  exists d3, rpcRevert io' id d2 = (Ok (fc_height d, fc_blockTime d), d3)
    /\ fc_opened d3 = true /\ fc_db d3 = fc_db d /\ fc_height d3 = fc_height d /\ fc_blockTime d3 = fc_blockTime d.
Proof.
  intros Es Hr Hio. destruct (snapshot_written io d id d1 Es) as (Hid & _ & Hf & Hsn).
  assert (Hg : grows d1 d2) by (clear Hf Hsn Es Hid; induction Hr as [|x y z Hxy _ IH]; [done|]; etrans; [by eapply dev_rpc_grows|done]).
  destruct Hg as [P _ Ho HF]. rewrite <-Ho in Hsn by done. rewrite <-HF in Hf by done.
  apply (revert_succeeds io' d2 id _ (fc_db d) Hio Hsn); [|exact Hf]. cbn. rewrite P. apply snapPath_other.
Qed.

(** A revert that fails after closing the database leaves the session
    without one: every call, deployment, balance and storage read fails
    until a later revert succeeds. *)
Lemma failed_revert_closes io d id snap : fc_snapshots d !! id = Some snap -> io_close io = true -> io_source io = false ->
  exists d', rpcRevert io id d = (Err ErrLibrary, d') /\ fc_opened d' = false
    /\ forall A (f : Txn -> res A), dtxn f d' = (Err ErrLibrary, d').
Proof.
  intros Es Hc Hs. unfold rpcRevert, dclose, copyFile, dbind, dget, dput, dlift. rewrite Es, Hc, Hs. cbn [negb orb].
  eexists. split; [reflexivity|]. split; [done|]. intros A f. done.
Qed.

(** ** Effect transactions

    [NewTx] makes transactions without a salt, and a reveal needs one. *)

Lemma unsalted_refused st cs t bt tx : tx_Type tx = TransactTx \/ tx_Type tx = DeployTx -> tx_Height tx <> 0 -> tx_Salt tx = [] ->
  HandleTxs st cs t bt [tx] = Err ErrSaltTooShort.
Proof.
  intros Ht Hh Hs. unfold HandleTxs. cbn [res_fold]. unfold handleTx, consumeReveal. apply Z.eqb_neq in Hh. rewrite Hh, Hs.
  by destruct Ht as [-> | ->].
Qed.

Lemma signed_fields rnd tx key tx' : Signature rnd tx key = Ok tx' ->
  tx_Type tx' = tx_Type tx /\ tx_Height tx' = tx_Height tx /\ tx_Salt tx' = tx_Salt tx.
Proof. unfold Signature. intros E. open_ok E. by injection E as <-. Qed.

Lemma registerPubKey_slots t tx k : bGet (registerPubKey t None tx) ContractBucketName k = bGet t ContractBucketName k.
Proof.
  unfold registerPubKey. destruct (IsCompactEnvelope tx); [done|]. destruct (_ || _); [done|].
  destruct (bGet t KeyRegistryBucketName _); [done|]. unfold trieSetKey. cbn [recordKey].
  by rewrite bGet_trieSetLeaf, bGet_bPut, decide_False by naive_solver.
Qed.

Lemma handleGenerate_slots t tx t' k : handleGenerate None t tx = Ok t' -> bGet t' ContractBucketName k = bGet t ContractBucketName k.
Proof.
  unfold handleGenerate. intros E. open_ok E. injection E as <-. rewrite setBalance_cwrite, bGet_cwrite, decide_False by naive_solver.
  cbn [recordBal]. destruct (negb _); [|by injection Hr as <-]. open_ok Hr. injection Hr as <-. apply registerPubKey_slots.
Qed.

Lemma fc_db_advance d db h t : fc_db (fc_advance d db h t) = db.
Proof. unfold fc_db. cbn. by rewrite lookup_insert_eq. Qed.

(** A new name mints its funds and touches no slot. *)
Lemma newAddress_effect rnd name d : match newAddress rnd name d with
  | (Err _, d') => d' = d
  | (Ok _, d') => fc_names d' !! name <> None /\ (fc_height d' = fc_height d \/ fc_height d' = u64 (fc_height d + 1))
      /\ forall k, bGet (fc_db d') ContractBucketName k = bGet (fc_db d) ContractBucketName k
  end.
Proof.
  unfold newAddress, dbind at 1, dget at 1. destruct (fc_names d !! name) eqn:E; [split_and!; [congruence|by left|done]|].
  unfold dbind at 1, dlift at 1. destruct (signer_key name) as [key|]; [|done]. unfold dbind at 1, dlift at 1.
  destruct (NewAddress key) as [addr|]; [|done]. unfold dbind at 1, dlift at 1.
  destruct (Signature _ _ _) as [mint|] eqn:Em; [|done]. apply signed_fields in Em as (Ht & _ & _).
  unfold seal, dtxn, dbind, dget, dlift, dput, dret. cbv zeta. destruct (fc_opened d); [|done].
  unfold HandleTxs. cbn [res_fold]. unfold handleTx at 1. rewrite Ht. change (GenerateTx =? GenerateTx) with true. cbv iota.
  destruct (handleGenerate None (fc_db d) mint) as [t|] eqn:Eg; cbn [res_bind]; [|done].
  split_and!; [cbn; by rewrite lookup_insert_eq|by right|]. intros k. change (fc_db (fc_register ?x _ _ _)) with (fc_db x).
  rewrite fc_db_advance. by eapply handleGenerate_slots.
Qed.

Lemma resolve_same who d : (resolve who d).2 = d.
Proof. unfold resolve, dbind, dget. destruct (after_at who); [by destruct (fc_names d !! _)|done]. Qed.

Lemma signerOf_same who d : (signerOf who d).2 = d.
Proof. unfold signerOf, dbind, dget. cbv zeta. by destruct (fc_keys d !! _). Qed.

(** The fork tool can no longer seal an effect transaction.  At any
    height but 0, and dev_deploy and dev_call build theirs at the chain's
    height without a salt, every dev_call is an error that leaves the chain
    as it was, and every dev_deploy is an error that creates no contract. *)
Theorem dev_effects_refused rnd readFile d : 0 < fc_height d -> fc_height d + 1 < two64 ->
  (forall p, exists e, rpcCall rnd p d = (Err e, d))
  /\ (forall p, exists e d', rpcDeploy rnd readFile p d = (Err e, d')
        /\ forall k, bGet (fc_db d') ContractBucketName k = bGet (fc_db d) ContractBucketName k).
Proof.
  intros Hh Hb. split; intros p.
  - unfold rpcCall. unfold dbind at 1. pose proof (resolve_same (cp_To p) d) as Hr.
    destruct (resolve (cp_To p) d) as [[to|e] d0]; cbn [snd] in Hr; subst d0; [|by exists e].
    unfold dbind at 1. pose proof (signerOf_same (cp_By p) d) as Hr.
    destruct (signerOf (cp_By p) d) as [[[key a]|e] d0]; cbn [snd] in Hr; subst d0; [|by exists e].
    unfold dbind, dget, dlift, dput, dret. cbv zeta. destruct (callValue p) as [value|e]; [|by exists e].
    destruct (packParts _ _) as [args|e]; [|by exists e]. destruct (Signature _ _ _) as [tx|e] eqn:Es; [|by exists e].
    apply signed_fields in Es as (Ht & Hth & Hs).
    unfold dtxn, dbind, dget, dlift. destruct (fc_opened d); [|by eexists].
    rewrite unsalted_refused; [by eexists|by left|rewrite Hth; cbn; lia|by rewrite Hs].
  - unfold rpcDeploy. destruct (bool_decide _); [eexists _, _; split; [reflexivity|done]|]. unfold dbind at 1, dlift at 1.
    destruct (deployCode readFile p) as [code|e]; [|eexists _, _; split; [reflexivity|done]]. unfold dbind at 1.
    pose proof (newAddress_effect rnd (dp_Name p) d) as Hn. destruct (newAddress rnd (dp_Name p) d) as [[addr|e] d']; [|subst d'; eexists _, _; split; [reflexivity|done]].
    destruct Hn as (_ & Hh' & Hk). unfold dbind, dget, dlift. destruct (fc_keys d' !! dp_Name p) as [key|]; [|eexists _, _; split; [reflexivity|done]].
    destruct (Signature _ _ _) as [tx|e] eqn:Es; [|eexists _, _; split; [reflexivity|done]]. apply signed_fields in Es as (Ht & Hth & Hs).
    unfold seal, dtxn, dbind, dget, dlift. cbv zeta. destruct (fc_opened d'); [|eexists _, _; split; [reflexivity|done]]. rewrite unsalted_refused; [eexists _, _; split; [reflexivity|done]|by right| |by rewrite Hs].
    rewrite Hth. cbn. destruct Hh' as [->|E]; [lia|]. rewrite E. unfold u64. rewrite Z.mod_small by lia. lia.
Qed.

Lemma revert_names io id d d' : (rpcRevert io id d).2 = d' -> fc_names d' = fc_names d.
Proof.
  intros <-. unfold rpcRevert, dbind at 1, dget at 1. destruct (fc_snapshots d !! id) as [snap|]; [|done]. unfold dclose, dbind, dget, dput, dlift.
  assert (Hc : forall x, fc_names (copyFile io (sn_path snap) (fc_dbPath d) x).2 = fc_names x).
  { intros x. unfold copyFile, os_Create, os_Write, dbind, dget, dput, dlift. destruct (_ || _); [done|]. destruct (negb _); [done|]. by destruct (negb _). }
  assert (Ho : forall x, fc_names (dopen io x).2 = fc_names x).
  { intros x. unfold dopen, dbind, dget, dput, dlift. destruct (negb _); [done|]. by destruct (fc_files x !! _) as [[]|]. }
  destruct (io_close io); [|done]. set (x := fc_set_files d _ _ _). specialize (Hc x). destruct (copyFile _ _ _ x) as [[u|e] y]; [|exact Hc].
  cbn [snd] in Hc. specialize (Ho y). destruct (dopen io y) as [[w|e] z]; cbn in *; congruence.
Qed.

(** The names survive a revert, their funds do not: asking for a name made
    after the snapshot hands out its address without funding it again. *)
Lemma revert_keeps_names rnd io io' d id d1 d2 d3 name addr :
  rpcSnapshot io d = (Ok id, d1) -> newAddress rnd name d1 = (Ok addr, d2) -> fc_names d2 !! name = Some addr -> io_fine io' ->
  (rpcRevert io' id d2).2 = d3 -> newAddress rnd name d3 = (Ok addr, d3) /\ fc_db d3 = fc_db d.
Proof.
  intros Es En Ha Hio Er. pose proof (keeps_newAddress rnd name d1) as Hg. rewrite En in Hg. cbn [snd] in Hg.
  destruct (snapshot_written io d id d1 Es) as (Hid & _ & Hf & Hsn). destruct Hg as [P _ Ho HF]. rewrite <-Ho in Hsn by done. rewrite <-HF in Hf by done.
  destruct (revert_succeeds io' d2 id _ (fc_db d) Hio Hsn) as (d' & E & _ & Hdb & _); [cbn; rewrite P; apply snapPath_other|exact Hf|].
  rewrite E in Er. cbn [snd] in Er. subst d'. split; [|done]. assert (Hn : fc_names d3 = fc_names d2) by (by eapply revert_names; rewrite E).
  unfold newAddress, dbind, dget. by rewrite Hn, Ha.
Qed.

(** ** Lazy forks *)

Section Lazy.
Context `{!SlotCodecLaws}.

(** A lazy fork forgets payments.  Whatever balance an address has
    been given locally, looking for a contract there (as every transfer to
    it does) when the remote node knows the address with a balance and no
    contract writes the remote balance back over the local one. *)
Theorem lazy_miss_overwrites_balance f t a b local :
  f a = Some (None, Some b) -> 0 < b ->
  bGet t ContractBucketName (vec_to_list a) = None ->
  let t := setBalance t None a local in
  getBalance (lazyGetContract (Some f) true t a).2 a = b.
Proof.
  intros Hf Hb Hc. cbv zeta. unfold lazyGetContract. rewrite setBalance_cwrite at 1.
  rewrite bGet_cwrite, decide_False by naive_solver. cbn [recordBal]. rewrite Hc. unfold fetchRemoteState. rewrite Hf. cbn [andb].
  apply Z.ltb_lt in Hb as Hlt. rewrite Hlt. cbn [snd]. unfold getBalance. rewrite setBalance_cwrite, bGet_cwrite, decide_True by done.
  apply be_Z_big_Bytes. lia.
Qed.

(** An address is asked for once. *)
Lemma lazyFetch_once `{ContractCodec} ask ask' cache a :
  let '(r, cache', _) := lazyFetch ask cache a in lazyFetch ask' cache' a = (r, cache', false).
Proof.
  unfold lazyFetch. destruct (cache !! a) as [hit|] eqn:E; [by rewrite E|]. by rewrite lookup_insert_eq.
Qed.

End Lazy.

(** ** Scenarios *)

(** Signing a step as a contract rebinds the contract's name to the address
    of a key, so later steps and expectations miss the contract. *)
Lemma signing_as_contract_rebinds ns name key a :
  sn_keys ns !! name = None -> name <> ""%string -> signer_key name = Ok key -> NewAddress key = Ok a ->
  sn_addrs (stepKey ns name).2 !! name = Some a.
Proof.
  intros Hk Hn Es Ea. unfold stepKey. rewrite bool_decide_eq_false_2 by done. unfold signer. rewrite Hk, Es. cbn [res_bind]. rewrite Ea.
  cbn. apply lookup_insert_eq.
Qed.

End Props.

Module ForkToolWitness.

#[local] Existing Instance prefix_hasher.
#[local] Existing Instance toy_libs.
#[local] Existing Instance toy_codec.
#[local] Existing Instance toy_slot_codec.
#[local] Existing Instance toy_slot_laws.
#[local] Existing Instance toy_toll.
#[local] Existing Instance RunWitness.engine.
#[local] Existing Instance LedgerWitness.receipts.
#[local] Existing Instance LedgerWitness.deps.
#[local] Existing Instance LedgerWitness.inflate.
#[local] Existing Instance LedgerWitness.merkle.
#[local] Existing Instance LedgerWitness.text.
#[local] Instance deflate : Deflate := fun _ => None.

Definition all_fine : fileIO :=
  {| io_create := true; io_write := true; io_close := true; io_halfClosed := false; io_source := true; io_dest := true; io_copy := true; io_open := true |}.

(** An open database beside an older file. *)
Definition d0 : forkChain := (dopen all_fine (forkBase {["old.db" := FileTorn]} "ngfork-1.db" 1000 5)).2.
Definition d1 : forkChain := (rpcSnapshot all_fine d0).2.
Definition no_files : string -> res bytes := fun _ => Err ErrKeyNotFound.

(** A copy that breaks off. *)
Definition disk_full : fileIO :=
  {| io_create := true; io_write := false; io_close := true; io_halfClosed := false; io_source := true; io_dest := true; io_copy := false; io_open := true |}.

(** Mining, a revert that breaks off with the database closed, and the revert. *)
Lemma snapshot_revert_roundtrip_witness :
  exists d3, rpcRevert all_fine 1 (rpcRevert disk_full 1 (rpcMine 3 0 d1).2).2 = (Ok (1, 5), d3)
    /\ fc_opened d3 = true /\ fc_db d3 = fc_db d0 /\ fc_height d3 = 1 /\ fc_blockTime d3 = 5.
Proof.
  apply (snapshot_revert_roundtrip [] no_files all_fine all_fine d0 1 d1 (rpcRevert disk_full 1 (rpcMine 3 0 d1).2).2).
  - reflexivity.
  - eapply rtc_l; [apply rq_mine|]. apply rtc_once. apply rq_revert.
  - repeat split.
Defined.

Example broken_revert_closed : fc_opened (rpcRevert disk_full 1 (rpcMine 3 0 d1).2).2 = false.
Proof. reflexivity. Qed.

Definition call : callParams :=
  {| cp_To := "@dev0"; cp_By := "@dev0"; cp_Method := []; cp_Args := []; cp_Value := []; cp_At := 0; cp_Dry := false |}.

Lemma dev_effects_refused_witness : exists e, rpcCall [] call d0 = (Err e, d0).
Proof. destruct (dev_effects_refused [] no_files d0) as [H _]; [reflexivity|reflexivity|exact (H call)]. Defined.

(** bob has 100 at the remote node and is paid 40 here. *)
Definition remote : RemoteHook := fun a => if bool_decide (a = bob) then Some (None, Some 100) else None.

Lemma lazy_miss_overwrites_balance_witness :
  getBalance (lazyGetContract (Some remote) true (setBalance ∅ None bob 140) bob).2 bob = 100.
Proof.
  apply (lazy_miss_overwrites_balance remote ∅ bob 100 140).
  - unfold remote. by rewrite bool_decide_eq_true_2.
  - lia.
  - reflexivity.
Defined.

(** Amounts over 32 bytes panic. *)
Example u256_too_wide :
  packPart ∅ "u256:115792089237316195423570985008687907853269984665640564039457584007913129639936" = Err GoPanic.
Proof. vm_compute. reflexivity. Qed.

Example parts : packParts ["u64:258"; "str:ab"; "hex:ff00"; "u256:1"] ∅
  = Ok (PackUint64LE 258 ++ str "ab" ++ [Zbyte 255; Zbyte 0] ++ Zbyte 1 :: zeros 31).
Proof. vm_compute. reflexivity. Qed.

End ForkToolWitness.
