(* ===== verification/CoreMiner.v ===== *)
(** * The solo miner

    cmd/coreminer: a client of the mining calls of a node and a miner of
    several threads.  Two goroutines drive the miner, one woken by a found
    nonce and one by a timer; they and the threads share flags and channels,
    so the miner is a step relation over their program points. *)

From S2P Require Import Prelude Params StateTrie Keys Contract Types Instances Tx Block State StateCommit VM VMToy VMProps Journal Ledger LedgerProps Snapshot Chain Pool Consensus Rpc RpcProps RpcReads.

(** ** job.go *)

Record Job := { j_block : FullBlock; j_WorkID : Z; j_Nonce : bytes }.

Definition SetNonce (j : Job) (nonce : bytes) : Job := {| j_block := j_block j; j_WorkID := j_WorkID j; j_Nonce := nonce |}.

Section Client.
Context `{HH : Hasher} `{SL : SigLibs} `{CD : Codec} `{SC : SlotCodec} `{RC : ReceiptCodec}
  `{DC : DepsCodec} `{IF : Inflate} `{ML : MerkleLib} `{PL : PowLib} `{VM_ : ContractVM} `{SHC : SheetCodec} `{RT : Router}.

Definition NewJob (reply : GetWorkReply) : res Job :=
  match HexRLPDecode dec_FullBlock (gw_Block reply) with
  | Ok block => Ok {| j_block := block; j_WorkID := gw_WorkID reply; j_Nonce := [] |}
  | Err _ => Err GoPanic
  end.

(** ** client.go

    The node answers both calls; its state may move in between ([s] and
    [s']).  Any error is a panic of the client. *)

Definition or_panic {A} (r : res A) : res A := match r with Ok a => Ok a | Err _ => Err GoPanic end.

Definition client_getLatestHeight (s : Server) : res Z :=
  if pw_syncing (sv_pow s) then Err GoPanic else Ok (getLatestBlockHeightFunc s).

Definition GetWork (rnd : bytes) (network : Network) (priv : PrivateKey) (s s' : Server) (now sec nano : Z) : res Job * Server :=
  match (let! latest := client_getLatestHeight s in
         CreateGenerateTx rnd network priv (u64 (latest + 1)) (str "coreminer")) with
  | Err _ => (Err GoPanic, s')
  | Ok genTx =>
      let '(r, s') := requireSynced (fun s => getWorkFunc now sec nano s (Params (hex_EncodeToString (rlp_FullTx genTx)))) s' in
      (let! reply := or_panic r in NewJob reply, s')
  end.

Definition SubmitWork (now sec : Z) (broadcast : bool) (s : Server) (workID : Z) (nonce : bytes) : bool * Server :=
  let '(r, s) := requireSynced (fun s => submitWorkFunc now sec broadcast s
                   (Params {| sw_WorkID := workID; sw_Nonce := hex_EncodeToString nonce |})) s in
  (is_ok r, s).

(** ** miner.go: one attempt *)

Definition solves (b : FullBlock) (nonce : bytes) : bool :=
  let hash := vec_to_list (astrobwt_POW (GetPoWRawHeader (b_Header b) (Some nonce))) in
  match big_Div MaxTarget (be_Z (h_Difficulty (b_Header b))) with
  | Ok target => negb (bool_decide (hash = zeros 32)) && (be_Z hash <? target)
  | Err _ => false
  end.

(** ** The miner's goroutines *)

(** A mining thread: at the top of its loop, with a nonce to try, with its
    nonce written to the shared job, sending the copy it took of that job,
    returned. *)
Inductive thread := AtCheck | Hashing | Found | Sending (j : Job) | Done.

(** A call of [Mining]; its threads share the [work] variable. *)
Record MiningCall := { mc_work : Job; mc_threads : list thread }.

(** Where a goroutine is.  [Idle]: waiting for a found nonce (one of them)
    or for a tick (the other). *)
Inductive point :=
  | Idle
  | Submitting (j : Job)
  | Fetching
  | Exiting (j : Job)
  | Quitting (j : Job)
  | Awaiting (j : Job)
  | Resuming (j : Job)
  | Starting (j : Job)
  | InMining (c : MiningCall)
  | Signalling.

Inductive goroutine := Finder | Timer.

#[global] Instance goroutine_eq_dec : EqDecision goroutine.
Proof. solve_decision. Defined.

Record MinerState := {
  ms_running : bool;
  ms_quit : bool;
  ms_exits : nat;
  ms_finder : point;
  ms_timer : point;
  ms_submitted : list (FullBlock * Z * bytes);
  ms_panicked : bool
}.

Definition at_ (s : MinerState) (g : goroutine) : point := match g with Finder => ms_finder s | Timer => ms_timer s end.

Definition goto (s : MinerState) (g : goroutine) (p : point) : MinerState :=
  {| ms_running := ms_running s; ms_quit := ms_quit s; ms_exits := ms_exits s;
     ms_finder := match g with Finder => p | Timer => ms_finder s end;
     ms_timer := match g with Finder => ms_timer s | Timer => p end;
     ms_submitted := ms_submitted s; ms_panicked := ms_panicked s |}.

Definition set_flags (s : MinerState) (running quit : bool) (exits : nat) : MinerState :=
  {| ms_running := running; ms_quit := quit; ms_exits := exits; ms_finder := ms_finder s; ms_timer := ms_timer s;
     ms_submitted := ms_submitted s; ms_panicked := ms_panicked s |}.

Definition submit (s : MinerState) (j : Job) : MinerState :=
  {| ms_running := ms_running s; ms_quit := ms_quit s; ms_exits := ms_exits s; ms_finder := ms_finder s; ms_timer := ms_timer s;
     ms_submitted := ms_submitted s ++ [(j_block j, j_WorkID j, j_Nonce j)]; ms_panicked := ms_panicked s |}.

Definition panic (s : MinerState) : MinerState :=
  {| ms_running := ms_running s; ms_quit := ms_quit s; ms_exits := ms_exits s; ms_finder := ms_finder s; ms_timer := ms_timer s;
     ms_submitted := ms_submitted s; ms_panicked := true |}.

Definition set_thread (c : MiningCall) (i : nat) (t : thread) : MiningCall :=
  {| mc_work := mc_work c; mc_threads := <[i := t]> (mc_threads c) |}.

Definition set_work (c : MiningCall) (nonce : bytes) : MiningCall :=
  {| mc_work := SetNonce (mc_work c) nonce; mc_threads := mc_threads c |}.

Definition NewMiner : MinerState :=
  {| ms_running := false; ms_quit := false; ms_exits := 0; ms_finder := Idle; ms_timer := Idle; ms_submitted := []; ms_panicked := false |}.

Context (threadNum : nat).

(** [ExitJob] and [Mining] are the points from [Exiting] on; the buffered
    channel [AllExitCh] holds one token. *)
Inductive mstep (s : MinerState) : MinerState -> Prop :=
  | m_tick : ms_panicked s = false -> ms_timer s = Idle -> mstep s (goto s Timer Fetching)
  | m_found c i j : ms_panicked s = false -> ms_finder s = Idle -> ms_timer s = InMining c -> mc_threads c !! i = Some (Sending j) ->
      mstep s (goto (goto s Timer (InMining (set_thread c i Done))) Finder (Submitting j))
  | m_submit j (ok : bool) : ms_panicked s = false -> ms_finder s = Submitting j ->
      mstep s (goto (submit s j) Finder (if ok then Fetching else Idle))
  | m_fetch g j : ms_panicked s = false -> at_ s g = Fetching -> mstep s (goto s g (Exiting j))
  | m_exit g j : ms_panicked s = false -> at_ s g = Exiting j -> ms_running s = true ->
      mstep s (goto (set_flags s false (ms_quit s) (ms_exits s)) g (Quitting j))
  | m_exit_idle g j : ms_panicked s = false -> at_ s g = Exiting j -> ms_running s = false -> mstep s (goto s g (Starting j))
  | m_quit g j : ms_panicked s = false -> at_ s g = Quitting j -> mstep s (goto (set_flags s (ms_running s) true (ms_exits s)) g (Awaiting j))
  | m_await g j n : ms_panicked s = false -> at_ s g = Awaiting j -> ms_exits s = S n ->
      mstep s (goto (set_flags s (ms_running s) (ms_quit s) n) g (Resuming j))
  | m_resume g j : ms_panicked s = false -> at_ s g = Resuming j -> mstep s (goto (set_flags s (ms_running s) false (ms_exits s)) g (Starting j))
  | m_start g j : ms_panicked s = false -> at_ s g = Starting j -> ms_running s = false -> be_Z (h_Difficulty (b_Header (j_block j))) <> 0 ->
      mstep s (goto (set_flags s true (ms_quit s) (ms_exits s)) g (InMining {| mc_work := j; mc_threads := replicate threadNum AtCheck |}))
  | m_start_panic g j : ms_panicked s = false -> at_ s g = Starting j ->
      ms_running s = true \/ be_Z (h_Difficulty (b_Header (j_block j))) = 0 -> mstep s (panic s)
  | m_thread_quit g c i : ms_panicked s = false -> at_ s g = InMining c -> mc_threads c !! i = Some AtCheck -> ms_quit s = true ->
      mstep s (goto s g (InMining (set_thread c i Done)))
  | m_thread_try g c i : ms_panicked s = false -> at_ s g = InMining c -> mc_threads c !! i = Some AtCheck -> ms_quit s = false ->
      mstep s (goto s g (InMining (set_thread c i Hashing)))
  | m_thread_miss g c i (t : thread) : ms_panicked s = false -> at_ s g = InMining c -> mc_threads c !! i = Some Hashing -> t = AtCheck \/ t = Done ->
      mstep s (goto s g (InMining (set_thread c i t)))
  | m_thread_find g c i nonce : ms_panicked s = false -> at_ s g = InMining c -> mc_threads c !! i = Some Hashing ->
      solves (j_block (mc_work c)) nonce = true -> length nonce = 8%nat ->
      mstep s (goto s g (InMining (set_thread (set_work c nonce) i Found)))
  | m_thread_send g c i : ms_panicked s = false -> at_ s g = InMining c -> mc_threads c !! i = Some Found ->
      mstep s (goto s g (InMining (set_thread c i (Sending (mc_work c)))))
  | m_all_done g c : ms_panicked s = false -> at_ s g = InMining c -> Forall (fun t => t = Done) (mc_threads c) -> mstep s (goto s g Signalling)
  | m_signal g : ms_panicked s = false -> at_ s g = Signalling -> ms_exits s = 0%nat ->
      mstep s (goto (set_flags s (ms_running s) (ms_quit s) 1) g Idle).

Definition reachable : MinerState -> Prop := rtc mstep NewMiner.

(** ** What is submitted *)

Definition solved (j : Job) : Prop := solves (j_block j) (j_Nonce j) = true /\ length (j_Nonce j) = 8%nat.

(** Whoever has found a nonce has a solution, its own or another thread's. *)
Definition thread_ok (c : MiningCall) (t : thread) : Prop :=
  match t with Found => solved (mc_work c) | Sending j => solved j | _ => True end.

Definition point_ok (p : point) : Prop :=
  match p with
  | Submitting j => solved j
  | InMining c => Forall (thread_ok c) (mc_threads c)
  | _ => True
  end.

Record miner_ok (s : MinerState) : Prop := {
  mo_point : forall g, point_ok (at_ s g);
  mo_submitted : forall b id nonce, (b, id, nonce) ∈ ms_submitted s -> solves b nonce = true /\ length nonce = 8%nat
}.

Lemma at_goto s g p g' : at_ (goto s g p) g' = if decide (g = g') then p else at_ s g'.
Proof. destruct g, g'; reflexivity. Qed.

Lemma at_set_flags s r q e g : at_ (set_flags s r q e) g = at_ s g.
Proof. by destruct g. Qed.

Lemma miner_ok_goto s g p : miner_ok s -> point_ok p -> miner_ok (goto s g p).
Proof. intros [H1 H2] Hp. split; [|exact H2]. intros g'. rewrite at_goto. by destruct (decide _). Qed.

Lemma miner_ok_flags s r q e : miner_ok s -> miner_ok (set_flags s r q e).
Proof. intros [H1 H2]. split; [|exact H2]. intros g. rewrite at_set_flags. apply H1. Qed.

Lemma set_thread_ok c i t : thread_ok c t -> point_ok (InMining c) -> point_ok (InMining (set_thread c i t)).
Proof. intros Ht Hc. apply Forall_insert; [exact Hc|exact Ht]. Qed.

Lemma set_work_ok c nonce : solved (SetNonce (mc_work c) nonce) -> point_ok (InMining c) -> point_ok (InMining (set_work c nonce)).
Proof. intros Hs Hc. eapply Forall_impl; [exact Hc|]. intros []; cbn; [done|done|by intros _|done|done]. Qed.

Lemma thread_at c i t : mc_threads c !! i = Some t -> point_ok (InMining c) -> thread_ok c t.
Proof. intros Hi Hc. by eapply (Forall_lookup_1 (thread_ok c)). Qed.

Lemma mstep_ok s s' : mstep s s' -> miner_ok s -> miner_ok s'.
Proof.
  intros Hs Hok. pose proof (mo_point s Hok) as Hp.
  assert (Hin : forall g c, at_ s g = InMining c -> point_ok (InMining c)) by (intros g c Hg; specialize (Hp g); by rewrite Hg in Hp).
  destruct Hs as [_ _|c i j _ _ Ht Hi|j ok _ Hf|g j _ _|g j _ _ _|g j _ _ _|g j _ _|g j n _ _ _|g j _ _|g j _ _ _ _|
    g j _ _ _|g c i _ Hg _ _|g c i _ Hg _ _|g c i t _ Hg _ Ht|g c i nonce _ Hg Hi Hs Hl|g c i _ Hg Hi|g c _ _ _|g _ _ _];
    try (repeat first [apply miner_ok_goto|apply miner_ok_flags]; done).
  - pose proof (Hin Timer c Ht) as HT. apply miner_ok_goto; [apply miner_ok_goto; [done|by apply set_thread_ok]|]. exact (thread_at c i _ Hi HT).
  - pose proof (Hp Finder) as HF. cbn in HF. rewrite Hf in HF. apply miner_ok_goto; [|by destruct ok]. split; [by intros g; destruct g; [apply (Hp Finder)|apply (Hp Timer)]|].
    intros b id nonce. cbn [submit ms_submitted]. rewrite elem_of_app, list_elem_of_singleton. intros [Hb|[= -> -> ->]]; [by eapply (mo_submitted s Hok)|exact HF].
  - apply miner_ok_goto; [apply miner_ok_flags; done|]. by apply Forall_replicate.
  - split; [intros g'; destruct g'; [apply (Hp Finder)|apply (Hp Timer)]|apply (mo_submitted s Hok)].
  - apply miner_ok_goto; [done|]. apply set_thread_ok; [done|by eapply Hin].
  - apply miner_ok_goto; [done|]. apply set_thread_ok; [done|by eapply Hin].
  - apply miner_ok_goto; [done|]. apply set_thread_ok; [by destruct Ht as [->| ->]|by eapply Hin].
  - apply miner_ok_goto; [done|]. apply set_thread_ok; [by split|]. apply set_work_ok; [by split|by eapply Hin].
  - apply miner_ok_goto; [done|]. apply set_thread_ok; [exact (thread_at c i _ Hi (Hin g c Hg))|by eapply Hin].
Qed.

Lemma msteps_ok s s' : rtc mstep s s' -> miner_ok s -> miner_ok s'.
Proof. induction 1 as [|x y z Hxy _ IH]; [done|]. intros Hx. apply IH. by eapply mstep_ok. Qed.

(** A solution passes the node's check of the nonce. *)
Lemma solves_verifies b nonce : IsUnsealing b = true -> solves b nonce = true -> length nonce = 8%nat ->
  exists x, ToSealed b nonce = Ok x /\ verifyNonce x = Ok tt.
Proof.
  intros Hu Hs Hl. unfold ToSealed. rewrite Hu. cbn [negb guard]. unfold zlen. rewrite Hl. change (Z.of_nat 8 =? NonceSize) with true. cbn [negb guard].
  eexists. split; [reflexivity|]. unfold verifyNonce, solves in *. cbn [set_Header b_Header]. destruct (_ =? 0); [done|]. cbn [h_set_Nonce h_Difficulty].
  destruct (big_Div _ _) as [target|] eqn:E; [|done]. apply andb_prop in Hs as [_ Hs]. cbn [res_bind]. unfold PowHash.
  rewrite GetPoWRawHeader_fields in Hs |- *. cbn [default from_option] in *. change (h_Nonce (h_set_Nonce (b_Header b) nonce)) with nonce.
  change (pow_fields (h_set_Nonce (b_Header b) nonce) nonce) with (pow_fields (b_Header b) nonce). unfold id in *. by rewrite Hs.
Qed.

(** C24 - Every nonce the miner submits is a solution.  However the threads
    and the two goroutines interleave, and although the threads of one job
    share the variable the nonce is sent in, every nonce submitted for a
    work item seals the block handed out with it into one whose proof of
    work the node accepts. *)
Theorem submitted_nonces_solve s b id nonce :
  reachable s -> (b, id, nonce) ∈ ms_submitted s -> IsUnsealing b = true ->
  exists x, ToSealed b nonce = Ok x /\ verifyNonce x = Ok tt.
Proof.
  intros Hr Hin Hu. assert (Hok : miner_ok s).
  { eapply msteps_ok; [exact Hr|]. split; [by intros []|]. intros ? ? ? Hn. by apply not_elem_of_nil in Hn. }
  destruct (mo_submitted s Hok b id nonce Hin). by apply solves_verifies.
Qed.

(** ** Deadlock *)

(** The goroutine that receives nonces is itself mining, and one of its
    threads has found one. *)
Definition stuck (s : MinerState) : Prop := exists c j, ms_finder s = InMining c /\ Sending j ∈ mc_threads c.

Lemma sending_stays c i t k j : mc_threads c !! k = Some (Sending j) -> mc_threads c !! i <> Some (Sending j) ->
  mc_threads (set_thread c i t) !! k = Some (Sending j).
Proof. intros Hk Hi. cbn. rewrite list_lookup_insert_ne; [done|]. intros ->. congruence. Qed.

Lemma stuck_forever s s' : stuck s -> mstep s s' -> stuck s' /\ ms_submitted s' = ms_submitted s.
Proof.
  intros (c & j0 & Hf & Hs) Hst. apply list_elem_of_lookup in Hs as [k Hk].
  assert (Hkeep : forall s0, ms_finder s0 = InMining c -> stuck s0) by (intros s0 E; exists c, j0; split; [done|by eapply list_elem_of_lookup_2]).
  assert (Hnot : forall g p, at_ s g = p -> (forall c0, p <> InMining c0) -> g = Timer) by (intros [] p Hg Hp; [|done]; cbn in Hg; rewrite Hf in Hg; by destruct (Hp c)).
  destruct Hst as [_ _|c0 i j _ Hi _ _|j ok _ Hj|g j _ Hg|g j _ Hg _|g j _ Hg _|g j _ Hg|g j n _ Hg _|g j _ Hg|g j _ Hg _ _|
    g j _ Hg _|g c0 i _ Hg Hi _|g c0 i _ Hg Hi _|g c0 i t _ Hg Hi _|g c0 i nonce _ Hg Hi _ _|g c0 i _ Hg Hi|g c0 _ Hg Hd|g _ Hg _];
    try congruence; try (rewrite (Hnot g _ Hg) by done; split; [by apply Hkeep|done]); try (split; [by apply Hkeep|done]).
  all: destruct g; [|split; [by apply Hkeep|done]]; cbn in Hg; rewrite Hf in Hg; injection Hg as <-.
  - split; [|done]. eexists _, j0. split; [reflexivity|]. eapply list_elem_of_lookup_2, sending_stays; [exact Hk|congruence].
  - split; [|done]. eexists _, j0. split; [reflexivity|]. eapply list_elem_of_lookup_2, sending_stays; [exact Hk|congruence].
  - split; [|done]. eexists _, j0. split; [reflexivity|]. eapply list_elem_of_lookup_2, sending_stays; [exact Hk|congruence].
  - split; [|done]. eexists _, j0. split; [reflexivity|]. eapply list_elem_of_lookup_2. cbn. rewrite list_lookup_insert_ne; [exact Hk|]. intros ->. congruence.
  - split; [|done]. eexists _, j0. split; [reflexivity|]. eapply list_elem_of_lookup_2, sending_stays; [exact Hk|congruence].
  - rewrite Forall_lookup in Hd. by specialize (Hd k _ Hk).
Qed.

Lemma stuck_for_good s s' : rtc mstep s s' -> stuck s -> stuck s' /\ ms_submitted s' = ms_submitted s.
Proof.
  induction 1 as [|x y z Hxy _ IH]; [done|]. intros Hx. destruct (stuck_forever x y Hx Hxy) as [Hy E].
  destruct (IH Hy) as [Hz E']. split; [done|congruence].
Qed.

(** Told to quit, the threads of the timer's job return one after another. *)
Lemma quit_all m : forall s w k, ms_panicked s = false -> ms_quit s = true ->
  rtc mstep (goto s Timer (InMining {| mc_work := w; mc_threads := replicate k Done ++ replicate m AtCheck |}))
            (goto s Timer (InMining {| mc_work := w; mc_threads := replicate (k + m) Done |})).
Proof.
  induction m as [|m IH]; intros s w k Hp Hq.
  - by rewrite Nat.add_0_r, app_nil_r.
  - eapply rtc_l.
    + eapply (m_thread_quit _ Timer _ k); [exact Hp|reflexivity| |exact Hq]. cbn [mc_threads]. rewrite lookup_app_r by (rewrite length_replicate; lia).
      by rewrite length_replicate, Nat.sub_diag.
    + unfold set_thread. cbn [mc_work mc_threads]. rewrite insert_app_r_alt by (rewrite length_replicate; lia).
      rewrite length_replicate, Nat.sub_diag. cbn [replicate list_insert insert].
      replace (replicate k Done ++ Done :: replicate m AtCheck) with (replicate (S k) Done ++ replicate m AtCheck) by (by rewrite replicate_S_end, <-app_assoc).
      replace (k + S m)%nat with (S k + m)%nat by lia. exact (IH s w (S k) Hp Hq).
Qed.

Lemma solves_diff b nonce : solves b nonce = true -> be_Z (h_Difficulty (b_Header b)) <> 0.
Proof. unfold solves, big_Div. by destruct (Z.eqb_spec (be_Z (h_Difficulty (b_Header b))) 0). Qed.

(** A job started by [g] on idle flags, with its first thread successful. *)
Lemma start_and_find s g j nonce : (0 < threadNum)%nat -> ms_panicked s = false -> at_ s g = Starting j -> ms_running s = false -> ms_quit s = false ->
  solves (j_block j) nonce = true -> length nonce = 8%nat ->
  rtc mstep s (goto (set_flags s true false (ms_exits s)) g
    (InMining {| mc_work := SetNonce j nonce; mc_threads := Sending (SetNonce j nonce) :: replicate (threadNum - 1) AtCheck |})).
Proof.
  intros Hn Hp Hg Hr Hq Hs Hl. destruct threadNum as [|m] eqn:En; [lia|]. rewrite Nat.sub_succ, Nat.sub_0_r.
  eapply rtc_l; [eapply m_start; [exact Hp|exact Hg|exact Hr|by eapply solves_diff]|]. rewrite Hq.
  set (s1 := set_flags s true false (ms_exits s)). rewrite En. cbn [replicate].
  eapply rtc_l. { eapply (m_thread_try _ g _ 0); [exact Hp|by rewrite at_goto, decide_True|reflexivity|reflexivity]. }
  eapply rtc_l. { eapply (m_thread_find _ g _ 0 nonce); [exact Hp|by rewrite at_goto, decide_True|reflexivity|exact Hs|exact Hl]. }
  eapply rtc_l. { eapply (m_thread_send _ g _ 0); [exact Hp|by rewrite at_goto, decide_True|reflexivity]. }
  destruct g; reflexivity.
Qed.

(** The first job solved, accepted and told to quit by the receiver. *)
Definition job_over (j : Job) (nonce : bytes) : MinerState :=
  {| ms_running := false; ms_quit := true; ms_exits := 1; ms_finder := Awaiting j; ms_timer := Idle;
     ms_submitted := [(j_block j, j_WorkID j, nonce)]; ms_panicked := false |}.

Lemma first_job j nonce : (0 < threadNum)%nat -> solves (j_block j) nonce = true -> length nonce = 8%nat -> rtc mstep NewMiner (job_over j nonce).
Proof.
  intros Hn Hs Hl. eapply rtc_l; [by apply m_tick|]. eapply rtc_l; [by apply (m_fetch _ Timer j)|]. eapply rtc_l; [by apply (m_exit_idle _ Timer j)|].
  etrans; [by eapply (start_and_find _ Timer j nonce)|].
  eapply rtc_l; [by apply (m_found _ {| mc_work := SetNonce j nonce; mc_threads := Sending (SetNonce j nonce) :: replicate (threadNum - 1) AtCheck |} 0 (SetNonce j nonce))|].
  eapply rtc_l; [by eapply (m_submit _ _ true)|]. eapply rtc_l; [by apply (m_fetch _ Finder j)|]. eapply rtc_l; [by apply (m_exit _ Finder j)|].
  eapply rtc_l; [by apply (m_quit _ Finder j)|].
  etrans. { eapply (quit_all (threadNum - 1) {| ms_running := false; ms_quit := true; ms_exits := 0; ms_finder := Awaiting j; ms_timer := Idle;
                      ms_submitted := [(j_block j, j_WorkID j, nonce)]; ms_panicked := false |} (SetNonce j nonce) 1); reflexivity. }
  eapply rtc_l; [eapply (m_all_done _ Timer); [reflexivity|reflexivity|cbn [mc_threads]; apply Forall_replicate; reflexivity]|].
  eapply rtc_l; [by apply (m_signal _ Timer)|]. reflexivity.
Qed.

(** C39 - The miner can stop for ever.  The goroutine that receives found
    nonces mines the next job itself once a nonce has been accepted.  When a
    thread of that job finds a nonce before the timer's next tick has fetched
    work, nobody is left to receive it: such a state is reachable with any
    number of threads, and from it no sequence of steps of the threads, the
    timer or the clock ever submits a nonce again. *)
Theorem miner_deadlocks j nonce :
  (0 < threadNum)%nat -> solves (j_block j) nonce = true -> length nonce = 8%nat ->
  exists s, reachable s /\ stuck s /\ forall s', rtc mstep s s' -> stuck s' /\ ms_submitted s' = ms_submitted s.
Proof.
  intros Hn Hs Hl. assert (Hrun : exists s, reachable s /\ stuck s).
  { eexists. split.
    - unfold reachable. etrans; [by eapply first_job|]. eapply rtc_l; [by apply (m_await _ Finder j 0)|]. eapply rtc_l; [by apply (m_resume _ Finder j)|].
      by eapply (start_and_find _ Finder j nonce).
    - eexists _, _. split; [reflexivity|]. left. }
  destruct Hrun as (s & Hr & Hst). exists s. split_and!; [done|done|]. intros s' Hs'. by eapply stuck_for_good.
Qed.

(** Both goroutines may reach [Mining] at once: the second one panics. *)
Lemma restart_race_panics j nonce :
  (0 < threadNum)%nat -> solves (j_block j) nonce = true -> length nonce = 8%nat -> exists s, reachable s /\ ms_panicked s = true.
Proof.
  intros Hn Hs Hl. eexists. split.
  - unfold reachable. etrans; [by eapply first_job|]. eapply rtc_l; [by apply m_tick|]. eapply rtc_l; [by apply (m_fetch _ Timer j)|].
    eapply rtc_l; [by apply (m_exit_idle _ Timer j)|]. eapply rtc_l; [by apply (m_await _ Finder j 0)|]. eapply rtc_l; [by apply (m_resume _ Finder j)|].
    etrans; [by eapply (start_and_find _ Finder j nonce)|]. apply rtc_once. apply (m_start_panic _ Timer j); [reflexivity|reflexivity|by left].
  - reflexivity.
Qed.

End Client.

Module MinerWitness.

#[local] Existing Instance prefix_hasher.
#[local] Existing Instance toy_libs.
#[local] Existing Instance toy_codec.

(** Every hash is 1. *)
#[local] Instance easy_pow : PowLib := fun _ => to_array 32 (zeros 31 ++ [Zbyte 1]).

Definition job : Job := {| j_block := LedgerWitness.block; j_WorkID := 7; j_Nonce := [] |}.

Lemma job_solved : solves LedgerWitness.block (zeros 8) = true.
Proof. vm_compute. reflexivity. Qed.

Lemma miner_deadlocks_witness :
  exists s, reachable 4 s /\ stuck s /\ forall s', rtc (mstep 4) s s' -> stuck s' /\ ms_submitted s' = ms_submitted s.
Proof. apply (miner_deadlocks 4 job (zeros 8)); [lia|exact job_solved|reflexivity]. Defined.

(** One submission. *)
Definition after_one : MinerState :=
  {| ms_running := true; ms_quit := false; ms_exits := 0; ms_finder := Fetching;
     ms_timer := InMining {| mc_work := SetNonce job (zeros 8); mc_threads := [Done] |};
     ms_submitted := [(LedgerWitness.block, 7, zeros 8)]; ms_panicked := false |}.

Lemma after_one_reachable : reachable 1 after_one.
Proof.
  unfold reachable. eapply rtc_l; [by apply m_tick|]. eapply rtc_l; [by apply (m_fetch _ _ Timer job)|]. eapply rtc_l; [by apply (m_exit_idle _ _ Timer job)|].
  etrans; [eapply (start_and_find 1 _ Timer job (zeros 8)); [lia|reflexivity|reflexivity|reflexivity|reflexivity|exact job_solved|reflexivity]|].
  eapply rtc_l; [by apply (m_found _ _ {| mc_work := SetNonce job (zeros 8); mc_threads := [Sending (SetNonce job (zeros 8))] |} 0 (SetNonce job (zeros 8)))|].
  eapply rtc_l; [by eapply (m_submit _ _ _ true)|]. reflexivity.
Qed.

Lemma submitted_nonces_solve_witness : exists x, ToSealed LedgerWitness.block (zeros 8) = Ok x /\ verifyNonce x = Ok tt.
Proof.
  apply (submitted_nonces_solve 1 after_one LedgerWitness.block 7 (zeros 8) after_one_reachable).
  - left.
  - vm_compute. reflexivity.
Defined.

End MinerWitness.
