(* ===== verification/Node.v ===== *)
(** * Starting a node

    cmd/ngcore/app.go (the flags that shape the node, and the order in which
    its parts are initialised), ngblocks/init.go (the genesis block in a new
    store), blockchain.Init and consensus.InitPoWConsensus.  The network
    parts and the server's sockets are left out. *)

From S2P Require Import Prelude Params StateTrie Keys Contract Types Instances Tx Block BlockStore State StateCommit VM Journal Ledger Snapshot Queries Chain Pool Consensus.

(** The flags of [action]. *)
Record nodeFlags := {
  nf_bootstrap : bool;
  nf_nonStrict : bool;
  nf_snapshot : bool;
  nf_testnet : bool;
  nf_zeronet : bool;
  nf_prune : bool;
  nf_minerExtra : bytes
}.

Definition strictMode (f : nodeFlags) : bool := nf_bootstrap f || negb (nf_nonStrict f).

(** The test network is the default. *)
Definition flagNetwork (f : nodeFlags) : Network := if nf_zeronet f then ZERONET else TESTNET.

(** Snapshot sync is for nodes that do not verify from the genesis block. *)
Definition checkFlags (f : nodeFlags) : res unit :=
  reject strictMode f && nf_snapshot f with ErrBadValue ;
  Ok tt.

Definition powConfig (f : nodeFlags) : PoWorkConfig :=
  {| cfg_Network := flagNetwork f; cfg_StrictMode := strictMode f; cfg_SnapshotMode := nf_snapshot f;
     cfg_MinerExtraData := nf_minerExtra f |}.

Section Node.
Context `{HH : Hasher} `{SL : SigLibs} `{CD : Codec} `{SC : SlotCodec} `{RC : ReceiptCodec}
  `{DC : DepsCodec} `{IF : Inflate} `{ML : MerkleLib} `{PL : PowLib} `{VM_ : ContractVM} `{SHC : SheetCodec}.

(** ** ngblocks/init.go *)

(** Another network's genesis block panics. *)
Definition hasGenesisBlock (blockBucket : bucket) (network : Network) : res bool :=
  match blockBucket !! PackUint64LE 0 with
  | None => Ok false
  | Some hash =>
      let! genesis := GetGenesisBlock network in
      reject negb (bool_decide (hash = Block_GetHash genesis)) with GoPanic ;
      Ok true
  end.

Definition initWithGenesis (txn : Txn) (network : Network) : res Txn :=
  let! has := hasGenesisBlock (Bucket txn BlockBucketName) network in
  if has : bool then Ok txn
  else
    let! block := GetGenesisBlock network in
    Ok (setBucket txn BlockBucketName (InitFromCheckpoint (Bucket txn BlockBucketName) block)).

(** ** blockchain.Init and consensus.InitPoWConsensus *)

Definition Chain_Init (db : Txn) (network : Network) (state : State) : Chain :=
  {| ch_Network := network; ch_State := state; ch_db := db;
     ch_volatile := {| v_snapshots := emptySnapshots; reorgRemoved := []; reorgAdded := [] |} |}.

Definition InitPoWConsensus (chain : Chain) (pool : TxPool) (cfg : PoWorkConfig) : PoWork :=
  {| pw_cfg := cfg; pw_chain := chain; pw_pool := pool; pw_orphans := newOrphanPool; pw_syncing := false |}.

(** ** app.go: [action] up to the network

    The state is seeded with archiving on; the prune flag turns it off
    afterwards. *)
Definition startNode (f : nodeFlags) (db : Txn) : res PoWork :=
  do! checkFlags f ;
  let network := flagNetwork f in
  let! db := initWithGenesis db network in
  let! db := InitStateFromGenesis {| st_Network := network; st_Archive := true |} db in
  let state := {| st_Network := network; st_Archive := negb (nf_prune f) |} in
  do! CheckHealth (Bucket db BlockBucketName) ;
  match BackfillArchive state db with
  | Err _ => Err GoPanic
  | Ok (_, db) => Ok (InitPoWConsensus (Chain_Init db network state) Pool_Init (powConfig f))
  end.

(** A node that never needs a backfill restarts on the database it left. *)
Lemma restart_keeps_database f db :
  checkFlags f = Ok tt -> hasGenesisBlock (Bucket db BlockBucketName) (flagNetwork f) = Ok true ->
  Bucket db Addr2BalBucketName <> ∅ -> CheckHealth (Bucket db BlockBucketName) = Ok tt ->
  BackfillArchive {| st_Network := flagNetwork f; st_Archive := negb (nf_prune f) |} db = Ok (false, db) ->
  exists pw, startNode f db = Ok pw /\ ch_db (pw_chain pw) = db.
Proof.
  intros Hf Hg Hb Hh Hbf. unfold startNode. rewrite Hf. cbn [res_bind]. unfold initWithGenesis. rewrite Hg. cbn [res_bind].
  unfold InitStateFromGenesis. rewrite bool_decide_eq_false_2 by done. cbn [negb res_bind]. rewrite Hh. cbn [res_bind]. rewrite Hbf.
  eexists. split; reflexivity.
Qed.

End Node.
