(* ===== verification/Template.v ===== *)
(** * Templates and compact commitments

    A commitment signed with the compact envelope names its signer by address
    and needs the key registry to be verified.  The gossip layer passes it on
    and the pool, which has the registry, takes it; the check every import
    makes of a block ([FullBlock.CheckError]) has no registry and refuses any
    block that carries it.  The templates of consensus/pow.go carry what the
    pool packs. *)

From S2P Require Import Prelude Params StateTrie Keys Contract Types Instances Tx Block BlockStore State StateCommit VM VMToy VMProps Journal Ledger Supply LedgerProps Snapshot Queries Chain ChainFrames ForkChoice ForkProps Pool PoolProps Wired Consensus ConsensusProps Rpc RpcProps.

Section Template.
Context `{HH : Hasher} `{SL : SigLibs} `{CD : Codec} `{SC : SlotCodec} `{RC : ReceiptCodec}
  `{DC : DepsCodec} `{IF : Inflate} `{ML : MerkleLib} `{PL : PowLib} `{VM_ : ContractVM} `{SHC : SheetCodec}.

(** ** Without the registry *)

Lemma compact_envelope_none c r : isCompactSign (c_Sign c) = true -> Commitment_envelope c None <> Ok r.
Proof.
  unfold isCompactSign, Commitment_envelope, split_envelope. destruct (c_Sign c) as [|form [|scheme body]]; [done|done|]. intros ->%bool_decide_eq_true_1.
  cbv zeta. rewrite (bool_decide_eq_false_2 (envelopeCompact = envelopeFull)), (bool_decide_eq_false_2 (envelopeCompact = envelopeRecover)),
    (bool_decide_eq_true_2 (envelopeCompact = envelopeCompact)) by done. intros E. open_ok E. done.
Qed.

Lemma compact_unverified c h : isCompactSign (c_Sign c) = true -> Commitment_CheckError c h None <> Ok tt.
Proof.
  intros Hc E. unfold Commitment_CheckError, Commitment_Verify in E. open_ok E. by eapply compact_envelope_none in Hc.
Qed.

Lemma compact_CheckError now b c : c ∈ b_Commits b -> isCompactSign (c_Sign c) = true -> exists e, CheckError now b = Err e.
Proof.
  intros Hin Hc. destruct (CheckError now b) as [[]|e] eqn:E; [|by exists e]. exfalso.
  apply CheckError_commits in E. rewrite Forall_forall in E. by eapply compact_unverified, E.
Qed.

(** ** What the pool packs *)

Lemma dedup_length {A} (key : A -> bytes) l : forall seen, (length (dedupByKey key seen l) <= length l)%nat.
Proof. induction l as [|x l IH]; intros seen; cbn [dedupByKey]; [done|]. case_bool_decide; cbn [length]; [specialize (IH seen)|specialize (IH ({[key x]} ∪ seen))]; lia. Qed.

(** Every waiting commitment fits into the pack. *)
Definition roomy (pool : TxPool) : Prop := Z.of_nat (size (commitMap pool)) <= MaxTxsPerPack.

Lemma pack_takes pool from c : commitMap pool !! from = Some c -> roomy pool ->
  (forall a c', commitMap pool !! a = Some c' -> c_Hash c' = c_Hash c -> c' = c) -> c ∈ GetCommitPack pool (c_Height c).
Proof.
  intros Hf Hr Hu. unfold GetCommitPack, GetCommitPack_in. cbv zeta.
  set (l := filter (fun d => c_Height d = c_Height c) (values (commitMap pool))).
  assert (Hval : forall d, d ∈ l -> exists a, commitMap pool !! a = Some d).
  { intros d [_ ([a d'] & -> & Hd)%list_elem_of_fmap]%list_elem_of_filter. exists a. by apply elem_of_map_to_list in Hd. }
  assert (Hl : c ∈ l).
  { apply list_elem_of_filter. split; [done|]. apply list_elem_of_fmap. exists (from, c). split; [done|]. by apply elem_of_map_to_list. }
  assert (Hd : c ∈ dedupByKey c_Hash ∅ (merge_sort commit_before l)).
  { assert (Hk : c_Hash c ∈ c_Hash <$> dedupByKey c_Hash ∅ (merge_sort commit_before l)).
    { apply dedup_keeps; [by rewrite merge_sort_Permutation|apply not_elem_of_empty]. }
    apply list_elem_of_fmap in Hk as (d & Hh & Hd). assert (d ∈ l) as (a & Ha)%Hval by (apply dedup_sub in Hd as [Hd _]; by rewrite merge_sort_Permutation in Hd).
    by rewrite (Hu a d Ha) in Hd. }
  assert (Hn : (length (dedupByKey c_Hash ∅ (merge_sort commit_before l)) <= size (commitMap pool))%nat).
  { etrans; [apply dedup_length|]. rewrite (Permutation_length (merge_sort_Permutation commit_before l)). etrans; [apply length_filter|].
    unfold values. by rewrite length_fmap, length_map_to_list. }
  destruct (Z.ltb_spec MaxTxsPerPack (zlen (dedupByKey c_Hash ∅ (merge_sort commit_before l)))) as [Hlt|]; [|done].
  unfold zlen, roomy in *. lia.
Qed.

(** An admitted commitment is for the next height and stands in the map. *)
Lemma PutCommitment_pooled c pool commit pool' : PutCommitment c pool commit = Ok pool' ->
  c_Height commit = nextHeight c /\ exists from, commitMap pool' = <[from := commit]> (commitMap pool).
Proof.
  unfold PutCommitment, CheckCommitment. intros E. open_ok E. injection E as <-. split; [|by eexists].
  apply res_bind_Ok in Hr as (u & Hc & _). unfold Commitment_CheckError in Hc. open_ok Hc. bools. done.
Qed.

(** ** What the templates carry *)

Lemma ToUnsealing_keeps_commits x txs y : ToUnsealing x txs = Ok y -> b_Commits y = b_Commits x.
Proof. unfold ToUnsealing. destruct txs as [|gen rest]; [done|]. intros E. open_ok E. by injection E as <-. Qed.

Lemma ToSealed_keeps_commits x nonce b : ToSealed x nonce = Ok b -> b_Commits b = b_Commits x.
Proof. unfold ToSealed. intros E. open_ok E. by injection E as <-. Qed.

Lemma templateUncles_commits pw x h y rewards : templateUncles pw x h = (y, rewards) -> b_Commits y = b_Commits x.
Proof. unfold templateUncles. destruct (CollectUncles _); by intros [= <- _]. Qed.

Lemma template_commits rnd now pw k x y h : bareTemplate now pw = Ok (y, h) -> GetBlockTemplate rnd now pw k = Ok x ->
  b_Commits x = GetCommitPack (pw_pool pw) h.
Proof.
  intros Hb Ht. unfold GetBlockTemplate in Ht. rewrite Hb in Ht. cbn [res_bind] in Ht. destruct (templateUncles pw y h) as [u rewards].
  open_ok Ht. rename Hr1 into Hu. assert (Hv : b_Commits r1 = GetCommitPack (pw_pool pw) h).
  { destruct (ToUnsealing _ _) as [v|e] eqn:Et; [injection Hu as <-; by rewrite (ToUnsealing_keeps_commits _ _ _ Et)|]. destruct e; first [done|by injection Hu as <-]. }
  destruct (DryApplyRoot _ _ _) as [root|e]; [by injection Ht as <-|]. destruct e; first [done|by injection Ht as <-].
Qed.

Lemma assembled_commits now pw gen x y h : bareTemplate now pw = Ok (y, h) -> AssembleWork now pw gen = Ok x ->
  b_Commits x = GetCommitPack (pw_pool pw) h.
Proof.
  intros Hb Ha. unfold AssembleWork, GetBareBlockTemplateWithTxs in Ha. rewrite Hb in Ha. cbn [res_bind] in Ha.
  destruct (templateUncles pw _ h) as [u rewards] eqn:Eu. cbn [res_bind] in Ha. open_ok Ha. injection Ha as <-.
  change (b_Commits (set_StateRoot r r0)) with (b_Commits r). rewrite (ToUnsealing_keeps_commits _ _ _ Hr).
  change (b_Commits (SetCoinbase u (tx_To gen))) with (b_Commits u). by rewrite (templateUncles_commits _ _ _ _ _ Eu).
Qed.

(** ** One commitment *)

(** Whatever nonce seals the template, at whatever time it is offered, the
    block is refused and the database is as it was. *)
Definition unminable (pw : PoWork) (x : FullBlock) : Prop :=
  forall now bc nonce b, ToSealed x nonce = Ok b -> IsGenesis b <> Ok true ->
    CheckError now b <> Ok tt
    /\ exists e, (MinedNewBlock now bc pw b).1 = Err e /\ ch_db (pw_chain (MinedNewBlock now bc pw b).2) = ch_db (pw_chain pw).

Lemma compact_unminable pw x c : c ∈ b_Commits x -> isCompactSign (c_Sign c) = true -> unminable pw x.
Proof.
  intros Hin Hc now bc nonce b Hs Hg. rewrite <-(ToSealed_keeps_commits _ _ _ Hs) in Hin. destruct (compact_CheckError now b c Hin Hc) as [e He].
  split; [by rewrite He|by eapply unsound_refused].
Qed.

Definition with_pool (pw : PoWork) (pool : TxPool) : PoWork := pw_set_chain pw (pw_chain pw) pool.

(** C38 - One compact commitment stops mining.  Once the pool has admitted a
    commitment signed with the compact envelope - the pool checks it with the
    key registry - and the waiting commitments fit into a pack in which no
    other has its hash, every template the node makes, by either way,
    carries it; and whatever nonce seals such a template, the check of a
    block, which has no registry, refuses it, so does the import, and the
    chain stays where it is. *)
Theorem compact_commit_stops_mining now pw c pool y :
  PutCommitment (pw_chain pw) (pw_pool pw) c = Ok pool -> isCompactSign (c_Sign c) = true ->
  roomy pool -> (forall a c', commitMap (pw_pool pw) !! a = Some c' -> c_Hash c' <> c_Hash c) ->
  bareTemplate now pw = Ok (y, nextHeight (pw_chain pw)) ->
  let pw' := with_pool pw pool in
  (forall rnd k x, GetBlockTemplate rnd now pw' k = Ok x -> c ∈ b_Commits x /\ unminable pw' x)
  /\ (forall gen x, AssembleWork now pw' gen = Ok x -> c ∈ b_Commits x /\ unminable pw' x).
Proof.
  intros Hput Hc Hroom Hu Hb pw'. destruct (PutCommitment_pooled _ _ _ _ Hput) as (Hh & from & Hm).
  assert (Hin : c ∈ GetCommitPack (pw_pool pw') (nextHeight (pw_chain pw))).
  { change (pw_pool pw') with pool. rewrite <-Hh. apply (pack_takes pool from); [by rewrite Hm, lookup_insert_eq|done|]. intros a c'. rewrite Hm.
    destruct (decide (a = from)) as [->|]; [rewrite lookup_insert_eq; by intros [= <-]|]. rewrite lookup_insert_ne by done. intros Ha Hx. by destruct (Hu a c' Ha). }
  assert (Hb' : bareTemplate now pw' = Ok (y, nextHeight (pw_chain pw))) by exact Hb.
  split.
  - intros rnd k x Ht. rewrite <-(template_commits _ _ _ _ _ _ _ Hb' Ht) in Hin. split; [done|by eapply compact_unminable].
  - intros gen x Ha. rewrite <-(assembled_commits _ _ _ _ _ _ Hb' Ha) in Hin. split; [done|by eapply compact_unminable].
Qed.

End Template.

(** ** A registered key *)

Module TemplateWitness.

#[local] Existing Instance prefix_hasher.
#[local] Existing Instance toy_libs.
#[local] Existing Instance toy_codec.
#[local] Existing Instance toy_slot_codec.
#[local] Existing Instance toy_toll.
#[local] Existing Instance RunWitness.engine.
#[local] Existing Instance LedgerWitness.receipts.
#[local] Existing Instance LedgerWitness.deps.
#[local] Existing Instance LedgerWitness.inflate.
#[local] Existing Instance LedgerWitness.merkle.
#[local] Existing Instance LedgerWitness.text.
#[local] Existing Instance ForkWitness.pow.
#[local] Existing Instance ForkWitness.sheets.

(** alice, whose reward of height 1 registered her key, commits for height 2
    and signs compactly. *)
Definition unsigned : Commitment := NewCommitment ZERONET 2 (zeros 32) (Some (10 ^ 15)).
Definition compact : Commitment :=
  c_set_Sign unsigned ([envelopeCompact; SchemeFNDSA512] ++ vec_to_list LedgerWitness.alice
    ++ RunWitness.ok_or [] (SignHash [] LedgerWitness.alice_key (Commitment_SigningHash unsigned))).

Definition pool : TxPool := RunWitness.ok_or Pool_Init (PutCommitment (pw_chain BurstWitness.miner) Pool_Init compact).

Definition reward2 : FullTx :=
  LedgerWitness.sign (NewUnsignedTx ZERONET GenerateTx 2 LedgerWitness.alice (Some (GetBlockReward 2)) (Some 0) []).

Abbreviation work := (AssembleWork ForkWitness.now (with_pool BurstWitness.miner pool) reward2).

Lemma pooled : is_ok (PutCommitment (pw_chain BurstWitness.miner) Pool_Init compact) = true.
Proof. vm_compute. reflexivity. Qed.

Lemma worked : is_ok work = true.
Proof. vm_compute. reflexivity. Qed.

Lemma next_two : RpcWitness.next_is ForkWitness.now BurstWitness.miner (nextHeight (pw_chain BurstWitness.miner)) = true.
Proof. vm_compute. reflexivity. Qed.

(** The node makes the template; no nonce makes a block of it. *)
Lemma compact_commit_stops_mining_witness :
  exists x, work = Ok x /\ compact ∈ b_Commits x /\ unminable (with_pool BurstWitness.miner pool) x.
Proof.
  destruct (is_ok_Ok _ worked) as [x Hx]. destruct (RpcWitness.next_is_ok _ _ _ next_two) as [y Hy]. exists x. split; [exact Hx|].
  refine (proj2 (compact_commit_stops_mining ForkWitness.now BurstWitness.miner compact pool y _ _ _ _ Hy) reward2 x Hx).
  - unfold pool. change (pw_pool BurstWitness.miner) with Pool_Init. destruct (is_ok_Ok _ pooled) as [p Hp]. rewrite Hp. reflexivity.
  - reflexivity.
  - apply Z.leb_le. vm_compute. reflexivity.
  - intros a c' Ha. change (commitMap (pw_pool BurstWitness.miner)) with (∅ : gmap Address Commitment) in Ha. by rewrite lookup_empty in Ha.
Defined.

End TemplateWitness.
