(* ===== verification/Adoption.v ===== *)
(** * Mined work is adopted

    The way of a block through the node that makes it: assembled on the tip
    of a reachable chain with the state root of a dry run, solved by a miner
    and imported.  The import repeats the run on a database that already
    holds the block, and recomputes difficulty and base fee; it finds what
    the template promised. *)

From S2P Require Import Prelude Params StateTrie Keys Contract Types Instances Tx Block BlockStore State StateCommit VM VMToy VMProps Journal Ledger Supply LedgerProps Snapshot Queries Chain Graft GraftVM ChainFrames ForkChoice ForkProps Pool PoolProps Consensus ConsensusProps Rpc RpcProps CoreMiner.

(** ** Difficulty *)

Lemma MinimumDiffOf_pos net : 0 < MinimumDiffOf net.
Proof. unfold MinimumDiffOf. by case_match. Qed.

Lemma GetNextDiff_pos h time parent d : GetNextDiff h time parent = Ok d -> 0 < d.
Proof.
  unfold GetNextDiff. intros E. open_ok E. injection E as <-. pose proof (MinimumDiffOf_pos (h_Network parent)) as Hm.
  case_match eqn:El; bools; lia.
Qed.

(** A hash below the target has at least the difficulty. *)
Lemma actual_at_least p d : 0 < p -> 0 < d -> p < MaxTarget / d -> d <= MaxTarget / p.
Proof.
  intros Hp Hd Hlt. apply Z.div_le_lower_bound; [done|]. pose proof (Z.mul_div_le MaxTarget d Hd). nia.
Qed.

Lemma be_Z_pos b : b <> zeros (length b) -> 0 < be_Z b.
Proof.
  intros Hb. pose proof (be_Z_nonneg b). destruct (Z.eq_dec (be_Z b) 0) as [E|]; [|lia]. destruct Hb.
  clear -E. induction b as [|x b IH] using rev_ind; [done|]. rewrite be_Z_snoc in E. pose proof (be_Z_nonneg b). pose proof (byteZ_range x).
  rewrite length_app, IH by lia. unfold zeros. cbn [length]. rewrite Nat.add_1_r, replicate_S_end. f_equal.
  - by rewrite length_replicate.
  - f_equal. rewrite <-(Zbyte_byteZ x). by replace (byteZ x) with 0 by lia.
Qed.

Section Adoption.
Context `{HH : Hasher} `{SL : SigLibs} `{CD : Codec} `{CL : !CodecLaws} `{SC : SlotCodec} `{RC : ReceiptCodec}
  `{DC : DepsCodec} `{IF : Inflate} `{ML : MerkleLib} `{PL : PowLib} `{VM_ : ContractVM} `{SHC : SheetCodec} `{VS : !VMStateOnly}.

(** ** What a template promises *)

(** A template on [tip]: the block before its root was known differs from it
    in the root alone. *)
Record template_on (now : Z) (pw : PoWork) (tip b : FullBlock) : Prop := {
  to_network : h_Network (b_Header b) = cfg_Network (pw_cfg pw);
  to_height : blockHeight b = u64 (blockHeight tip + 1);
  to_prev : h_PrevBlockHash (b_Header b) = Block_GetHash tip;
  to_time : h_Timestamp (b_Header b) = templateBlockTime now tip;
  to_diff : GetNextDiff (blockHeight b) (h_Timestamp (b_Header b)) (b_Header tip) = Ok (be_Z (h_Difficulty (b_Header b)));
  to_fee : be_Z (h_BaseFee (b_Header b))
           = NextBaseFee (h_Network (b_Header b)) (blockHeight tip) (Some (be_Z (h_BaseFee (b_Header tip)))) (BlockUsedBytes tip);
  to_root : DryApplyRoot (ch_State (pw_chain pw)) (ch_db (pw_chain pw)) b = Ok (h_StateRoot (b_Header b))
}.

(** The state does not look at the root, the nonce or the proof of work. *)
Lemma Upgrade_header st t x y :
  b_Commits x = b_Commits y -> b_Txs x = b_Txs y -> blockHeight x = blockHeight y -> h_Timestamp (b_Header x) = h_Timestamp (b_Header y) ->
  h_Network (b_Header x) = h_Network (b_Header y) -> h_PrevBlockHash (b_Header x) = h_PrevBlockHash (b_Header y) ->
  Upgrade st t x = Upgrade st t y.
Proof.
  intros E1 E2 E3 E4 E5 E6. unfold Upgrade, handleCommits. cbv zeta. rewrite E1, E2, E3, E4.
  destruct (res_fold _ t _) as [u|]; [|done]. cbn [res_bind]. destruct (HandleTxs _ _ _ _ _) as [[u1 g]|]; [|done]. cbn [res_bind].
  unfold updateBeacon, nextSeed. by rewrite E2, E3, E5, E6.
Qed.

Lemma AssembleWork_on now pw gen tip b : getLatestBlock (pw_chain pw) = Ok tip -> AssembleWork now pw gen = Ok b -> template_on now pw tip b.
Proof.
  intros Ht E. unfold AssembleWork in E. open_ok E. destruct r as [bare txs]. open_ok E. injection E as <-.
  unfold GetBareBlockTemplateWithTxs in Hr. apply res_bind_Ok in Hr as ([x height] & Eb & Hr).
  destruct (templateUncles _ _ _) as [y rewards] eqn:Eu. injection Hr as <- <-. unfold bareTemplate in Eb. rewrite Ht in Eb. cbn [res_bind] in Eb.
  apply res_bind_Ok in Eb as (d & Hr3 & Eb). injection Eb as <- <-.
  unfold ToUnsealing in Hr0. open_ok Hr0. injection Hr0 as <-.
  assert (Hy : h_Network (b_Header y) = cfg_Network (pw_cfg pw) /\ blockHeight y = u64 (blockHeight tip + 1)
    /\ h_PrevBlockHash (b_Header y) = Block_GetHash tip /\ h_Timestamp (b_Header y) = templateBlockTime now tip
    /\ h_Difficulty (b_Header y) = big_Bytes d /\ h_BaseFee (b_Header y) = nextBaseFeeBytes pw tip).
  { unfold templateUncles in Eu. destruct (CollectUncles _); injection Eu as <- _; done. }
  destruct Hy as (H1 & H2 & H3 & H4 & H5 & H6). pose proof (GetNextDiff_pos _ _ _ _ Hr3) as Hpos.
  split; cbn.
  - exact H1.
  - exact H2.
  - exact H3.
  - exact H4.
  - rewrite H5, be_Z_big_Bytes by lia. change (blockHeight y) with (h_Height (b_Header y)) in H2. rewrite H4. unfold blockHeight. cbn. by rewrite H2.
  - rewrite H6, H1. unfold nextBaseFeeBytes. apply be_Z_big_Bytes. pose proof (NextBaseFee_floor (cfg_Network (pw_cfg pw)) (blockHeight tip)
      (Some (be_Z (h_BaseFee (b_Header tip)))) (BlockUsedBytes tip)) as Hf. unfold MinBaseFee in Hf. lia.
  - rewrite <-Hr1. unfold DryApplyRoot. erewrite Upgrade_header; [reflexivity|done..].
Qed.

(** ** What the import checks *)

Lemma sealed_only_nonce b nonce x : ToSealed b nonce = Ok x -> x = set_Header b (h_set_Nonce (b_Header b) nonce).
Proof. unfold ToSealed. intros E. open_ok E. by injection E as <-. Qed.

(** A solved template meets the target its parent sets. *)
Lemma target_met now pw tip b nonce x :
  template_on now pw tip b -> wf_block tip -> solves b nonce = true -> ToSealed b nonce = Ok x -> h_Timestamp (b_Header x) <> 0 ->
  checkBlockTarget x tip = Ok tt.
Proof.
  intros [Hn Hh Hp Ht Hd Hf _] Hw Hs ->%sealed_only_nonce Hz. pose proof (GetNextDiff_pos _ _ _ _ Hd) as Hpos.
  unfold solves, big_Div in Hs. destruct (Z.eqb_spec (be_Z (h_Difficulty (b_Header b))) 0) as [|_]; [lia|]. cbv zeta in Hs.
  change (GetPoWRawHeader (b_Header b) (Some nonce)) with (GetPoWRawHeader (h_set_Nonce (b_Header b) nonce) None) in Hs.
  fold (PowHash (h_set_Nonce (b_Header b) nonce)) in Hs. apply andb_prop in Hs as [Hnz Hlt%Z.ltb_lt]. apply negb_true_iff, bool_decide_eq_false in Hnz.
  assert (Hpow : 0 < be_Z (PowHash (h_set_Nonce (b_Header b) nonce))).
  { apply be_Z_pos. unfold PowHash at 2. by rewrite length_vec_to_list. }
  pose proof (actual_at_least _ _ Hpow Hpos Hlt) as Hact. cbn in Hz.
  assert (Htime : h_Timestamp (b_Header tip) < h_Timestamp (b_Header b)).
  { rewrite Ht in Hz |- *. unfold templateBlockTime in *. destruct Hw as [(_ & _ & Hts) _]. unfold is_u64 in Hts.
    destruct (Z.leb_spec (u64 now) (h_Timestamp (b_Header tip))); [|done]. unfold u64 in *.
    destruct (decide (h_Timestamp (b_Header tip) + 1 = two64)) as [E|]; [by rewrite E in Hz|]. rewrite Z.mod_small; lia. }
  unfold checkBlockTarget, GetActualDiff. change (blockHeight (set_Header b _)) with (blockHeight b). cbn [b_Header set_Header h_set_Nonce h_Timestamp h_Difficulty h_BaseFee h_Network].
  rewrite (proj2 (Z.leb_gt _ _) Htime), Hd. cbn [res_bind]. unfold big_Div. fold (h_set_Nonce (b_Header b) nonce).
  destruct (Z.eqb_spec (be_Z (PowHash (h_set_Nonce (b_Header b) nonce))) 0) as [|_]; [lia|]. cbn [res_bind].
  rewrite Z.eqb_refl, (proj2 (Z.ltb_ge _ _) Hact), Hf, Z.eqb_refl. done.
Qed.

(** ** The import *)

Variable ob : FullBlock.

(** A node at work: its chain was reached by imports, and the genesis block
    of its network is known. *)
Record mining (pw : PoWork) (acc : list FullBlock) : Prop := {
  mi_imports : imports ob (pw_chain pw) acc;
  mi_network : cfg_Network (pw_cfg pw) = ch_Network (pw_chain pw);
  mi_genesis : exists g, GetGenesisBlock (ch_Network (pw_chain pw)) = Ok g /\ (blockHeight ob = 0 -> g = ob);
  mi_idle : pw_syncing pw = false
}.

Lemma mining_tip pw acc chain tip : mining pw acc -> forkinv ob acc (ch_db (pw_chain pw)) chain tip -> getLatestBlock (pw_chain pw) = Ok tip.
Proof.
  intros [_ _ (g & Hg & Hob) _] [S Hl _ _]. destruct (sound_tip _ _ _ _ _ S Hl) as (_ & Hth & _ & _ & Hgh).
  destruct (so_store _ _ _ _ S) as [C _]. pose proof (cc_origin _ _ _ C) as Ho. rewrite last_lookup, <-Nat.sub_1_r in Hl.
  assert (Hz : 1 <= zlen chain) by (apply lookup_lt_Some in Hl; unfold zlen; lia).
  unfold getLatestBlock, GetLatestBlockHeight, getBlockByHeight. rewrite Hgh. destruct (Z.eqb_spec (blockHeight tip) 0) as [E|Hne].
  - assert (Hone : (length chain - 1)%nat = O) by (unfold zlen in *; lia). rewrite Hone in Hl. pose proof (so_head _ _ _ _ S) as Hhd.
    assert (tip = ob) as -> by (destruct chain; cbn in *; congruence). rewrite Hg, Hob by lia. done.
  - pose proof (canonical_get_height _ _ _ _ _ C Hl) as G.
    replace (blockHeight ob + Z.of_nat (length chain - 1)) with (blockHeight tip) in G by (unfold zlen in *; lia). by rewrite G.
Qed.

(** What the node's own construction of the block leaves to the import: the
    rules on its contents. *)
Record contents_valid (now : Z) (t : Txn) (x : FullBlock) : Prop := {
  cv_free : CheckError now x = Ok tt;
  cv_uncles : validateUncles (storeGetBlock (blocks t)) x = Ok tt;
  cv_txs : CheckBlockTxs t x = Ok tt
}.

Lemma checks_pass now acc t chain tip x :
  forkinv ob acc t chain tip -> admissible (x :: acc) -> (exists g, GetGenesisBlock (h_Network (b_Header x)) = Ok g) ->
  h_PrevBlockHash (b_Header x) = Block_GetHash tip -> blockHeight x <> 0 -> checkBlockTarget x tip = Ok tt -> contents_valid now t x ->
  checkBlockTxn now t x = Ok tt.
Proof.
  intros [S Hl _ _] Ha (g & Hg) Hpr Hh Hct [H1 H2 H3]. unfold checkBlockTxn.
  assert (Hgen : IsGenesis x = Ok false).
  { destruct (IsGenesis x) as [[]|] eqn:E; [by apply (adm_genesis _ Ha) in E; [|left]|done|]. unfold IsGenesis in E. by rewrite Hg in E. }
  rewrite Hgen. cbn [res_bind]. rewrite H1. cbn [res_bind]. destruct (so_store _ _ _ _ S) as [C _]. destruct (cc_first _ _ _ C) as (f & _ & Htag & _).
  unfold GetOriginHash at 1. rewrite Htag. cbn [res_bind]. destruct (sound_tip _ _ _ _ _ S Hl) as (_ & _ & Hgh & Hgl & _).
  unfold GetLatestBlock in Hgl. rewrite Hgh in Hgl. cbn [res_bind] in Hgl. unfold GetPrevHash. rewrite Hpr, Hgl.
  cbn [res_bind]. rewrite Hct, H2. by destruct (negb _).
Qed.

(** The tip's child goes in, and its work is found. *)
Lemma stored acc t chain tip x :
  forkinv ob acc t chain tip -> admissible (x :: acc) -> h_PrevBlockHash (b_Header x) = Block_GetHash tip ->
  blockHeight x = blockHeight tip + 1 -> 0 < workOf x ->
  exists b w blk, PutNewBlock (blocks t) (txs t) x = Ok b /\ cumulativeWork b.1 x = Ok (w, blk).
Proof.
  intros [S Hl _ _] Ha Hpr Hh Hpos. destruct (sound_tip _ _ _ _ _ S Hl) as (Hin & Ht & _). destruct (adm_wf _ Ha x ltac:(left)) as (Hw & Hp & Hwd).
  assert (Hnc : no_clash (blocks t) x) by (apply (sound_no_clash ob acc (x :: acc) _ chain); [done|set_solver|done|left]).
  destruct (PutNewBlock_inv (blocks t) (txs t) _ chain tip x (so_store _ _ _ _ S) Hl Hw Hnc Hp ltac:(lia) Hpr ltac:(lia)) as (blk' & E & _).
  assert (HL : ledger ob (x :: acc)) by (eapply ledger_cons; [exact (so_ledger _ _ _ _ S)|done..]).
  pose proof (sound_new _ _ _ _ _ _ _ _ S Hl HL Hpr Hh E) as S'. cbn [fst] in S'. exists (blk', putTxs (txs t) x). cbn [fst].
  assert (Hok : is_ok (workWalk (Z.to_nat (blockHeight x)) blk' x []) = true).
  { destruct (so_store _ _ _ _ S') as [C _]. pose proof (cc_origin _ _ _ C) as Ho.
    apply (workWalk_canonical ob blk' (chain ++ [x]) C (so_head _ _ _ _ S') (length chain)); [by rewrite lookup_app_r, Nat.sub_diag|].
    unfold zlen in *. lia. }
  apply is_ok_Ok in Hok as [[base l] Eb]. destruct (foldl addWork (base, blk') l) as [w blk] eqn:Ef.
  exists w, blk. split; [done|]. unfold cumulativeWork. rewrite Eb. cbn [res_bind]. by rewrite Ef.
Qed.

(** The run on the extended store is the dry run. *)
Lemma dry_run_holds st t b x store root :
  b_Commits x = b_Commits b -> b_Txs x = b_Txs b -> blockHeight x = blockHeight b -> h_Timestamp (b_Header x) = h_Timestamp (b_Header b) ->
  h_Network (b_Header x) = h_Network (b_Header b) -> h_PrevBlockHash (b_Header x) = h_PrevBlockHash (b_Header b) ->
  DryApplyRoot st t b = Ok root -> exists u, Upgrade st (graft store t) x = Ok (graft store u) /\ StateRoot (graft store u) = root.
Proof.
  intros E1 E2 E3 E4 E5 E6 Hd. unfold DryApplyRoot in Hd. apply res_bind_Ok in Hd as (u & Eu & [= <-]).
  exists u. rewrite Upgrade_graft, (Upgrade_header st t x b) by done. rewrite Eu. split; [done|]. apply StateRoot_graft.
Qed.

Lemma graft_after_work (t : Txn) (b : bucket * bucket) (blk : bucket) : setBucket (set_blocks t b) BlockBucketName blk = graft (blk, b.2) t.
Proof.
  unfold graft, set_blocks, setBucket. cbn [fst snd]. rewrite insert_insert_ne by done. by rewrite insert_insert_eq.
Qed.

Lemma extendTip_succeeds now acc st t chain tip b nonce x :
  forkinv ob acc t chain tip -> admissible (x :: acc) -> h_PrevBlockHash (b_Header b) = Block_GetHash tip ->
  blockHeight b = blockHeight tip + 1 -> DryApplyRoot st t b = Ok (h_StateRoot (b_Header b)) -> ToSealed b nonce = Ok x ->
  checkBlockTxn now t x = Ok tt -> 0 < workOf x -> IsHead x = false ->
  forall v, exists t', extendTip now st x t v = (Ok (true, t'), v).
Proof.
  intros F Ha Hpr Hh Hd Hx%sealed_only_nonce Hc Hpos Hhd v.
  destruct (stored acc t chain tip x F Ha) as (s & w & blk & Ep & Ew); [by rewrite Hx|by rewrite Hx|done|].
  destruct (dry_run_holds st t b x (blk, s.2) _ ltac:(by rewrite Hx) ltac:(by rewrite Hx) ltac:(by rewrite Hx) ltac:(by rewrite Hx)
    ltac:(by rewrite Hx) ltac:(by rewrite Hx) Hd) as (u & Eu & Er).
  exists (graft (blk, s.2) u). unfold extendTip, tx_bind, tx_read, tx_write, tx_work. rewrite Hc, Ep. cbn [res_bind].
  rewrite blocks_set_blocks, Ew, graft_after_work, Eu. unfold CheckStateRoot. rewrite Er.
  rewrite bool_decide_eq_true_2 by (by rewrite Hx). cbn [negb]. unfold checkpoint. by rewrite Hhd.
Qed.

(** C23 - A solved template is adopted.  On a chain reached by imports, off
    sync, let a miner solve the block assembled for it on the tip.  If the
    block's contents pass the rules that do not depend on how the template
    was built (the context-free check, the uncles and the transactions'
    checks), its clock did not wrap and it is no checkpoint, then submitting
    it succeeds, whatever else the database holds: timestamp, height, link,
    difficulty, proof of work and base fee are those the import recomputes,
    and running the block beside the extended store gives the state root the
    dry run promised.  The block is the new tip of a sound chain, and the
    state commitment is the root in its header. *)
Theorem solved_work_is_adopted now now' pw acc gen b nonce x :
  mining pw acc -> admissible (x :: acc) ->
  AssembleWork now pw gen = Ok b -> solves b nonce = true -> ToSealed b nonce = Ok x ->
  contents_valid now' (ch_db (pw_chain pw)) x -> h_Timestamp (b_Header x) <> 0 -> IsHead x = false ->
  exists pw', MinedNewBlock now' true pw x = (Ok tt, pw')
    /\ imports ob (pw_chain pw') (x :: acc)
    /\ GetLatestBlock (blocks (ch_db (pw_chain pw'))) = Ok x
    /\ StateRoot (ch_db (pw_chain pw')) = h_StateRoot (b_Header x).
Proof.
  intros M Ha Eb Hs Ex Hv Hz Hhd. destruct (imports_inv ob _ _ (mi_imports _ _ M)) as (chain & tip & F).
  pose proof (AssembleWork_on now pw gen tip b (mining_tip pw acc chain tip M F) Eb) as T.
  destruct (sound_tip _ _ _ _ _ (fi_sound _ _ _ _ _ F) (fi_tip _ _ _ _ _ F)) as (Hin & _ & Hgh & _).
  pose proof (so_ledger _ _ _ _ (fi_sound _ _ _ _ _ F)) as HL. destruct (adm_wf _ (led_adm _ _ HL) tip Hin) as (Hwt & _ & Hwd).
  pose proof (wf_block_height _ Hwt) as Hu. pose proof (sealed_only_nonce _ _ _ Ex) as Hx.
  assert (Hh : blockHeight b = blockHeight tip + 1) by (rewrite (to_height _ _ _ _ T); apply u64_id; unfold is_u64 in *; lia).
  assert (Hhx : blockHeight x = blockHeight b) by (by rewrite Hx).
  assert (Hpx : h_PrevBlockHash (b_Header x) = Block_GetHash tip) by (rewrite Hx; exact (to_prev _ _ _ _ T)).
  assert (Hnx : h_Network (b_Header x) = ch_Network (pw_chain pw)) by (rewrite <-(mi_network _ _ M), Hx; exact (to_network _ _ _ _ T)).
  unfold is_u64 in Hu. assert (Hc : checkBlockTxn now' (ch_db (pw_chain pw)) x = Ok tt).
  { eapply checks_pass; [exact F|done| |done|lia|by eapply target_met|done]. rewrite Hnx. destruct (mi_genesis _ _ M) as (g & ? & _). eauto. }
  assert (Hpos : 0 < workOf x) by (eapply CheckError_work; [exact (cv_free _ _ _ Hv)|lia]).
  destruct (extendTip_succeeds now' acc (ch_State (pw_chain pw)) _ chain tip b nonce x F Ha (to_prev _ _ _ _ T) Hh (to_root _ _ _ _ T) Ex Hc Hpos Hhd
    (clearReorg (ch_volatile (pw_chain pw)))) as (t' & Et).
  destruct (extendTip_inv _ _ _ _ _ _ _ _ _ _ _ _ F Ha Hpx Et) as [S' Hl' _ Hr'].
  unfold MinedNewBlock, pow_ApplyBlock. rewrite (mi_idle _ _ M). destruct (ApplyBlock now' (pw_chain pw) x) as [r c'] eqn:Ea.
  pose proof Ea as Ec. unfold ApplyBlock, run_update, importBlock, tx_bind, tx_read in Ec. rewrite Hgh in Ec. unfold GetPrevHash in Ec.
  rewrite bool_decide_eq_true_2 in Ec by done. rewrite Et in Ec. destruct (notify _) as [ns c2] eqn:En. injection Ec as <- <-.
  unfold notify in En. destruct (notifyReorg _) as [n v2]. injection En as <- <-.
  eexists. split; [reflexivity|]. split; [exact (im_apply ob _ _ _ _ _ _ (mi_imports _ _ M) Ha Ea)|].
  split; [exact (proj1 (proj2 (proj2 (proj2 (sound_tip _ _ _ _ _ S' Hl')))))|exact Hr'].
Qed.

End Adoption.

(** ** A block mined on the genesis block *)

Module AdoptionWitness.

#[local] Existing Instance prefix_hasher.
#[local] Existing Instance toy_libs.
#[local] Existing Instance toy_codec.
#[local] Existing Instance toy_codec_laws.
#[local] Existing Instance toy_slot_codec.
#[local] Existing Instance toy_toll.
#[local] Existing Instance RunWitness.engine.
#[local] Existing Instance LedgerWitness.receipts.
#[local] Existing Instance LedgerWitness.deps.
#[local] Existing Instance LedgerWitness.inflate.
#[local] Existing Instance LedgerWitness.merkle.
#[local] Existing Instance LedgerWitness.text.
#[local] Existing Instance ForkWitness.pow.
#[local] Existing Instance ForkWitness.sheets.

Definition miner : PoWork := pw_set_chain BurstWitness.miner ForkWitness.node Pool_Init.
Definition template : FullBlock := RunWitness.ok_or ForkWitness.genesis (AssembleWork ForkWitness.now miner ForkWitness.reward).
Definition mined : FullBlock := RunWitness.ok_or ForkWitness.genesis (ToSealed template (zeros 8)).

Definition node_ready (pw : PoWork) : bool :=
  (cfg_Network (pw_cfg pw) =? ch_Network (pw_chain pw)) && bool_decide (GetGenesisBlock (ch_Network (pw_chain pw)) = Ok ForkWitness.genesis)
  && negb (pw_syncing pw).

Definition block_ready (now : Z) (pw : PoWork) (x : FullBlock) : bool :=
  is_ok (CheckError now x) && is_ok (validateUncles (storeGetBlock (blocks (ch_db (pw_chain pw)))) x)
  && is_ok (CheckBlockTxs (ch_db (pw_chain pw)) x) && negb (h_Timestamp (b_Header x) =? 0) && negb (IsHead x).

Lemma node_ready_ok pw acc : imports ForkWitness.genesis (pw_chain pw) acc -> node_ready pw = true -> mining ForkWitness.genesis pw acc.
Proof.
  unfold node_ready. intros Hi [[H1%Z.eqb_eq H2%bool_decide_eq_true_1]%andb_prop H3%negb_true_iff]%andb_prop. split; [exact Hi|exact H1| |exact H3].
  exists ForkWitness.genesis. split; [exact H2|reflexivity].
Qed.

Lemma ok_unit (m : res unit) : is_ok m = true -> m = Ok tt.
Proof. by destruct m as [[]|]. Qed.

Lemma ok_value {A} (d : A) (m : res A) : is_ok m = true -> m = Ok (RunWitness.ok_or d m).
Proof. by destruct m. Qed.

Lemma block_ready_ok now pw x : block_ready now pw x = true ->
  contents_valid now (ch_db (pw_chain pw)) x /\ h_Timestamp (b_Header x) <> 0 /\ IsHead x = false.
Proof.
  unfold block_ready. intros H. repeat (apply andb_prop in H as [H ?]). split; [split; by apply ok_unit|].
  split; [by apply Z.eqb_neq, negb_true_iff|by apply negb_true_iff].
Qed.

Lemma miner_ready : node_ready miner = true.
Proof. vm_compute. reflexivity. Qed.

Lemma template_made : is_ok (AssembleWork ForkWitness.now miner ForkWitness.reward) = true.
Proof. vm_compute. reflexivity. Qed.

Lemma template_solved : solves template (zeros 8) && is_ok (ToSealed template (zeros 8)) = true.
Proof. vm_compute. reflexivity. Qed.

Lemma mined_ready : block_ready ForkWitness.now miner mined = true.
Proof. vm_compute. reflexivity. Qed.

Lemma mined_usable :
  forallb ForkWitness.usable [mined; ForkWitness.genesis] && bool_decide (NoDup (Block_GetHash <$> [mined; ForkWitness.genesis])) = true.
Proof. vm_compute. reflexivity. Qed.

Lemma solved_work_is_adopted_witness :
  exists pw', MinedNewBlock ForkWitness.now true miner mined = (Ok tt, pw')
    /\ GetLatestBlock (blocks (ch_db (pw_chain pw'))) = Ok mined
    /\ StateRoot (ch_db (pw_chain pw')) = h_StateRoot (b_Header mined).
Proof.
  destruct (block_ready_ok _ _ _ mined_ready) as (Hv & Ht & Hh). pose proof (andb_prop _ _ template_solved) as [Hs Hx].
  destruct (solved_work_is_adopted ForkWitness.genesis ForkWitness.now ForkWitness.now miner [ForkWitness.genesis] ForkWitness.reward template (zeros 8) mined)
    as (pw' & E & _ & Hl & Hr).
  - exact (node_ready_ok miner _ ForkWitness.start_imports miner_ready).
  - exact (ForkWitness.usable_admissible _ mined_usable).
  - exact (ok_value _ _ template_made).
  - exact Hs.
  - exact (ok_value _ _ Hx).
  - exact Hv.
  - exact Ht.
  - exact Hh.
  - exists pw'. split; [exact E|]. split; [exact Hl|exact Hr].
Defined.

End AdoptionWitness.
